(* ===== verification/_CoqProject ===== *)
-Q . S2P
Prelude.v
Tasks.v
Prepared.v
Errors.v
Submission.v
External.v
Text.v
Addresses.v
Builders.v
Pending.v
Transactions.v
Protocol.v
Multisig.v
Races.v
Broadcasts.v
AddressBook.v
Payload.v
Redaction.v
Registry.v
Xswd.v
Dispatcher.v
Daemon.v
Connection.v
Holders.v
Stages.v
Interleaving.v
Connected.v
Progress.v
Entries.v
Events.v
History.v
Tables.v
Lifecycle.v
Assets.v
Contacts.v
Logging.v
SeedSearch.v
XswdStart.v
Startup.v
