(* ===== verification/Prelude.v ===== *)
(** * A verification library for the native core of xelis-wallet-flutter

    The repository wraps the XELIS wallet crates in a Rust library that a
    Flutter application drives through a generated bridge.  This development
    models the Rust code under src/rust/src/api, written rust/src/api below.

    ** The program and its models

    Foundations:
    - Prelude (this file): [Result] and the [?] operator, methods on [&mut self]
      as state-passing [action]s, machine integers with checked arithmetic,
      canonical decimal numbers, list helpers, tactics and a hint database.
    - Tasks: systems of interleaved tasks, reachability, counting what tasks
      hold, bounds on runs.
    - External: what the code uses of the crates' hashes, keys, addresses and
      data elements, as classes of operations and classes of laws, with an
      instance.  Text: [trim], [len] and [chars().count()] on UTF-8 strings.
    - Errors (error.rs): the structured error that crosses the bridge, and the
      mutually recursive classifiers of wallet, network and JSON-RPC errors.

    A wallet and its connection:
    - Tables (precomputed_tables.rs, wallet/runtime/table_cache.rs): the
      application-wide cache of precomputed tables.  [Arc]s are cells of a heap
      with their strong counts; concurrent calls look up, wait for the load
      lock, load and install, wallets hold what they were given.
    - Lifecycle (wallet/runtime.rs, wallet.rs): creating, recovering, opening
      and dropping a wallet over [Tables], the thread parameters, the path of a
      wallet, updating the tables, and the remaining operations.
    - Daemon (wallet/runtime.rs, models/runtime_dtos.rs): endpoints, networks
      and the errors of a connection.
    - Connection (wallet.rs, wallet/runtime.rs): [online_mode], its worker,
      [cancel_connection_attempt], [offline_mode], [close] and the drop of the
      wallet as programs whose steps are the accesses to shared atomics, locks
      and channels.  Holders, Stages and Interleaving build its invariant,
      Connected and Progress the theorems for callers.
    - Assets (wallet/assets.rs): balances, and the resolution of an asset by
      concurrent calls over the storage, a lock and the daemon.
    - Entries (wallet/business_events.rs, models/business_event_dtos.rs): the
      projection of transaction entries at a level of disclosure.
    - Events (wallet/runtime_events.rs, wallet/business_events.rs): the two
      subscriptions, one cursor over a [Contract], with concurrent readers and
      cancellations.
    - History (wallet/history.rs, models/wallet_dtos.rs): filters, pages, look-ups
      and the CSV exports.

    Spending:
    - Prepared (wallet/transactions/prepared.rs): the one slot that holds a
      prepared transaction between review and broadcast.  Module [Slot] has the
      store, its methods and its two RAII guards, whose [Drop] implementations
      are operations of their own.  [exec] runs one operation of a system made
      of the store and its live guards; [reaches] is reachability.
    - Submission (wallet/transactions/submission.rs): what a failed submission
      means: retryable, rejected by the daemon, or a local failure.
    - Builders (wallet/transactions/builders.rs, wallet/amounts.rs): fee
      policies, amounts after fees, transfers and their review projection,
      decimal amounts on binary64 numbers.
    - Transactions (wallet/transactions.rs): the handlers that prepare, inspect,
      cancel and broadcast, over the slot of [Prepared].  Broadcasts runs those
      that use the slot, and [multisig_setup], concurrently, one step per critical
      section with the waiting for the storage and the daemon in between, and
      drops calls where they wait.
    - Pending, Protocol and Multisig (wallet/multisig.rs and
      wallet/multisig/protocol.rs): the one multisig request waiting for its
      shares; signing requests and signature shares, built, parsed and verified;
      and the handlers over them and the slot.  Races runs those handlers
      concurrently, one step per critical section of the two stores.

    Applications (XSWD):
    - Payload (models/xswd_dtos.rs): the token stream of a request and its
      limits.
    - Registry (xswd/impl/registry.rs): the numbers that name sessions.
    - Xswd (xswd/impl.rs): permissions, listing, closing and stopping.
    - Dispatcher (xswd/impl/dispatcher.rs): the loop that shows requests to the
      user and answers them.
    - XswdStart (xswd/impl.rs, xswd/stub.rs): how the server and a relayed
      application are brought up.

    Data of the user, and streams:
    - Addresses (models/address_dtos.rs, utils.rs): the wire format of
      integrated-address data (Module [Wire]) and the functions on addresses
      (Module [AddressApi]).
    - AddressBook (address_book_v2.rs, models/address_book_v2.rs): the saved
      destinations, their stored schema and the migration from the older tree,
      which is written by Contacts (address_book.rs,
      models/address_book_dtos.rs).
    - SeedSearch (seed_search_engine.rs): completing and checking seed words.
    - Logging (logger.rs, progress_report.rs): installing the logger, and
      forwarding to stream sinks that are replaced and closed meanwhile.
      Startup (api.rs): the calls that initialize the library, in any order.
    - Redaction (error.rs, models/address_book_v2.rs, models/wallet_dtos.rs,
      models/xswd_dtos.rs): the [Debug] texts of the values that hide a part of
      themselves, character by character.

    A handler takes the state it locks (the [XelisWallet] record of
    [Transactions], the storage of [AddressBook], the statics of [Lifecycle])
    and returns the result with the state after it, on every error path too.
    What a handler does outside (submitting, applying to the storage, spawning)
    is recorded in a trace of effects.  Where calls run concurrently a model has
    one program counter per call, a step function over the shared state, and
    theorems about everything that is reachable.

    ** Interfaces

    Code outside the repository is a parameter: [ErrorText] (display texts of
    the crates' errors), [HashLib] and [AddressLib] (External), [WalletLib] and
    [Env] (the wallet crate: Transactions), [ProtocolLib] (keys, signatures,
    proofs and encodings: Protocol), [MultisigEnv] (Multisig), [CustomStorage],
    [TextLib] and [ContactLib] (the address books), [UrlLib] (Daemon),
    [EntryTypes] and [EntryLib] (History), [JsonNumber] and [XswdLib] (XSWD),
    [TableSizes] (Tables), [SeedLib] (SeedSearch), [CryptoProviders] (Startup),
    [TempFiles] (the crate tempfile and the disk under it: History), and the
    environment records of Assets, Lifecycle and XswdStart.  A theorem that relies
    on documented behaviour of such code takes a law class ([HashLaws],
    [AddressLaws], [MultiSigLaws], [FinalizeLaws], [CodecLaws], [StorageLaws],
    [StorageWorks], [TempFilesLaws], [JsonNumberLaws], [SeedLaws],
    [CryptoProviderLaws]); every law class that a theorem uses has an instance,
    with which the witnesses evaluate the definitions.  The storage and the disk
    may fail at every operation; only [StorageWorks] says otherwise.

    ** What is proved

    - The slot (C1-C3): a refinement between the store with its guards and an
      abstract slot, on every interleaving of critical sections; from it the
      invariant and at most one completed submission per generation; further
      theorems treat stale capabilities, errors without effect and retries.
    - Transaction handlers (C4-C10): whatever calls race and wherever they are
      dropped, only the transaction that was put into the slot last and is still
      there leaves the wallet, the daemon's answer settles the slot, and the slot
      is in flight exactly while one call holds its transaction; the handlers are
      the runs that nobody interrupts; the outcome of a broadcast, all-or-nothing
      preparation at the announced fee, spending all.  No call waits for another
      ([spending_never_waits]).  Builders has exact fees without overflow and the
      agreement of what is reviewed with what is built.
    - Connection (C11-C15): in every interleaving no connection leaks, closing is
      final, cancelling is a barrier, no deadlock, and every schedule ends, after at
      most 48 steps of each task; one attempt runs at a time ([single_flight]).
    - XSWD (C16-C23): what is granted was decided by the user, every request
      is answered once; a decision that is ready is delivered in bounded time
      unless the request is withdrawn first; a disconnection revokes, references
      identify sessions and are never revived, payloads are shown exactly or
      refused.
    - Multisig (C24-C27, C30): whatever calls race, every request is settled once, one
      that was taken is never lost ([taken_request_committed]), and the handlers
      are the runs that nobody interrupts ([handlers_are_runs]); the threshold,
      requests that say what they sign, down to the fee and the source, shares
      that survive their encoding, and a finalization that is all or nothing.
    - Tables and lifecycle (C28, C29, C31): all wallets share one table, which is
      only upgraded, is loaded by one call at a time and only when needed
      ([loads_exclusive_and_needed]), and is not leaked by a wallet that fails to
      open ([failed_opening_leaks_nothing]); recovery never panics.
    - Addresses and address books (C32-C34): round trips, a migration that loses
      and overwrites nothing whatever reads and writes fail, and its agreement
      with what the older book saves.
      An older contact without a name blocks the migration
      ([unnamed_contact_blocks_migration]).
    - Events and history (C35, C36): the frames of a subscription account for
      every event, exports are atomic, also when the machine crashes; destinations are filtered exactly
      ([exact_destination_exact]).
    - Assets (C37, C38): one fetch however many calls race; complete balances.
    - Diagnostics and logs (C39, C40): a [Debug] text shows the public part of its
      value, all of it and nothing else; nothing leaves outside the chosen level
      and scope; racing initializations agree ([init_logger_consistent],
      [initialization_sound]), and a new stream is not lost to a late failure
      ([sink_never_lost]).

    ** Bounds and fuel

    Integers are [Z] with the width written out in the checked operations
    ([u8_max], [u32_max], [u64_max], [u128_max]; [usize] is 64 bits wide).
    Recursion is structural, on lists, on data elements or on errors, and every
    function is total.  [strip] of Text takes fuel, the number of bytes of the
    string: each round removes at least one ([strip_done]).  A call that runs
    alone in Lifecycle and Assets ([perform], [get_asset_data]) takes six steps,
    as many as it has stages; that it then has returned is part of
    [perform_spec] and of [alone_spec].  Likewise a call of Broadcasts that runs alone takes six steps
    and one of Races three; C7 and [handlers_are_runs] say that it then is done.
    Loops of tasks are step relations: their termination is proved as a bound on
    every schedule and on the steps of each task (C14), or on every
    schedule ([calls_end], [resolutions_end], [reads_end]) together
    with the absence of deadlocks.

    ** Not modelled

    - Cryptography, transaction construction, storage, the daemon connection and
      JSON encoding: code of the crates, parameters as above.
    - The texts of log records: no result depends on them.  Getters that only
      forward to the wallet crate.  In Redaction the characters beyond ASCII are
      copied; the escapes that the standard library has for unprintable ones are
      left out, as no native kind has such a character.
    - What happens inside one application of a transaction to the storage: it is
      one step of Broadcasts, as the handler holds the storage's lock meanwhile.
    - Weak memory: atomics are sequentially consistent.  The connection tasks are
      not dropped before they end and do not panic.
    - Paths are those of a system whose separator is a slash; what differs on the
      web is modelled only where XswdStart says so.
    - models/network.rs mirrors an enumeration for the bridge and time/ reads a
      clock that no code of the library uses.  The generated bridge, the build
      scripts and the Dart library.
    - The drop of a task during a connection attempt, beyond the drop of the
      wallet itself: Connection lets every task that was spawned run to its end. *)

From stdpp Require Export prelude gmap strings.
From Stdlib Require Export ZArith Lia.
From Stdlib Require Import Ascii DecimalString DecimalPos DecimalN.

(** ** Fallible results and the [?] operator *)

(** Rust's [Result<A, E>]; the error type comes first so that [result E] is a
    monad and Rust's [?] is its bind. *)
Inductive result (E A : Type) : Type :=
  | Ok (a : A)
  | Err (e : E).
Arguments Ok {E A} _.
Arguments Err {E A} _.

#[export] Instance result_ret {E} : MRet (result E) := λ A a, Ok a.
#[export] Instance result_bind {E} : MBind (result E) := λ A B f r,
  match r with Ok a => f a | Err e => Err e end.
#[export] Instance result_fmap {E} : FMap (result E) := λ A B f r,
  match r with Ok a => Ok (f a) | Err e => Err e end.

#[export] Instance result_eq_dec {E A} `{EqDecision E, EqDecision A} :
  EqDecision (result E A).
Proof. solve_decision. Defined.

(** [Result::map_err]. *)
Definition map_err {E F A} (f : E → F) (r : result E A) : result F A :=
  match r with Ok a => Ok a | Err e => Err (f e) end.

(** [Option::ok_or]. *)
Definition ok_or {E A} (e : E) (o : option A) : result E A :=
  match o with Some a => Ok a | None => Err e end.

(** The [ensure!] macro and its siblings: fail with [e] unless [b]. *)
Definition ensure {E} (b : bool) (e : E) : result E unit :=
  if b then Ok tt else Err e.

Definition is_ok {E A} (r : result E A) : bool :=
  match r with Ok _ => true | Err _ => false end.

(** ** Stateful fallible code *)

(** A method taking [&mut self] and returning [Result<A, E>]: it maps the
    state before the call to the result and the state after it, on the error
    paths too. *)
Definition action (S E A : Type) : Type := S → result E A * S.

#[export] Instance action_ret {S E} : MRet (action S E) := λ A a s, (Ok a, s).
#[export] Instance action_bind {S E} : MBind (action S E) := λ A B f m s,
  match m s with
  | (Ok a, s') => f a s'
  | (Err e, s') => (Err e, s')
  end.

Definition throw {S E A} (e : E) : action S E A := λ s, (Err e, s).
Definition get_state {S E} : action S E S := λ s, (Ok s, s).
Definition put_state {S E} (s' : S) : action S E unit := λ _, (Ok tt, s').
Definition modify {S E} (f : S → S) : action S E unit := λ s, (Ok tt, f s).
Definition lift {S E A} (r : result E A) : action S E A := λ s, (r, s).
Definition map_err_action {S E F A} (f : E → F) (m : action S E A) :
  action S F A := λ s, let '(r, s') := m s in (map_err f r, s').

(** Code that changes a state and cannot fail. *)
Definition proc (S A : Type) : Type := S → A * S.
#[export] Instance proc_ret {S} : MRet (proc S) := λ A a s, (a, s).
#[export] Instance proc_bind {S} : MBind (proc S) := λ A B f m s, let '(a, s') := m s in f a s'.

(** ** Machine integers *)

Declare Scope rust_scope.
Delimit Scope rust_scope with rust.

Definition u8_max : Z := 255.
Definition u16_max : Z := 65535.
Definition u32_max : Z := 4294967295.
Definition u64_max : Z := 18446744073709551615.
Definition u128_max : Z := 340282366920938463463374607431768211455.
(** [usize] on the supported 64-bit targets. *)
Definition usize_max : Z := u64_max.

Definition in_range (max z : Z) : Prop := (0 ≤ z ≤ max)%Z.

(** [checked_add], [checked_sub] and [checked_mul] at the width whose largest
    value is [max]. *)
Definition checked_add (max a b : Z) : option Z :=
  if bool_decide (a + b ≤ max)%Z then Some (a + b)%Z else None.
Definition checked_sub (a b : Z) : option Z :=
  if bool_decide (b ≤ a)%Z then Some (a - b)%Z else None.
Definition checked_mul (max a b : Z) : option Z :=
  if bool_decide (a * b ≤ max)%Z then Some (a * b)%Z else None.

(** [uN::try_from] of a non-negative value. *)
Definition try_from (max z : Z) : option Z :=
  if bool_decide (0 ≤ z ≤ max)%Z then Some z else None.

(** The [as u8] cast. *)
Definition as_u8 (z : Z) : Z := (z `mod` 256)%Z.

(** [to_string] of an unsigned integer. *)
Definition uint_to_string (z : Z) : string :=
  NilZero.string_of_uint (N.to_uint (Z.to_N z)).

(** [str::parse] at the unsigned width whose largest value is [max]: one
    optional plus sign, then digits, leading zeros allowed. *)
Definition parse_uint (max : Z) (s : string) : option Z :=
  let digits := match s with String "+"%char s' => s' | _ => s end in
  d ← NilZero.uint_of_string digits;
  try_from max (Z.of_N (N.of_uint d)).

(** The length of a vector as a [usize]. *)
Definition zlen {A} (l : list A) : Z := Z.of_nat (length l).

Lemma checked_add_Some max a b c :
  checked_add max a b = Some c ↔ (c = a + b ∧ a + b ≤ max)%Z.
Proof. unfold checked_add. case_bool_decide; naive_solver. Qed.
Lemma checked_add_None max a b :
  checked_add max a b = None ↔ (max < a + b)%Z.
Proof. unfold checked_add. case_bool_decide; split; (done || lia). Qed.
Lemma checked_sub_Some a b c :
  checked_sub a b = Some c ↔ (c = a - b ∧ b ≤ a)%Z.
Proof. unfold checked_sub. case_bool_decide; naive_solver. Qed.
Lemma checked_mul_Some max a b c :
  checked_mul max a b = Some c ↔ (c = a * b ∧ a * b ≤ max)%Z.
Proof. unfold checked_mul. case_bool_decide; naive_solver. Qed.
Lemma try_from_Some max z c :
  try_from max z = Some c ↔ (c = z ∧ 0 ≤ z ≤ max)%Z.
Proof. unfold try_from. case_bool_decide; naive_solver. Qed.
Lemma as_u8_small z : (0 ≤ z ≤ u8_max)%Z → as_u8 z = z.
Proof. unfold as_u8, u8_max. intros. apply Z.mod_small. lia. Qed.

Lemma parse_uint_Some max s z :
  parse_uint max s = Some z → (0 ≤ z ≤ max)%Z.
Proof.
  unfold parse_uint. intros (d & _ & Hz)%bind_Some.
  apply try_from_Some in Hz as [-> ?]. done.
Qed.

Lemma uint_to_string_no_plus z s : uint_to_string z ≠ String "+"%char s.
Proof.
  unfold uint_to_string, NilZero.string_of_uint. by destruct (N.to_uint (Z.to_N z)).
Qed.

Lemma n_to_uint_nonnil n : N.to_uint n ≠ Decimal.Nil.
Proof. destruct n; [done|]. apply DecimalPos.Unsigned.to_uint_nonnil. Qed.

(** Parsing inverts printing. *)
Lemma parse_uint_to_string max z :
  (0 ≤ z ≤ max)%Z → parse_uint max (uint_to_string z) = Some z.
Proof.
  intros Hz. unfold parse_uint.
  replace (match uint_to_string z with String "+"%char s' => s' | _ => uint_to_string z end)
    with (uint_to_string z).
  2:{ pose proof (uint_to_string_no_plus z) as Hp.
      destruct (uint_to_string z) as [|[[] [] [] [] [] [] [] []] ?]; try done.
      by edestruct Hp. }
  unfold uint_to_string. rewrite NilZero.usu by apply n_to_uint_nonnil.
  cbn [mbind option_bind]. rewrite DecimalN.Unsigned.of_to, Z2N.id by lia.
  by apply try_from_Some.
Qed.

(** ** Automation *)

Create HintDb wallet.
#[export] Hint Unfold in_range : wallet.

(** Case analysis on every scrutinee of the goal or of the hypotheses, with
    the impossible cases discharged. *)
Ltac split_cases :=
  repeat (first [ progress simplify_eq/= | case_match | case_bool_decide ]).

(** Unfold the monads of this file in the goal and the hypotheses. *)
Ltac unfold_monad :=
  unfold mbind, mret, fmap in *;
  unfold result_bind, result_ret, result_fmap, action_bind, action_ret,
    throw, get_state, put_state, modify, lift, map_err_action, map_err, ok_or,
    ensure in *;
  simpl in *.

(** Symbolically execute a monadic definition: the common proof script. *)
Ltac run := unfold_monad; split_cases.

Lemma bind_Ok {E A B} (f : A → result E B) r b :
  r ≫= f = Ok b ↔ ∃ a, r = Ok a ∧ f a = Ok b.
Proof. destruct r; unfold_monad; naive_solver. Qed.
Lemma bind_Err {E A B} (f : A → result E B) r e :
  r ≫= f = Err e ↔ r = Err e ∨ ∃ a, r = Ok a ∧ f a = Err e.
Proof. destruct r; unfold_monad; naive_solver. Qed.
Lemma ensure_Ok {E} b (e : E) u : ensure b e = Ok u ↔ b = true.
Proof. destruct b, u; naive_solver. Qed.
Lemma map_err_Ok {E F A} (f : E → F) (r : result E A) a :
  map_err f r = Ok a ↔ r = Ok a.
Proof. destruct r; naive_solver. Qed.
Lemma ok_or_Ok {E A} (e : E) (o : option A) a : ok_or e o = Ok a ↔ o = Some a.
Proof. destruct o; naive_solver. Qed.

(** Inversion of a successful [?]-chain held in a hypothesis. *)
Ltac inv_ok :=
  repeat match goal with
  | H : mbind _ _ = Ok _ |- _ => apply bind_Ok in H as (? & ? & ?)
  | H : ensure _ _ = Ok _ |- _ => apply ensure_Ok in H
  | H : map_err _ _ = Ok _ |- _ => apply map_err_Ok in H
  | H : ok_or _ _ = Ok _ |- _ => apply ok_or_Ok in H
  | H : Ok _ = Ok _ |- _ => injection H as H
  | H : Err _ = Ok _ |- _ => discriminate H
  end.

Lemma fmap_Ok {E A B} (f : A → B) (r : result E A) b :
  f <$> r = Ok b ↔ ∃ a, r = Ok a ∧ f a = b.
Proof. destruct r; cbn; naive_solver. Qed.

(** [iter().map(f).collect::<Result<Vec<_>, _>>()]: the first error wins. *)
Lemma mapM_Ok {E A B} (f : A → result E B) l k :
  mapM f l = Ok k ↔ Forall2 (λ x y, f x = Ok y) l k.
Proof.
  revert k; induction l as [|x l IH]; intros k; simpl.
  { split; [intros [= <-]; constructor | by inversion 1]. }
  rewrite bind_Ok; setoid_rewrite bind_Ok; setoid_rewrite IH; split.
  - intros (y & ? & k' & ? & [= <-]); by constructor.
  - inversion 1; subst; repeat (eexists; split; [done|]); done.
Qed.

(** Projecting the results of a loop, on the error paths too. *)
Lemma mapM_fmap {E A B C} (g : B → C) (f : A → result E B) l :
  fmap g <$> mapM f l = mapM (λ x, g <$> f x) l.
Proof.
  induction l as [|x l IH]; [done|]. cbn. rewrite <-IH.
  destruct (f x); cbn; [|done]. by destruct (mapM f l).
Qed.

Lemma mapM_Forall2_eq {E A A' B} (f : A → result E B) (g : A' → result E B) l l' :
  Forall2 (λ x y, f x = g y) l l' → mapM f l = mapM g l'.
Proof. induction 1 as [|x y l l' Hxy _ IH]; [done|]. cbn. by rewrite Hxy, IH. Qed.

(** [iter().enumerate()]. *)
Definition enumerate {A} (l : list A) : list (Z * A) :=
  imap (λ i x, (Z.of_nat i, x)) l.

Lemma enumerate_Forall2 {A B} (P : Z → A → B → Prop) l k :
  Forall2 (λ x y, ∀ i, P i x y) l k →
  Forall2 (λ p q, p.1 = q.1 ∧ P p.1 p.2 q.2) (enumerate l) (enumerate k).
Proof.
  rewrite !Forall2_lookup. unfold enumerate. intros Hl i.
  rewrite !list_lookup_imap. destruct (Hl i); constructor; auto.
Qed.

(** An [enumerate()] whose index does not decide which results are accepted. *)
Lemma mapM_enumerate_Ok {E A B} (f : Z → A → result E B) (P : A → B → Prop) l k :
  (∀ i x y, f i x = Ok y ↔ P x y) →
  mapM (λ '(i, x), f i x) (enumerate l) = Ok k ↔ Forall2 P l k.
Proof.
  intros Hf. rewrite mapM_Ok, !Forall2_lookup. unfold enumerate.
  setoid_rewrite list_lookup_imap. apply forall_proper; intros i.
  destruct (l !! i), (k !! i); split; inversion 1; constructor; by eapply Hf.
Qed.

(** [into_iter().skip(n).take(m)]. *)
Definition skip_take {A} (n : Z) (m : option Z) (l : list A) : list A :=
  match m with
  | Some m => take (Z.to_nat m) (drop (Z.to_nat n) l)
  | None => drop (Z.to_nat n) l
  end.

(** ** Reachability *)

(** States reachable from an initial one by a step relation; invariants are
    proved by induction on it. *)
Inductive reachable {S L : Type} (init : S → Prop) (step : S → L → S → Prop) :
    list L → S → Prop :=
  | reachable_init s : init s → reachable init step [] s
  | reachable_step s l s' tr :
      reachable init step tr s → step s l s' → reachable init step (tr ++ [l]) s'.

Lemma reachable_invariant {S L} (init : S → Prop) (step : S → L → S → Prop)
    (I : S → Prop) :
  (∀ s, init s → I s) → (∀ s l s', I s → step s l s' → I s') →
  ∀ tr s, reachable init step tr s → I s.
Proof. intros Hi Hs tr s; induction 1; eauto. Qed.
