(* ===== verification/Tasks.v ===== *)
(** * Interleaved tasks

    Some parts of the program run as several tasks over shared state.  Their
    models are lists of tasks of which one steps at a time; this file counts
    the tasks that hold something and orders the events of a trace. *)

From stdpp Require Import list_numbers.
From S2P Require Import Prelude.

Module Tasks.

(** ** Counting holders *)

(** How many tasks hold [x]. *)
Definition count {T A} `{EqDecision A} (f : T → option A) (x : A) (ts : list T) : nat :=
  length (filter (λ t, f t = Some x) ts).
Definition one (b : bool) : nat := if b then 1 else 0.

Section Counts.
Context {T A : Type} `{!EqDecision A} (f : T → option A) (x : A).

Lemma count_app ts us : count f x (ts ++ us) = count f x ts + count f x us.
Proof. unfold count. by rewrite filter_app, length_app. Qed.

Lemma count_cons t ts : count f x (t :: ts) = one (bool_decide (f t = Some x)) + count f x ts.
Proof. unfold count. rewrite filter_cons. case_bool_decide; by case_decide. Qed.

Lemma count_nil : count f x [] = 0.
Proof. done. Qed.

(** The count after a task has moved from [t] to [t'] and spawned others. *)
Lemma count_step ts i t t' us :
  ts !! i = Some t →
  count f x (<[i := t']> ts ++ us) + one (bool_decide (f t = Some x)) =
  count f x ts + one (bool_decide (f t' = Some x)) + count f x us.
Proof.
  intros Hi. rewrite count_app. rewrite insert_take_drop by (by eapply lookup_lt_Some).
  rewrite <-(take_drop_middle ts i t Hi) at 3.
  rewrite !count_app, !count_cons. lia.
Qed.

Lemma count_pos ts i t : ts !! i = Some t → f t = Some x → 1 ≤ count f x ts.
Proof.
  intros Hi Hf. rewrite <-(take_drop_middle ts i t Hi), count_app, count_cons.
  rewrite bool_decide_eq_true_2 by done. cbn. lia.
Qed.

Lemma count_two ts i j t u :
  ts !! i = Some t → ts !! j = Some u → f t = Some x → f u = Some x → i ≠ j →
  2 ≤ count f x ts.
Proof.
  intros Hi Hj Ht Hu Hij.
  rewrite <-(take_drop_middle ts i t Hi), count_app, count_cons, bool_decide_eq_true_2 by done.
  destruct (decide (j < i)) as [Hlt|Hge].
  - pose proof (count_pos (take i ts) j u) as Hc. rewrite lookup_take_lt in Hc by lia.
    specialize (Hc Hj Hu). cbn. lia.
  - pose proof (count_pos (drop (S i) ts) (j - S i) u) as Hc.
    rewrite lookup_drop in Hc. replace (S i + (j - S i)) with j in Hc by lia.
    specialize (Hc Hj Hu). cbn. lia.
Qed.

Lemma count_exists ts : 1 ≤ count f x ts → ∃ i t, ts !! i = Some t ∧ f t = Some x.
Proof.
  unfold count. intros Hc. destruct (filter _ ts) as [|t us] eqn:Hf; [cbn in Hc; lia|].
  assert (t ∈ filter (λ t, f t = Some x) ts) as Ht by (rewrite Hf; constructor).
  apply list_elem_of_filter in Ht as [Ht [i Hi]%list_elem_of_lookup]. eauto.
Qed.
Lemma count_le (g : T → option A) ts :
  (∀ t, f t = Some x → g t = Some x) → count f x ts ≤ count g x ts.
Proof.
  intros Hfg. induction ts as [|t ts IH]; [done|]. unfold count in *. rewrite !filter_cons.
  case_decide as Ht; [|case_decide; cbn; lia]. rewrite decide_True by auto. cbn. lia.
Qed.
End Counts.

(** A new task that holds nothing. *)
Lemma count_call {T A} `{EqDecision A} (f : T → option A) x ts t :
  f t = None → count f x (ts ++ [t]) = count f x ts.
Proof.
  intros Ht. rewrite count_app, count_cons, count_nil, Ht. cbn.
  rewrite bool_decide_eq_false_2 by done. cbn. lia.
Qed.

(** A task of the list is the one that steps, or is still there after. *)
Lemma elem_of_step {T} (ts : list T) i t t' u us :
  ts !! i = Some t → u ∈ ts → u = t ∨ u ∈ <[i := t']> ts ++ us.
Proof.
  intros Hi [j Hj]%list_elem_of_lookup. destruct (decide (i = j)) as [->|Hij].
  - left. congruence.
  - right. apply elem_of_app. left. apply list_elem_of_lookup. exists j.
    by rewrite list_lookup_insert_ne.
Qed.

(** ** Sizes *)

Lemma omap_length_le {A B} (f : A → option B) l : length (omap f l) ≤ length l.
Proof. induction l as [|x l IH]; cbn; [lia|]. destruct (f x); cbn; lia. Qed.

Lemma size_list_to_set_le `{Countable A} (l : list A) :
  size (list_to_set (C := gset A) l) ≤ length l.
Proof.
  induction l as [|x l IH]; [done|]. cbn. rewrite size_union_alt, size_singleton.
  assert (size (list_to_set l ∖ {[x]} : gset A) ≤ size (list_to_set l : gset A)) as Hle
    by (apply subseteq_size; set_solver). lia.
Qed.

(** The sum of a measure after one task has moved. *)
Lemma sum_insert {T} (f : T → nat) ts i t t' :
  ts !! i = Some t → sum_list_with f (<[i := t']> ts) + f t = sum_list_with f ts + f t'.
Proof.
  intros Hi. rewrite insert_take_drop by (by eapply lookup_lt_Some).
  rewrite <-(take_drop_middle ts i t Hi) at 3. rewrite !sum_list_with_app. cbn. lia.
Qed.

Lemma sum_bound {T} (f : T → nat) n ts : (∀ t, f t ≤ n) → sum_list_with f ts ≤ n * length ts.
Proof. intros Hf. induction ts as [|t ts IH]; cbn; [lia|]. specialize (Hf t). lia. Qed.

(** ** The order of events *)

(** After an event of [P] there is none of [Q]. *)
Definition after {E} (P Q : E → Prop) (tr : list E) : Prop :=
  ∀ pre e post f, tr = pre ++ e :: post → P e → f ∈ post → ¬ Q f.

Lemma after_snoc {E} (P Q : E → Prop) tr g :
  after P Q tr → (∀ e, e ∈ tr → P e → ¬ Q g) → after P Q (tr ++ [g]).
Proof.
  intros Htr Hg pre e post f Heq Pe Hf. destruct post as [|h post _] using rev_ind.
  { by apply elem_of_nil in Hf. }
  rewrite app_comm_cons, app_assoc in Heq. apply app_inj_tail in Heq as [-> ->].
  apply elem_of_app in Hf as [Hf| ->%list_elem_of_singleton].
  - by eapply Htr.
  - eapply Hg; [|done]. apply elem_of_app. right. by left.
Qed.

(** ** Concrete runs *)

Section Play.
Context {S L : Type} (step : S → L → option S) (init : S).

Fixpoint play (ls : list L) (y : S) : option S :=
  match ls with [] => Some y | l :: ls => y ← step y l; play ls y end.
Definition played (ls : list L) : S := default init (play ls init).
Definition plays (ls : list L) : bool :=
  match play ls init with Some _ => true | None => false end.

Definition reaches (y : S) : Prop :=
  ∃ tr, reachable (λ y, y = init) (λ y l y', step y l = Some y') tr y.

Lemma play_reachable ls z y : reaches z → play ls z = Some y → reaches y.
Proof.
  revert z. induction ls as [|l ls IH]; intros z Hz Hy; cbn in Hy; [by simplify_eq|].
  apply bind_Some in Hy as (z' & Hl & Hy). eapply IH; [|done]. destruct Hz as [tr Hz].
  eexists. by eapply (reachable_step _ _ _ l).
Qed.

Lemma played_reachable ls : plays ls = true → reaches (played ls).
Proof.
  unfold plays, played. destruct (play ls init) as [y|] eqn:Hy; [cbn; intros _|done].
  eapply play_reachable; [|done]. exists []. by apply reachable_init.
Qed.
End Play.

End Tasks.
