(* ===== verification/Prepared.v ===== *)
(** * The single prepared-transaction slot
    (rust/src/api/wallet/transactions/prepared.rs)

    [PreparedTransactionStore] holds at most one prepared transaction, keyed by
    a generation that is never reused.  Its methods are [action]s on the store;
    the two RAII guards are values, and their [Drop] implementations are
    explicit operations.  [exec] is the system of one store and its live
    guards: each operation is one critical section of the store's lock, so an
    interleaving of wallet tasks is a sequence of operations. *)

From stdpp Require Import sorting.
From S2P Require Import Prelude.

Module Slot.

Inductive PreparedTransactionError : Type :=
  | PreparationInProgress
  | ReplacementDuringSubmission
  | CancellationDuringSubmission
  | AlreadySubmitting
  | CannotDelete
  | NotFound
  | GenerationOverflow
  | PreparationStateInconsistent
  | CancellationStateInconsistent
  | SubmissionStateInconsistent
  | EmptyGuard.

#[export] Instance PreparedTransactionError_eq_dec :
  EqDecision PreparedTransactionError.
Proof. solve_decision. Defined.

(** [PreparedTransactionError::native_kind]. *)
Definition native_kind (e : PreparedTransactionError) : string :=
  match e with
  | PreparationInProgress => "PREPARED_TRANSACTION_PREPARATION_IN_PROGRESS"
  | ReplacementDuringSubmission => "PREPARED_TRANSACTION_SUBMISSION_IN_PROGRESS"
  | CancellationDuringSubmission => "PREPARED_TRANSACTION_CANCELLATION_IN_PROGRESS"
  | AlreadySubmitting => "PREPARED_TRANSACTION_ALREADY_SUBMITTING"
  | CannotDelete | NotFound => "PREPARED_TRANSACTION_NOT_FOUND"
  | GenerationOverflow => "PREPARED_TRANSACTION_GENERATION_OVERFLOW"
  | PreparationStateInconsistent =>
      "PREPARED_TRANSACTION_PREPARATION_STATE_INCONSISTENT"
  | CancellationStateInconsistent =>
      "PREPARED_TRANSACTION_CANCELLATION_STATE_INCONSISTENT"
  | SubmissionStateInconsistent =>
      "PREPARED_TRANSACTION_SUBMISSION_STATE_INCONSISTENT"
  | EmptyGuard => "PREPARED_TRANSACTION_GUARD_EMPTY"
  end.

(** [impl Display for PreparedTransactionError]. *)
Definition prepared_error_to_string (e : PreparedTransactionError) : string :=
  match e with
  | PreparationInProgress =>
      "Cannot replace a prepared transaction while another preparation is in progress"
  | ReplacementDuringSubmission =>
      "Cannot replace a prepared transaction while another transaction is being submitted"
  | CancellationDuringSubmission =>
      "Cannot cancel a transaction while it is being submitted"
  | AlreadySubmitting => "Transaction is already being submitted"
  | CannotDelete => "Cannot delete prepared transaction"
  | NotFound => "Cannot find prepared transaction"
  | GenerationOverflow => "Prepared transaction generation overflow"
  | PreparationStateInconsistent =>
      "Prepared transaction preparation state is inconsistent"
  | CancellationStateInconsistent =>
      "Prepared transaction state changed during cancellation"
  | SubmissionStateInconsistent =>
      "Prepared transaction submission state is inconsistent"
  | EmptyGuard => "Prepared transaction guard is empty"
  end.

Section Store.
Context {Hash T : Type} `{!EqDecision Hash}.

Inductive PreparedTransactionState : Type :=
  | Empty
  | Ready (generation : Z) (hash : Hash) (transaction : T)
  | InFlight (generation : Z) (hash : Hash).

Record PreparedTransactionStore : Type := mkStore {
  state : PreparedTransactionState;
  next_generation : Z;
  active_preparation : option Z
}.

(** [impl Default for PreparedTransactionStore]. *)
Definition store_default : PreparedTransactionStore :=
  {| state := Empty; next_generation := 0; active_preparation := None |}.

Abbreviation op_action := (action PreparedTransactionStore PreparedTransactionError).

Definition set_state (st : PreparedTransactionState) (s : PreparedTransactionStore) :=
  {| state := st; next_generation := next_generation s;
     active_preparation := active_preparation s |}.
Definition set_next_generation (g : Z) (s : PreparedTransactionStore) :=
  {| state := state s; next_generation := g;
     active_preparation := active_preparation s |}.
Definition set_active_preparation (p : option Z) (s : PreparedTransactionStore) :=
  {| state := state s; next_generation := next_generation s;
     active_preparation := p |}.

Definition allocate_generation : op_action Z :=
  s ← get_state;
  generation ← lift (ok_or GenerationOverflow
                       (checked_add u64_max (next_generation s) 1));
  modify (set_next_generation generation);;
  mret generation.

Definition ensure_replaceable : op_action unit :=
  s ← get_state;
  match active_preparation s with
  | Some _ => throw PreparationInProgress
  | None =>
      match state s with
      | InFlight _ _ => throw ReplacementDuringSubmission
      | _ => mret tt
      end
  end.

Definition ensure_slot_operation_available : op_action unit :=
  s ← get_state;
  match active_preparation s with
  | Some _ => throw PreparationInProgress
  | None => mret tt
  end.

Definition ensure_ready_exact (generation : Z) (hash : Hash) : op_action unit :=
  ensure_slot_operation_available;;
  s ← get_state;
  match state s with
  | Ready prepared_generation prepared_hash _ =>
      if bool_decide (prepared_generation = generation ∧ prepared_hash = hash)
      then mret tt else throw NotFound
  | InFlight submitted_generation submitted_hash =>
      if bool_decide (submitted_generation = generation ∧ submitted_hash = hash)
      then throw AlreadySubmitting else throw NotFound
  | Empty => throw NotFound
  end.

Definition ready_exact (generation : Z) (hash : Hash) : op_action T :=
  ensure_ready_exact generation hash;;
  s ← get_state;
  match state s with
  | Ready _ _ transaction => mret transaction
  | _ => throw NotFound
  end.

Definition replace (hash : Hash) (transaction : T) : op_action Z :=
  ensure_replaceable;;
  generation ← allocate_generation;
  modify (set_state (Ready generation hash transaction));;
  mret generation.

Definition begin_preparation : op_action Z :=
  ensure_replaceable;;
  generation ← allocate_generation;
  modify (set_active_preparation (Some generation));;
  mret generation.

Definition commit_preparation (generation : Z) (hash : Hash) (transaction : T) :
    op_action unit :=
  s ← get_state;
  if bool_decide (active_preparation s ≠ Some generation)
  then throw PreparationStateInconsistent
  else
    match state s with
    | InFlight _ _ => throw ReplacementDuringSubmission
    | _ =>
        modify (set_state (Ready generation hash transaction));;
        modify (set_active_preparation None)
    end.

(** Returns whether the preparation was the active one; it cannot fail. *)
Definition abandon_preparation (generation : Z) (s : PreparedTransactionStore) :
    bool * PreparedTransactionStore :=
  if bool_decide (active_preparation s = Some generation)
  then (true, set_active_preparation None s)
  else (false, s).

(** [match mem::take(&mut self.state)] of the cancellation paths: the previous
    state is put back unless it was [Ready]. *)
Definition take_ready_for_cancellation : op_action T :=
  s ← get_state;
  match state s with
  | Ready _ _ transaction => modify (set_state Empty);; mret transaction
  | _ => throw CancellationStateInconsistent
  end.

Definition cancel (hash : Hash) : op_action T :=
  ensure_slot_operation_available;;
  s ← get_state;
  match state s with
  | InFlight _ submitted_hash =>
      if bool_decide (submitted_hash = hash)
      then throw CancellationDuringSubmission else throw CannotDelete
  | Ready _ prepared_hash _ =>
      if bool_decide (prepared_hash = hash) then mret tt else throw CannotDelete
  | Empty => throw CannotDelete
  end;;
  take_ready_for_cancellation.

Definition cancel_exact (generation : Z) (hash : Hash) : op_action T :=
  ensure_slot_operation_available;;
  s ← get_state;
  match state s with
  | InFlight submitted_generation submitted_hash =>
      if bool_decide (submitted_generation = generation ∧ submitted_hash = hash)
      then throw CancellationDuringSubmission else throw NotFound
  | Ready prepared_generation prepared_hash _ =>
      if bool_decide (prepared_generation = generation ∧ prepared_hash = hash)
      then mret tt else throw NotFound
  | Empty => throw NotFound
  end;;
  take_ready_for_cancellation.

Definition take_ready_for_submission : op_action (Z * T) :=
  s ← get_state;
  match state s with
  | Ready generation hash transaction =>
      modify (set_state (InFlight generation hash));;
      mret (generation, transaction)
  | _ => throw SubmissionStateInconsistent
  end.

Definition take_for_submission (hash : Hash) : op_action (Z * T) :=
  ensure_slot_operation_available;;
  s ← get_state;
  match state s with
  | InFlight _ submitted_hash =>
      if bool_decide (submitted_hash = hash)
      then throw AlreadySubmitting else throw NotFound
  | Ready _ prepared_hash _ =>
      if bool_decide (prepared_hash = hash) then mret tt else throw NotFound
  | Empty => throw NotFound
  end;;
  take_ready_for_submission.

Definition take_for_submission_exact (generation : Z) (hash : Hash) : op_action T :=
  ensure_slot_operation_available;;
  s ← get_state;
  match state s with
  | InFlight submitted_generation submitted_hash =>
      if bool_decide (submitted_generation = generation ∧ submitted_hash = hash)
      then throw AlreadySubmitting else throw NotFound
  | Ready prepared_generation prepared_hash _ =>
      if bool_decide (prepared_generation = generation ∧ prepared_hash = hash)
      then mret tt else throw NotFound
  | Empty => throw NotFound
  end;;
  taken ← take_ready_for_submission;
  let '(stored_generation, transaction) := taken in
  if bool_decide (stored_generation ≠ generation)
  then throw SubmissionStateInconsistent
  else mret transaction.

Definition restore_after_submission (generation : Z) (hash : Hash) (transaction : T) :
    op_action unit :=
  s ← get_state;
  match state s with
  | InFlight submitted_generation submitted_hash =>
      if bool_decide (submitted_generation = generation ∧ submitted_hash = hash)
      then modify (set_state (Ready generation hash transaction))
      else throw SubmissionStateInconsistent
  | _ => throw SubmissionStateInconsistent
  end.

Definition finish_submission (generation : Z) (hash : Hash)
    (s : PreparedTransactionStore) : bool * PreparedTransactionStore :=
  match state s with
  | InFlight submitted_generation submitted_hash =>
      if bool_decide (submitted_generation = generation ∧ submitted_hash = hash)
      then (true, set_state Empty s) else (false, s)
  | _ => (false, s)
  end.

(** ** The RAII guards *)

Record PreparedTransactionPreparationGuard : Type := mkPreparationGuard {
  pg_generation : Z;
  pg_active : bool
}.

Definition preparation_begin : op_action PreparedTransactionPreparationGuard :=
  generation ← begin_preparation;
  mret {| pg_generation := generation; pg_active := true |}.

(** [impl Drop for PreparedTransactionPreparationGuard]. *)
Definition preparation_drop (g : PreparedTransactionPreparationGuard)
    (s : PreparedTransactionStore) : PreparedTransactionStore :=
  if pg_active g then (abandon_preparation (pg_generation g) s).2 else s.

(** [commit] consumes the guard: on the early return of [?] the guard is
    dropped while still active. *)
Definition preparation_commit (g : PreparedTransactionPreparationGuard)
    (hash : Hash) (transaction : T) : op_action Z := λ s,
  match commit_preparation (pg_generation g) hash transaction s with
  | (Ok _, s') =>
      (Ok (pg_generation g),
       preparation_drop {| pg_generation := pg_generation g; pg_active := false |} s')
  | (Err e, s') => (Err e, preparation_drop g s')
  end.

Record PreparedTransactionGuard : Type := mkGuard {
  sg_generation : Z;
  sg_hash : Hash;
  sg_transaction : option T
}.

Definition guard_take (hash : Hash) : op_action PreparedTransactionGuard :=
  taken ← take_for_submission hash;
  let '(generation, transaction) := taken in
  mret {| sg_generation := generation; sg_hash := hash;
          sg_transaction := Some transaction |}.

Definition guard_take_exact (generation : Z) (hash : Hash) :
    op_action PreparedTransactionGuard :=
  transaction ← take_for_submission_exact generation hash;
  mret {| sg_generation := generation; sg_hash := hash;
          sg_transaction := Some transaction |}.

Definition guard_transaction (g : PreparedTransactionGuard) :
    result PreparedTransactionError T :=
  ok_or EmptyGuard (sg_transaction g).

(** [impl Drop for PreparedTransactionGuard]. *)
Definition guard_drop (g : PreparedTransactionGuard)
    (s : PreparedTransactionStore) : PreparedTransactionStore :=
  match sg_transaction g with
  | Some transaction =>
      (restore_after_submission (sg_generation g) (sg_hash g) transaction s).2
  | None => s
  end.

(** [restore] takes the transaction out of the guard first, so the guard
    dropped at its end has nothing left to restore. *)
Definition guard_restore (g : PreparedTransactionGuard) : op_action unit := λ s,
  match sg_transaction g with
  | Some transaction =>
      restore_after_submission (sg_generation g) (sg_hash g) transaction s
  | None => (Err EmptyGuard, s)
  end.

(** [finish] puts the transaction back into the guard when the store is not in
    flight for it, and the guard's drop then tries to restore it. *)
Definition guard_finish (g : PreparedTransactionGuard) : op_action T := λ s,
  match sg_transaction g with
  | Some transaction =>
      match finish_submission (sg_generation g) (sg_hash g) s with
      | (true, s') => (Ok transaction, s')
      | (false, s') => (Err SubmissionStateInconsistent, guard_drop g s')
      end
  | None => (Err EmptyGuard, s)
  end.

(** ** The store together with its live guards *)

(** A guard is live from the operation that created it to the one that
    consumes it; Rust's ownership rules out any other use. *)
Record system : Type := mkSystem {
  store : PreparedTransactionStore;
  preparations : list PreparedTransactionPreparationGuard;
  submissions : list PreparedTransactionGuard
}.

Definition system_init : system :=
  {| store := store_default; preparations := []; submissions := [] |}.

Inductive op : Type :=
  | OReplace (hash : Hash) (transaction : T)
  | OBegin
  | OCommit (generation : Z) (hash : Hash) (transaction : T)
  | ODropPreparation (generation : Z)
  | OCancel (hash : Hash)
  | OCancelExact (generation : Z) (hash : Hash)
  | OTake (hash : Hash)
  | OTakeExact (generation : Z) (hash : Hash)
  | ORestore (generation : Z)
  | OFinish (generation : Z)
  | ODropSubmission (generation : Z).

Inductive response : Type :=
  | RGeneration (r : result PreparedTransactionError Z)
  | RTransaction (r : result PreparedTransactionError T)
  | RTaken (r : result PreparedTransactionError (Z * T))
  | RUnit (r : result PreparedTransactionError unit).

(** The live guard of a generation, and the other live guards. *)
Fixpoint take_guard {G} (key : G → Z) (generation : Z) (gs : list G) :
    option (G * list G) :=
  match gs with
  | [] => None
  | g :: gs' =>
      if bool_decide (key g = generation) then Some (g, gs')
      else '(g', rest) ← take_guard key generation gs'; Some (g', g :: rest)
  end.

Definition with_store (s : system) (st : PreparedTransactionStore) : system :=
  {| store := st; preparations := preparations s; submissions := submissions s |}.

Definition exec_begin (s : system) : response * system :=
  match preparation_begin (store s) with
  | (Ok g, st) =>
      (RGeneration (Ok (pg_generation g)),
       {| store := st; preparations := g :: preparations s;
          submissions := submissions s |})
  | (Err e, st) => (RGeneration (Err e), with_store s st)
  end.

Definition exec_take (r : result PreparedTransactionError PreparedTransactionGuard
      * PreparedTransactionStore) (s : system) : response * system :=
  match r with
  | (Ok g, st) =>
      (RTaken (transaction ← guard_transaction g; Ok (sg_generation g, transaction)),
       {| store := st; preparations := preparations s;
          submissions := g :: submissions s |})
  | (Err e, st) => (RTaken (Err e), with_store s st)
  end.

(** One operation of the system; [None] when the guard it consumes is not
    live. *)
Definition exec (s : system) (o : op) : option (response * system) :=
  match o with
  | OReplace hash transaction =>
      let '(r, st) := replace hash transaction (store s) in
      Some (RGeneration r, with_store s st)
  | OBegin => Some (exec_begin s)
  | OCommit generation hash transaction =>
      '(g, rest) ← take_guard pg_generation generation (preparations s);
      let '(r, st) := preparation_commit g hash transaction (store s) in
      Some (RGeneration r,
            {| store := st; preparations := rest; submissions := submissions s |})
  | ODropPreparation generation =>
      '(g, rest) ← take_guard pg_generation generation (preparations s);
      Some (RUnit (Ok tt),
            {| store := preparation_drop g (store s); preparations := rest;
               submissions := submissions s |})
  | OCancel hash =>
      let '(r, st) := cancel hash (store s) in
      Some (RTransaction r, with_store s st)
  | OCancelExact generation hash =>
      let '(r, st) := cancel_exact generation hash (store s) in
      Some (RTransaction r, with_store s st)
  | OTake hash => Some (exec_take (guard_take hash (store s)) s)
  | OTakeExact generation hash =>
      Some (exec_take (guard_take_exact generation hash (store s)) s)
  | ORestore generation =>
      '(g, rest) ← take_guard sg_generation generation (submissions s);
      let '(r, st) := guard_restore g (store s) in
      Some (RUnit r, {| store := st; preparations := preparations s; submissions := rest |})
  | OFinish generation =>
      '(g, rest) ← take_guard sg_generation generation (submissions s);
      let '(r, st) := guard_finish g (store s) in
      Some (RTransaction r,
            {| store := st; preparations := preparations s; submissions := rest |})
  | ODropSubmission generation =>
      '(g, rest) ← take_guard sg_generation generation (submissions s);
      Some (RUnit (Ok tt),
            {| store := guard_drop g (store s); preparations := preparations s;
               submissions := rest |})
  end.

Definition step (s : system) (l : op * response) (s' : system) : Prop :=
  exec s l.1 = Some (l.2, s').

Definition reaches : list (op * response) → system → Prop :=
  reachable (λ s, s = system_init) step.

(** Run a list of operations, collecting the trace; [None] when one of them
    consumes a guard that is not live. *)
Fixpoint simulate_from (s : system) (tr : list (op * response)) (ops : list op) :
    option (list (op * response) * system) :=
  match ops with
  | [] => Some (tr, s)
  | o :: ops' =>
      '(r, s') ← exec s o; simulate_from s' (tr ++ [(o, r)]) ops'
  end.
Definition simulate : list op → option (list (op * response) * system) :=
  simulate_from system_init [].

(** ** The abstract specification *)

(** What the slot promises: one resource that is absent, ready or being
    submitted, always with its transaction, and at most one preparation. *)
Inductive abstract_slot : Type :=
  | AEmpty
  | AReady (generation : Z) (hash : Hash) (transaction : T)
  | ASubmitting (generation : Z) (hash : Hash) (transaction : T).

Record abstract : Type := mkAbstract {
  a_slot : abstract_slot;
  a_preparing : option Z;
  a_next : Z
}.

Definition a_fresh (a : abstract) (k : Z → response * abstract) : response * abstract :=
  match a_preparing a, a_slot a with
  | Some _, _ => (RGeneration (Err PreparationInProgress), a)
  | None, ASubmitting _ _ _ => (RGeneration (Err ReplacementDuringSubmission), a)
  | None, _ =>
      if bool_decide (a_next a < u64_max)%Z then k (a_next a + 1)%Z
      else (RGeneration (Err GenerationOverflow), a)
  end.

(** Cancel or take the slot when it is ready for [accepts]. *)
Definition a_claim (a : abstract) (accepts : Z → Hash → bool)
    (busy missing : PreparedTransactionError)
    (fail : PreparedTransactionError → response)
    (k : Z → Hash → T → response * abstract) : response * abstract :=
  match a_preparing a, a_slot a with
  | Some _, _ => (fail PreparationInProgress, a)
  | None, AReady g h t => if accepts g h then k g h t else (fail missing, a)
  | None, ASubmitting g h _ => (fail (if accepts g h then busy else missing), a)
  | None, AEmpty => (fail missing, a)
  end.

Definition a_set (a : abstract) (slot : abstract_slot) : abstract :=
  {| a_slot := slot; a_preparing := a_preparing a; a_next := a_next a |}.

Definition by_hash (hash : Hash) (_ : Z) (h : Hash) : bool := bool_decide (h = hash).
Definition by_capability (generation : Z) (hash : Hash) (g : Z) (h : Hash) : bool :=
  bool_decide (g = generation ∧ h = hash).

Definition a_take (a : abstract) (accepts : Z → Hash → bool) : response * abstract :=
  a_claim a accepts AlreadySubmitting NotFound (λ e, RTaken (Err e))
    (λ g h t, (RTaken (Ok (g, t)), a_set a (ASubmitting g h t))).

Definition a_cancel (a : abstract) (accepts : Z → Hash → bool)
    (missing : PreparedTransactionError) : response * abstract :=
  a_claim a accepts CancellationDuringSubmission missing (λ e, RTransaction (Err e))
    (λ g h t, (RTransaction (Ok t), a_set a AEmpty)).

(** End the submission of [generation] with the slot [k] builds. *)
Definition a_end (a : abstract) (generation : Z)
    (k : Hash → T → response * abstract_slot) : option (response * abstract) :=
  match a_slot a with
  | ASubmitting g h t =>
      if bool_decide (g = generation)
      then let '(r, slot) := k h t in Some (r, a_set a slot) else None
  | _ => None
  end.

Definition a_end_preparation (a : abstract) (generation : Z)
    (k : response * abstract_slot) : option (response * abstract) :=
  if bool_decide (a_preparing a = Some generation)
  then Some (k.1, {| a_slot := k.2; a_preparing := None; a_next := a_next a |})
  else None.

Definition spec (a : abstract) (o : op) : option (response * abstract) :=
  match o with
  | OReplace hash transaction =>
      Some (a_fresh a (λ g, (RGeneration (Ok g),
        {| a_slot := AReady g hash transaction; a_preparing := None; a_next := g |})))
  | OBegin =>
      Some (a_fresh a (λ g, (RGeneration (Ok g),
        {| a_slot := a_slot a; a_preparing := Some g; a_next := g |})))
  | OCommit generation hash transaction =>
      a_end_preparation a generation
        (RGeneration (Ok generation), AReady generation hash transaction)
  | ODropPreparation generation =>
      a_end_preparation a generation (RUnit (Ok tt), a_slot a)
  | OCancel hash => Some (a_cancel a (by_hash hash) CannotDelete)
  | OCancelExact generation hash =>
      Some (a_cancel a (by_capability generation hash) NotFound)
  | OTake hash => Some (a_take a (by_hash hash))
  | OTakeExact generation hash => Some (a_take a (by_capability generation hash))
  | ORestore generation =>
      a_end a generation (λ h t, (RUnit (Ok tt), AReady generation h t))
  | OFinish generation =>
      a_end a generation (λ h t, (RTransaction (Ok t), AEmpty))
  | ODropSubmission generation =>
      a_end a generation (λ h t, (RUnit (Ok tt), AReady generation h t))
  end.

(** The abstract state a system stands for: the transaction of an in-flight
    slot is the one its guard holds. *)
Definition abstraction (s : system) : abstract :=
  {| a_slot :=
       match state (store s), submissions s with
       | Empty, _ => AEmpty
       | Ready g h t, _ => AReady g h t
       | InFlight g h, {| sg_transaction := Some t |} :: _ => ASubmitting g h t
       | InFlight g h, _ => AEmpty
       end;
     a_preparing := active_preparation (store s);
     a_next := next_generation (store s) |}.

(** The store's well-formedness: which guards are live, and that generations
    in use are the ones handed out so far. *)
Definition slot_wf (s : system) : Prop :=
  match state (store s) with
  | Empty => submissions s = []
  | Ready g _ _ =>
      submissions s = [] ∧ (1 ≤ g ≤ next_generation (store s))%Z ∧
      (∀ a, active_preparation (store s) = Some a → (g < a)%Z)
  | InFlight g h =>
      active_preparation (store s) = None ∧
      (1 ≤ g ≤ next_generation (store s))%Z ∧
      ∃ t, submissions s =
        [{| sg_generation := g; sg_hash := h; sg_transaction := Some t |}]
  end.

Definition preparation_wf (s : system) : Prop :=
  match active_preparation (store s) with
  | None => preparations s = []
  | Some a =>
      preparations s = [{| pg_generation := a; pg_active := true |}] ∧
      (1 ≤ a ≤ next_generation (store s))%Z
  end.

Definition wf (s : system) : Prop :=
  (0 ≤ next_generation (store s) ≤ u64_max)%Z ∧ slot_wf s ∧ preparation_wf s.

(** A generation that has been handed out and is neither in the slot nor being
    prepared. *)
Definition stale (generation : Z) (s : system) : Prop :=
  (generation ≤ next_generation (store s))%Z ∧
  active_preparation (store s) ≠ Some generation ∧
  match state (store s) with
  | Empty => True
  | Ready g _ _ | InFlight g _ => g ≠ generation
  end.

(** The generations whose submission ended with [finish], oldest first. *)
Fixpoint finished (tr : list (op * response)) : list Z :=
  match tr with
  | [] => []
  | (OFinish g, RTransaction (Ok _)) :: tr' => g :: finished tr'
  | _ :: tr' => finished tr'
  end.

(** Every generation in [l] has been handed out and is below the ones in use. *)
Definition retired (l : list Z) (s : system) : Prop :=
  Forall (λ f, (f ≤ next_generation (store s))%Z ∧
    (∀ a, active_preparation (store s) = Some a → (f < a)%Z) ∧
    match state (store s) with
    | Empty => True
    | Ready g _ _ | InFlight g _ => (f < g)%Z
    end) l.

(** The error a response carries. *)
Definition response_error (r : response) : option PreparedTransactionError :=
  match r with
  | RGeneration (Err e) | RTransaction (Err e) | RTaken (Err e) | RUnit (Err e) =>
      Some e
  | _ => None
  end.

(** The errors that report a broken internal invariant. *)
Definition is_inconsistency (e : PreparedTransactionError) : bool :=
  match e with
  | PreparationStateInconsistent | CancellationStateInconsistent
  | SubmissionStateInconsistent | EmptyGuard => true
  | _ => false
  end.

(** ** Refinement and invariants *)

(** A well-formed system has one of five shapes. *)
Inductive shape : system → Prop :=
  | shape_empty n : (0 ≤ n ≤ u64_max)%Z →
      shape (mkSystem (mkStore Empty n None) [] [])
  | shape_empty_preparing n a : (0 ≤ n ≤ u64_max)%Z → (1 ≤ a ≤ n)%Z →
      shape (mkSystem (mkStore Empty n (Some a)) [mkPreparationGuard a true] [])
  | shape_ready n g h t : (0 ≤ n ≤ u64_max)%Z → (1 ≤ g ≤ n)%Z →
      shape (mkSystem (mkStore (Ready g h t) n None) [] [])
  | shape_ready_preparing n g h t a :
      (0 ≤ n ≤ u64_max)%Z → (1 ≤ g ≤ n)%Z → (1 ≤ a ≤ n)%Z → (g < a)%Z →
      shape (mkSystem (mkStore (Ready g h t) n (Some a)) [mkPreparationGuard a true] [])
  | shape_inflight n g h t : (0 ≤ n ≤ u64_max)%Z → (1 ≤ g ≤ n)%Z →
      shape (mkSystem (mkStore (InFlight g h) n None) [] [mkGuard g h (Some t)]).

Lemma wf_shape s : wf s ↔ shape s.
Proof.
  split.
  - destruct s as [[st n [a|]] ps ss]; destruct st as [|g h t|g h];
      intros (? & Hs & Hp); cbn in *; destruct_and?; subst;
      try match goal with H : ∃ _, _ |- _ => destruct H as [? ->] end;
      try done; constructor; eauto.
  - destruct 1; repeat split; cbn; eauto; try lia; intros ? [=]; lia.
Qed.

(** Reduce one operation on a system of known shape to its tests. *)
Ltac slot_unfold :=
  repeat match goal with
  | H : exec _ _ = _ |- _ => revert H
  end;
  unfold exec, exec_begin, exec_take, preparation_begin, guard_take,
    guard_take_exact, preparation_commit, preparation_drop, guard_restore,
    guard_finish, guard_drop, guard_transaction, with_store,
    replace, begin_preparation, ensure_replaceable, allocate_generation,
    commit_preparation, abandon_preparation, cancel, cancel_exact,
    take_for_submission, take_for_submission_exact, take_ready_for_submission,
    take_ready_for_cancellation, ensure_slot_operation_available,
    restore_after_submission, finish_submission, checked_add,
    spec, a_fresh, a_take, a_cancel, a_claim, a_end, a_end_preparation,
    by_hash, by_capability, abstraction, a_set,
    mbind, option_bind, action_bind, mret, action_ret, result_bind,
    get_state, modify, throw, lift, ok_or,
    set_state, set_active_preparation, set_next_generation; cbn.

Ltac slot_cases :=
  repeat (case_bool_decide; cbn); intros; destruct_and?; simplify_eq/=;
  try done; try tauto; try lia; split; first [done | constructor; lia].

(** Every operation of the system implements the specification and keeps the
    system well formed. *)
Lemma exec_refines s o r s' :
  shape s → exec s o = Some (r, s') →
  shape s' ∧ spec (abstraction s) o = Some (r, abstraction s').
Proof.
  intros Hs He. destruct Hs; destruct o; slot_unfold; slot_cases.
Qed.

(** An operation is enabled in the system exactly when it is in the
    specification. *)
Lemma exec_enabled s o :
  shape s → exec s o = None → spec (abstraction s) o = None.
Proof. intros Hs He. destruct Hs; destruct o; slot_unfold; slot_cases. Qed.

Lemma reaches_shape tr s : reaches tr s → shape s.
Proof.
  apply (reachable_invariant _ _ shape).
  - intros ? ->. constructor. unfold u64_max. lia.
  - intros s0 [o r] s1 Hs He. by apply exec_refines in He as [].
Qed.

(** The specification never reports a broken invariant. *)
Lemma spec_consistent a o r a' e :
  spec a o = Some (r, a') → response_error r = Some e → is_inconsistency e = false.
Proof.
  destruct a as [[| |] [] ?]; destruct o; slot_unfold;
    repeat (case_bool_decide; cbn); intros; by simplify_eq/=.
Qed.

(** In the specification an error changes nothing. *)
Lemma spec_error_frame a o r a' e :
  spec a o = Some (r, a') → response_error r = Some e → a' = a.
Proof.
  destruct a as [[| |] [] ?]; destruct o; slot_unfold;
    repeat (case_bool_decide; cbn); intros; by simplify_eq/=.
Qed.

(** The abstraction forgets nothing of a well-formed system. *)
Lemma abstraction_inj s1 s2 :
  shape s1 → shape s2 → abstraction s1 = abstraction s2 → s1 = s2.
Proof. destruct 1, 1; unfold abstraction; cbn; intros; by simplify_eq. Qed.

Lemma retired_step l s o r s' :
  shape s → retired l s → exec s o = Some (r, s') → retired l s'.
Proof.
  intros Hs Hl He. unfold retired in *. rewrite Forall_forall in *.
  intros f Hf. specialize (Hl f Hf); clear Hf. revert Hl.
  destruct Hs; destruct o; slot_unfold; repeat (case_bool_decide; cbn);
    intros; destruct_and?; simplify_eq/=; repeat split; intros; simplify_eq;
    eauto with lia.
Qed.

(** The operation that finishes a submission retires its generation. *)
Lemma finish_retires s g r s' :
  shape s → exec s (OFinish g) = Some (r, s') →
  state (store s') = Empty ∧ active_preparation (store s') = None ∧
  (g ≤ next_generation (store s'))%Z ∧ ∃ h, state (store s) = InFlight g h.
Proof.
  intros Hs He. destruct Hs; slot_unfold; repeat (case_bool_decide; cbn);
    intros; destruct_and?; simplify_eq/=; try tauto; eauto with lia.
Qed.

Lemma finished_app tr1 tr2 : finished (tr1 ++ tr2) = finished tr1 ++ finished tr2.
Proof.
  induction tr1 as [|[[] []] tr1 IH]; simpl; try done; case_match; by rewrite ?IH.
Qed.

Lemma finished_single o r :
  finished [(o, r)] = [] ∨ ∃ g, o = OFinish g ∧ finished [(o, r)] = [g].
Proof. destruct o, r; simpl; try case_match; eauto. Qed.

Lemma finished_retired tr s : reaches tr s → retired (finished tr) s.
Proof.
  induction 1 as [|s [o r] s' tr Hr IH He]; [constructor|].
  pose proof (reaches_shape _ _ Hr) as Hs. change (exec s o = Some (r, s')) in He.
  rewrite finished_app. apply Forall_app; split; [by eapply retired_step|].
  destruct (finished_single o r) as [->|(g & -> & ->)]; constructor; [|constructor].
  apply finish_retires in He as (-> & -> & ? & _); naive_solver.
Qed.

Lemma stale_step g s o r s' :
  shape s → stale g s → exec s o = Some (r, s') → stale g s'.
Proof.
  intros Hs Hg He; revert Hg. unfold stale.
  destruct Hs; destruct o; slot_unfold; repeat (case_bool_decide; cbn);
    intros; destruct_and?; simplify_eq/=; repeat split;
    first [done | lia | intros ?; simplify_eq; first [congruence | lia]].
Qed.

Lemma simulate_from_reaches ops : ∀ s tr tr' s',
  reaches tr s → simulate_from s tr ops = Some (tr', s') → reaches tr' s'.
Proof.
  induction ops as [|o ops IH]; intros s tr tr' s' Hr; cbn; [by intros [= <- <-]|].
  destruct (exec s o) as [[r s1]|] eqn:He; cbn; [|done].
  apply IH. by eapply reachable_step.
Qed.

Lemma simulate_reaches ops tr s : simulate ops = Some (tr, s) → reaches tr s.
Proof. apply simulate_from_reaches. by constructor. Qed.

(** ** What a handler sees of the store *)

Ltac slot_done :=
  slot_unfold; repeat (case_bool_decide; cbn); intros; destruct_and?; simplify_eq/=;
  try tauto; eauto 10.

Lemma preparation_begin_cases st :
  (∃ e, preparation_begin st = (Err e, st)) ∨
  (active_preparation st = None ∧ (∀ g h, state st ≠ InFlight g h) ∧
   let id := (next_generation st + 1)%Z in
   preparation_begin st = (Ok (mkPreparationGuard id true), mkStore (state st) id (Some id))).
Proof.
  destruct st as [[|g h t|g h] n [a|]]; slot_unfold; try (left; by eexists);
    case_bool_decide; cbn; eauto; right; split_and!; done.
Qed.

Lemma preparation_drop_active st n g :
  preparation_drop (mkPreparationGuard g true) (mkStore st n (Some g)) = mkStore st n None.
Proof. slot_done. Qed.

Lemma preparation_commit_active st n g h t :
  (∀ g h, st ≠ InFlight g h) →
  preparation_commit (mkPreparationGuard g true) h t (mkStore st n (Some g))
  = (Ok g, mkStore (Ready g h t) n None).
Proof. destruct st as [|g' h' t'|g' h']; [slot_done..|]. intros Hi. by destruct (Hi g' h'). Qed.

Lemma ready_exact_cases id h st :
  (∃ e, ready_exact id h st = (Err e, st) ∧ ensure_ready_exact id h st = (Err e, st)) ∨
  ∃ n t, st = mkStore (Ready id h t) n None ∧ ready_exact id h st = (Ok t, st) ∧
    ensure_ready_exact id h st = (Ok tt, st).
Proof.
  destruct st as [[|g' h' t|g' h'] n [a|]]; unfold ready_exact, ensure_ready_exact; slot_done.
Qed.

Lemma guard_take_exact_cases id h st :
  (∃ e, guard_take_exact id h st = (Err e, st)) ∨
  ∃ n t, st = mkStore (Ready id h t) n None ∧
    guard_take_exact id h st = (Ok (mkGuard id h (Some t)), mkStore (InFlight id h) n None).
Proof. destruct st as [[|g' h' t|g' h'] n [a|]]; slot_done. Qed.

Lemma guard_take_cases h st :
  (∃ e, guard_take h st = (Err e, st)) ∨
  ∃ id n t, st = mkStore (Ready id h t) n None ∧
    guard_take h st = (Ok (mkGuard id h (Some t)), mkStore (InFlight id h) n None).
Proof. destruct st as [[|g' h' t|g' h'] n [a|]]; slot_done. Qed.

Lemma guard_ends_inflight id h t n :
  let g := mkGuard id h (Some t) in
  let st := mkStore (InFlight id h) n None in
  guard_drop g st = mkStore (Ready id h t) n None ∧
  guard_restore g st = (Ok tt, mkStore (Ready id h t) n None) ∧
  guard_finish g st = (Ok t, mkStore Empty n None).
Proof. slot_done. Qed.

(** ** A preparation among other operations *)

(** The preparation guard that an operation consumes. *)
Definition consumes (o : op) : option Z :=
  match o with OCommit g _ _ | ODropPreparation g => Some g | _ => None end.

(** A system in which [g] is being prepared. *)
Lemma preparing_shape s g :
  shape s → active_preparation (store s) = Some g →
  ∃ st n, s = mkSystem (mkStore st n (Some g)) [mkPreparationGuard g true] [] ∧
    (∀ g h, st ≠ InFlight g h) ∧
    shape (mkSystem (mkStore st n None) [] []).
Proof.
  destruct 1; cbn; intros [= <-]; do 2 eexists; (split; [done|split; [done|]]).
  - by apply shape_empty.
  - by apply shape_ready.
Qed.

(** Dropping the guard and committing do what they should. *)
Lemma drop_prepared s g :
  shape s → active_preparation (store s) = Some g →
  ∃ s', exec s (ODropPreparation g) = Some (RUnit (Ok tt), s') ∧
    active_preparation (store s') = None ∧ state (store s') = state (store s).
Proof.
  intros Hs Ha. destruct (preparing_shape s g Hs Ha) as (st & n & -> & _ & _).
  slot_done.
Qed.

Lemma commit_prepared s g h t :
  shape s → active_preparation (store s) = Some g →
  ∃ s', exec s (OCommit g h t) = Some (RGeneration (Ok g), s') ∧
    active_preparation (store s') = None ∧ state (store s') = Ready g h t.
Proof.
  intros Hs Ha. destruct (preparing_shape s g Hs Ha) as (st & n & -> & Hst & _).
  destruct st as [|g' h' t'|g' h']; [slot_done..|]. by destruct (Hst g' h').
Qed.

(** Beginning a preparation fails and changes nothing, or nobody else is
    preparing. *)
Lemma begin_prepared s :
  shape s →
  (∃ e, exec_begin s = (RGeneration (Err e), s)) ∨
  active_preparation (store s) = None ∧ ∃ g s', exec_begin s = (RGeneration (Ok g), s') ∧
    shape s' ∧ active_preparation (store s') = Some g ∧
    s' = mkSystem (mkStore (state (store s)) g (Some g))
           (mkPreparationGuard g true :: preparations s) (submissions s).
Proof.
  intros Hs. destruct (exec_begin s) as [r s'] eqn:He.
  destruct (exec_refines s OBegin r s' Hs) as [Hs' _]; [by cbn; rewrite He|].
  revert He. unfold exec_begin.
  destruct (preparation_begin_cases (store s)) as [[e ->]|(Ha & Hi & ->)].
  - intros [= <- <-]. left. exists e. by destruct s.
  - intros [= <- <-]. right. split; [done|]. do 2 eexists. split; [done|].
    split; [exact Hs'|]. done.
Qed.

(** The operations that consume the guard created last. *)
Lemma exec_own_commit st g ps ss h t :
  exec (mkSystem st (mkPreparationGuard g true :: ps) ss) (OCommit g h t) =
    let '(r, st') := preparation_commit (mkPreparationGuard g true) h t st in
    Some (RGeneration r, mkSystem st' ps ss).
Proof.
  unfold exec; cbn [preparations submissions store take_guard pg_generation].
  by rewrite bool_decide_true by done.
Qed.
Lemma exec_own_drop st g ps ss :
  exec (mkSystem st (mkPreparationGuard g true :: ps) ss) (ODropPreparation g) =
    Some (RUnit (Ok tt), mkSystem (preparation_drop (mkPreparationGuard g true) st) ps ss).
Proof.
  unfold exec; cbn [preparations submissions store take_guard pg_generation].
  by rewrite bool_decide_true by done.
Qed.

(** What somebody else does with the slot leaves a preparation alone whose guard
    it does not consume. *)
Lemma use_keeps_preparation s o r s' g :
  shape s → exec s o = Some (r, s') → active_preparation (store s) = Some g → consumes o ≠ Some g →
  active_preparation (store s') = Some g.
Proof.
  intros Hs He Hg Hc. destruct (preparing_shape s g Hs Hg) as (st & n & -> & Hst & _).
  destruct o, st as [|g' h' t'|g' h']; try (by destruct (Hst g' h')); revert He Hc;
    slot_unfold; unfold consumes; repeat (case_bool_decide; cbn); intros; by simplify_eq/=.
Qed.

(** ** A submission among other operations *)

(** The submission guard that an operation consumes. *)
Definition consumes_submission (o : op) : option Z :=
  match o with ORestore g | OFinish g | ODropSubmission g => Some g | _ => None end.

(** A system in which a transaction is in flight. *)
Lemma inflight_shape s G :
  shape s → submissions s = [G] →
  ∃ g h t n, G = mkGuard g h (Some t) ∧
    s = mkSystem (mkStore (InFlight g h) n None) [] [mkGuard g h (Some t)].
Proof. destruct 1; cbn; intros [=]; subst. by do 4 eexists. Qed.

(** Taking a transaction puts it in flight. *)
Lemma taken_inflight s o r s' g t :
  shape s → exec s o = Some (r, s') → r = RTaken (Ok (g, t)) →
  submissions s = [] ∧ ∃ h, submissions s' = [mkGuard g h (Some t)].
Proof.
  intros Hs He ->. destruct Hs; destruct o; slot_unfold; repeat (case_bool_decide; cbn);
    intros; destruct_and?; simplify_eq/=; eauto.
Qed.

(** The operations that consume the guard in flight succeed. *)
Lemma consume_inflight s g h t :
  shape s → submissions s = [mkGuard g h (Some t)] →
  (∃ s', exec s (OFinish g) = Some (RTransaction (Ok t), s') ∧ state (store s') = Empty) ∧
  (∃ s', exec s (ORestore g) = Some (RUnit (Ok tt), s') ∧ state (store s') = Ready g h t) ∧
  (∃ s', exec s (ODropSubmission g) = Some (RUnit (Ok tt), s') ∧ state (store s') = Ready g h t).
Proof.
  intros Hs Hg. destruct (inflight_shape s _ Hs Hg) as (? & ? & ? & n & [= <- <- <-] & ->).
  split_and!; slot_done.
Qed.

(** What somebody else does with the slot leaves a submission alone whose guard
    it does not consume. *)
Lemma use_keeps_submission s o r s' g h t :
  shape s → exec s o = Some (r, s') → submissions s = [mkGuard g h (Some t)] →
  consumes_submission o ≠ Some g → submissions s' = [mkGuard g h (Some t)].
Proof.
  intros Hs He Hg Hc. destruct (inflight_shape s _ Hs Hg) as (? & ? & ? & n & [= <- <- <-] & ->).
  destruct o; revert He Hc; slot_unfold; unfold consumes_submission;
    repeat (case_bool_decide; cbn); intros; by simplify_eq/=.
Qed.

(** Where the guard of a submission comes from. *)
Lemma submissions_from s o r s' G :
  shape s → exec s o = Some (r, s') → submissions s' = [G] →
  (∃ t, r = RTaken (Ok (sg_generation G, t)) ∧ consumes_submission o = None) ∨
  submissions s = [G] ∧ consumes_submission o ≠ Some (sg_generation G).
Proof.
  intros Hs He HG. destruct Hs; destruct o; revert He HG; slot_unfold; unfold consumes_submission;
    repeat (case_bool_decide; cbn); intros; destruct_and?; simplify_eq/=; eauto; naive_solver.
Qed.

(** The transaction in the slot, ready or in flight. *)
Definition content (s : system) : option (Z * Hash * T) :=
  match state (store s), submissions s with
  | Ready g h t, _ => Some (g, h, t)
  | InFlight _ _, [mkGuard g h (Some t)] => Some (g, h, t)
  | _, _ => None
  end.

(** The slot is in flight as long as there is a guard. *)
Lemma inflight_guarded s :
  shape s →
  match state (store s) with
  | InFlight g h => ∃ t, submissions s = [mkGuard g h (Some t)] ∧ content s = Some (g, h, t)
  | _ => submissions s = []
  end.
Proof. destruct 1; cbn; by eauto. Qed.

(** The operations that put it there. *)
Definition puts (l : op * response) : option (Z * Hash * T) :=
  match l with
  | (OCommit _ h t, RGeneration (Ok g)) | (OReplace h t, RGeneration (Ok g)) => Some (g, h, t)
  | _ => None
  end.

(** The operations that take it away. *)
Definition empties (l : op * response) : bool :=
  match l with
  | (OFinish _, RTransaction (Ok _)) | (OCancel _, RTransaction (Ok _))
  | (OCancelExact _ _, RTransaction (Ok _)) => true
  | _ => false
  end.

Lemma content_step s o r s' c :
  shape s → exec s o = Some (r, s') → content s' = Some c →
  puts (o, r) = Some c ∨ content s = Some c ∧ puts (o, r) = None ∧ empties (o, r) = false.
Proof.
  intros Hs He. destruct Hs; destruct o; slot_unfold; unfold content, puts, empties;
    repeat (case_bool_decide; cbn); intros; destruct_and?; simplify_eq/=; eauto.
Qed.

(** What is in the slot is what was put there last, and it was not taken away
    since. *)
Lemma content_latest tr s c :
  reaches tr s → content s = Some c →
  ∃ tr1 l tr2, tr = tr1 ++ l :: tr2 ∧ puts l = Some c ∧
    ∀ l', l' ∈ tr2 → puts l' = None ∧ empties l' = false.
Proof.
  intros Hr. revert c. induction Hr as [s ->|s [o r] s' tr Hr IH He]; [done|].
  intros c Hc. destruct (content_step s o r s' c (reaches_shape _ _ Hr) He Hc) as [Hp|(Hc' & Hp)].
  - exists tr, (o, r), []. split_and!; [done|done|]. intros ? []%elem_of_nil.
  - destruct (IH c Hc') as (tr1 & l & tr2 & -> & Hl & Hlast). exists tr1, l, (tr2 ++ [(o, r)]).
    rewrite <-app_assoc. split_and!; [done|done|].
    intros l' [Hin| ->%list_elem_of_singleton]%elem_of_app; [by apply Hlast|done].
Qed.

Lemma inflight_content s g h t :
  shape s → submissions s = [mkGuard g h (Some t)] →
  content s = Some (g, h, t) ∧ state (store s) = InFlight g h ∧ active_preparation (store s) = None.
Proof.
  intros Hs Hg. by destruct (inflight_shape s _ Hs Hg) as (? & ? & ? & n & [= <- <- <-] & ->).
Qed.

(** A system with nothing but a transaction in flight. *)
Abbreviation flying n g h t :=
  (mkSystem (mkStore (InFlight g h) n None) [] [mkGuard g h (Some t)]).

(** Taking for submission, as an operation and as a handler sees it. *)
Lemma take_system s take o g h :
  shape s →
  (take = guard_take h ∧ o = OTake h ∨ take = guard_take_exact g h ∧ o = OTakeExact g h) →
  (∃ e, take (store s) = (Err e, store s) ∧ exec s o = Some (RTaken (Err e), s)) ∨
  ∃ n g' t, s = mkSystem (mkStore (Ready g' h t) n None) [] [] ∧
    take (store s) = (Ok (mkGuard g' h (Some t)), mkStore (InFlight g' h) n None) ∧
    exec s o = Some (RTaken (Ok (g', t)), flying n g' h t).
Proof.
  intros Hs [[-> ->]|[-> ->]]; destruct Hs; slot_done.
Qed.

Lemma inflight_ends n g h t :
  exec (flying n g h t) (OFinish g) =
    Some (RTransaction (Ok t), mkSystem (mkStore Empty n None) [] []) ∧
  exec (flying n g h t) (ORestore g) =
    Some (RUnit (Ok tt), mkSystem (mkStore (Ready g h t) n None) [] []) ∧
  exec (flying n g h t) (ODropSubmission g) =
    Some (RUnit (Ok tt), mkSystem (mkStore (Ready g h t) n None) [] []).
Proof. split_and!; slot_done. Qed.

(** ** Properties of every reachable system *)

(** Claim C3 (invariant): in every reachable system the store and its live
    guards agree: there is no submission guard unless the slot is in flight,
    and then exactly the guard of that generation and hash, still holding the
    transaction; there is exactly one live preparation guard when a
    preparation is active and none otherwise; generations in use are among
    the ones handed out, and a preparation in progress is newer than the slot. *)
Theorem prepared_wf tr s : reaches tr s → wf s.
Proof. intros Hr. by eapply wf_shape, reaches_shape. Qed.

(** Claim C1 (refinement): at every reachable system, each operation is
    enabled, answers and changes the system exactly as the abstract slot
    prescribes, for all eleven operations and all their error branches. *)
Theorem prepared_refines tr s o :
  reaches tr s →
  spec (abstraction s) o = prod_map id abstraction <$> exec s o.
Proof.
  intros Hs%reaches_shape. destruct (exec s o) as [[r s']|] eqn:He; simpl.
  - by apply exec_refines in He as [].
  - by apply exec_enabled in He.
Qed.

(** The four errors that report a broken internal
    invariant are never produced, whatever the interleaving of operations; in
    particular [commit], [restore] and [finish] on a live guard succeed. *)
Theorem prepared_consistent tr s o r s' e :
  reaches tr s → exec s o = Some (r, s') → response_error r = Some e →
  is_inconsistency e = false.
Proof.
  intros Hs%reaches_shape [_ Hx]%exec_refines; [|done].
  by eapply spec_consistent.
Qed.

(** Claim C2 (safety): the generations that were successfully finished are
    strictly increasing over the whole history, so that no prepared
    transaction is submitted to completion twice. *)
Theorem prepared_finished_once tr s :
  reaches tr s → StronglySorted Z.lt (finished tr).
Proof.
  induction 1 as [|s [o r] s' tr Hr IH He]; [constructor|].
  rewrite finished_app.
  destruct (finished_single o r) as [->|(g & -> & ->)]; [by rewrite app_nil_r|].
  apply StronglySorted_app_2; [|done|repeat constructor].
  pose proof (finished_retired _ _ Hr) as Hf.
  apply finish_retires in He as (_ & _ & _ & h & Hst); [|by eapply reaches_shape].
  unfold retired in Hf; rewrite Hst in Hf. rewrite Forall_forall in Hf.
  intros f ? Hin ->%list_elem_of_singleton. by apply Hf.
Qed.

(** The capability of a generation that has left the slot
    stays worthless in every later system: the readiness check, the claim for
    submission and the cancellation all reject it, whatever hash it is
    presented with, and leave the store as it was. *)
Theorem prepared_stale_rejected tr1 s g tr2 s' h :
  reaches tr1 s → stale g s → reachable (eq s) step tr2 s' →
  ∃ e, (e = PreparationInProgress ∨ e = NotFound) ∧
    ready_exact g h (store s') = (Err e, store s') ∧
    guard_take_exact g h (store s') = (Err e, store s') ∧
    cancel_exact g h (store s') = (Err e, store s').
Proof.
  intros Hr Hg Hr'.
  assert (shape s' ∧ stale g s') as [Hs Hst].
  { induction Hr' as [? <-|s1 [o r] s2 tr' _ [IH1 IH2] He];
      [by eauto using reaches_shape|].
    split; [by apply exec_refines in He as []|by eapply stale_step]. }
  clear Hr Hg Hr'. revert Hst. unfold stale.
  destruct Hs; cbn; unfold ready_exact, ensure_ready_exact; slot_unfold;
    repeat (case_bool_decide; cbn); intros; destruct_and?; simplify_eq/=; eauto 6.
Qed.

(** An operation that answers with an error leaves the store
    and every live guard exactly as they were. *)
Theorem prepared_error_frame tr s o r s' e :
  reaches tr s → exec s o = Some (r, s') → response_error r = Some e → s' = s.
Proof.
  intros Hs%reaches_shape Hx He.
  pose proof (exec_refines _ _ _ _ Hs Hx) as [Hs' Hsp].
  apply abstraction_inj; [done..|]. by eapply spec_error_frame.
Qed.

(** Claiming the ready transaction for submission and
    then dropping or restoring the guard gives back the very same system, so a
    failed submission can be retried with the same capability. *)
Theorem prepared_retry tr s g h t s1 :
  reaches tr s → exec s (OTakeExact g h) = Some (RTaken (Ok (g, t)), s1) →
  exec s1 (ODropSubmission g) = Some (RUnit (Ok tt), s) ∧
  exec s1 (ORestore g) = Some (RUnit (Ok tt), s).
Proof.
  intros Hs%reaches_shape He.
  assert (∃ n, s = mkSystem (mkStore (Ready g h t) n None) [] [] ∧
    s1 = mkSystem (mkStore (InFlight g h) n None) [] [mkGuard g h (Some t)])
    as (n & -> & ->).
  { destruct Hs; slot_unfold; repeat (case_bool_decide; cbn); intros;
      destruct_and?; simplify_eq/=; eauto. }
  slot_unfold; repeat (case_bool_decide; cbn); tauto.
Qed.

End Store.

Arguments PreparedTransactionState : clear implicits.
Arguments PreparedTransactionStore : clear implicits.
Arguments PreparedTransactionGuard : clear implicits.

(** ** Concrete runs *)

(** A first transaction is prepared, claimed, dropped, claimed again and
    finished; a second one is prepared and claimed. *)
Definition demo_ops : list (op (Hash := Z) (T := bool)) :=
  [OBegin; OCommit 1 7 true; OTakeExact 1 7; ODropSubmission 1; OTakeExact 1 7;
   OFinish 1; OBegin; ODropPreparation 2; OBegin; OCommit 3 8 false]%Z.

Definition demo_trace : list (op (Hash := Z) (T := bool) * response) :=
  default [] (fst <$> simulate demo_ops).

Definition demo_ready : system (Hash := Z) (T := bool) :=
  mkSystem (mkStore (Ready 3 8 false)%Z 3 None) [] [].
Definition demo_inflight : system (Hash := Z) (T := bool) :=
  mkSystem (mkStore (InFlight 3 8)%Z 3 None) [] [mkGuard 3 8 (Some false)]%Z.

Lemma demo_reaches : reaches demo_trace demo_ready.
Proof. by apply (simulate_reaches demo_ops). Qed.

Lemma prepared_wf_witness : wf demo_ready.
Proof. apply (prepared_wf demo_trace). apply demo_reaches. Defined.

Lemma prepared_refines_witness :
  spec (abstraction demo_ready) (OTakeExact 3 8)%Z
  = Some (RTaken (Ok (3%Z, false)), abstraction demo_inflight).
Proof.
  rewrite (prepared_refines demo_trace demo_ready (OTakeExact 3 8)%Z demo_reaches).
  reflexivity.
Defined.

Lemma prepared_consistent_witness : is_inconsistency NotFound = false.
Proof.
  apply (prepared_consistent demo_trace demo_ready (OTakeExact 1 7)%Z
           (RTaken (Err NotFound)) demo_ready NotFound demo_reaches);
    reflexivity.
Defined.

Lemma prepared_finished_once_witness : StronglySorted Z.lt [1%Z].
Proof. apply (prepared_finished_once demo_trace demo_ready demo_reaches). Defined.

Lemma prepared_stale_rejected_witness :
  ∃ e, (e = PreparationInProgress ∨ e = NotFound) ∧
    ready_exact 1%Z 7%Z (store demo_inflight) = (Err e, store demo_inflight) ∧
    guard_take_exact 1%Z 7%Z (store demo_inflight) = (Err e, store demo_inflight) ∧
    cancel_exact 1%Z 7%Z (store demo_inflight) = (Err e, store demo_inflight).
Proof.
  apply (prepared_stale_rejected demo_trace demo_ready 1%Z
           [(OTakeExact 3 8, RTaken (Ok (3, false)))]%Z demo_inflight 7%Z demo_reaches).
  - by repeat split.
  - apply (reachable_step _ _ demo_ready _ _ []); [by constructor|reflexivity].
Defined.

Lemma prepared_error_frame_witness : demo_ready = demo_ready.
Proof.
  apply (prepared_error_frame demo_trace demo_ready (OTakeExact 1 7)%Z
           (RTaken (Err NotFound)) demo_ready NotFound demo_reaches);
    reflexivity.
Defined.

Lemma prepared_retry_witness :
  exec demo_inflight (ODropSubmission 3%Z) = Some (RUnit (Ok tt), demo_ready) ∧
  exec demo_inflight (ORestore 3%Z) = Some (RUnit (Ok tt), demo_ready).
Proof.
  apply (prepared_retry demo_trace demo_ready 3%Z 8%Z false demo_inflight demo_reaches).
  reflexivity.
Defined.

End Slot.
