(* ===== verification/Errors.v ===== *)
(** * The structured error contract (rust/src/api/error.rs)

    [NativeXelisError] is the only error that crosses the bridge.  The file
    models its constructors, the classification of the wallet, network and
    JSON-RPC errors into package-owned codes, and the diagnostic messages.

    The wallet crate's error enums are not part of the repository; their
    variants are the ones the exhaustive matches of error.rs name, a payload
    that the code never inspects being kept as its printed form.  What the
    crates compute from an error (its kind and its display text) is the class
    [ErrorText]. *)

From S2P Require Import Prelude.

(** Version of the native structured error contract. *)
Definition NATIVE_XELIS_ERROR_VERSION : Z := 1.

Inductive NativeXelisErrorSource : Type :=
  | SrcXelisWalletFlutter | SrcXelisWallet | SrcXelisCommon | SrcDependency
  | SrcUnknown.

Inductive NativeXelisErrorCode : Type :=
  | CodeInvalidInput | CodeOffline | CodeNetwork | CodeRemoteRejected
  | CodeInsufficientFunds | CodeConflict | CodeNotFound | CodeUnsupported
  | CodeStorage | CodeSerialization | CodeInitialization | CodeInternal
  | CodeAuthenticationOrCorruptData | CodeNetworkMismatch | CodeCancelled
  | CodeOperationInProgress | CodeOperationFailed | CodeStreamLagged
  | CodeStreamClosedUnexpectedly.

#[export] Instance NativeXelisErrorSource_eq_dec : EqDecision NativeXelisErrorSource.
Proof. solve_decision. Defined.
#[export] Instance NativeXelisErrorCode_eq_dec : EqDecision NativeXelisErrorCode.
Proof. solve_decision. Defined.

Record NativeXelisError : Type := mkNativeXelisError {
  version : Z;
  source : NativeXelisErrorSource;
  code : NativeXelisErrorCode;
  native_kind_of : option string;
  native_code : option Z;
  diagnostic_message : string
}.

(** [NativeXelisError::new]. *)
Definition native_error_new (source : NativeXelisErrorSource)
    (code : NativeXelisErrorCode) (native_kind : option string)
    (native_code : option Z) (diagnostic_message : string) : NativeXelisError :=
  {| version := NATIVE_XELIS_ERROR_VERSION; source := source; code := code;
     native_kind_of := native_kind; native_code := native_code;
     diagnostic_message := diagnostic_message |}.

Definition xelis_wallet (code : NativeXelisErrorCode) (native_kind message : string) :=
  native_error_new SrcXelisWallet code (Some native_kind) None message.
Definition xelis_common (code : NativeXelisErrorCode) (native_kind message : string) :=
  native_error_new SrcXelisCommon code (Some native_kind) None message.
Definition xelis_wallet_flutter (code : NativeXelisErrorCode)
    (native_kind message : string) :=
  native_error_new SrcXelisWalletFlutter code (Some native_kind) None message.
Definition dependency (code : NativeXelisErrorCode) (native_kind message : string) :=
  native_error_new SrcDependency code (Some native_kind) None message.

(** The derived [Debug] names that [Display] prints. *)
Definition source_debug (s : NativeXelisErrorSource) : string :=
  match s with
  | SrcXelisWalletFlutter => "XelisWalletFlutter"
  | SrcXelisWallet => "XelisWallet"
  | SrcXelisCommon => "XelisCommon"
  | SrcDependency => "Dependency"
  | SrcUnknown => "Unknown"
  end.
Definition code_debug (c : NativeXelisErrorCode) : string :=
  match c with
  | CodeInvalidInput => "InvalidInput" | CodeOffline => "Offline"
  | CodeNetwork => "Network" | CodeRemoteRejected => "RemoteRejected"
  | CodeInsufficientFunds => "InsufficientFunds" | CodeConflict => "Conflict"
  | CodeNotFound => "NotFound" | CodeUnsupported => "Unsupported"
  | CodeStorage => "Storage" | CodeSerialization => "Serialization"
  | CodeInitialization => "Initialization" | CodeInternal => "Internal"
  | CodeAuthenticationOrCorruptData => "AuthenticationOrCorruptData"
  | CodeNetworkMismatch => "NetworkMismatch" | CodeCancelled => "Cancelled"
  | CodeOperationInProgress => "OperationInProgress"
  | CodeOperationFailed => "OperationFailed" | CodeStreamLagged => "StreamLagged"
  | CodeStreamClosedUnexpectedly => "StreamClosedUnexpectedly"
  end.

(** [impl Display for NativeXelisError]. *)
Definition native_error_to_string (e : NativeXelisError) : string :=
  "native XELIS error (" +:+ source_debug (source e) +:+ "/"
  +:+ code_debug (code e) +:+ ")".

(** ** The error values of the wallet crates *)

Inductive ReaderError : Type :=
  | ReaderInvalidSize
  | ReaderInvalidValue
  | ReaderInvalidHex
  | ReaderErrorTryInto
  | ReaderTrailingBytes
  | ReaderTryFromSliceError (payload : string)
  | ReaderAny (payload : string).

Inductive MnemonicsError : Type :=
  | InvalidWordsCount
  | InvalidChecksum
  | InvalidChecksumIndex
  | InvalidLanguageIndex
  | InvalidLanguage
  | UnknownWord (word : string) (position : Z)
  | InvalidKeySize
  | InvalidKeyFromBytes
  | InvalidChecksumCalculation
  | NoIndicesFound
  | WordListSanityCheckError
  | OutOfBounds.

Inductive ProofGenerationError : Type :=
  | ProofInsufficientFunds (required available : Z)
  | ProofOther (payload : string).

Inductive GenerationError : Type :=
  | GenerationProof (e : ProofGenerationError)
  | GenerationOther (payload : string).

(** multisig.rs: [PendingMultisigError]. *)
Inductive PendingMultisigError : Type :=
  | PendingAlreadyPending
  | PendingGenerationOverflow
  | PendingNotFound
  | PendingRequestMismatch.

(** An [anyhow::Error]: its alternate display ([{:#}], the whole context chain)
    and the typed cause that [downcast_ref] finds in it. *)
Inductive anyhow_error : Type :=
  | AnyhowError (alternate : string) (cause : any_cause)
with any_cause : Type :=
  | CauseJsonRPC (e : JsonRPCError)
  | CauseWallet (e : WalletError)
  | CauseReader (e : ReaderError)
  | CauseMnemonics (e : MnemonicsError)
  | CausePendingMultisig (e : PendingMultisigError)
  | CauseOther
with WalletError : Type :=
  | WAny (kind : string) (error : anyhow_error)
  | WNetworkError (error : NetworkError)
  | WNotOnlineMode | WNoNetworkHandler | WNoAPIServer | WRPCServerNotRunning
  | WAlreadyOnlineMode | WAssetAlreadyRegistered | WRPCServerAlreadyRunning
  | WTxNotBuilt
  | WNotEnoughFunds (payload : string) | WNotEnoughFundsForFee (payload : string)
  | WProofGenerationError (e : ProofGenerationError)
  | WGenerationError (e : GenerationError)
  | WAssetNotTracked (payload : string) | WBalanceNotFound (payload : string)
  | WDatabaseError (payload : string)
  | WInvalidEncryptedValue | WNoSalt | WNoMasterKeyFound | WNoPasswordSaltFound
  | WInvalidSaltSize | WNoSaltFound
  | WNoHandlerAvailable | WUnsupported
  | WAEADCipherFormatError (payload : string) | WDecompressionError (payload : string)
  | WInvalidDatetime | WTransactionTooBig (payload : string) | WInvalidKeyPair
  | WInvalidSignature | WExpectedOneTx | WTooManyTx | WTxOwnerIsReceiver
  | WInvalidAddressParams | WExtraDataTooBig (payload : string)
  | WRescanTopoheightTooHigh | WInvalidFeeProvided (payload : string) | WEmptyName
  | WNotTransactionSigner
  | WCipher | WCryptoError (payload : string) | WAlgorithmHashingError (payload : string)
  | WCiphertextDecode | WNonceGeneration | WPoisonError
  | WSemaphoreError (payload : string)
with NetworkError : Type :=
  | NetAlreadyRunning
  | NetNotRunning
  | NetTaskError (payload : string)
  | NetDaemonAPIError (error : anyhow_error)
  | NetNetworkMismatch
with JsonRPCError : Type :=
  | RPCAny (inner : anyhow_error)
  | RPCNoResponse (payload : string) | RPCTimedOut (payload : string)
  | RPCHttpError (payload : string) | RPCConnectionError (payload : string)
  | RPCSocketError (payload : string) | RPCSendError (payload : string)
  | RPCInvalidBatch | RPCMissingResult | RPCSerializationError (payload : string)
  | RPCEventNotRegistered
  | RPCParseError | RPCInvalidRequest | RPCMethodNotFound | RPCInvalidParams
  | RPCInternalError (message : string) (data : option string)
  | RPCServerError (rpc_code : Z) (message : string) (data : option string).

(** [error.downcast_ref::<JsonRPCError>()]. *)
Definition downcast_json_rpc (error : anyhow_error) : option JsonRPCError :=
  match error with AnyhowError _ (CauseJsonRPC e) => Some e | _ => None end.

(** What the wallet crates compute from their errors: [WalletError::kind], the
    [&'static str] of a [JsonRPCError] and the two [Display] implementations. *)
Class ErrorText := {
  wallet_kind : WalletError → string;
  wallet_to_string : WalletError → string;
  rpc_kind : JsonRPCError → string;
  rpc_to_string : JsonRPCError → string
}.

Inductive WalletOperationErrorPolicy : Type := Standard | Authentication.

Record NativeErrorClassification : Type := mkClassification {
  c_source : NativeXelisErrorSource;
  c_code : NativeXelisErrorCode;
  c_native_kind : option string;
  c_native_code : option Z
}.

Definition native_kind_option (native_kind : string) : option string :=
  if bool_decide (native_kind ≠ "UNSPECIFIED") then Some native_kind else None.

Definition typed_classification (source : NativeXelisErrorSource)
    (code : NativeXelisErrorCode) (native_kind : string) : NativeErrorClassification :=
  mkClassification source code (native_kind_option native_kind) None.

Definition safe_mnemonics_recovery_error (error : MnemonicsError) : string * string :=
  match error with
  | InvalidWordsCount =>
      ("MNEMONICS_INVALID_WORDS_COUNT", "Mnemonic has an invalid word count")
  | InvalidChecksum => ("MNEMONICS_INVALID_CHECKSUM", "Mnemonic checksum is invalid")
  | InvalidChecksumIndex =>
      ("MNEMONICS_INVALID_CHECKSUM_INDEX", "Mnemonic checksum index is invalid")
  | InvalidLanguageIndex =>
      ("MNEMONICS_INVALID_LANGUAGE_INDEX", "Mnemonic language index is invalid")
  | InvalidLanguage => ("MNEMONICS_INVALID_LANGUAGE", "Mnemonic language is invalid")
  | UnknownWord _ position =>
      ("MNEMONICS_UNKNOWN_WORD", "Unknown mnemonic word at position " +:+ uint_to_string position)
  | InvalidKeySize =>
      ("MNEMONICS_INVALID_KEY_SIZE", "Mnemonic produced an invalid key size")
  | InvalidKeyFromBytes =>
      ("MNEMONICS_INVALID_KEY_FROM_BYTES", "Mnemonic key bytes are invalid")
  | InvalidChecksumCalculation =>
      ("MNEMONICS_INVALID_CHECKSUM_CALCULATION", "Mnemonic checksum calculation failed")
  | NoIndicesFound =>
      ("MNEMONICS_NO_INDICES_FOUND", "Mnemonic word indices are unavailable")
  | WordListSanityCheckError =>
      ("MNEMONICS_WORD_LIST_SANITY_CHECK_FAILED", "Mnemonic word list validation failed")
  | OutOfBounds => ("MNEMONICS_OUT_OF_BOUNDS", "Mnemonic data is out of bounds")
  end.

Definition safe_private_key_reader_error (error : ReaderError) : string * string :=
  match error with
  | ReaderInvalidSize => ("PRIVATE_KEY_INVALID_SIZE", "Private key has an invalid size")
  | ReaderInvalidValue =>
      ("PRIVATE_KEY_INVALID_VALUE", "Private key contains an invalid value")
  | ReaderInvalidHex =>
      ("PRIVATE_KEY_INVALID_HEX", "Private key is not valid hexadecimal data")
  | ReaderErrorTryInto | ReaderTrailingBytes | ReaderTryFromSliceError _ =>
      ("PRIVATE_KEY_INVALID_ENCODING", "Private key encoding is invalid")
  | ReaderAny _ => ("PRIVATE_KEY_INVALID_DATA", "Private key data could not be decoded")
  end.

(** The data that [append_json_rpc_data] would append. *)
Definition json_rpc_data (error : JsonRPCError) : option string :=
  match error with
  | RPCInternalError _ data | RPCServerError _ _ data => data
  | _ => None
  end.

(** The newline that separates the appended data. *)
Definition newline : string := String (Ascii.ascii_of_nat 10) EmptyString.

Definition append_json_rpc_data (diagnostic : string) (error : JsonRPCError) : string :=
  match json_rpc_data error with
  | Some data => diagnostic +:+ newline +:+ "RPC data: " +:+ data
  | None => diagnostic
  end.

Definition anyhow_diagnostic_message (error : anyhow_error) : string :=
  let 'AnyhowError alternate _ := error in
  match downcast_json_rpc error with
  | Some rpc_error => append_json_rpc_data alternate rpc_error
  | None => alternate
  end.

Section Classification.
Context `{ErrorText}.

Definition wallet_diagnostic_message (error : WalletError) : string :=
  match error with
  | WAny _ inner => anyhow_diagnostic_message inner
  | WNetworkError (NetDaemonAPIError inner) => anyhow_diagnostic_message inner
  | _ => wallet_to_string error
  end.

Definition json_rpc_diagnostic_message (error : JsonRPCError) : string :=
  append_json_rpc_data
    match error with
    | RPCAny inner => anyhow_diagnostic_message inner
    | _ => rpc_to_string error
    end error.

(** [classify_json_rpc_error] below the typed causes of an [Any]. *)
Definition json_rpc_code (error : JsonRPCError) : NativeXelisErrorCode :=
  match error with
  | RPCNoResponse _ | RPCTimedOut _ | RPCHttpError _ | RPCConnectionError _
  | RPCSocketError _ | RPCSendError _ => CodeNetwork
  | RPCInvalidBatch | RPCMissingResult | RPCSerializationError _ => CodeSerialization
  | RPCEventNotRegistered => CodeNotFound
  | RPCAny _ => CodeInternal
  | RPCParseError | RPCInvalidRequest | RPCMethodNotFound | RPCInvalidParams
  | RPCInternalError _ _ | RPCServerError _ _ _ => CodeRemoteRejected
  end.

Definition json_rpc_native_code (error : JsonRPCError) : option Z :=
  match error with
  | RPCParseError => Some (-32700)%Z
  | RPCInvalidRequest => Some (-32600)%Z
  | RPCMethodNotFound => Some (-32601)%Z
  | RPCInvalidParams => Some (-32602)%Z
  | RPCInternalError _ _ => Some (-32603)%Z
  | RPCServerError c _ _ => Some c
  | _ => None
  end.

Definition json_rpc_own_classification (error : JsonRPCError) : NativeErrorClassification :=
  mkClassification SrcXelisCommon (json_rpc_code error)
    (native_kind_option (rpc_kind error)) (json_rpc_native_code error).

(** [classify_wallet_error], its two recursive calls passed as arguments. *)
Definition classify_wallet_error_with
    (classify_anyhow : anyhow_error → option NativeErrorClassification)
    (classify_network : NetworkError → NativeErrorClassification)
    (error : WalletError) : NativeErrorClassification :=
  let native_kind := wallet_kind error in
  match error with
  | WAny kind inner =>
      default (typed_classification SrcXelisWallet CodeInternal kind)
        (classify_anyhow inner)
  | WNetworkError error => classify_network error
  | WNotOnlineMode | WNoNetworkHandler | WNoAPIServer | WRPCServerNotRunning =>
      typed_classification SrcXelisWallet CodeOffline native_kind
  | WAlreadyOnlineMode | WAssetAlreadyRegistered | WRPCServerAlreadyRunning
  | WTxNotBuilt => typed_classification SrcXelisWallet CodeConflict native_kind
  | WNotEnoughFunds _ | WNotEnoughFundsForFee _ =>
      typed_classification SrcXelisWallet CodeInsufficientFunds native_kind
  | WProofGenerationError (ProofInsufficientFunds _ _)
  | WGenerationError (GenerationProof (ProofInsufficientFunds _ _)) =>
      typed_classification SrcXelisCommon CodeInsufficientFunds native_kind
  | WAssetNotTracked _ | WBalanceNotFound _ =>
      typed_classification SrcXelisWallet CodeNotFound native_kind
  | WDatabaseError _ => typed_classification SrcXelisWallet CodeStorage native_kind
  | WInvalidEncryptedValue | WNoSalt | WNoMasterKeyFound | WNoPasswordSaltFound
  | WInvalidSaltSize | WNoSaltFound =>
      typed_classification SrcXelisWallet CodeAuthenticationOrCorruptData native_kind
  | WNoHandlerAvailable | WUnsupported =>
      typed_classification SrcXelisWallet CodeUnsupported native_kind
  | WAEADCipherFormatError _ | WGenerationError _ | WProofGenerationError _
  | WDecompressionError _ =>
      typed_classification SrcXelisCommon CodeInvalidInput native_kind
  | WInvalidDatetime | WTransactionTooBig _ | WInvalidKeyPair | WInvalidSignature
  | WExpectedOneTx | WTooManyTx | WTxOwnerIsReceiver | WInvalidAddressParams
  | WExtraDataTooBig _ | WRescanTopoheightTooHigh | WInvalidFeeProvided _
  | WEmptyName | WNotTransactionSigner =>
      typed_classification SrcXelisWallet CodeInvalidInput native_kind
  | WCipher | WCryptoError _ | WAlgorithmHashingError _ | WCiphertextDecode
  | WNonceGeneration | WPoisonError | WSemaphoreError _ =>
      typed_classification SrcXelisWallet CodeInternal native_kind
  end.

(** The mutually recursive classifiers.  [classify_anyhow_error] is the
    standard policy. *)
Fixpoint classify_anyhow_error_with_policy (error : anyhow_error)
    (policy : WalletOperationErrorPolicy) : option NativeErrorClassification :=
  match error with
  | AnyhowError _ (CauseJsonRPC json_rpc_error) =>
      Some (classify_json_rpc_error json_rpc_error)
  | AnyhowError _ (CauseWallet error) =>
      Some (classify_wallet_error_with_policy error policy)
  | AnyhowError _ _ => None
  end
with classify_wallet_error_with_policy (error : WalletError)
    (policy : WalletOperationErrorPolicy) : NativeErrorClassification :=
  match error, policy with
  | WCryptoError _, Authentication =>
      typed_classification SrcXelisWallet CodeAuthenticationOrCorruptData
        (wallet_kind error)
  | WAny kind inner, _ =>
      default (typed_classification SrcXelisWallet CodeInternal kind)
        (classify_anyhow_error_with_policy inner policy)
  | _, _ =>
      classify_wallet_error_with
        (λ inner, classify_anyhow_error_with_policy inner Standard)
        classify_network_error error
  end
with classify_network_error (error : NetworkError) : NativeErrorClassification :=
  match error with
  | NetAlreadyRunning =>
      typed_classification SrcXelisWallet CodeConflict "NETWORK_ALREADY_RUNNING"
  | NetNotRunning =>
      typed_classification SrcXelisWallet CodeOffline "NETWORK_NOT_RUNNING"
  | NetTaskError _ =>
      typed_classification SrcXelisWallet CodeInternal "NETWORK_TASK_ERROR"
  | NetDaemonAPIError error =>
      default (typed_classification SrcXelisWallet CodeNetwork "DAEMON_API_ERROR")
        (classify_anyhow_error_with_policy error Standard)
  | NetNetworkMismatch =>
      typed_classification SrcXelisWallet CodeNetworkMismatch "NETWORK_MISMATCH"
  end
with classify_json_rpc_error (error : JsonRPCError) : NativeErrorClassification :=
  match error with
  | RPCAny inner =>
      default (json_rpc_own_classification error)
        (classify_anyhow_error_with_policy inner Standard)
  | _ => json_rpc_own_classification error
  end.

Definition classify_anyhow_error (error : anyhow_error) : option NativeErrorClassification :=
  classify_anyhow_error_with_policy error Standard.

Definition classify_wallet_error : WalletError → NativeErrorClassification :=
  classify_wallet_error_with classify_anyhow_error classify_network_error.

(** [classify_storage_operation_error]: an untyped [Any] stays unclassified. *)
Fixpoint classify_storage_operation_error (error : anyhow_error) :
    option NativeErrorClassification :=
  match error with
  | AnyhowError _ (CauseJsonRPC e) => Some (classify_json_rpc_error e)
  | AnyhowError _ (CauseWallet (WAny _ inner)) => classify_storage_operation_error inner
  | AnyhowError _ (CauseWallet wallet_error) => Some (classify_wallet_error wallet_error)
  | AnyhowError _ _ => None
  end.

Definition from_classification (c : NativeErrorClassification) (message : string) :
    NativeXelisError :=
  native_error_new (c_source c) (c_code c) (c_native_kind c) (c_native_code c) message.

Definition from_wallet_operation_with_policy (error : anyhow_error)
    (fallback_code : NativeXelisErrorCode) (fallback_kind : string)
    (policy : WalletOperationErrorPolicy) : NativeXelisError :=
  from_classification
    (default (typed_classification SrcXelisWallet fallback_code fallback_kind)
       (classify_anyhow_error_with_policy error policy))
    (anyhow_diagnostic_message error).

Definition from_wallet_operation (error : anyhow_error)
    (fallback_code : NativeXelisErrorCode) (fallback_kind : string) : NativeXelisError :=
  from_wallet_operation_with_policy error fallback_code fallback_kind Standard.

Definition from_wallet_authentication_operation (error : anyhow_error)
    (fallback_code : NativeXelisErrorCode) (fallback_kind : string) : NativeXelisError :=
  from_wallet_operation_with_policy error fallback_code fallback_kind Authentication.

Definition from_wallet_storage_operation (error : anyhow_error) (fallback_kind : string) :
    NativeXelisError :=
  from_classification
    (default (typed_classification SrcXelisWallet CodeStorage fallback_kind)
       (classify_storage_operation_error error))
    (anyhow_diagnostic_message error).

Definition from_wallet_seed_recovery_operation (error : anyhow_error) : NativeXelisError :=
  match error with
  | AnyhowError _ (CauseMnemonics mnemonics_error) =>
      let '(native_kind, message) := safe_mnemonics_recovery_error mnemonics_error in
      native_error_new SrcXelisWallet CodeInvalidInput (Some native_kind) None message
  | _ => from_wallet_operation error CodeInternal "WALLET_RECOVER_SEED_FAILED"
  end.

Definition from_wallet_private_key_recovery_operation (error : anyhow_error) :
    NativeXelisError :=
  match error with
  | AnyhowError _ (CauseReader reader_error) =>
      let '(native_kind, message) := safe_private_key_reader_error reader_error in
      native_error_new SrcXelisCommon CodeInvalidInput (Some native_kind) None message
  | _ => from_wallet_operation error CodeInternal "WALLET_RECOVER_PRIVATE_KEY_FAILED"
  end.

(** [impl From<WalletError>] and [impl From<JsonRPCError>]. *)
Definition from_wallet_error (error : WalletError) : NativeXelisError :=
  from_classification (classify_wallet_error error) (wallet_diagnostic_message error).
Definition from_json_rpc_error (error : JsonRPCError) : NativeXelisError :=
  from_classification (classify_json_rpc_error error) (json_rpc_diagnostic_message error).

(** ** Reference definitions for the theorems *)

(** [wraps w e]: [w] carries the wallet error [e] below any number of untyped
    wrappers: [anyhow] contexts, daemon API errors and JSON-RPC [Any]s. *)
Inductive wraps : WalletError → WalletError → Prop :=
  | wraps_here e : wraps e e
  | wraps_any kind d w e : wraps w e → wraps (WAny kind (AnyhowError d (CauseWallet w))) e
  | wraps_daemon d w e :
      wraps w e → wraps (WNetworkError (NetDaemonAPIError (AnyhowError d (CauseWallet w)))) e
  | wraps_rpc kind d d' w e :
      wraps w e →
      wraps (WAny kind (AnyhowError d (CauseJsonRPC (RPCAny (AnyhowError d' (CauseWallet w))))))
        e.

(** The error below the outermost [WalletError::Any] layers. *)
Fixpoint strip_any (e : anyhow_error) : anyhow_error :=
  match e with
  | AnyhowError _ (CauseWallet (WAny _ inner)) => strip_any inner
  | _ => e
  end.

Definition is_crypto (e : anyhow_error) : bool :=
  match e with AnyhowError _ (CauseWallet (WCryptoError _)) => true | _ => false end.

Definition set_code (c : NativeXelisErrorCode) (e : NativeXelisError) : NativeXelisError :=
  {| version := version e; source := source e; code := c;
     native_kind_of := native_kind_of e; native_code := native_code e;
     diagnostic_message := diagnostic_message e |}.

(** A cause that no classifier recognises. *)
Definition untyped (e : anyhow_error) : bool :=
  match e with
  | AnyhowError _ (CauseJsonRPC _) | AnyhowError _ (CauseWallet _) => false
  | _ => true
  end.

(** The mnemonic error without the word the user typed. *)
Definition redact_mnemonics (e : MnemonicsError) : MnemonicsError :=
  match e with UnknownWord _ position => UnknownWord EmptyString position | e => e end.

(** A numeric JSON-RPC code comes with [XelisCommon] and [RemoteRejected]. *)
Definition rpc_code_wf (c : NativeErrorClassification) : Prop :=
  c_native_code c ≠ None → c_source c = SrcXelisCommon ∧ c_code c = CodeRemoteRejected.

(** ** Theorems *)

Lemma classify_wallet_error_policy e :
  classify_wallet_error_with_policy e Standard = classify_wallet_error e.
Proof. by destruct e. Qed.

Lemma wraps_classify w e : wraps w e → classify_wallet_error w = classify_wallet_error e.
Proof.
  induction 1 as [|? ? ? ? _ IH|? ? ? _ IH|? ? ? ? ? _ IH]; [done|..]; cbn;
    rewrite <-IH; apply classify_wallet_error_policy.
Qed.

(** Wrapping a wallet error in any number of [anyhow]
    contexts, daemon-API errors or JSON-RPC [Any]s changes neither the source,
    nor the code, nor the kinds that Dart receives. *)
Theorem wrapping_preserves_classification w e :
  wraps w e →
  let n := from_wallet_error w in let n' := from_wallet_error e in
  source n = source n' ∧ code n = code n' ∧
  native_kind_of n = native_kind_of n' ∧ native_code n = native_code n'.
Proof. intros Hw%wraps_classify; cbn. by rewrite Hw. Qed.

Lemma typed_classified e policy :
  untyped e = false → ∃ c, classify_anyhow_error_with_policy e policy = Some c.
Proof. destruct e as [d []]; cbn; eauto; discriminate. Qed.
Lemma strip_typed e : untyped (strip_any e) = false → untyped e = false.
Proof. by destruct e as [d []]. Qed.
Lemma crypto_typed e : is_crypto (strip_any e) = true → untyped e = false.
Proof. by destruct e as [d []]. Qed.

(** Below the [Any] layers the two policies disagree on [CryptoError] only. *)
Lemma policy_strip_any : ∀ e,
  classify_anyhow_error_with_policy e Authentication
  = if is_crypto (strip_any e)
    then (λ c, mkClassification (c_source c) CodeAuthenticationOrCorruptData
                 (c_native_kind c) (c_native_code c))
         <$> classify_anyhow_error_with_policy e Standard
    else classify_anyhow_error_with_policy e Standard.
Proof.
  fix IH 1. intros [d [r|w| | | |]]; try (clear IH; done).
  destruct w; try (clear IH; done). cbn. rewrite IH; clear IH.
  destruct (is_crypto (strip_any error)) eqn:Hc; [|done].
  by destruct (typed_classified error Standard) as [c ->]; [apply crypto_typed|].
Qed.

Lemma storage_strip_any : ∀ e,
  classify_storage_operation_error e
  = if untyped (strip_any e) then None else classify_anyhow_error e.
Proof.
  fix IH 1. intros [d [r|w| | | |]]; try (clear IH; done).
  destruct w; try (clear IH; done). cbn. rewrite IH; clear IH.
  destruct (untyped (strip_any error)) eqn:Hu; [done|].
  unfold classify_anyhow_error; cbn.
  by destruct (typed_classified error Standard) as [c ->]; [apply strip_typed|].
Qed.

(** An operation that authenticates reports exactly what
    the standard classification reports, except that a decryption failure,
    below any number of [Any] wrappers, becomes [AuthenticationOrCorruptData]
    with every other field unchanged. *)
Theorem authentication_policy e c k :
  from_wallet_authentication_operation e c k
  = if is_crypto (strip_any e)
    then set_code CodeAuthenticationOrCorruptData (from_wallet_operation e c k)
    else from_wallet_operation e c k.
Proof.
  unfold from_wallet_authentication_operation, from_wallet_operation,
    from_wallet_operation_with_policy. rewrite policy_strip_any.
  destruct (is_crypto (strip_any e)) eqn:Hc; [|done].
  by destruct (typed_classified e Standard) as [? ->]; [apply crypto_typed|].
Qed.

(** A storage operation that fails with an untyped cause,
    however deeply wrapped in [Any]s, is reported as [Storage] with the
    operation's own kind and never as [Internal]; with a typed cause it is
    classified like any other wallet operation. *)
Theorem storage_policy e c k :
  from_wallet_storage_operation e k
  = if untyped (strip_any e)
    then native_error_new SrcXelisWallet CodeStorage (native_kind_option k) None
           (anyhow_diagnostic_message e)
    else from_wallet_operation e c k.
Proof.
  unfold from_wallet_storage_operation, from_wallet_operation,
    from_wallet_operation_with_policy. rewrite storage_strip_any.
  destruct (untyped (strip_any e)) eqn:Hu; [done|]. unfold classify_anyhow_error.
  by destruct (typed_classified e Standard) as [? ->]; [apply strip_typed|].
Qed.

(** What a failed seed recovery sends across the bridge
    is determined by the redacted error alone: neither the word the user typed
    nor the text of the underlying error can be recovered from it. *)
Theorem seed_recovery_redacts d d' e e' :
  redact_mnemonics e = redact_mnemonics e' →
  from_wallet_seed_recovery_operation (AnyhowError d (CauseMnemonics e))
  = from_wallet_seed_recovery_operation (AnyhowError d' (CauseMnemonics e')).
Proof. destruct e, e'; cbn; intros; by simplify_eq. Qed.

Lemma typed_classification_wf s c k : rpc_code_wf (typed_classification s c k).
Proof. by intros []. Qed.
Hint Resolve typed_classification_wf : wallet.

Lemma default_wf (d : NativeErrorClassification) o :
  rpc_code_wf d → (∀ c, o = Some c → rpc_code_wf c) → rpc_code_wf (default d o).
Proof. destruct o; naive_solver. Qed.

Lemma json_rpc_own_wf e : rpc_code_wf (json_rpc_own_classification e).
Proof. destruct e; unfold rpc_code_wf; cbn; intros; split; congruence. Qed.
Hint Resolve json_rpc_own_wf : wallet.

Lemma classify_wf : ∀ e policy c,
  classify_anyhow_error_with_policy e policy = Some c → rpc_code_wf c.
Proof.
  fix IH 1. intros [d [r|w| | | |]] policy c; cbn; intros [= <-].
  - destruct r; cbn; auto with wallet. apply default_wf; eauto with wallet.
  - destruct w, policy; cbn; auto with wallet;
      try (apply default_wf; eauto with wallet);
      try (destruct error; cbn; auto with wallet; apply default_wf; eauto with wallet);
      repeat case_match; auto with wallet.
Qed.

End Classification.

(** ** Concrete runs *)

(** A text instance for the witnesses. *)
Definition plain_text : ErrorText := {|
  wallet_kind e := match e with WNotOnlineMode => "NOT_ONLINE_MODE" | _ => "UNSPECIFIED" end;
  wallet_to_string _ := "wallet error";
  rpc_kind _ := "UNSPECIFIED";
  rpc_to_string _ := "rpc error"
|}.

Lemma wrapping_preserves_classification_witness :
  let n := @from_wallet_error plain_text
    (WAny "UNSPECIFIED" (AnyhowError "context: offline" (CauseWallet WNotOnlineMode))) in
  let n' := @from_wallet_error plain_text WNotOnlineMode in
  source n = source n' ∧ code n = code n' ∧
  native_kind_of n = native_kind_of n' ∧ native_code n = native_code n'.
Proof.
  apply (@wrapping_preserves_classification plain_text). repeat constructor.
Defined.

Lemma seed_recovery_redacts_witness :
  @from_wallet_seed_recovery_operation plain_text
    (AnyhowError "bad word secret" (CauseMnemonics (UnknownWord "secret" 3)))
  = @from_wallet_seed_recovery_operation plain_text
    (AnyhowError "bad word other" (CauseMnemonics (UnknownWord "other" 3))).
Proof. apply (@seed_recovery_redacts plain_text). reflexivity. Defined.
