(* ===== verification/Submission.v ===== *)
(** * Outcomes of a submission (rust/src/api/wallet/transactions/submission.rs)

    How the result of submitting a prepared transaction to the daemon is
    resolved: submitted, retryable, rejected by the daemon, or failed locally. *)

From S2P Require Import Prelude Errors.

Module Submission.

Inductive SubmitErrorClass : Type := Retryable | DaemonRejected | LocalFailure.

Inductive SubmissionResolution : Type :=
  | ResSubmitted
  | ResRetryable (error : WalletError)
  | ResDaemonRejected (error : WalletError)
  | ResLocalFailure (error : WalletError).

(** [bail!]: an untyped [anyhow] error with a message. *)
Definition ensure_wallet_online (is_online : bool) : result anyhow_error unit :=
  ensure is_online
    (AnyhowError "Wallet is offline, transaction cannot be submitted" CauseOther).

Definition is_daemon_rejection (error : anyhow_error) : bool :=
  match downcast_json_rpc error with
  | Some (RPCParseError | RPCInvalidRequest | RPCMethodNotFound | RPCInvalidParams
         | RPCInternalError _ _ | RPCServerError _ _ _) => true
  | _ => false
  end.

Definition is_retryable_rpc_error (error : anyhow_error) : bool :=
  match downcast_json_rpc error with
  | Some (RPCNoResponse _ | RPCTimedOut _ | RPCHttpError _ | RPCConnectionError _
         | RPCSocketError _ | RPCSendError _) => true
  | _ => false
  end.

Definition classify_submit_error (error : WalletError) : SubmitErrorClass :=
  match error with
  | WAny _ inner =>
      if is_retryable_rpc_error inner then Retryable
      else if is_daemon_rejection inner then DaemonRejected
      else LocalFailure
  | WNotOnlineMode | WNoNetworkHandler => Retryable
  | _ => LocalFailure
  end.

Definition resolve_submission (submit_result : result WalletError unit) :
    SubmissionResolution :=
  match submit_result with
  | Ok _ => ResSubmitted
  | Err error =>
      match classify_submit_error error with
      | Retryable => ResRetryable error
      | DaemonRejected => ResDaemonRejected error
      | LocalFailure => ResLocalFailure error
      end
  end.

Section Theorems.
Context `{ErrorText}.

Lemma retryable_code error :
  classify_submit_error error = Retryable →
  code (from_wallet_error error) = CodeNetwork ∨
  code (from_wallet_error error) = CodeOffline.
Proof.
  destruct error; cbn; try done; eauto. unfold is_retryable_rpc_error, is_daemon_rejection.
  destruct error as [d [[]| | | | |]]; cbn; eauto; done.
Qed.

Lemma rejected_code error :
  classify_submit_error error = DaemonRejected →
  code (from_wallet_error error) = CodeRemoteRejected ∧
  native_code (from_wallet_error error) ≠ None.
Proof.
  destruct error; cbn; try done. unfold is_retryable_rpc_error, is_daemon_rejection.
  destruct error as [d [[]| | | | |]]; cbn; done.
Qed.

Lemma submission_agrees submit_result :
  match resolve_submission submit_result with
  | ResSubmitted => submit_result = Ok tt
  | ResRetryable error =>
      submit_result = Err error ∧
      (code (from_wallet_error error) = CodeNetwork ∨
       code (from_wallet_error error) = CodeOffline)
  | ResDaemonRejected error =>
      submit_result = Err error ∧
      code (from_wallet_error error) = CodeRemoteRejected ∧
      native_code (from_wallet_error error) ≠ None
  | ResLocalFailure error =>
      submit_result = Err error ∧
      classify_submit_error error = LocalFailure
  end.
Proof.
  destruct submit_result as [[]|error]; unfold resolve_submission; [done|].
  destruct (classify_submit_error error) eqn:He; split;
    auto using retryable_code, rejected_code.
Qed.

(** The two decisions taken on a failed submission agree
    with each other: the prepared transaction is kept for a retry only when
    Dart is told [Network] or [Offline], and it is reported as rejected by the
    daemon only with [RemoteRejected] and the daemon's numeric code. *)
Theorem submission_classes_agree submit_result :
  match resolve_submission submit_result with
  | ResSubmitted => submit_result = Ok tt
  | ResRetryable error =>
      submit_result = Err error ∧
      (code (from_wallet_error error) = CodeNetwork ∨
       code (from_wallet_error error) = CodeOffline)
  | ResDaemonRejected error =>
      submit_result = Err error ∧
      code (from_wallet_error error) = CodeRemoteRejected ∧
      native_code (from_wallet_error error) ≠ None
  | ResLocalFailure error =>
      submit_result = Err error ∧
      classify_submit_error error = LocalFailure
  end.
Proof. apply submission_agrees. Qed.

End Theorems.
End Submission.
