(* ===== verification/External.v ===== *)
(** * What the wallet uses of the xelis crates

    Hashes, keys, addresses and extra-data elements are values of the
    [xelis_common] crate.  Their operations are the fields of the classes
    below, and the documented behaviour that a theorem relies on is a law class
    with a concrete instance at the end of the file.  [DataValue] and
    [DataElement] are the enums that address_dtos.rs matches exhaustively. *)

From Stdlib Require Import Ascii.
From S2P Require Import Prelude Errors.

Abbreviation bytes := (list Byte.byte).

#[export] Instance byte_eq_dec : EqDecision Byte.byte := Byte.byte_eq_dec.

(** [bail!("...")] and [anyhow!("...")]. *)
Definition bail (message : string) : anyhow_error := AnyhowError message CauseOther.

(** [.context("...")] on an error: the context comes first in the alternate
    display, and [downcast_ref] still finds the cause. *)
Definition context (message : string) (e : anyhow_error) : anyhow_error :=
  let 'AnyhowError alternate cause := e in
  AnyhowError (message +:+ ": " +:+ alternate) cause.

(** Of a [WalletError] or a [ReaderError] converted by [?] or [into()]. *)
Definition anyhow_of_wallet `{ErrorText} (e : WalletError) : anyhow_error :=
  AnyhowError (wallet_to_string e) (CauseWallet e).

(** [xelis_common::crypto::Hash]. *)
Class HashLib := {
  Hash : Type;
  Hash_eq_dec :: EqDecision Hash;
  hash_to_hex : Hash → string;
  (** [Serializer::from_hex]. *)
  hash_from_hex : string → result anyhow_error Hash;
  (** [FromStr], whose error is a message. *)
  hash_from_str : string → result string Hash;
  XELIS_ASSET : Hash
}.

Class HashLaws `{!HashLib} : Prop := {
  hash_from_to_hex h : hash_from_hex (hash_to_hex h) = Ok h;
  hash_from_to_str h : hash_from_str (hash_to_hex h) = Ok h
}.

(** [xelis_common::api::DataValue] and [DataElement]; an [IndexMap] is the list
    of its entries in insertion order. *)
Inductive DataValue `{!HashLib} : Type :=
  | DBool (value : bool)
  | DString (value : string)
  | DU8 (value : Z) | DU16 (value : Z) | DU32 (value : Z) | DU64 (value : Z)
  | DU128 (value : Z)
  | DHash (value : Hash)
  | DBlob (value : bytes).

Inductive DataElement `{!HashLib} : Type :=
  | DValue (value : DataValue)
  | DArray (values : list DataElement)
  | DFields (fields : list (DataValue * DataElement)).

#[export] Instance DataValue_eq_dec `{!HashLib} : EqDecision DataValue.
Proof. solve_decision. Defined.

(** [xelis_common::crypto::Address], [PublicKey] and [AddressType]. *)
Class AddressLib `{!HashLib} := {
  PublicKey : Type;
  PublicKey_eq_dec :: EqDecision PublicKey;
  Address : Type;
  Address_eq_dec :: EqDecision Address;
  address_from_string : string → result anyhow_error Address;
  (** [to_string] of the error of [from_string]. *)
  address_error_to_string : anyhow_error → string;
  address_to_string : Address → string;
  is_mainnet : Address → bool;
  is_normal : Address → bool;
  get_public_key : Address → PublicKey;
  (** [Address::new]; [None] is [AddressType::Normal]. *)
  address_new : bool → option DataElement → PublicKey → Address;
  (** The integrated data and the normal address of the same key. *)
  extract_data : Address → option DataElement * Address;
  (** [Serializer::size] and [to_bytes] of the data. *)
  data_size : DataElement → Z;
  data_to_bytes : DataElement → bytes;
  EXTRA_DATA_LIMIT_SIZE : Z
}.

Class AddressLaws `{!HashLib, !AddressLib} : Prop := {
  address_from_to_string a :
    is_normal a = true → address_from_string (address_to_string a) = Ok a;
  is_normal_extract a : is_normal a = bool_decide ((extract_data a).1 = None);
  extract_normal a : is_normal a = true → extract_data a = (None, a);
  extract_base a : is_normal (extract_data a).2 = true;
  extract_mainnet a : is_mainnet (extract_data a).2 = is_mainnet a;
  extract_public_key a : get_public_key (extract_data a).2 = get_public_key a;
  extract_new m d k : extract_data (address_new m d k) = (d, address_new m None k);
  new_mainnet m d k : is_mainnet (address_new m d k) = m;
  new_self a :
    address_new (is_mainnet a) (extract_data a).1 (get_public_key a) = a
}.

(** [xelis_common::network::Network]. *)
Inductive Network : Type := Mainnet | Testnet | Stagenet | Devnet.
#[export] Instance Network_eq_dec : EqDecision Network.
Proof. solve_decision. Defined.
Definition network_is_mainnet (n : Network) : bool :=
  match n with Mainnet => true | _ => false end.

#[export] Instance DataElement_eq_dec `{!HashLib} : EqDecision DataElement.
Proof.
  unfold EqDecision. fix go 1. intros x y.
  destruct x as [v|vs|fs], y as [v'|vs'|fs']; try (right; discriminate).
  - destruct (decide (v = v')); [left|right]; congruence.
  - cut ({vs = vs'} + {vs ≠ vs'}); [intros [?|?]; [left|right]; congruence|].
    revert vs'; induction vs as [|x vs IH]; intros [|y vs'];
      try (left; reflexivity); try (right; discriminate).
    destruct (go x y); [|right; congruence].
    destruct (IH vs'); [left|right]; congruence.
  - cut ({fs = fs'} + {fs ≠ fs'}); [intros [?|?]; [left|right]; congruence|].
    revert fs'; induction fs as [|[k x] fs IH]; intros [|[k' y] fs'];
      try (left; reflexivity); try (right; discriminate).
    destruct (decide (k = k')); [|right; congruence].
    destruct (go x y); [|right; congruence].
    destruct (IH fs'); [left|right]; congruence.
Defined.

(** ** A concrete instance *)

(** Hashes print with a leading [f]; addresses as a network prefix and the
    key.  Used to evaluate the definitions on concrete inputs. *)

Definition demo_hash : HashLib := {|
  Hash := string;
  hash_to_hex h := String "f"%char h;
  hash_from_hex s :=
    match s with String "f"%char h => Ok h | _ => Err (bail "invalid hex") end;
  hash_from_str s := match s with String "f"%char h => Ok h | _ => Err "invalid hash"%string end;
  XELIS_ASSET := "xelis"%string
|}.

Lemma demo_hash_laws : @HashLaws demo_hash.
Proof. by split. Qed.

Record demo_addr : Type := mkDemoAddr {
  demo_mainnet : bool;
  demo_data : option (@DataElement demo_hash);
  demo_key : string
}.

#[export] Instance demo_addr_eq_dec : EqDecision demo_addr.
Proof. solve_decision. Defined.

Definition demo_address : @AddressLib demo_hash := {|
  PublicKey := string;
  Address := demo_addr;
  address_from_string s :=
    match s with
    | String "x"%char (String "e"%char (String "l"%char k)) => Ok (mkDemoAddr true None k)
    | String "x"%char (String "e"%char (String "t"%char k)) => Ok (mkDemoAddr false None k)
    | String "x"%char (String "e"%char (String "i"%char k)) =>
        Ok (mkDemoAddr true (Some (@DValue demo_hash (@DBool demo_hash true))) k)
    | _ => Err (bail "invalid address")
    end;
  address_error_to_string _ := "invalid address"%string;
  address_to_string a :=
    match demo_data a, demo_mainnet a with
    | None, true => "xel" +:+ demo_key a
    | None, false => "xet" +:+ demo_key a
    | Some _, _ => "xei" +:+ demo_key a
    end%string;
  is_mainnet := demo_mainnet;
  is_normal a := match demo_data a with None => true | Some _ => false end;
  get_public_key := demo_key;
  address_new := mkDemoAddr;
  extract_data a := (demo_data a, mkDemoAddr (demo_mainnet a) None (demo_key a));
  data_size _ := 1%Z;
  data_to_bytes _ := [];
  EXTRA_DATA_LIMIT_SIZE := 1024
|}.

Lemma demo_address_laws : @AddressLaws demo_hash demo_address.
Proof.
  split; try done.
  - intros [[] [] k]; done.
  - intros [m [] k]; done.
  - intros [m [] k]; done.
  - intros [m [] k]; done.
Qed.
