(* ===== verification/Text.v ===== *)
(** * Rust strings

    A [String] is its UTF-8 bytes.  This file holds the string operations the
    sources use: [str::trim] with Unicode white space and the number of
    characters of a string. *)

From Stdlib Require Import Ascii.
From S2P Require Import Prelude.

Definition byte_of (a : ascii) : Z := Z.of_N (N_of_ascii a).

(** How many bytes the white-space character at the head of the bytes takes; 0
    when the head is no white space ([char::is_whitespace]). *)
Definition whitespace_head (s : list Z) : nat :=
  match s with
  | b :: s' =>
      if bool_decide (b = 32 ∨ 9 ≤ b ≤ 13)%Z then 1
      else if bool_decide (b = 194)%Z then
        match s' with
        | c :: _ => if bool_decide (c = 133 ∨ c = 160)%Z then 2 else 0
        | _ => 0
        end
      else
        match s' with
        | c :: d :: _ =>
            if bool_decide ((b = 225 ∧ c = 154 ∧ d = 128) ∨
                            (b = 226 ∧ c = 128 ∧ (128 ≤ d ≤ 138 ∨ d = 168 ∨ d = 169 ∨ d = 175)) ∨
                            (b = 226 ∧ c = 129 ∧ d = 159) ∨
                            (b = 227 ∧ c = 128 ∧ d = 128))%Z
            then 3 else 0
        | _ => 0
        end
  | [] => 0
  end.

(** The same for the last character, on the reversed bytes. *)
Definition whitespace_last (s : list Z) : nat :=
  match s with
  | [b] => whitespace_head [b]
  | [c; b] => if bool_decide (whitespace_head [c] = 1) then 1 else
                if bool_decide (whitespace_head [b; c] = 2) then 2 else 0
  | d :: c :: b :: _ =>
      if bool_decide (whitespace_head [d] = 1) then 1
      else if bool_decide (whitespace_head [c; d] = 2) then 2
      else if bool_decide (whitespace_head [b; c; d] = 3) then 3 else 0
  | [] => 0
  end.

(** Drop white space while there is some; the length bounds the iterations. *)
Fixpoint strip (head : list Z → nat) (fuel : nat) (s : list Z) : list Z :=
  match fuel with
  | O => s
  | S fuel' => match head s with O => s | n => strip head fuel' (drop n s) end
  end.

Definition trim_start_bytes (s : list Z) : list Z := strip whitespace_head (length s) s.
Definition trim_end_bytes (s : list Z) : list Z :=
  reverse (strip whitespace_last (length s) (reverse s)).

Fixpoint to_bytes (s : string) : list Z :=
  match s with EmptyString => [] | String a s' => byte_of a :: to_bytes s' end.
Definition ascii_of_byte (b : Z) : ascii := ascii_of_N (Z.to_N b).
Fixpoint of_bytes (l : list Z) : string :=
  match l with [] => EmptyString | b :: l' => String (ascii_of_byte b) (of_bytes l') end.

(** [str::trim]. *)
Definition trim (s : string) : string :=
  of_bytes (trim_end_bytes (trim_start_bytes (to_bytes s))).

(** [str::chars().count()]: the bytes that are not continuation bytes. *)
Definition chars_count (s : string) : Z :=
  zlen (filter (λ b, ¬ (128 ≤ b < 192))%Z (to_bytes s)).

(** [str::len] in bytes. *)
Definition str_len (s : string) : Z := zlen (to_bytes s).

Lemma of_to_bytes s : of_bytes (to_bytes s) = s.
Proof.
  induction s as [|a s IH]; [done|]. cbn. rewrite IH. f_equal.
  unfold ascii_of_byte, byte_of. rewrite N2Z.id. apply ascii_N_embedding.
Qed.

Lemma byte_of_range a : (0 ≤ byte_of a < 256)%Z.
Proof. unfold byte_of. pose proof (N_ascii_bounded a). lia. Qed.

Lemma to_bytes_range s : Forall (λ b, 0 ≤ b < 256)%Z (to_bytes s).
Proof. induction s; constructor; [apply byte_of_range|done]. Qed.

Lemma to_of_bytes l : Forall (λ b, 0 ≤ b < 256)%Z l → to_bytes (of_bytes l) = l.
Proof.
  induction 1 as [|b l Hb _ IH]; [done|]. cbn. rewrite IH. f_equal.
  unfold ascii_of_byte, byte_of. rewrite N_ascii_embedding by lia. lia.
Qed.

(** Stripping stops where there is no white space left. *)
Lemma strip_done head fuel s :
  (∀ s, head s ≤ length s)%nat → (length s ≤ fuel)%nat → head (strip head fuel s) = 0%nat.
Proof.
  intros Hh. revert s; induction fuel as [|fuel IH]; intros s Hs; cbn.
  - specialize (Hh s). lia.
  - destruct (head s) as [|n] eqn:He; [done|]. apply IH.
    rewrite length_drop. lia.
Qed.

Lemma strip_id head fuel s : head s = 0%nat → strip head fuel s = s.
Proof. destruct fuel; cbn; [done|]. by intros ->. Qed.

Lemma strip_suffix head fuel s : ∃ n, strip head fuel s = drop n s.
Proof.
  revert s; induction fuel as [|fuel IH]; intros s; cbn; [by exists 0%nat|].
  destruct (head s) as [|n]; [by exists 0%nat|].
  destruct (IH (drop (S n) s)) as [k ->]. exists (S n + k)%nat. by rewrite drop_drop.
Qed.

Lemma whitespace_head_le s : (whitespace_head s ≤ length s)%nat.
Proof.
  unfold whitespace_head. destruct s as [|b [|c [|d s]]]; cbn;
    repeat case_bool_decide; lia.
Qed.

Lemma whitespace_last_le s : (whitespace_last s ≤ length s)%nat.
Proof.
  unfold whitespace_last. destruct s as [|b [|c [|d s]]];
    [cbn; lia|apply whitespace_head_le|..]; repeat case_bool_decide; cbn; lia.
Qed.

(** White space at the head is decided by its own bytes. *)
Lemma whitespace_head_app p q :
  whitespace_head (p ++ q) = 0%nat → whitespace_head p = 0%nat.
Proof.
  destruct p as [|b [|c [|d p]]]; [done|..]; cbn [app whitespace_head];
    repeat case_bool_decide; try done; destruct q as [|x [|y q]];
    repeat case_bool_decide; done.
Qed.

(** Trimming twice is trimming once. *)
Lemma trim_idemp s : trim (trim s) = trim s.
Proof.
  unfold trim. set (x := trim_start_bytes (to_bytes s)).
  assert (whitespace_head x = 0%nat) as Hx.
  { apply strip_done; [apply whitespace_head_le|done]. }
  set (y := trim_end_bytes x).
  assert (∃ n, y = take n x) as [n Hy].
  { unfold y, trim_end_bytes. destruct (strip_suffix whitespace_last (length x) (reverse x)) as [k ->].
    exists (length x - k)%nat. by rewrite drop_reverse, reverse_involutive. }
  assert (whitespace_last (reverse y) = 0%nat) as Hlast.
  { unfold y, trim_end_bytes. rewrite reverse_involutive.
    apply strip_done; [apply whitespace_last_le|by rewrite length_reverse]. }
  rewrite to_of_bytes.
  - unfold trim_start_bytes. rewrite strip_id.
    + unfold trim_end_bytes. rewrite strip_id by done. by rewrite reverse_involutive.
    + rewrite Hy. apply (whitespace_head_app _ (drop n x)). by rewrite take_drop.
  - rewrite Hy. apply Forall_take.
    destruct (strip_suffix whitespace_head (length (to_bytes s)) (to_bytes s)) as [k Hk].
    unfold x, trim_start_bytes. rewrite Hk. apply Forall_drop, to_bytes_range.
Qed.
