(* ===== verification/Addresses.v ===== *)
(** * The address API
    (rust/src/api/models/address_dtos.rs and rust/src/api/utils.rs)

    The tagged wire format of integrated-address data, its conversions from and
    to the protocol's [DataElement], and the functions that parse an address
    and build an integrated one. *)

From S2P Require Import Prelude Errors External.

Module Wire.
Section Wire.
Context `{!HashLib}.

Definition DATA_ELEMENT_COLLECTION_LIMIT : Z := u8_max.
Definition DATA_ELEMENT_BLOB_LIMIT : Z := u16_max.

Inductive NativeXelisUnsignedIntegerType : Type := U8 | U16 | U32 | U64 | U128.

Inductive NativeXelisDataValue : Type :=
  | NBoolValue (value : bool)
  | NStringValue (value : string)
  | NUnsignedInteger (integer_type : NativeXelisUnsignedIntegerType)
      (decimal_value : string)
  | NHashValue (hex_value : string)
  | NBlobValue (value : bytes).

Inductive NativeXelisDataElement : Type :=
  | NValue (value : NativeXelisDataValue)
  | NArray (values : list NativeXelisDataElement)
  | NFields (fields : list NativeXelisDataField)
with NativeXelisDataField : Type :=
  | NField (key : NativeXelisDataValue) (value : NativeXelisDataElement).

Definition invalid_data (native_kind message : string) : NativeXelisError :=
  xelis_wallet_flutter CodeInvalidInput native_kind message.

Definition unsigned (integer_type : NativeXelisUnsignedIntegerType) (value : Z) :
    NativeXelisDataValue :=
  NUnsignedInteger integer_type (uint_to_string value).

(** [NativeXelisDataValue::from_xelis]. *)
Definition value_from_xelis (value : DataValue) : NativeXelisDataValue :=
  match value with
  | DBool value => NBoolValue value
  | DString value => NStringValue value
  | DU8 value => unsigned U8 value
  | DU16 value => unsigned U16 value
  | DU32 value => unsigned U32 value
  | DU64 value => unsigned U64 value
  | DU128 value => unsigned U128 value
  | DHash value => NHashValue (hash_to_hex value)
  | DBlob value => NBlobValue value
  end.

(** The largest value of a width. *)
Definition width_max (t : NativeXelisUnsignedIntegerType) : Z :=
  match t with
  | U8 => u8_max | U16 => u16_max | U32 => u32_max | U64 => u64_max | U128 => u128_max
  end.

Definition parse_canonical (t : NativeXelisUnsignedIntegerType) (decimal_value : string) :
    result NativeXelisError Z :=
  value ← ok_or (invalid_data "DATA_ELEMENT_UNSIGNED_INVALID"
      "Data-element unsigned integer is invalid or outside its declared width")
    (parse_uint (width_max t) decimal_value);
  if bool_decide (uint_to_string value ≠ decimal_value)
  then Err (invalid_data "DATA_ELEMENT_UNSIGNED_NON_CANONICAL"
      "Data-element unsigned integer must use canonical base-10 notation")
  else Ok value.

Definition parse_unsigned (integer_type : NativeXelisUnsignedIntegerType)
    (decimal_value : string) : result NativeXelisError DataValue :=
  match integer_type with
  | U8 => DU8 <$> parse_canonical U8 decimal_value
  | U16 => DU16 <$> parse_canonical U16 decimal_value
  | U32 => DU32 <$> parse_canonical U32 decimal_value
  | U64 => DU64 <$> parse_canonical U64 decimal_value
  | U128 => DU128 <$> parse_canonical U128 decimal_value
  end.

(** [NativeXelisDataValue::into_xelis]. *)
Definition value_into_xelis (value : NativeXelisDataValue) :
    result NativeXelisError DataValue :=
  match value with
  | NBoolValue value => Ok (DBool value)
  | NStringValue value => Ok (DString value)
  | NUnsignedInteger integer_type decimal_value =>
      parse_unsigned integer_type decimal_value
  | NHashValue hex_value =>
      map_err (invalid_data "DATA_ELEMENT_HASH_INVALID")
        (DHash <$> hash_from_str hex_value)
  | NBlobValue value =>
      if bool_decide (DATA_ELEMENT_BLOB_LIMIT < zlen value)%Z
      then Err (invalid_data "DATA_ELEMENT_BLOB_TOO_LARGE"
        ("Data-element blob contains " +:+ uint_to_string (zlen value)
         +:+ " bytes; the protocol limit is "
         +:+ uint_to_string DATA_ELEMENT_BLOB_LIMIT))
      else Ok (DBlob value)
  end.

Definition ensure_collection_limit (length : Z) (collection : string) :
    result NativeXelisError unit :=
  if bool_decide (DATA_ELEMENT_COLLECTION_LIMIT < length)%Z
  then Err (invalid_data "DATA_ELEMENT_COLLECTION_TOO_LARGE"
    ("Data-element " +:+ collection +:+ " contains " +:+ uint_to_string length
     +:+ " entries; the protocol limit is "
     +:+ uint_to_string DATA_ELEMENT_COLLECTION_LIMIT))
  else Ok tt.

(** [NativeXelisDataElement::from_xelis]. *)
Fixpoint from_xelis (value : DataElement) : NativeXelisDataElement :=
  match value with
  | DValue value => NValue (value_from_xelis value)
  | DArray values => NArray (map from_xelis values)
  | DFields fields =>
      NFields (map (λ '(key, value), NField (value_from_xelis key) (from_xelis value))
                 fields)
  end.

(** The loop over the fields of [into_xelis], with the [IndexMap] built so far;
    [convert] is the recursive call. *)
Definition insert_fields (convert : NativeXelisDataElement → result NativeXelisError DataElement) :
    list (DataValue * DataElement) → list NativeXelisDataField →
    result NativeXelisError (list (DataValue * DataElement)) :=
  fix go converted fields :=
    match fields with
    | [] => Ok converted
    | NField key value :: fields' =>
        key ← value_into_xelis key;
        if bool_decide (key ∈ converted.*1)
        then Err (invalid_data "DATA_ELEMENT_FIELD_DUPLICATE"
          "Data-element fields contain a duplicate key")
        else
          value ← convert value;
          go (converted ++ [(key, value)]) fields'
    end.

(** [NativeXelisDataElement::into_xelis]. *)
Fixpoint into_xelis (value : NativeXelisDataElement) :
    result NativeXelisError DataElement :=
  match value with
  | NValue value => value ← value_into_xelis value; Ok (DValue value)
  | NArray values =>
      ensure_collection_limit (zlen values) "array";;
      DArray <$> mapM into_xelis values
  | NFields fields =>
      ensure_collection_limit (zlen fields) "fields";;
      DFields <$> insert_fields into_xelis [] fields
  end.

(** The protocol's own limits on a data element. *)
Definition value_wf (value : DataValue) : Prop :=
  match value with
  | DU8 z => in_range u8_max z
  | DU16 z => in_range u16_max z
  | DU32 z => in_range u32_max z
  | DU64 z => in_range u64_max z
  | DU128 z => in_range u128_max z
  | DBlob b => (zlen b ≤ DATA_ELEMENT_BLOB_LIMIT)%Z
  | _ => True
  end.

Inductive element_wf : DataElement → Prop :=
  | value_element_wf v : value_wf v → element_wf (DValue v)
  | array_element_wf vs :
      (zlen vs ≤ DATA_ELEMENT_COLLECTION_LIMIT)%Z → Forall element_wf vs →
      element_wf (DArray vs)
  | fields_element_wf fs :
      (zlen fs ≤ DATA_ELEMENT_COLLECTION_LIMIT)%Z → NoDup fs.*1 →
      Forall (λ f, value_wf f.1 ∧ element_wf f.2) fs → element_wf (DFields fs).

(** A wire value whose hashes are written the way [to_hex] writes them. *)
Definition value_canonical (value : NativeXelisDataValue) : Prop :=
  match value with
  | NHashValue s => ∀ h, hash_from_str s = Ok h → hash_to_hex h = s
  | _ => True
  end.

Inductive canonical : NativeXelisDataElement → Prop :=
  | value_canonical_element v : value_canonical v → canonical (NValue v)
  | array_canonical_element vs : Forall canonical vs → canonical (NArray vs)
  | fields_canonical_element fs : Forall field_canonical fs → canonical (NFields fs)
with field_canonical : NativeXelisDataField → Prop :=
  | field_canonical_intro k v :
      value_canonical k → canonical v → field_canonical (NField k v).

(** Induction on data elements with the hypothesis for every child. *)
Lemma DataElement_ind_nested (P : DataElement → Prop) :
  (∀ v, P (DValue v)) → (∀ vs, Forall P vs → P (DArray vs)) →
  (∀ fs, Forall (λ f, P f.2) fs → P (DFields fs)) → ∀ e, P e.
Proof.
  intros Hv Ha Hf. fix IH 1. intros [v|vs|fs].
  - apply Hv.
  - apply Ha. induction vs; constructor; auto.
  - apply Hf. induction fs as [|[k v] fs IHf]; constructor; auto.
Qed.

Lemma NativeXelisDataElement_ind_nested (P : NativeXelisDataElement → Prop) :
  (∀ v, P (NValue v)) → (∀ vs, Forall P vs → P (NArray vs)) →
  (∀ fs, Forall (λ f, let 'NField _ v := f in P v) fs → P (NFields fs)) → ∀ e, P e.
Proof.
  intros Hv Ha Hf. fix IH 1. intros [v|vs|fs].
  - apply Hv.
  - apply Ha. induction vs; constructor; auto.
  - apply Hf. induction fs as [|[k v] fs IHf]; constructor; auto.
Qed.

Lemma parse_canonical_Ok t s z :
  parse_canonical t s = Ok z ↔ uint_to_string z = s ∧ in_range (width_max t) z.
Proof.
  unfold parse_canonical. rewrite bind_Ok. setoid_rewrite ok_or_Ok. split.
  - intros (z' & Hp & Hz). destruct (decide (uint_to_string z' = s)) as [He|He].
    + rewrite bool_decide_false in Hz by auto. simplify_eq.
      split; [done|by eapply parse_uint_Some].
    + by rewrite bool_decide_true in Hz.
  - intros [<- ?]. exists z. rewrite parse_uint_to_string by done.
    by rewrite bool_decide_false by auto.
Qed.

Lemma parse_unsigned_Ok t s v :
  parse_unsigned t s = Ok v → value_from_xelis v = NUnsignedInteger t s ∧ value_wf v.
Proof.
  destruct t; cbn; intros (z & Hz & <-)%fmap_Ok;
    apply parse_canonical_Ok in Hz as [<- ?]; done.
Qed.

Section Roundtrip.
Context `{!HashLaws}.

Lemma value_roundtrip v : value_wf v → value_into_xelis (value_from_xelis v) = Ok v.
Proof.
  destruct v; cbn; intros Hv; try done.
  1-5: rewrite fmap_Ok; eexists; split; [by apply parse_canonical_Ok|done].
  - by rewrite hash_from_to_str.
  - by rewrite bool_decide_false by lia.
Qed.

Lemma insert_fields_roundtrip fs : ∀ acc,
  NoDup (acc ++ fs).*1 →
  Forall (λ f, value_wf f.1 ∧ into_xelis (from_xelis f.2) = Ok f.2) fs →
  insert_fields into_xelis acc
    (map (λ '(key, value), NField (value_from_xelis key) (from_xelis value)) fs)
  = Ok (acc ++ fs).
Proof.
  induction fs as [|[k v] fs IH]; intros acc Hd Hf; cbn.
  { by rewrite app_nil_r. }
  apply Forall_cons in Hf as [[Hk Hv] Hf]. cbn in *.
  rewrite value_roundtrip by done. cbn.
  rewrite bool_decide_false.
  - rewrite Hv; cbn. rewrite IH; rewrite <-?app_assoc; done.
  - rewrite fmap_app, fmap_cons in Hd. apply NoDup_app in Hd as (_ & Hd & _).
    intros Hin; eapply Hd; [done|]. by left.
Qed.

Lemma element_roundtrip e : element_wf e → into_xelis (from_xelis e) = Ok e.
Proof.
  induction e as [v|vs IH|fs IH] using DataElement_ind_nested; inversion 1; subst; cbn.
  - by rewrite value_roundtrip.
  - unfold ensure_collection_limit, zlen. rewrite length_map.
    rewrite bool_decide_false by (unfold zlen in *; lia). cbn.
    rewrite (proj2 (mapM_Ok _ _ vs)); [done|].
    apply Forall2_fmap_l, Forall_Forall2_diag.
    by eapply Forall_impl; [apply Forall_and; split; [apply IH|]|]; naive_solver.
  - unfold ensure_collection_limit, zlen. rewrite length_map.
    rewrite bool_decide_false by (unfold zlen in *; lia). cbn.
    rewrite insert_fields_roundtrip; [done..|].
    rewrite Forall_forall in *. naive_solver.
Qed.

End Roundtrip.

Lemma value_into_wf v x : value_into_xelis v = Ok x → value_wf x.
Proof.
  destruct v; cbn; intros Hx; simplify_eq; try done.
  - by eapply parse_unsigned_Ok.
  - rewrite map_err_Ok, fmap_Ok in Hx. by destruct Hx as (? & _ & <-).
  - case_bool_decide; simplify_eq/=. lia.
Qed.

Lemma value_into_canonical v x :
  value_into_xelis v = Ok x → value_canonical v → value_from_xelis x = v.
Proof.
  destruct v; cbn; intros Hx Hc; simplify_eq/=; try done.
  - by eapply parse_unsigned_Ok.
  - rewrite map_err_Ok, fmap_Ok in Hx. destruct Hx as (? & ? & <-). cbn.
    by rewrite Hc.
  - case_bool_decide; by simplify_eq/=.
Qed.

(** What the field loop adds to the map it starts from. *)
Lemma insert_fields_Ok fs : ∀ acc out,
  insert_fields into_xelis acc fs = Ok out → NoDup acc.*1 →
  ∃ new, out = acc ++ new ∧ NoDup out.*1 ∧
    Forall2 (λ f p, let 'NField k v := f in
      value_into_xelis k = Ok p.1 ∧ into_xelis v = Ok p.2) fs new.
Proof.
  induction fs as [|[k v] fs IH]; intros acc out; cbn.
  { intros [= <-] ?. exists []. rewrite app_nil_r. auto. }
  intros (k' & Hk & Hg)%bind_Ok Hd. case_bool_decide as Hin; [done|].
  apply bind_Ok in Hg as (v' & Hv & Hg). apply IH in Hg as (new & -> & ? & ?).
  - exists ((k', v') :: new). rewrite <-app_assoc in *. auto.
  - rewrite fmap_app. apply NoDup_app; split_and!; [done| |apply NoDup_singleton].
    intros x Hx ->%list_elem_of_singleton. done.
Qed.

Lemma collection_limit_Ok n c u :
  ensure_collection_limit n c = Ok u → (n ≤ DATA_ELEMENT_COLLECTION_LIMIT)%Z.
Proof. unfold ensure_collection_limit. case_bool_decide; [done|lia]. Qed.

Lemma element_into w e :
  into_xelis w = Ok e → element_wf e ∧ (canonical w → from_xelis e = w).
Proof.
  revert e. induction w as [v|vs IH|fs IH] using NativeXelisDataElement_ind_nested;
    intros e; cbn.
  - intros (x & Hx & [= <-])%bind_Ok.
    split; [constructor; by eapply value_into_wf|].
    inversion 1; subst; cbn. by erewrite value_into_canonical.
  - intros (u & Hu%collection_limit_Ok & (xs & Hxs%mapM_Ok & <-)%fmap_Ok)%bind_Ok.
    pose proof (Forall2_length _ _ _ Hxs) as Hlen. split.
    + constructor; [unfold zlen in *; lia|]. clear -IH Hxs.
      induction Hxs; inversion IH; subst; constructor; naive_solver.
    + inversion_clear 1 as [|? Hcs|]; cbn; f_equal. clear -IH Hxs Hcs.
      induction Hxs; inversion IH; inversion Hcs; subst; cbn; f_equal; naive_solver.
  - intros (u & Hu%collection_limit_Ok & (xs & Hxs & <-)%fmap_Ok)%bind_Ok.
    apply insert_fields_Ok in Hxs as (new & -> & Hd & Hn); [|constructor].
    cbn in *. pose proof (Forall2_length _ _ _ Hn) as Hlen. split.
    + constructor; [unfold zlen in *; lia|done|]. clear -IH Hn.
      induction Hn as [|[] [] ? ? []]; inversion IH; subst; constructor; cbn in *;
        naive_solver eauto using value_into_wf.
    + inversion_clear 1 as [| |? Hcs]; cbn; f_equal. clear -IH Hn Hcs.
      induction Hn as [|[] [] ? ? []]; inversion IH; inversion Hcs; subst; cbn in *;
        f_equal; [|naive_solver].
      match goal with H : field_canonical _ |- _ => inversion H; subst end.
      f_equal; [eauto using value_into_canonical|naive_solver].
Qed.

(** Claim C32 (roundtrip): every data element within the protocol's limits
    survives the projection to the Dart wire format and back, with its integer
    widths, its nesting and the order of its fields. *)
Theorem data_element_roundtrip `{!HashLaws} e :
  element_wf e → into_xelis (from_xelis e) = Ok e.
Proof. apply element_roundtrip. Qed.

(** Whatever Dart sends, a wire value that is accepted is
    within the protocol's limits at every level (collections, blobs, integer
    widths, distinct keys), and one whose hashes are canonical is exactly the
    projection of what it was decoded to: no two wire values are confused. *)
Theorem data_element_accepts w e :
  into_xelis w = Ok e → element_wf e ∧ (canonical w → from_xelis e = w).
Proof. apply element_into. Qed.

End Wire.
End Wire.

Module AddressApi.
Import Wire.
Section Api.
Context `{!HashLib, !AddressLib}.

Record NativeXelisAddressDescriptor : Type := mkDescriptor {
  encoded_address : string;
  base_address : string;
  descriptor_is_mainnet : bool;
  integrated_data : option NativeXelisDataElement
}.

Definition is_address_valid (str_address : string) (network : Network) : bool :=
  match address_from_string str_address with
  | Ok address =>
      match network with
      | Mainnet => is_mainnet address
      | Testnet => negb (is_mainnet address)
      | Devnet => negb (is_mainnet address)
      | Stagenet => negb (is_mainnet address)
      end
  | Err _ => false
  end.

Definition parse_xelis_address (address : string) : result NativeXelisError Address :=
  map_err (λ error, xelis_common CodeInvalidInput "ADDRESS_INVALID"
                      (address_error_to_string error))
    (address_from_string address).

Definition address_descriptor (address : Address) : NativeXelisAddressDescriptor :=
  let '(integrated_data, base_address) := extract_data address in
  {| encoded_address := address_to_string address;
     base_address := address_to_string base_address;
     descriptor_is_mainnet := is_mainnet address;
     integrated_data := from_xelis <$> integrated_data |}.

Definition parse_address (address : string) :
    result NativeXelisError NativeXelisAddressDescriptor :=
  address_descriptor <$> parse_xelis_address address.

Definition make_integrated_address (base_address : string)
    (integrated_data : NativeXelisDataElement) :
    result NativeXelisError NativeXelisAddressDescriptor :=
  base_address ← parse_xelis_address base_address;
  ensure (is_normal base_address)
    (xelis_common CodeInvalidInput "ADDRESS_NOT_NORMAL"
       "An integrated address cannot be used as the base of another integrated address");;
  let mainnet := is_mainnet base_address in
  let public_key := get_public_key base_address in
  integrated_data ← into_xelis integrated_data;
  let serialized_size := data_size integrated_data in
  if bool_decide (EXTRA_DATA_LIMIT_SIZE < serialized_size)%Z
  then Err (xelis_common CodeInvalidInput "INTEGRATED_ADDRESS_DATA_TOO_LARGE"
    ("Integrated-address data serializes to " +:+ uint_to_string serialized_size
     +:+ " bytes; the protocol limit is " +:+ uint_to_string EXTRA_DATA_LIMIT_SIZE))
  else Ok (address_descriptor (address_new mainnet (Some integrated_data) public_key)).

(** Building an integrated address on an accepted
    normal address and an accepted, canonical, small enough payload succeeds;
    the descriptor keeps the network, the base address and the payload exactly
    as given, and parsing the printed address gives the same descriptor. *)
Theorem integrated_address_roundtrip `{!AddressLaws} base a w e :
  address_from_string base = Ok a → is_normal a = true →
  into_xelis w = Ok e → canonical w → (data_size e ≤ EXTRA_DATA_LIMIT_SIZE)%Z →
  let a' := address_new (is_mainnet a) (Some e) (get_public_key a) in
  address_from_string (address_to_string a') = Ok a' →
  let d := mkDescriptor (address_to_string a') (address_to_string a) (is_mainnet a) (Some w) in
  make_integrated_address base w = Ok d ∧ parse_address (encoded_address d) = Ok d.
Proof.
  intros Ha Hn Hw Hc Hs a' Hp d.
  assert (address_descriptor a' = d) as Hd.
  { unfold address_descriptor, a', d. rewrite extract_new, new_mainnet; cbn.
    destruct (element_into _ _ Hw) as [_ ->]; [|done].
    pose proof (new_self a) as Hself. rewrite (extract_normal a Hn) in Hself; cbn in Hself.
    by rewrite Hself. }
  split.
  - unfold make_integrated_address, parse_xelis_address. rewrite Ha; cbn.
    rewrite Hn, Hw; cbn. rewrite bool_decide_false by lia. by rewrite <-Hd.
  - unfold parse_address, parse_xelis_address; cbn. rewrite Hp; cbn. by rewrite Hd.
Qed.

End Api.

(** ** Concrete runs *)

#[local] Existing Instances demo_hash demo_address.

Lemma data_element_roundtrip_witness :
  into_xelis
    (from_xelis (DFields [(DString "id", DArray [DValue (DU128 u128_max); DValue (DU8 7)])]))
  = Ok (DFields [(DString "id", DArray [DValue (DU128 u128_max); DValue (DU8 7)])]).
Proof.
  apply (@data_element_roundtrip demo_hash demo_hash_laws).
  repeat first [constructor | split | done | by apply not_elem_of_nil]; done.
Defined.

Lemma data_element_accepts_witness :
  element_wf (DValue (DU16 512)) ∧
  (canonical (NValue (NUnsignedInteger U16 "512")) →
   from_xelis (DValue (DU16 512)) = NValue (NUnsignedInteger U16 "512")).
Proof. apply (@data_element_accepts demo_hash). reflexivity. Defined.

Lemma integrated_address_roundtrip_witness :
  let d := mkDescriptor "xeialice" "xelalice" true (Some (NValue (NBoolValue true))) in
  @make_integrated_address demo_hash demo_address "xelalice" (NValue (NBoolValue true)) = Ok d ∧
  @parse_address demo_hash demo_address (encoded_address d) = Ok d.
Proof.
  apply (@integrated_address_roundtrip demo_hash demo_address demo_address_laws
    "xelalice" (mkDemoAddr true None "alice") (NValue (NBoolValue true))
    (@DValue demo_hash (@DBool demo_hash true))); try reflexivity.
  - repeat constructor.
  - done.
Defined.

End AddressApi.
