(* ===== verification/Builders.v ===== *)
(** * Building transactions
    (rust/src/api/wallet/transactions/builders.rs, wallet/amounts.rs and the
    transaction types of models/wallet_dtos.rs)

    Fee policies, amounts after fees, the construction of atomic transfers with
    their review projection, and the conversion of decimal amounts. *)

From Stdlib Require Import SpecFloat.
From S2P Require Import Prelude Errors External Addresses.

Module Builders.
Import Wire.

(** ** Amounts (amounts.rs) *)

(** An [f64]. *)
Definition f64 : Type := spec_float.

Definition f64_of_Z (z : Z) : f64 := binary_normalize 53 1024 z 0 false.
Definition f64_is_finite (x : f64) : bool :=
  match x with S754_zero _ | S754_finite _ _ _ => true | _ => false end.
Definition f64_mul : f64 → f64 → f64 := SFmul 53 1024.
Definition f64_sub : f64 → f64 → f64 := SFsub 53 1024.

(** [f64::round]: half away from zero. *)
Definition f64_round (x : f64) : f64 :=
  match x with
  | S754_finite s m e =>
      if bool_decide (0 ≤ e)%Z then x
      else
        let half := Z.shiftl 1 (- e - 1) in
        let r := Z.shiftr (Z.pos m + half) (- e) in
        binary_normalize 53 1024 (if s then - r else r)%Z 0 s
  | _ => x
  end.

(** The saturating cast [as u64]. *)
Definition f64_as_u64 (x : f64) : Z :=
  match x with
  | S754_finite false m e =>
      Z.min u64_max (if bool_decide (0 ≤ e)%Z then Z.shiftl (Z.pos m) e
                     else Z.shiftr (Z.pos m) (- e))
  | S754_infinity false => u64_max
  | _ => 0
  end.

(** [1e-6]. *)
Definition f64_1e_6 : f64 := S754_finite false 4722366482869645 (-72).

(** [10u64.checked_pow(decimals)]. *)
Definition checked_pow10 (decimals : Z) : option Z := try_from u64_max (10 ^ decimals).

Definition checked_atomic_amount (float_amount : f64) (decimals : Z) :
    result anyhow_error Z :=
  ensure (f64_is_finite float_amount && SFltb (S754_zero false) float_amount)
    (bail "The amount must be a finite positive number");;
  factor ← ok_or (bail "The asset decimal precision is unsupported")
             (checked_pow10 decimals);
  let scaled := f64_mul float_amount (f64_of_Z factor) in
  ensure (f64_is_finite scaled && SFltb scaled (f64_of_Z u64_max))
    (bail "The amount is too large");;
  let rounded := f64_round scaled in
  ensure (SFleb (SFabs (f64_sub scaled rounded)) f64_1e_6)
    (bail "The amount has more decimal places than the asset supports");;
  let amount := f64_as_u64 rounded in
  ensure (bool_decide (0 < amount)%Z)
    (bail "The amount is below the smallest asset unit");;
  Ok amount.

(** ** Transaction types (models/wallet_dtos.rs) *)

Inductive NativeTransactionFeePolicy : Type :=
  | Automatic
  | Fixed (fee : Z)
  | Tip (tip : Z)
  | Multiplier (basis_points : Z).

Record NativeTransactionTransferRequest : Type := mkRequest {
  req_amount : Z;
  req_destination : string;
  req_asset : string;
  req_extra_data : option string;
  req_encrypt_extra_data : bool
}.

Record NativePreparedTransfer : Type := mkPreparedTransfer {
  pt_amount : Z;
  pt_destination : string;
  pt_asset : string;
  pt_has_extra_data : bool;
  pt_encrypt_extra_data : bool
}.

Inductive NativePreparedExtraDataSource : Type := IntegratedAddress | Explicit.

Record NativePreparedTransferExtraData : Type := mkExtraData {
  ed_data : NativeXelisDataElement;
  ed_source : NativePreparedExtraDataSource;
  ed_encrypted : bool
}.

Record Transfer : Type := mkTransfer {
  float_amount : f64;
  str_address : string;
  asset_hash : string;
  tr_extra_data : option string;
  tr_encrypt_extra_data : option bool
}.

Record NativeMultisigParticipant : Type := mkParticipant {
  participant_id : Z;
  participant_address : string
}.

Record NativeMultisigSigningTransfer : Type := mkSigningTransfer {
  st_amount : Z;
  st_asset : string;
  st_destination : string;
  st_has_extra_data : bool
}.

Inductive NativeMultisigSigningTransaction : Type :=
  | SigningTransfers (transfers : list NativeMultisigSigningTransfer)
  | SigningBurn (asset : string) (amount : Z)
  | SigningDeleteMultisig.

Inductive NativePreparedTransactionKind : Type :=
  | PreparedTransfers (transfers : list NativePreparedTransfer)
  | PreparedBurn (asset : string) (amount : Z)
  | PreparedMultisigSetup (threshold : Z) (participants : list NativeMultisigParticipant)
  | PreparedMultisigFinalized (transaction : NativeMultisigSigningTransaction).

Record NativePreparedTransaction : Type := mkPrepared {
  p_hash : string;
  p_preparation_id : Z;
  p_fee : Z;
  p_transaction : NativePreparedTransactionKind
}.

Section Builders.
Context `{!HashLib, !AddressLib}.

(** The builder values of [xelis_common] that this crate constructs. *)
Record TransferBuilder : Type := mkTransferBuilder {
  tb_destination : Address;
  tb_amount : Z;
  tb_asset : Hash;
  tb_extra_data : option DataElement;
  tb_encrypt_extra_data : bool
}.
Record BurnPayload : Type := mkBurn { burn_amount : Z; burn_asset : Hash }.
Record MultiSigBuilder : Type := mkMultiSigBuilder {
  msb_participants : list Address;
  msb_threshold : Z
}.
Inductive TransactionTypeBuilder : Type :=
  | TTransfers (transfers : list TransferBuilder)
  | TBurn (payload : BurnPayload)
  | TMultiSig (payload : MultiSigBuilder).

Definition FEE_BASIS_POINTS_SCALE : Z := 10000.

Definition invalid_transaction_input (native_kind message : string) : NativeXelisError :=
  xelis_wallet_flutter CodeInvalidInput native_kind message.

Definition fee_overflow : NativeXelisError :=
  invalid_transaction_input "TRANSACTION_FEE_OVERFLOW"
    "Adjusted transaction fee exceeds the supported range".

Definition apply_fee_policy (base_fee : Z) (policy : NativeTransactionFeePolicy) :
    result NativeXelisError Z :=
  match policy with
  | Automatic => Ok base_fee
  | Fixed fee => Ok fee
  | Tip tip => ok_or fee_overflow (checked_add u64_max base_fee tip)
  | Multiplier basis_points =>
      if bool_decide (basis_points = 0)%Z
      then Err (invalid_transaction_input "TRANSACTION_FEE_POLICY_INVALID"
                  "Fee multiplier basis points must be positive")
      else
        numerator ← ok_or fee_overflow
          (value ← checked_mul u128_max base_fee basis_points;
           checked_add u128_max value (FEE_BASIS_POINTS_SCALE - 1));
        let adjusted := (numerator `div` FEE_BASIS_POINTS_SCALE)%Z in
        ok_or fee_overflow (try_from u64_max adjusted)
  end.

Definition parse_transaction_asset (asset : string) : result NativeXelisError Hash :=
  map_err (λ _, invalid_transaction_input "TRANSACTION_ASSET_INVALID"
                  "Transaction asset is not a valid hash")
    (hash_from_hex asset).

Definition parse_transaction_destination (destination : string) :
    result NativeXelisError Address :=
  map_err (λ _, invalid_transaction_input "TRANSACTION_DESTINATION_INVALID"
                  "Transaction destination is not a valid address")
    (address_from_string destination).

Definition project_prepared_transfer (destination : Address) (asset : Hash) (amount : Z)
    (explicit_extra_data : option string) (encrypt_extra_data : bool) :
    result NativeXelisError
      (NativePreparedTransfer * option NativePreparedTransferExtraData) :=
  let '(integrated_extra_data, public_destination) := extract_data destination in
  if bool_decide (is_Some explicit_extra_data ∧ is_Some integrated_extra_data)
  then Err (invalid_transaction_input "TRANSACTION_EXTRA_DATA_CONFLICT"
              "Explicit extra data cannot be combined with an integrated address")
  else
    let effective_extra_data :=
      match explicit_extra_data with
      | Some value => Some (DValue (DString value), Explicit)
      | None => (λ value, (value, IntegratedAddress)) <$> integrated_extra_data
      end in
    let effective_extra_data :=
      (λ '(data, source), mkExtraData (from_xelis data) source encrypt_extra_data)
        <$> effective_extra_data in
    Ok ({| pt_amount := amount;
           pt_destination := address_to_string public_destination;
           pt_asset := hash_to_hex asset;
           pt_has_extra_data := bool_decide (is_Some effective_extra_data);
           pt_encrypt_extra_data := encrypt_extra_data |},
        effective_extra_data).

Definition encrypt_extra_data_or_default (value : option bool) : bool := default true value.

Definition build_transfer (destination : Address) (amount : Z) (asset : Hash)
    (extra_data : option string) (encrypt_extra_data : option bool) : TransferBuilder :=
  {| tb_destination := destination;
     tb_amount := amount;
     tb_asset := asset;
     tb_extra_data := (λ value, DValue (DString value)) <$> extra_data;
     tb_encrypt_extra_data := encrypt_extra_data_or_default encrypt_extra_data |}.

(** One iteration of the loop of [build_atomic_transfers]. *)
Definition build_atomic_transfer (index : Z) (transfer : NativeTransactionTransferRequest) :
    result NativeXelisError
      (TransferBuilder * NativePreparedTransfer * option NativePreparedTransferExtraData) :=
  if bool_decide (req_amount transfer = 0)%Z
  then Err (invalid_transaction_input "TRANSACTION_AMOUNT_INVALID"
    ("Transfer amount at index " +:+ uint_to_string index +:+ " must be greater than zero"))
  else
    asset ← parse_transaction_asset (req_asset transfer);
    destination ← parse_transaction_destination (req_destination transfer);
    projected ← project_prepared_transfer destination asset (req_amount transfer)
      (req_extra_data transfer) (req_encrypt_extra_data transfer);
    let '(prepared_transfer, prepared_extra_data) := projected in
    Ok (build_transfer destination (req_amount transfer) asset (req_extra_data transfer)
          (Some (req_encrypt_extra_data transfer)),
        prepared_transfer, prepared_extra_data).

Definition build_atomic_transfers (transfers : list NativeTransactionTransferRequest) :
    result NativeXelisError
      (TransactionTypeBuilder * NativePreparedTransactionKind *
       list (option NativePreparedTransferExtraData)) :=
  match transfers with
  | [] => Err (invalid_transaction_input "TRANSACTION_TRANSFERS_EMPTY"
                 "At least one transfer is required")
  | _ =>
      built ← mapM (λ '(index, transfer), build_atomic_transfer index transfer)
                (enumerate transfers);
      Ok (TTransfers (built.*1.*1), PreparedTransfers (built.*1.*2), built.*2)
  end.

Definition amount_after_fee (amount fee : Z) (asset : Hash)
    (insufficient_funds_context : string) : result anyhow_error Z :=
  amount ← (if bool_decide (asset = XELIS_ASSET)
            then ok_or (bail insufficient_funds_context) (checked_sub amount fee)
            else Ok amount);
  if bool_decide (0 < amount)%Z then Ok amount else Err (bail insufficient_funds_context).

Definition build_transfer_from_input (transfer : Transfer) (asset : Hash) (decimals : Z) :
    result anyhow_error TransferBuilder :=
  amount ← map_err (context "Error while converting amount to atomic format")
             (checked_atomic_amount (float_amount transfer) decimals);
  destination ← map_err (context "Invalid address")
                  (address_from_string (str_address transfer));
  Ok (build_transfer destination amount asset (tr_extra_data transfer)
        (tr_encrypt_extra_data transfer)).

Definition build_transfer_all_type (destination : Address) (balance fee : Z) (asset : Hash)
    (extra_data : option string) (encrypt_extra_data : option bool) :
    result anyhow_error TransactionTypeBuilder :=
  amount ← amount_after_fee balance fee asset "Insufficient balance for fees";
  Ok (TTransfers [build_transfer destination amount asset extra_data encrypt_extra_data]).

Definition build_burn_type (asset : Hash) (amount : Z) : TransactionTypeBuilder :=
  TBurn {| burn_amount := amount; burn_asset := asset |}.

Definition build_burn_all_type (asset : Hash) (balance fee : Z) :
    result anyhow_error TransactionTypeBuilder :=
  amount ← amount_after_fee balance fee asset
             "Insufficient balance to pay burn transaction fees";
  Ok (build_burn_type asset amount).

(** The loop of [create_transfers_with_decimals]; [load_decimals] is the storage
    read of [create_transfers]. *)
Definition create_transfers_with_decimals (load_decimals : Hash → result anyhow_error Z)
    (transfers : list Transfer) : result anyhow_error TransactionTypeBuilder :=
  builders ← mapM (λ transfer,
    asset ← map_err (context "Invalid asset") (hash_from_hex (asset_hash transfer));
    decimals ← map_err (context "Error while converting amount to atomic format")
                 (load_decimals asset);
    build_transfer_from_input transfer asset decimals) transfers;
  Ok (TTransfers builders).

(** ** Reference definitions for the theorems *)

(** What one atomic transfer must become: the request's amount and asset on
    both sides, the public part of the destination, and extra data that is
    either the explicit text or the address's own, never both. *)
Definition effective_data (req : NativeTransactionTransferRequest) (destination : Address) :
    option (DataElement * NativePreparedExtraDataSource) :=
  match req_extra_data req, (extract_data destination).1 with
  | Some value, _ => Some (DValue (DString value), Explicit)
  | None, Some data => Some (data, IntegratedAddress)
  | None, None => None
  end.

Definition request_valid (req : NativeTransactionTransferRequest) (asset : Hash)
    (destination : Address) : Prop :=
  req_amount req ≠ 0%Z ∧
  hash_from_hex (req_asset req) = Ok asset ∧
  address_from_string (req_destination req) = Ok destination ∧
  (req_extra_data req = None ∨ (extract_data destination).1 = None).

Definition transfer_of (req : NativeTransactionTransferRequest) (asset : Hash)
    (destination : Address) :
    TransferBuilder * NativePreparedTransfer * option NativePreparedTransferExtraData :=
  let review := (λ d, mkExtraData (from_xelis d.1) d.2 (req_encrypt_extra_data req))
                  <$> effective_data req destination in
  (mkTransferBuilder destination (req_amount req) asset
     ((λ value, DValue (DString value)) <$> req_extra_data req)
     (req_encrypt_extra_data req),
   mkPreparedTransfer (req_amount req) (address_to_string (extract_data destination).2)
     (hash_to_hex asset) (bool_decide (is_Some review)) (req_encrypt_extra_data req),
   review).

(** A request without the content of its extra data. *)
Definition redact_request (req : NativeTransactionTransferRequest) :
    NativeTransactionTransferRequest :=
  {| req_amount := req_amount req; req_destination := req_destination req;
     req_asset := req_asset req;
     req_extra_data := (λ _, EmptyString) <$> req_extra_data req;
     req_encrypt_extra_data := req_encrypt_extra_data req |}.

(** The projection part of a result. *)
Definition projection_of {A B C} (r : result NativeXelisError (A * B * C)) :
    result NativeXelisError B := (λ x, x.1.2) <$> r.

(** ** Theorems *)

Lemma ceil_div_spec n d : (0 < d)%Z →
  (n ≤ (n + (d - 1)) `div` d * d < n + d)%Z.
Proof.
  intros Hd. pose proof (Z.div_mod (n + (d - 1)) d ltac:(lia)).
  pose proof (Z.mod_pos_bound (n + (d - 1)) d Hd). lia.
Qed.

Lemma multiplier_exact base b :
  in_range u64_max base → in_range u64_max b →
  apply_fee_policy base (Multiplier b) =
    if bool_decide (b = 0)%Z
    then Err (invalid_transaction_input "TRANSACTION_FEE_POLICY_INVALID"
                "Fee multiplier basis points must be positive")
    else ok_or fee_overflow
           (try_from u64_max ((base * b + (FEE_BASIS_POINTS_SCALE - 1))
                                `div` FEE_BASIS_POINTS_SCALE)).
Proof.
  unfold in_range. intros Hbase Hb. cbn [apply_fee_policy]. case_bool_decide; [done|].
  assert (base * b ≤ u64_max * u64_max)%Z by (apply Z.mul_le_mono_nonneg; lia).
  assert (checked_mul u128_max base b = Some (base * b)%Z) as ->.
  { apply checked_mul_Some. unfold u64_max, u128_max in *. lia. }
  cbn [mbind option_bind].
  assert (checked_add u128_max (base * b) (FEE_BASIS_POINTS_SCALE - 1)
          = Some (base * b + (FEE_BASIS_POINTS_SCALE - 1))%Z) as ->; [|done].
  apply checked_add_Some. unfold FEE_BASIS_POINTS_SCALE, u64_max, u128_max in *. lia.
Qed.

(** For every 64-bit base fee and multiplier the adjusted
    fee is the exact product rounded up to the next unit; the 128-bit
    intermediate never overflows, so the only failures are a zero multiplier
    and a result above [u64::MAX]. *)
Theorem fee_multiplier_exact base b :
  in_range u64_max base → in_range u64_max b →
  ∃ fee, (base * b ≤ fee * 10000 < base * b + 10000)%Z ∧
    apply_fee_policy base (Multiplier b) =
      if bool_decide (b = 0)%Z
      then Err (invalid_transaction_input "TRANSACTION_FEE_POLICY_INVALID"
                  "Fee multiplier basis points must be positive")
      else if bool_decide (fee ≤ u64_max)%Z then Ok fee else Err fee_overflow.
Proof.
  intros Hbase Hb.
  exists ((base * b + (FEE_BASIS_POINTS_SCALE - 1)) `div` FEE_BASIS_POINTS_SCALE)%Z.
  rewrite multiplier_exact by done. unfold FEE_BASIS_POINTS_SCALE, in_range in *.
  split; [apply ceil_div_spec; lia|]. case_bool_decide; [done|]. unfold try_from.
  assert (0 ≤ (base * b + (10000 - 1)) `div` 10000)%Z.
  { apply Z.div_pos; [|lia]. pose proof (Z.mul_nonneg_nonneg base b). lia. }
  repeat case_bool_decide; (done || lia).
Qed.

Lemma policy_mono p base base' fee :
  in_range u64_max base → in_range u64_max base' → (base ≤ base')%Z →
  (∀ b, p = Multiplier b → in_range u64_max b) →
  apply_fee_policy base' p = Ok fee →
  ∃ fee0, apply_fee_policy base p = Ok fee0 ∧ (fee0 ≤ fee)%Z.
Proof.
  intros Hb Hb' Hle Hp. destruct p as [|x|t|m].
  - intros [= <-]. exists base. eauto.
  - intros [= <-]. exists x. eauto with lia.
  - cbn. rewrite ok_or_Ok, checked_add_Some. intros [-> ?]. exists (base + t)%Z.
    rewrite ok_or_Ok, checked_add_Some. lia.
  - rewrite !multiplier_exact by eauto. case_bool_decide; [done|].
    rewrite ok_or_Ok, try_from_Some. intros [-> [? ?]].
    assert (in_range u64_max m) as Hm by eauto. unfold in_range in *.
    assert ((base * m + (FEE_BASIS_POINTS_SCALE - 1)) `div` FEE_BASIS_POINTS_SCALE
      ≤ (base' * m + (FEE_BASIS_POINTS_SCALE - 1)) `div` FEE_BASIS_POINTS_SCALE)%Z.
    { apply Z.div_le_mono; [done|]. apply Z.add_le_mono_r, Z.mul_le_mono_nonneg_r; lia. }
    assert (0 ≤ (base * m + (FEE_BASIS_POINTS_SCALE - 1)) `div` FEE_BASIS_POINTS_SCALE)%Z.
    { apply Z.div_pos; [|done]. pose proof (Z.mul_nonneg_nonneg base m).
      unfold FEE_BASIS_POINTS_SCALE; lia. }
    eexists; split; [|eassumption]. rewrite ok_or_Ok, try_from_Some. lia.
Qed.

(** The check that every handler makes before it reads
    any state, with a base fee of zero, rejects no policy that the estimated
    fee would have accepted, and the fee grows with the base fee. *)
Theorem fee_policy_precheck p base base' fee :
  in_range u64_max base → in_range u64_max base' → (base ≤ base')%Z →
  (∀ b, p = Multiplier b → in_range u64_max b) →
  apply_fee_policy base' p = Ok fee →
  (∃ fee0, apply_fee_policy 0 p = Ok fee0) ∧
  (∃ fee1, apply_fee_policy base p = Ok fee1 ∧ (fee1 ≤ fee)%Z).
Proof.
  intros Hb Hb' Hle Hp Hok.
  destruct (policy_mono p 0 base' fee) as (f0 & ? & _);
    [unfold in_range in *; (done || lia)..|].
  split; [by eauto|]. by eapply policy_mono.
Qed.

Lemma amount_after_fee_Ok balance fee asset msg a :
  amount_after_fee balance fee asset msg = Ok a ↔
  (0 < a)%Z ∧ (balance = a + if bool_decide (asset = XELIS_ASSET) then fee else 0)%Z.
Proof.
  unfold amount_after_fee. case_bool_decide; cbn.
  - rewrite bind_Ok. setoid_rewrite ok_or_Ok. setoid_rewrite checked_sub_Some. split.
    + intros (x & [-> ?] & Hx). case_bool_decide; simplify_eq. lia.
    + intros [? ->]. exists a. rewrite bool_decide_true by done. split; [lia|done].
  - case_bool_decide; split; intros; destruct_and?; simplify_eq; (done || f_equal; lia).
Qed.

(** Spending everything never loses or creates a unit:
    the amount is accepted exactly when it is positive and amount plus fee is
    the balance for the native asset, and when it is the whole balance for any
    other asset, whose fee is paid in the native one. *)
Theorem amount_after_fee_conserves balance fee asset msg a :
  amount_after_fee balance fee asset msg = Ok a ↔
  (0 < a)%Z ∧ (balance = a + if bool_decide (asset = XELIS_ASSET) then fee else 0)%Z.
Proof. apply amount_after_fee_Ok. Qed.

Lemma build_atomic_transfer_Ok index req x :
  build_atomic_transfer index req = Ok x ↔
  ∃ asset destination, request_valid req asset destination ∧
    x = transfer_of req asset destination.
Proof.
  unfold build_atomic_transfer, request_valid, transfer_of, parse_transaction_asset,
    parse_transaction_destination, project_prepared_transfer, effective_data.
  case_bool_decide; [naive_solver|].
  rewrite bind_Ok. setoid_rewrite map_err_Ok. setoid_rewrite bind_Ok.
  setoid_rewrite map_err_Ok. setoid_rewrite bind_Ok. split.
  - intros (asset & ? & destination & ? & [p r] & Hp & [= <-]).
    exists asset, destination.
    destruct (extract_data destination) as [[d|] base];
      destruct (req_extra_data req) eqn:Hr; cbn in *; simplify_eq/=;
      unfold build_transfer; cbn; rewrite ?Hr; eauto 10.
  - intros (asset & destination & (? & ? & ? & Hx) & ->).
    exists asset; split; [done|]. exists destination; split; [done|].
    destruct (extract_data destination) as [[d|] base];
      destruct (req_extra_data req) eqn:Hr; cbn in *;
      [by destruct Hx|eexists; (split; [reflexivity|]); unfold build_transfer; cbn;
        by rewrite ?Hr..].
Qed.

(** A batch of transfers is accepted exactly when it is
    not empty and every request is valid, and then the builders, the review
    projection and the retained extra data correspond request by request: the
    user reviews the amounts, destinations and assets that are built. *)
Theorem build_atomic_transfers_exact transfers tt k reviews :
  build_atomic_transfers transfers = Ok (tt, k, reviews) ↔
  transfers ≠ [] ∧ ∃ built,
    Forall2 (λ req x, ∃ asset destination, request_valid req asset destination ∧
               x = transfer_of req asset destination) transfers built ∧
    tt = TTransfers built.*1.*1 ∧ k = PreparedTransfers built.*1.*2 ∧ reviews = built.*2.
Proof.
  assert (∀ l built, mapM (λ '(index, transfer), build_atomic_transfer index transfer)
      (enumerate l) = Ok built ↔ Forall2 (λ req x, ∃ asset destination,
      request_valid req asset destination ∧ x = transfer_of req asset destination) l built)
    as Hm by (intros; apply mapM_enumerate_Ok; intros; apply build_atomic_transfer_Ok).
  destruct transfers as [|t ts]; [naive_solver|].
  unfold build_atomic_transfers. rewrite bind_Ok. setoid_rewrite Hm. naive_solver.
Qed.

Lemma build_atomic_transfer_redact i req req' :
  redact_request req = redact_request req' →
  projection_of (build_atomic_transfer i req) = projection_of (build_atomic_transfer i req').
Proof.
  destruct req as [am de asset ex en], req' as [am' de' asset' ex' en'].
  unfold redact_request; cbn. intros [= <- <- <- Hex <-].
  unfold build_atomic_transfer; cbn. case_bool_decide; [done|].
  destruct (parse_transaction_asset asset); [|done].
  destruct (parse_transaction_destination de) as [dst|]; [|done]; cbn.
  unfold project_prepared_transfer. destruct (extract_data dst) as [[d|] base];
    destruct ex, ex'; cbn in *; simplify_eq/=; done.
Qed.

(** The projection shown for review, and any error of the
    whole batch, do not depend on the content of the explicit extra data, only
    on whether there is some. *)
Theorem projection_hides_extra_data transfers transfers' :
  redact_request <$> transfers = redact_request <$> transfers' →
  projection_of (build_atomic_transfers transfers)
  = projection_of (build_atomic_transfers transfers').
Proof.
  intros Hr. unfold build_atomic_transfers.
  destruct transfers as [|t ts], transfers' as [|t' ts']; [done..|].
  assert (∀ l, projection_of (built ← mapM (λ '(index, transfer),
      build_atomic_transfer index transfer) (enumerate l);
      Ok (TTransfers built.*1.*1, PreparedTransfers built.*1.*2, built.*2))
    = PreparedTransfers <$> mapM (λ p, projection_of (build_atomic_transfer p.1 p.2))
        (enumerate l)) as Hp.
  { intros l. unfold projection_of at 2. rewrite <-(mapM_fmap (λ x, x.1.2)).
    rewrite (mapM_Forall2_eq _ (λ p, build_atomic_transfer p.1 p.2) _ (enumerate l))
      by (apply Forall_Forall2_diag, Forall_true; by intros []).
    destruct (mapM _ (enumerate l)); cbn; [|done]. by rewrite <-list_fmap_compose. }
  rewrite !Hp. clear Hp. f_equal. apply mapM_Forall2_eq.
  eapply Forall2_impl.
  - apply (enumerate_Forall2 (λ i x y, projection_of (build_atomic_transfer i x)
      = projection_of (build_atomic_transfer i y))).
    apply list_eq_Forall2, Forall2_fmap_1 in Hr.
    eapply Forall2_impl; [apply Hr|]. intros; by apply build_atomic_transfer_redact.
  - intros [i x] [j y] [Hij Hxy]; cbn in *. by subst.
Qed.

Lemma checked_atomic_amount_bounds x decimals a :
  checked_atomic_amount x decimals = Ok a → in_range u64_max a ∧ (0 < a)%Z.
Proof.
  unfold checked_atomic_amount. intros Hx. inv_ok. subst.
  match goal with H : bool_decide _ = true |- _ => apply bool_decide_eq_true in H end.
  split; [|done]. unfold in_range. split; [lia|].
  destruct (f64_round _) as [|[]| |[] m e]; cbn; unfold u64_max; try lia.
Qed.

End Builders.

(** ** Concrete runs *)

#[local] Existing Instances demo_hash demo_address.

(** 1.5 coins of an asset with eight decimals. *)
Example atomic_amount_1_5 :
  checked_atomic_amount (S754_finite false 6755399441055744 (-52)) 8 = Ok 150000000%Z.
Proof. vm_compute. reflexivity. Qed.

(** A third of the smallest unit is refused. *)
Example atomic_amount_third :
  is_ok (checked_atomic_amount (S754_finite false 6004799503160661 (-54)) 0) = false.
Proof. vm_compute. reflexivity. Qed.

Lemma fee_multiplier_exact_witness :
  ∃ fee, (25 * 15001 ≤ fee * 10000 < 25 * 15001 + 10000)%Z ∧
    apply_fee_policy 25 (Multiplier 15001) =
      if bool_decide (15001 = 0)%Z
      then Err (invalid_transaction_input "TRANSACTION_FEE_POLICY_INVALID"
                  "Fee multiplier basis points must be positive")
      else if bool_decide (fee ≤ u64_max)%Z then Ok fee else Err fee_overflow.
Proof. apply (fee_multiplier_exact 25 15001); by split. Defined.

Lemma fee_policy_precheck_witness :
  (∃ fee0, apply_fee_policy 0 (Tip 5) = Ok fee0) ∧
  (∃ fee1, apply_fee_policy 10 (Tip 5) = Ok fee1 ∧ (fee1 ≤ 25)%Z).
Proof.
  apply (fee_policy_precheck (Tip 5) 10 20 25);
    first [reflexivity | unfold in_range, u64_max; lia | discriminate].
Defined.

Lemma projection_hides_extra_data_witness :
  projection_of (build_atomic_transfers
    [mkRequest 5 "xelbob" "fxelis" (Some "invoice 1") true])
  = projection_of (build_atomic_transfers
    [mkRequest 5 "xelbob" "fxelis" (Some "invoice 2") true]).
Proof. apply projection_hides_extra_data. reflexivity. Defined.

End Builders.
