(* ===== verification/Pending.v ===== *)
(** * The pending multisig request (rust/src/api/wallet/multisig.rs,
    [PendingMultisigStore])

    At most one multisig request waits for its signature shares; it is named by
    a request id that is never reused and by the hash to sign. *)

From S2P Require Import Prelude Errors.

Module Pending.

(** [impl Display for PendingMultisigError]. *)
Definition pending_error_to_string (e : PendingMultisigError) : string :=
  match e with
  | PendingAlreadyPending => "another multisig request is already pending"
  | PendingGenerationOverflow => "multisig request generation overflow"
  | PendingNotFound => "no multisig request is pending"
  | PendingRequestMismatch =>
      "the multisig request does not match the pending transaction"
  end.

(** [into()] of a [PendingMultisigError]. *)
Definition pending_error (e : PendingMultisigError) : anyhow_error :=
  AnyhowError (pending_error_to_string e) (CausePendingMultisig e).

Definition map_pending_multisig_error `{ErrorText} (fallback_code : NativeXelisErrorCode)
    (fallback_kind : string) (error : anyhow_error) : NativeXelisError :=
  match error with
  | AnyhowError _ (CausePendingMultisig error) =>
      let '(code, kind) :=
        match error with
        | PendingAlreadyPending => (CodeConflict, "MULTISIG_REQUEST_ALREADY_PENDING")
        | PendingGenerationOverflow =>
            (CodeInternal, "MULTISIG_REQUEST_GENERATION_OVERFLOW")
        | PendingNotFound => (CodeNotFound, "MULTISIG_REQUEST_NOT_FOUND")
        | PendingRequestMismatch => (CodeConflict, "MULTISIG_REQUEST_MISMATCH")
        end in
      xelis_wallet_flutter code kind (pending_error_to_string error)
  | _ => from_wallet_operation error fallback_code fallback_kind
  end.

Section Store.
Context {Hash T : Type} `{!EqDecision Hash}.

Record PendingMultisigStore : Type := mkPendingStore {
  request : option (Z * Hash * T);
  pending_next_generation : Z
}.

Definition pending_default : PendingMultisigStore :=
  {| request := None; pending_next_generation := 0 |}.

Abbreviation pending_action := (action PendingMultisigStore anyhow_error).

Definition insert (signing_hash : Hash) (payload : T) : pending_action Z :=
  s ← get_state;
  match request s with
  | Some _ => throw (pending_error PendingAlreadyPending)
  | None =>
      generation ← lift (ok_or (pending_error PendingGenerationOverflow)
        (checked_add u64_max (pending_next_generation s) 1));
      put_state {| request := Some (generation, signing_hash, payload);
                   pending_next_generation := generation |};;
      mret generation
  end.

Definition signing_hash (s : PendingMultisigStore) : option Hash :=
  (λ '(_, signing_hash, _), signing_hash) <$> request s.

Definition ensure_expected_request (request_id : Z) (expected_signing_hash : Hash)
    (s : PendingMultisigStore) : result anyhow_error unit :=
  '(actual_request_id, actual_signing_hash, _) ←
    ok_or (pending_error PendingNotFound) (request s);
  if bool_decide (actual_request_id ≠ request_id ∨
                  actual_signing_hash ≠ expected_signing_hash)
  then Err (pending_error PendingRequestMismatch)
  else Ok tt.

Definition clear_request : pending_action unit :=
  modify (λ s, {| request := None; pending_next_generation := pending_next_generation s |}).

Definition cancel (request_id : Z) (expected_signing_hash : Hash) : pending_action unit :=
  s ← get_state;
  lift (ensure_expected_request request_id expected_signing_hash s);;
  clear_request.

Definition validate {R} (request_id : Z) (expected_signing_hash : Hash)
    (check : T → result anyhow_error R) (s : PendingMultisigStore) :
    result anyhow_error R :=
  ensure_expected_request request_id expected_signing_hash s;;
  '(_, _, payload) ← ok_or (pending_error PendingNotFound) (request s);
  check payload.

Definition take_validated {R} (request_id : Z) (expected_signing_hash : Hash)
    (check : T → result anyhow_error R) : pending_action (T * R) :=
  s ← get_state;
  validation ← lift (validate request_id expected_signing_hash check s);
  s ← get_state;
  '(_, _, payload) ← lift (ok_or (pending_error PendingNotFound) (request s));
  clear_request;;
  mret (payload, validation).

(** The pending request was handed out by this store. *)
Definition pending_wf (s : PendingMultisigStore) : Prop :=
  (0 ≤ pending_next_generation s ≤ u64_max)%Z ∧
  (∀ id h t, request s = Some (id, h, t) → 1 ≤ id ≤ pending_next_generation s)%Z.

(** One operation of the store. *)
Inductive pending_step : PendingMultisigStore → list Z → PendingMultisigStore → Prop :=
  | step_insert s h t id s' : insert h t s = (Ok id, s') → pending_step s [id] s'
  | step_insert_err s h t e s' : insert h t s = (Err e, s') → pending_step s [] s'
  | step_cancel s id h r s' : cancel id h s = (r, s') → pending_step s [] s'
  | step_take {R} s id h (check : T → result anyhow_error R) r s' :
      take_validated id h check s = (r, s') → pending_step s [] s'.

Lemma take_validated_cases {R} id h (check : T → result anyhow_error R) s :
  take_validated id h check s =
    match request s with
    | None => (Err (pending_error PendingNotFound), s)
    | Some (id', h', t) =>
        if bool_decide (id' = id ∧ h' = h)
        then match check t with
             | Ok r => (Ok (t, r), mkPendingStore None (pending_next_generation s))
             | Err e => (Err e, s)
             end
        else (Err (pending_error PendingRequestMismatch), s)
    end.
Proof.
  unfold take_validated, validate, ensure_expected_request, clear_request.
  destruct s as [[[[id' h'] t]|] n]; unfold_monad; [|done].
  case_bool_decide as H1; case_bool_decide as H2; simpl.
  - exfalso. naive_solver.
  - done.
  - by destruct (check t).
  - exfalso. destruct (decide (id' = id)), (decide (h' = h)); tauto.
Qed.

Lemma cancel_cases id h s :
  cancel id h s =
    match request s with
    | None => (Err (pending_error PendingNotFound), s)
    | Some (id', h', t) =>
        if bool_decide (id' = id ∧ h' = h)
        then (Ok tt, mkPendingStore None (pending_next_generation s))
        else (Err (pending_error PendingRequestMismatch), s)
    end.
Proof.
  unfold cancel, ensure_expected_request, clear_request.
  destruct s as [[[[id' h'] t]|] n]; unfold_monad; [|done].
  case_bool_decide as H1; case_bool_decide as H2; simpl; try done.
  - exfalso. naive_solver.
  - exfalso. destruct (decide (id' = id)), (decide (h' = h)); tauto.
Qed.

Lemma insert_cases h t s :
  insert h t s =
    match request s with
    | Some _ => (Err (pending_error PendingAlreadyPending), s)
    | None =>
        if bool_decide (pending_next_generation s + 1 ≤ u64_max)%Z
        then (Ok (pending_next_generation s + 1)%Z,
              mkPendingStore (Some (pending_next_generation s + 1, h, t))%Z
                (pending_next_generation s + 1))
        else (Err (pending_error PendingGenerationOverflow), s)
    end.
Proof.
  unfold insert, checked_add. destruct s as [[[[]]|] n]; unfold_monad; [done|].
  by case_bool_decide.
Qed.

Lemma pending_step_inv s l s' :
  pending_step s l s' → pending_wf s →
  pending_wf s' ∧ (pending_next_generation s ≤ pending_next_generation s')%Z ∧
  (∀ id, id ∈ l → pending_next_generation s < id ∧ id = pending_next_generation s')%Z.
Proof.
  unfold pending_wf. destruct 1 as [s h t id s' He|s h t e s' He|s id h r s' He|R s id h c r s' He];
    intros [Hn Hr]; revert He; rewrite ?insert_cases, ?cancel_cases, ?take_validated_cases;
    destruct s as [[[[id0 h0] t0]|] n]; cbn in *; repeat case_bool_decide;
    try destruct (c t0); intros; simplify_eq/=; (split; [split; [lia|]|split; [lia|]]);
    try set_solver; intros; simplify_eq; try (rewrite list_elem_of_singleton in *); subst;
    eauto; lia.
Qed.

(** The ids of the multisig requests opened over the whole
    life of the wallet strictly increase, so a share collected for an earlier
    request can never finalize a later one. *)
Theorem request_ids_fresh trace s :
  reachable (λ s, s = pending_default) pending_step trace s →
  pending_wf s ∧ NoDup (concat trace) ∧
  (∀ id, id ∈ concat trace → id ≤ pending_next_generation s)%Z.
Proof.
  induction 1 as [s ->|s l s' tr _ (Hwf & Hnd & Hle) Hs].
  { split_and!; [split; [unfold u64_max; cbn; lia|done]|constructor|set_solver]. }
  destruct (pending_step_inv _ _ _ Hs Hwf) as (Hwf' & Hmono & Hl).
  rewrite concat_app; cbn; rewrite app_nil_r. split_and!; [done| |].
  - apply NoDup_app; split_and!; [done| |].
    + intros id Hin Hid. apply Hle in Hin. apply Hl in Hid. lia.
    + inversion Hs; subst; first [apply NoDup_singleton | apply NoDup_nil_2].
  - intros id [Hin|Hin]%elem_of_app; [apply Hle in Hin; lia|].
    apply Hl in Hin. lia.
Qed.

(** A request is taken for finalization exactly when
    its id and its hash both match and the validation of the shares succeeds;
    in every other case the request stays pending, unchanged, so that a wrong
    share does not destroy it. *)
Theorem take_validated_exact {R} id h (check : T → result anyhow_error R) s r s' :
  take_validated id h check s = (r, s') →
  match r with
  | Ok (t, x) =>
      request s = Some (id, h, t) ∧ check t = Ok x ∧
      s' = mkPendingStore None (pending_next_generation s)
  | Err e =>
      s' = s ∧
      match request s with
      | None => e = pending_error PendingNotFound
      | Some (id', h', t) =>
          if bool_decide (id' = id ∧ h' = h) then check t = Err e
          else e = pending_error PendingRequestMismatch
      end
  end.
Proof.
  rewrite take_validated_cases. destruct s as [[[[id' h'] t]|] n]; cbn;
    [|by intros [= <- <-]].
  case_bool_decide as Hm; [destruct Hm as [-> ->]; destruct (check t) eqn:Hc|];
    intros [= <- <-]; rewrite ?bool_decide_true by done; rewrite ?Hc; done.
Qed.

End Store.

(** ** Concrete runs *)

Definition pending_one : PendingMultisigStore (Hash := Z) (T := bool) :=
  mkPendingStore (Some (1, 7, true))%Z 1.

Lemma pending_one_reachable :
  reachable (λ s, s = pending_default) pending_step [[1%Z]] pending_one.
Proof.
  apply (reachable_step _ _ pending_default [1%Z] _ []); [by constructor|].
  by apply (step_insert _ 7%Z true).
Qed.

Lemma request_ids_fresh_witness :
  pending_wf pending_one ∧ NoDup (concat [[1%Z]]) ∧
  (∀ id, id ∈ concat [[1%Z]] → id ≤ pending_next_generation pending_one)%Z.
Proof. apply (request_ids_fresh [[1%Z]]). apply pending_one_reachable. Defined.

Lemma take_validated_exact_witness :
  request pending_one = Some (1, 7, true)%Z ∧ Ok (E := anyhow_error) tt = Ok tt ∧
  mkPendingStore None 1 = mkPendingStore (Hash := Z) (T := bool) None 1.
Proof.
  apply (take_validated_exact 1%Z 7%Z (λ _ : bool, Ok tt) pending_one (Ok (true, tt))).
  reflexivity.
Defined.

End Pending.
