(* ===== verification/Transactions.v ===== *)
(** * Preparing and broadcasting transactions
    (rust/src/api/wallet/transactions.rs)

    The handlers of [XelisWallet] that estimate, prepare, inspect, cancel and
    broadcast a transaction.  Their state is the prepared slot of [Prepared] and
    the pending multisig request of [Pending], together with the trace of the
    effects they have outside (submission, application to the storage, removal
    of unconfirmed balances).  The answers of the wallet crate (storage reads,
    fee estimation, transaction creation, submission) are the fields of [Env].

    A handler is one sequential run; what other tasks can do to the slot between
    two of its lock acquisitions is the subject of [Prepared]. *)

From S2P Require Import Prelude Errors External Addresses Builders Prepared Pending Submission.

Module Transactions.
Import Wire Builders Submission.

(** [xelis_common] and [xelis_wallet] transaction values. *)
Class WalletLib `{!HashLib, !AddressLib} := {
  Transaction : Type;
  TransactionBuilderState : Type;
  UnsignedTransaction : Type;
  tx_hash : Transaction → Hash;
  tx_get_fee : Transaction → Z;
  (** [json!(SummaryTransaction { .. }).to_string()]. *)
  summary_to_json : string → Z → TransactionTypeBuilder → string;
  (** [format_coin]. *)
  format_coin : Z → Z → string;
  COIN_DECIMALS : Z
}.

Inductive FeeBuilder : Type := FeeDefault | FeeFixed (fee : Z).

Section Handlers.
Context `{!ErrorText, !HashLib, !AddressLib, !WalletLib}.

Record PreparedWalletTransaction : Type := mkPreparedWallet {
  pw_transaction : Transaction;
  pw_state : TransactionBuilderState;
  pw_review_extra_data : list (option NativePreparedTransferExtraData)
}.

Definition without_review_extra_data (tx : Transaction) (st : TransactionBuilderState) :
    PreparedWalletTransaction := mkPreparedWallet tx st [].

(** [PreparedWalletTransaction::review_extra_data]. *)
Definition review_extra_data (p : PreparedWalletTransaction) (transfer_index : Z) :
    option NativePreparedTransferExtraData :=
  mjoin (pw_review_extra_data p !! Z.to_nat transfer_index).

Definition transfer_count (p : PreparedWalletTransaction) : Z :=
  zlen (pw_review_extra_data p).

(** [xelis_common::transaction::MultiSigPayload]. *)
Record MultiSigPayload : Type := mkMultiSigPayload {
  msp_threshold : Z;
  msp_participants : list PublicKey
}.

(** wallet.rs: [PendingMultisigTransaction]. *)
Record PendingMultisigTransaction : Type := mkPendingTransaction {
  pm_unsigned : UnsignedTransaction;
  pm_state : TransactionBuilderState;
  pm_configuration : MultiSigPayload;
  pm_transaction_preview : NativeMultisigSigningTransaction
}.

(** ** The state and the environment *)

Inductive effect : Type :=
  | EffSubmit (tx : Transaction)
  | EffApply (tx : Transaction)
  | EffClearUnconfirmed.

Record XelisWallet : Type := mkWallet {
  prepared_transaction : Slot.PreparedTransactionStore Hash PreparedWalletTransaction;
  pending_multisig : Pending.PendingMultisigStore (Hash := Hash) (T := PendingMultisigTransaction);
  effects : list effect
}.

Record Env : Type := mkEnv {
  is_online : bool;
  estimate_fees : TransactionTypeBuilder → result anyhow_error Z;
  create_transaction_with_storage : TransactionTypeBuilder → FeeBuilder →
    result anyhow_error (Transaction * TransactionBuilderState);
  get_plaintext_balance_for : Hash → result anyhow_error Z;
  get_asset_decimals : Hash → result anyhow_error Z;
  get_tx_version : result anyhow_error Z;
  get_synced_topoheight : result anyhow_error Z;
  get_top_block_hash : result anyhow_error Hash;
  submit_transaction : Transaction → result WalletError unit;
  apply_changes : TransactionBuilderState → Transaction → result anyhow_error unit
}.

Abbreviation handler := (action XelisWallet NativeXelisError).
Abbreviation legacy_handler := (action XelisWallet anyhow_error).

(** One acquisition of the slot's lock. *)
Definition on_prepared {E A}
    (m : action (Slot.PreparedTransactionStore Hash PreparedWalletTransaction) E A) :
    action XelisWallet E A := λ w,
  let '(r, store) := m (prepared_transaction w) in
  (r, mkWallet store (pending_multisig w) (effects w)).

Definition emit {E} (e : effect) : action XelisWallet E unit :=
  modify (λ w, mkWallet (prepared_transaction w) (pending_multisig w) (effects w ++ [e])).

(** [?] while the guard is alive: it is dropped on the early return. *)
Definition guarded_preparation {E A} (g : Slot.PreparedTransactionPreparationGuard)
    (m : action XelisWallet E A) : action XelisWallet E A := λ w,
  match m w with
  | (Ok a, w') => (Ok a, w')
  | (Err e, w') =>
      (Err e, mkWallet (Slot.preparation_drop g (prepared_transaction w'))
                (pending_multisig w') (effects w'))
  end.

Definition guarded_submission {E A}
    (g : Slot.PreparedTransactionGuard Hash PreparedWalletTransaction)
    (m : action XelisWallet E A) : action XelisWallet E A := λ w,
  match m w with
  | (Ok a, w') => (Ok a, w')
  | (Err e, w') =>
      (Err e, mkWallet (Slot.guard_drop g (prepared_transaction w'))
                (pending_multisig w') (effects w'))
  end.

Definition prepared_transaction_error (error : Slot.PreparedTransactionError) :
    NativeXelisError :=
  let code :=
    match error with
    | Slot.PreparationInProgress | Slot.ReplacementDuringSubmission
    | Slot.CancellationDuringSubmission | Slot.AlreadySubmitting => CodeOperationInProgress
    | Slot.CannotDelete | Slot.NotFound => CodeNotFound
    | Slot.GenerationOverflow | Slot.PreparationStateInconsistent
    | Slot.CancellationStateInconsistent | Slot.SubmissionStateInconsistent
    | Slot.EmptyGuard => CodeInternal
    end in
  xelis_wallet_flutter code (Slot.native_kind error) (Slot.prepared_error_to_string error).

(** [?] on a slot error in the handlers that return [anyhow::Result]. *)
Definition prepared_anyhow (error : Slot.PreparedTransactionError) : anyhow_error :=
  bail (Slot.prepared_error_to_string error).

Definition invalid_prepared_transaction_hash : NativeXelisError :=
  xelis_wallet_flutter CodeInvalidInput "PREPARED_TRANSACTION_HASH_INVALID"
    "Prepared transaction hash is not valid hexadecimal data".

(** [begin(&self.prepared_transaction).map_err(prepared_transaction_error)]. *)
Definition begin_preparation : handler Slot.PreparedTransactionPreparationGuard :=
  on_prepared (map_err_action prepared_transaction_error Slot.preparation_begin).

(** ** Handlers of the stable API *)

Definition estimate_target_fee (env : Env) (transaction_type : TransactionTypeBuilder)
    (fee_policy : NativeTransactionFeePolicy) : result NativeXelisError Z :=
  base_fee ← map_err (λ error, from_wallet_operation error CodeOperationFailed
                                 "TRANSACTION_FEE_ESTIMATION_FAILED")
               (estimate_fees env transaction_type);
  apply_fee_policy base_fee fee_policy.

Definition create_and_commit_prepared_transaction (env : Env)
    (preparation : Slot.PreparedTransactionPreparationGuard)
    (transaction_type : TransactionTypeBuilder) (transaction : NativePreparedTransactionKind)
    (review : list (option NativePreparedTransferExtraData)) (target_fee : Z) :
    handler NativePreparedTransaction :=
  '(tx, st) ← guarded_preparation preparation
    (lift (map_err (λ error, from_wallet_operation error CodeOperationFailed
                               "PREPARED_TRANSACTION_CREATION_FAILED")
       (create_transaction_with_storage env transaction_type (FeeFixed target_fee))));
  let hash := tx_hash tx in
  let fee := tx_get_fee tx in
  if bool_decide (fee ≠ target_fee)
  then guarded_preparation preparation
    (throw (xelis_wallet_flutter CodeInternal "PREPARED_TRANSACTION_FEE_MISMATCH"
       ("Prepared fee " +:+ uint_to_string fee +:+ " differs from requested fixed fee "
        +:+ uint_to_string target_fee)))
  else
    preparation_id ← on_prepared (map_err_action prepared_transaction_error
      (Slot.preparation_commit preparation hash (mkPreparedWallet tx st review)));
    mret {| p_hash := hash_to_hex hash; p_preparation_id := preparation_id;
            p_fee := fee; p_transaction := transaction |}.

(** What a handler computes while it holds the preparation guard. *)
Record plan : Type := mkPlan {
  plan_type : TransactionTypeBuilder;
  plan_kind : NativePreparedTransactionKind;
  plan_review : list (option NativePreparedTransferExtraData);
  plan_fee : Z
}.

Definition estimate_transfer_fees_atomic (env : Env)
    (transfers : list NativeTransactionTransferRequest)
    (fee_policy : NativeTransactionFeePolicy) : result NativeXelisError Z :=
  apply_fee_policy 0 fee_policy;;
  '(transaction_type, _, _) ← build_atomic_transfers transfers;
  estimate_target_fee env transaction_type fee_policy.

(** The shape shared by the four preparing handlers: the policy is checked
    first, the slot is reserved, the plan is computed and committed. *)
Definition prepare_planned (env : Env) (fee_policy : NativeTransactionFeePolicy)
    (planned : result NativeXelisError plan) : handler NativePreparedTransaction :=
  lift (apply_fee_policy 0 fee_policy);;
  preparation ← begin_preparation;
  p ← guarded_preparation preparation (lift planned);
  create_and_commit_prepared_transaction env preparation (plan_type p) (plan_kind p)
    (plan_review p) (plan_fee p).

Definition plan_transfers (env : Env) (transfers : list NativeTransactionTransferRequest)
    (fee_policy : NativeTransactionFeePolicy) : result NativeXelisError plan :=
  '(transaction_type, transaction, review) ← build_atomic_transfers transfers;
  target_fee ← estimate_target_fee env transaction_type fee_policy;
  Ok (mkPlan transaction_type transaction review target_fee).

Definition prepare_transfers_transaction (env : Env)
    (transfers : list NativeTransactionTransferRequest)
    (fee_policy : NativeTransactionFeePolicy) : handler NativePreparedTransaction :=
  prepare_planned env fee_policy (plan_transfers env transfers fee_policy).

Definition insufficient {A} (kind : string) (r : result anyhow_error A) :
    result NativeXelisError A :=
  map_err (λ error, from_wallet_operation error CodeInsufficientFunds kind) r.

Definition plan_transfer_all (env : Env) (destination asset : string)
    (extra_data : option string) (encrypt_extra_data : bool)
    (fee_policy : NativeTransactionFeePolicy) : result NativeXelisError plan :=
  asset ← parse_transaction_asset asset;
  destination ← parse_transaction_destination destination;
  balance ← map_err (λ error, from_wallet_storage_operation error
                                "TRANSFER_ALL_BALANCE_READ_FAILED")
              (get_plaintext_balance_for env asset);
  estimated_transaction ← insufficient "TRANSFER_ALL_BALANCE_INSUFFICIENT"
    (build_transfer_all_type destination balance 0 asset extra_data
       (Some encrypt_extra_data));
  target_fee ← estimate_target_fee env estimated_transaction fee_policy;
  amount ← insufficient "TRANSFER_ALL_BALANCE_INSUFFICIENT"
    (amount_after_fee balance target_fee asset "Insufficient balance for fees");
  transaction_type ← insufficient "TRANSFER_ALL_BALANCE_INSUFFICIENT"
    (build_transfer_all_type destination balance target_fee asset extra_data
       (Some encrypt_extra_data));
  '(prepared_transfer, prepared_extra_data) ←
    project_prepared_transfer destination asset amount extra_data encrypt_extra_data;
  Ok (mkPlan transaction_type (PreparedTransfers [prepared_transfer])
        [prepared_extra_data] target_fee).

Definition prepare_transfer_all_transaction (env : Env) (destination asset : string)
    (extra_data : option string) (encrypt_extra_data : bool)
    (fee_policy : NativeTransactionFeePolicy) : handler NativePreparedTransaction :=
  prepare_planned env fee_policy
    (plan_transfer_all env destination asset extra_data encrypt_extra_data fee_policy).

Definition plan_burn (env : Env) (amount : Z) (asset : string)
    (fee_policy : NativeTransactionFeePolicy) : result NativeXelisError plan :=
  if bool_decide (amount = 0)%Z
  then Err (xelis_wallet_flutter CodeInvalidInput "TRANSACTION_AMOUNT_INVALID"
              "Burn amount must be greater than zero")
  else
    asset ← parse_transaction_asset asset;
    let transaction_type := build_burn_type asset amount in
    target_fee ← estimate_target_fee env transaction_type fee_policy;
    Ok (mkPlan transaction_type (PreparedBurn (hash_to_hex asset) amount) [] target_fee).

Definition prepare_burn_transaction (env : Env) (amount : Z) (asset : string)
    (fee_policy : NativeTransactionFeePolicy) : handler NativePreparedTransaction :=
  prepare_planned env fee_policy (plan_burn env amount asset fee_policy).

Definition plan_burn_all (env : Env) (asset : string)
    (fee_policy : NativeTransactionFeePolicy) : result NativeXelisError plan :=
  asset ← parse_transaction_asset asset;
  balance ← map_err (λ error, from_wallet_storage_operation error
                                "BURN_ALL_BALANCE_READ_FAILED")
              (get_plaintext_balance_for env asset);
  estimated_transaction ← insufficient "BURN_ALL_BALANCE_INSUFFICIENT"
    (build_burn_all_type asset balance 0);
  target_fee ← estimate_target_fee env estimated_transaction fee_policy;
  amount ← insufficient "BURN_ALL_BALANCE_INSUFFICIENT"
    (amount_after_fee balance target_fee asset
       "Insufficient balance to pay burn transaction fees");
  transaction_type ← insufficient "BURN_ALL_BALANCE_INSUFFICIENT"
    (build_burn_all_type asset balance target_fee);
  Ok (mkPlan transaction_type (PreparedBurn (hash_to_hex asset) amount) [] target_fee).

Definition prepare_burn_all_transaction (env : Env) (asset : string)
    (fee_policy : NativeTransactionFeePolicy) : handler NativePreparedTransaction :=
  prepare_planned env fee_policy (plan_burn_all env asset fee_policy).

(** ** Handlers of the legacy API *)

Definition transaction_summary_json (hash : Hash) (fee : Z)
    (transaction_type : TransactionTypeBuilder) : string :=
  summary_to_json (hash_to_hex hash) fee transaction_type.

Definition build_and_store_prepared
    (build : TransactionTypeBuilder → result anyhow_error (Hash * Z * PreparedWalletTransaction))
    (transaction_type : TransactionTypeBuilder) : legacy_handler string :=
  '(hash, fee, prepared) ← lift (build transaction_type);
  let summary := transaction_summary_json hash fee transaction_type in
  on_prepared (map_err_action prepared_anyhow (Slot.replace hash prepared));;
  mret summary.

Definition create_and_store_prepared_transaction (env : Env)
    (transaction_type : TransactionTypeBuilder) : legacy_handler string :=
  build_and_store_prepared (λ transaction_type,
    '(tx, st) ← create_transaction_with_storage env transaction_type FeeDefault;
    Ok (tx_hash tx, tx_get_fee tx, without_review_extra_data tx st)) transaction_type.

Definition create_transfers (env : Env) (transfers : list Transfer) :
    result anyhow_error TransactionTypeBuilder :=
  create_transfers_with_decimals (get_asset_decimals env) transfers.

(** [XelisWallet::estimate_fees]. *)
Definition estimate_fees_formatted (env : Env) (transfers : list Transfer) :
    result anyhow_error string :=
  transaction_type_builder ←
    map_err (context "Error while creating transaction type builder")
      (create_transfers env transfers);
  estimated_fees ← map_err (context "Error while estimating fees")
                     (estimate_fees env transaction_type_builder);
  Ok (format_coin estimated_fees COIN_DECIMALS).

Definition create_transfers_transaction (env : Env) (transfers : list Transfer) :
    legacy_handler string :=
  transaction_type_builder ←
    lift (map_err (context "Error while creating transaction type builder")
            (create_transfers env transfers));
  create_and_store_prepared_transaction env transaction_type_builder.

Definition create_transfer_all_transaction (env : Env) (str_address : string)
    (asset_hash extra_data : option string) (encrypt_extra_data : option bool) :
    legacy_handler string :=
  asset ← lift match asset_hash with
               | None => Ok XELIS_ASSET
               | Some value => map_err (context "Invalid asset") (hash_from_hex value)
               end;
  balance ← lift (get_plaintext_balance_for env asset);
  address ← lift (map_err (context "Invalid address") (address_from_string str_address));
  estimated_transaction_type ←
    lift (build_transfer_all_type address balance 0 asset extra_data encrypt_extra_data);
  estimated_fees ← lift (map_err (context "Error while estimating fees")
                           (estimate_fees env estimated_transaction_type));
  transaction_type_builder ←
    lift (build_transfer_all_type address balance estimated_fees asset extra_data
            encrypt_extra_data);
  create_and_store_prepared_transaction env transaction_type_builder.

Definition create_burn_transaction (env : Env) (float_amount : f64) (asset_hash : string) :
    legacy_handler string :=
  asset ← lift (map_err (context "Invalid asset") (hash_from_hex asset_hash));
  decimals ← lift (map_err (context "Asset not found in storage")
                     (get_asset_decimals env asset));
  amount ← lift (checked_atomic_amount float_amount decimals);
  create_and_store_prepared_transaction env (build_burn_type asset amount).

Definition create_burn_all_transaction (env : Env) (asset_hash : string) :
    legacy_handler string :=
  asset ← lift (map_err (context "Invalid asset") (hash_from_hex asset_hash));
  balance ← lift (get_plaintext_balance_for env asset);
  estimated_transaction_type ← lift (build_burn_all_type asset balance 0);
  estimated_fees ← lift (map_err (context "Error while estimating fees")
                           (estimate_fees env estimated_transaction_type));
  transaction_type_builder ← lift (build_burn_all_type asset balance estimated_fees);
  create_and_store_prepared_transaction env transaction_type_builder.

Definition clear_transaction_internal (tx_hash : string) :
    legacy_handler (Transaction * TransactionBuilderState) :=
  hash ← lift (hash_from_hex tx_hash);
  prepared ← on_prepared (map_err_action prepared_anyhow (Slot.cancel hash));
  mret (pw_transaction prepared, pw_state prepared).

(** ** Inspection and cancellation *)

Definition parse_prepared_hash (tx_hash : string) : result NativeXelisError Hash :=
  map_err (λ _, invalid_prepared_transaction_hash) (hash_from_hex tx_hash).

(** A [u32] index always fits in [usize], so the conversion cannot fail. *)
Definition inspect_prepared_transfer_extra_data (preparation_id : Z) (tx_hash : string)
    (transfer_index : Z) : handler NativePreparedTransferExtraData :=
  hash ← lift (parse_prepared_hash tx_hash);
  transfer_index ← lift (ok_or (xelis_wallet_flutter CodeInvalidInput
      "PREPARED_TRANSFER_INDEX_INVALID"
      "Prepared transfer index is outside the supported range")
    (try_from usize_max transfer_index));
  prepared ← on_prepared (map_err_action prepared_transaction_error
    (Slot.ready_exact preparation_id hash));
  if bool_decide (transfer_count prepared ≤ transfer_index)%Z
  then throw (xelis_wallet_flutter CodeInvalidInput "PREPARED_TRANSFER_INDEX_INVALID"
    ("Prepared transfer index " +:+ uint_to_string transfer_index
     +:+ " is outside the transaction transfer count "
     +:+ uint_to_string (transfer_count prepared)))
  else lift (ok_or (xelis_wallet_flutter CodeNotFound
      "PREPARED_TRANSFER_EXTRA_DATA_NOT_FOUND"
      "The selected prepared transfer does not contain extra data")
    (review_extra_data prepared transfer_index)).

Definition cancel_prepared_transaction (preparation_id : Z) (tx_hash : string) :
    handler unit :=
  hash ← lift (parse_prepared_hash tx_hash);
  on_prepared (map_err_action prepared_transaction_error
    (Slot.cancel_exact preparation_id hash));;
  mret tt.

(** ** Broadcasting *)

Inductive BroadcastTransactionOutcome : Type :=
  | OutSubmitted | OutRetryable | OutRejected | OutLocalFailure
  | OutSubmittedNeedsResync.

Inductive NativePreparedTransactionBroadcastOutcome : Type :=
  | BSubmitted
  | BRetryable (failure : NativeXelisError)
  | BRejected (failure : NativeXelisError)
  | BLocalFailure (failure : NativeXelisError)
  | BSubmittedNeedsResync (failure : NativeXelisError).

Definition offline_prepared_transaction_outcome (preparation_id : Z) (hash : Hash) :
    handler NativePreparedTransactionBroadcastOutcome :=
  on_prepared (map_err_action prepared_transaction_error
    (Slot.ensure_ready_exact preparation_id hash));;
  mret (BRetryable (from_wallet_error WNotOnlineMode)).

Definition clear_unconfirmed_transaction_state {E} : action XelisWallet E unit :=
  emit EffClearUnconfirmed.

Definition finish {E} (f : Slot.PreparedTransactionError → E)
    (g : Slot.PreparedTransactionGuard Hash PreparedWalletTransaction) :
    action XelisWallet E PreparedWalletTransaction :=
  on_prepared (map_err_action f (Slot.guard_finish g)).

Definition restore {E} (f : Slot.PreparedTransactionError → E)
    (g : Slot.PreparedTransactionGuard Hash PreparedWalletTransaction) :
    action XelisWallet E unit :=
  on_prepared (map_err_action f (Slot.guard_restore g)).

Definition broadcast_transaction (env : Env) (tx_hash : string) :
    legacy_handler BroadcastTransactionOutcome :=
  lift (ensure_wallet_online (is_online env));;
  lift (get_tx_version env);;
  lift (get_synced_topoheight env);;
  lift (get_top_block_hash env);;
  hash ← lift (hash_from_hex tx_hash);
  guard ← on_prepared (map_err_action prepared_anyhow (Slot.guard_take hash));
  prepared ← guarded_submission guard
    (lift (map_err prepared_anyhow (Slot.guard_transaction guard)));
  emit (EffSubmit (pw_transaction prepared));;
  match resolve_submission (submit_transaction env (pw_transaction prepared)) with
  | ResSubmitted =>
      finished ← finish prepared_anyhow guard;
      let tx := pw_transaction finished in
      emit (EffApply tx);;
      match apply_changes env (pw_state finished) tx with
      | Err _ => emit EffClearUnconfirmed;; mret OutSubmittedNeedsResync
      | Ok _ => mret OutSubmitted
      end
  | ResRetryable _ =>
      restore prepared_anyhow guard;;
      clear_unconfirmed_transaction_state;;
      mret OutRetryable
  | ResDaemonRejected _ =>
      finish prepared_anyhow guard;;
      clear_unconfirmed_transaction_state;;
      mret OutRejected
  | ResLocalFailure _ =>
      finish prepared_anyhow guard;;
      clear_unconfirmed_transaction_state;;
      mret OutLocalFailure
  end.

Definition storage_read {A} (kind : string) (r : result anyhow_error A) :
    result NativeXelisError A :=
  map_err (λ error, from_wallet_storage_operation error kind) r.

(** The [match resolution] at the end of [broadcast_prepared_transaction]. *)
Definition settle_prepared_submission (env : Env)
    (guard : Slot.PreparedTransactionGuard Hash PreparedWalletTransaction)
    (resolution : SubmissionResolution) :
    handler NativePreparedTransactionBroadcastOutcome :=
  match resolution with
  | ResSubmitted =>
      finished ← finish prepared_transaction_error guard;
      let tx := pw_transaction finished in
      emit (EffApply tx);;
      match apply_changes env (pw_state finished) tx with
      | Err error =>
          emit EffClearUnconfirmed;;
          mret (BSubmittedNeedsResync (from_wallet_storage_operation error
                  "PREPARED_TRANSACTION_LOCAL_APPLY_FAILED"))
      | Ok _ => mret BSubmitted
      end
  | ResRetryable error =>
      restore prepared_transaction_error guard;;
      clear_unconfirmed_transaction_state;;
      mret (BRetryable (from_wallet_error error))
  | ResDaemonRejected error =>
      finish prepared_transaction_error guard;;
      clear_unconfirmed_transaction_state;;
      mret (BRejected (from_wallet_error error))
  | ResLocalFailure error =>
      finish prepared_transaction_error guard;;
      clear_unconfirmed_transaction_state;;
      mret (BLocalFailure (from_wallet_error error))
  end.

Definition broadcast_prepared_transaction (env : Env) (preparation_id : Z)
    (tx_hash : string) : handler NativePreparedTransactionBroadcastOutcome :=
  hash ← lift (parse_prepared_hash tx_hash);
  if negb (is_online env)
  then offline_prepared_transaction_outcome preparation_id hash
  else
    guard ← on_prepared (map_err_action prepared_transaction_error
      (Slot.guard_take_exact preparation_id hash));
    guarded_submission guard (lift (
      storage_read "PREPARED_TRANSACTION_STORAGE_VERSION_READ_FAILED" (get_tx_version env)));;
    guarded_submission guard (lift (
      storage_read "PREPARED_TRANSACTION_TOPOHEIGHT_READ_FAILED" (get_synced_topoheight env)));;
    guarded_submission guard (lift (
      storage_read "PREPARED_TRANSACTION_TOP_BLOCK_READ_FAILED" (get_top_block_hash env)));;
    prepared ← guarded_submission guard
      (lift (map_err prepared_transaction_error (Slot.guard_transaction guard)));
    emit (EffSubmit (pw_transaction prepared));;
    settle_prepared_submission env guard
      (resolve_submission (submit_transaction env (pw_transaction prepared))).

(** ** Reference definitions for the theorems *)

(** The four preparing handlers as one operation. *)
Inductive prepare_request : Type :=
  | PrepareTransfers (transfers : list NativeTransactionTransferRequest)
  | PrepareTransferAll (destination asset : string) (extra_data : option string)
      (encrypt_extra_data : bool)
  | PrepareBurn (amount : Z) (asset : string)
  | PrepareBurnAll (asset : string).

Definition prepare (env : Env) (req : prepare_request)
    (policy : NativeTransactionFeePolicy) : handler NativePreparedTransaction :=
  match req with
  | PrepareTransfers transfers => prepare_transfers_transaction env transfers policy
  | PrepareTransferAll destination asset extra encrypt =>
      prepare_transfer_all_transaction env destination asset extra encrypt policy
  | PrepareBurn amount asset => prepare_burn_transaction env amount asset policy
  | PrepareBurnAll asset => prepare_burn_all_transaction env asset policy
  end.

Definition plan_of (env : Env) (req : prepare_request)
    (policy : NativeTransactionFeePolicy) : result NativeXelisError plan :=
  match req with
  | PrepareTransfers transfers => plan_transfers env transfers policy
  | PrepareTransferAll destination asset extra encrypt =>
      plan_transfer_all env destination asset extra encrypt policy
  | PrepareBurn amount asset => plan_burn env amount asset policy
  | PrepareBurnAll asset => plan_burn_all env asset policy
  end.

(** The amount a transaction type moves, and the amount shown for review. *)
Definition built_amount (tt : TransactionTypeBuilder) : option Z :=
  match tt with
  | TTransfers [b] => Some (tb_amount b)
  | TBurn b => Some (burn_amount b)
  | _ => None
  end.
Definition shown_amount (k : NativePreparedTransactionKind) : option Z :=
  match k with
  | PreparedTransfers [t] => Some (pt_amount t)
  | PreparedBurn _ amount => Some amount
  | _ => None
  end.

(** The plan spends the whole balance of the asset, fee included. *)
Definition spends_all (env : Env) (asset : string) (pl : plan) : Prop :=
  ∃ a balance amount,
    hash_from_hex asset = Ok a ∧ get_plaintext_balance_for env a = Ok balance ∧
    (0 < amount)%Z ∧
    (balance = amount + if bool_decide (a = XELIS_ASSET) then plan_fee pl else 0)%Z ∧
    built_amount (plan_type pl) = Some amount ∧ shown_amount (plan_kind pl) = Some amount.

(** The slot, the pending request and the effects are as before; only the
    counter of generations may have advanced. *)
Definition same_slot (w w' : XelisWallet) : Prop :=
  Slot.state (prepared_transaction w') = Slot.state (prepared_transaction w) ∧
  Slot.active_preparation (prepared_transaction w')
    = Slot.active_preparation (prepared_transaction w) ∧
  pending_multisig w' = pending_multisig w ∧ effects w' = effects w.

(** [w'] is [w] with the transaction of the plan committed and described by
    [p]. *)
Definition committed (env : Env) (pl : plan) (w : XelisWallet)
    (p : NativePreparedTransaction) (w' : XelisWallet) : Prop :=
  ∃ tx st,
    create_transaction_with_storage env (plan_type pl) (FeeFixed (plan_fee pl)) = Ok (tx, st) ∧
    tx_get_fee tx = plan_fee pl ∧
    let id := (Slot.next_generation (prepared_transaction w) + 1)%Z in
    p = mkPrepared (hash_to_hex (tx_hash tx)) id (plan_fee pl) (plan_kind pl) ∧
    w' = mkWallet (Slot.mkStore (Slot.Ready id (tx_hash tx)
                     (mkPreparedWallet tx st (plan_review pl))) id None)
           (pending_multisig w) (effects w).

(** The slot holds exactly this capability, and nothing else uses it. *)
Definition holds (w : XelisWallet) (id : Z) (hash : Hash) (t : PreparedWalletTransaction) :
    Prop :=
  Slot.active_preparation (prepared_transaction w) = None ∧
  Slot.state (prepared_transaction w) = Slot.Ready id hash t.

(** [w'] is [w] with an empty slot and the effects [es] added. *)
Definition consumed (w : XelisWallet) (es : list effect) (w' : XelisWallet) : Prop :=
  w' = mkWallet (Slot.mkStore Slot.Empty (Slot.next_generation (prepared_transaction w)) None)
         (pending_multisig w) (effects w ++ es).

(** What an outcome promises about the transaction [t] that was submitted. *)
Definition outcome_spec (env : Env) (w : XelisWallet) (t : PreparedWalletTransaction)
    (o : NativePreparedTransactionBroadcastOutcome) (w' : XelisWallet) : Prop :=
  let tx := pw_transaction t in
  match o with
  | BSubmitted =>
      submit_transaction env tx = Ok tt ∧ consumed w [EffSubmit tx; EffApply tx] w'
  | BSubmittedNeedsResync _ =>
      submit_transaction env tx = Ok tt ∧
      consumed w [EffSubmit tx; EffApply tx; EffClearUnconfirmed] w'
  | BRejected f =>
      code f = CodeRemoteRejected ∧ consumed w [EffSubmit tx; EffClearUnconfirmed] w'
  | BLocalFailure f =>
      (∃ e, submit_transaction env tx = Err e ∧ f = from_wallet_error e) ∧
      consumed w [EffSubmit tx; EffClearUnconfirmed] w'
  | BRetryable f =>
      (code f = CodeNetwork ∨ code f = CodeOffline) ∧
      w' = mkWallet (prepared_transaction w) (pending_multisig w)
             (effects w ++ if is_online env then [EffSubmit tx; EffClearUnconfirmed] else [])
  end.

(** An outcome after which the preparation is gone. *)
Definition is_final (o : NativePreparedTransactionBroadcastOutcome) : bool :=
  match o with BRetryable _ => false | _ => true end.

(** ** Theorems *)

Lemma begin_preparation_cases w :
  (∃ e, begin_preparation w = (Err e, w)) ∨
  (Slot.active_preparation (prepared_transaction w) = None ∧
   (∀ g h, Slot.state (prepared_transaction w) ≠ Slot.InFlight g h) ∧
   let id := (Slot.next_generation (prepared_transaction w) + 1)%Z in
   begin_preparation w =
     (Ok (Slot.mkPreparationGuard id true),
      mkWallet (Slot.mkStore (Slot.state (prepared_transaction w)) id (Some id))
        (pending_multisig w) (effects w))).
Proof.
  unfold begin_preparation, on_prepared, map_err_action.
  destruct (Slot.preparation_begin_cases (prepared_transaction w)) as [[e ->]|(? & ? & ->)];
    [left|right]; cbn; [|done]. eexists. by destruct w.
Qed.

(** An early return while the preparation guard is alive releases the slot. *)
Lemma guarded_preparation_Err {E A} g st n pend eff (e : E) :
  guarded_preparation (A := A) (Slot.mkPreparationGuard g true) (lift (Err e))
    (mkWallet (Slot.mkStore st n (Some g)) pend eff)
  = (Err e, mkWallet (Slot.mkStore st n None) pend eff).
Proof.
  unfold guarded_preparation, lift; cbn [prepared_transaction pending_multisig effects].
  by rewrite Slot.preparation_drop_active.
Qed.

Lemma guarded_preparation_throw {E A} g st n pend eff (e : E) :
  guarded_preparation (A := A) (Slot.mkPreparationGuard g true) (throw e)
    (mkWallet (Slot.mkStore st n (Some g)) pend eff)
  = (Err e, mkWallet (Slot.mkStore st n None) pend eff).
Proof. apply guarded_preparation_Err. Qed.

Lemma create_and_commit_outcome env st n id pend eff pl r w' :
  (∀ g h, st ≠ Slot.InFlight g h) → id = (n + 1)%Z →
  create_and_commit_prepared_transaction env (Slot.mkPreparationGuard id true)
    (plan_type pl) (plan_kind pl) (plan_review pl) (plan_fee pl)
    (mkWallet (Slot.mkStore st id (Some id)) pend eff) = (r, w') →
  let w := mkWallet (Slot.mkStore st n None) pend eff in
  match r with Ok p => committed env pl w p w' | Err _ => same_slot w w' end.
Proof.
  intros Hi -> Hr w. unfold create_and_commit_prepared_transaction in Hr.
  unfold mbind, action_bind in Hr.
  destruct (create_transaction_with_storage _ _ _) as [[tx ts]|e] eqn:Hc.
  2:{ cbn [map_err] in Hr. rewrite guarded_preparation_Err in Hr. by injection Hr as <- <-. }
  cbn -[guarded_preparation] in Hr. unfold guarded_preparation at 1 in Hr. cbn in Hr.
  destruct (decide (tx_get_fee tx = plan_fee pl)) as [Hf|Hf].
  - rewrite bool_decide_false in Hr by auto. unfold on_prepared, map_err_action in Hr.
    cbn [prepared_transaction] in Hr.
    rewrite Slot.preparation_commit_active in Hr by done. injection Hr as <- <-.
    exists tx, ts. split_and!; [done..|]. by rewrite Hf.
  - rewrite bool_decide_true in Hr by done. rewrite guarded_preparation_throw in Hr.
    by injection Hr as <- <-.
Qed.

Lemma prepare_planned_outcome env policy planned w r w' :
  prepare_planned env policy planned w = (r, w') →
  match r with
  | Ok p => ∃ pl, planned = Ok pl ∧ committed env pl w p w'
  | Err _ => same_slot w w'
  end.
Proof.
  unfold prepare_planned. intros Hr. unfold mbind, action_bind, lift at 1 in Hr.
  destruct (apply_fee_policy 0 policy); [|by injection Hr as <- <-].
  destruct (begin_preparation_cases w) as [[e Hb]|(Ha & Hi & Hb)]; rewrite Hb in Hr; clear Hb.
  { by injection Hr as <- <-. }
  destruct w as [[st n ap] pend eff]; cbn in Ha, Hi; subst ap. cbn [prepared_transaction
    Slot.state Slot.next_generation pending_multisig effects] in Hr.
  destruct planned as [pl|e].
  - apply (create_and_commit_outcome _ _ n) in Hr; [|done..]. destruct r; eauto.
  - rewrite guarded_preparation_Err in Hr. by injection Hr as <- <-.
Qed.

Lemma prepare_outcome env req policy w r w' :
  prepare env req policy w = (r, w') →
  match r with
  | Ok p => ∃ pl, plan_of env req policy = Ok pl ∧ committed env pl w p w'
  | Err _ => same_slot w w'
  end.
Proof. destruct req; apply prepare_planned_outcome. Qed.

(** Claim C9 (functional): each of the four preparing handlers is all or
    nothing.  On success the slot holds the transaction that was created for
    exactly the reviewed plan and at exactly the announced fee, under a fresh
    generation, which is what the returned capability names.  On every error
    path, before or after the slot was reserved, the reservation is released
    and the previously prepared transaction is still there. *)
Theorem prepare_atomic env req policy w r w' :
  prepare env req policy w = (r, w') →
  match r with
  | Ok p => ∃ pl, plan_of env req policy = Ok pl ∧ committed env pl w p w'
  | Err _ => same_slot w w'
  end.
Proof. apply prepare_outcome. Qed.

Lemma project_prepared_transfer_amount d a amount ex en t r :
  project_prepared_transfer d a amount ex en = Ok (t, r) → pt_amount t = amount.
Proof.
  unfold project_prepared_transfer. destruct (extract_data d) as [[] ?], ex; cbn;
    intros; by simplify_eq.
Qed.

Lemma plan_transfer_all_spends env destination asset extra encrypt policy pl :
  plan_transfer_all env destination asset extra encrypt policy = Ok pl →
  spends_all env asset pl.
Proof.
  unfold plan_transfer_all, parse_transaction_asset, insufficient, build_transfer_all_type.
  intros Hp. repeat (inv_ok; match goal with p : _ * _ |- _ => destruct p end).
  subst. repeat match goal with H : amount_after_fee _ _ _ _ = Ok _ |- _ =>
    apply amount_after_fee_Ok in H as [? ?] end.
  match goal with H : project_prepared_transfer _ _ _ _ _ = _ |- _ =>
    apply project_prepared_transfer_amount in H end.
  simplify_eq. unfold spends_all; cbn. eexists _, _, (pt_amount _).
  split_and!; [done..|f_equal; lia|done].
Qed.

Lemma plan_burn_all_spends env asset policy pl :
  plan_burn_all env asset policy = Ok pl → spends_all env asset pl.
Proof.
  unfold plan_burn_all, parse_transaction_asset, insufficient, build_burn_all_type.
  intros Hp. inv_ok. subst. repeat match goal with H : amount_after_fee _ _ _ _ = Ok _ |- _ =>
    apply amount_after_fee_Ok in H as [? ?] end.
  unfold spends_all; cbn.
  do 3 eexists; split_and!; [done|done| | | |reflexivity]; [done|done|f_equal; lia].
Qed.

(** Claim C10 (functional): a prepared "send all" or "burn all" moves, and
    shows for review, one positive amount that together with the fee (when the
    asset is the native one) is the balance read from the storage. *)
Theorem spend_all_conserves env req asset policy pl :
  (∃ destination extra encrypt, req = PrepareTransferAll destination asset extra encrypt) ∨
  req = PrepareBurnAll asset →
  plan_of env req policy = Ok pl → spends_all env asset pl.
Proof.
  intros [(? & ? & ? & ->)| ->]; eauto using plan_transfer_all_spends, plan_burn_all_spends.
Qed.

Lemma plan_transfers_review env transfers policy pl :
  plan_transfers env transfers policy = Ok pl →
  length (plan_review pl) = length transfers ∧
  ∀ i req, transfers !! i = Some req → ∃ asset destination,
    request_valid req asset destination ∧
    plan_review pl !! i = Some (transfer_of req asset destination).2.
Proof.
  unfold plan_transfers. intros Hp. inv_ok. destruct x as [[tt k] rev]. inv_ok. subst; cbn.
  match goal with H : build_atomic_transfers _ = _ |- _ => rename H into Hb end.
  assert (Forall2 (λ req r, ∃ asset destination, request_valid req asset destination ∧
    r = (transfer_of req asset destination).2) transfers rev) as Hf.
  { unfold build_atomic_transfers in Hb. destruct transfers; [done|]. inv_ok.
    simplify_eq. apply Forall2_fmap_r.
    match goal with H : mapM _ _ = Ok _ |- _ => eapply mapM_enumerate_Ok in H end.
    2:{ intros; apply build_atomic_transfer_Ok. }
    eapply Forall2_impl; [done|]. naive_solver. }
  split; [by eapply symmetry, Forall2_length|].
  intros i req Hi. destruct (Forall2_lookup_l _ _ _ _ _ Hf Hi) as (r & Hr & a & d & ? & ->).
  eauto.
Qed.

Lemma inspect_exact `{!HashLaws} w id h t i :
  holds w id h t → in_range usize_max (Z.of_nat i) → (i < length (pw_review_extra_data t))%nat →
  inspect_prepared_transfer_extra_data id (hash_to_hex h) (Z.of_nat i) w
  = (ok_or (xelis_wallet_flutter CodeNotFound "PREPARED_TRANSFER_EXTRA_DATA_NOT_FOUND"
       "The selected prepared transfer does not contain extra data")
       (mjoin (pw_review_extra_data t !! i)), w).
Proof.
  intros [Ha Hs] Hi Hl. destruct w as [[st n ap] pend eff]; cbn in Ha, Hs; subst.
  unfold inspect_prepared_transfer_extra_data, parse_prepared_hash.
  rewrite hash_from_to_hex. unfold mbind, action_bind, lift. cbn [map_err].
  rewrite (proj2 (try_from_Some usize_max (Z.of_nat i) (Z.of_nat i))) by done.
  cbn [ok_or]. unfold on_prepared, map_err_action. cbn [prepared_transaction].
  destruct (Slot.ready_exact_cases id h (Slot.mkStore (Slot.Ready id h t) n None))
    as [(e & He & _)|(n' & t' & [= <- <-] & -> & _)].
  { exfalso. revert He. unfold Slot.ready_exact, Slot.ensure_ready_exact,
      Slot.ensure_slot_operation_available, mbind, action_bind, get_state, mret,
      action_ret, throw; cbn. by rewrite bool_decide_true by done. }
  cbn [map_err]. unfold transfer_count, zlen, review_extra_data.
  rewrite bool_decide_false by lia. by rewrite Nat2Z.id.
Qed.

(** After a batch of transfers was prepared, inspecting
    each of them with the returned capability gives exactly the extra data
    that its request will carry, explicit or from the integrated address, and
    reports its absence otherwise. *)
Theorem inspect_after_prepare `{!HashLaws} env transfers policy w p w' i req :
  prepare_transfers_transaction env transfers policy w = (Ok p, w') →
  transfers !! i = Some req → in_range usize_max (Z.of_nat i) →
  ∃ asset destination, request_valid req asset destination ∧
    inspect_prepared_transfer_extra_data (p_preparation_id p) (p_hash p) (Z.of_nat i) w'
    = (ok_or (xelis_wallet_flutter CodeNotFound "PREPARED_TRANSFER_EXTRA_DATA_NOT_FOUND"
         "The selected prepared transfer does not contain extra data")
         (transfer_of req asset destination).2, w').
Proof.
  intros Hp Hi Hr.
  apply (prepare_outcome env (PrepareTransfers transfers)) in Hp
    as (pl & Hpl & tx & ts & _ & _ & -> & ->).
  destruct (plan_transfers_review _ _ _ _ Hpl) as [Hlen Hrev].
  destruct (Hrev i req Hi) as (asset & destination & Hv & Hx).
  exists asset, destination; split; [done|]. cbn [p_preparation_id p_hash].
  rewrite (inspect_exact _ _ _ (mkPreparedWallet tx ts (plan_review pl))); cbn; [|done..|].
  - by rewrite Hx.
  - apply lookup_lt_Some in Hi. lia.
Qed.

(** An early return while the submission guard is alive puts the transaction
    back. *)
Lemma guarded_submission_lift {E A} id h t n pend eff (r : result E A) :
  guarded_submission (Slot.mkGuard id h (Some t)) (lift r)
    (mkWallet (Slot.mkStore (Slot.InFlight id h) n None) pend eff)
  = (r, match r with
        | Ok _ => mkWallet (Slot.mkStore (Slot.InFlight id h) n None) pend eff
        | Err _ => mkWallet (Slot.mkStore (Slot.Ready id h t) n None) pend eff
        end).
Proof.
  unfold guarded_submission, lift. destruct r; [done|].
  destruct (Slot.guard_ends_inflight id h t n) as (Hd & _). cbv zeta in Hd.
  cbn [prepared_transaction pending_multisig effects]. by rewrite Hd.
Qed.

Lemma finish_inflight {E} (f : Slot.PreparedTransactionError → E) id h t n pend eff :
  finish f (Slot.mkGuard id h (Some t))
    (mkWallet (Slot.mkStore (Slot.InFlight id h) n None) pend eff)
  = (Ok t, mkWallet (Slot.mkStore Slot.Empty n None) pend eff).
Proof.
  unfold finish, on_prepared, map_err_action. cbn [prepared_transaction].
  by destruct (Slot.guard_ends_inflight id h t n) as (_ & _ & ->).
Qed.

Lemma restore_inflight {E} (f : Slot.PreparedTransactionError → E) id h t n pend eff :
  restore f (Slot.mkGuard id h (Some t))
    (mkWallet (Slot.mkStore (Slot.InFlight id h) n None) pend eff)
  = (Ok tt, mkWallet (Slot.mkStore (Slot.Ready id h t) n None) pend eff).
Proof.
  unfold restore, on_prepared, map_err_action. cbn [prepared_transaction].
  by destruct (Slot.guard_ends_inflight id h t n) as (_ & -> & _).
Qed.

Lemma offline_outcome id h w :
  (∃ e, offline_prepared_transaction_outcome id h w = (Err e, w)) ∨
  ∃ t, holds w id h t ∧ offline_prepared_transaction_outcome id h w
    = (Ok (BRetryable (from_wallet_error WNotOnlineMode)), w).
Proof.
  unfold offline_prepared_transaction_outcome, mbind, action_bind, on_prepared, map_err_action.
  destruct (Slot.ready_exact_cases id h (prepared_transaction w))
    as [(e & _ & ->)|(n & t & Hw & _ & ->)]; cbn [map_err]; [left|right].
  - eexists. by destruct w.
  - exists t. unfold holds. destruct w; cbn in *. by subst.
Qed.

Lemma settle_outcome env id h t n pend eff r w' :
  is_online env = true →
  settle_prepared_submission env (Slot.mkGuard id h (Some t))
    (resolve_submission (submit_transaction env (pw_transaction t)))
    (mkWallet (Slot.mkStore (Slot.InFlight id h) n None) pend
       (eff ++ [EffSubmit (pw_transaction t)])) = (r, w') →
  ∃ o, r = Ok o ∧
    outcome_spec env (mkWallet (Slot.mkStore (Slot.Ready id h t) n None) pend eff) t o w'.
Proof.
  intros Ho Hr. unfold settle_prepared_submission in Hr.
  pose proof (submission_agrees (submit_transaction env (pw_transaction t))) as Hs.
  destruct (resolve_submission _) as [|e|e|e]; unfold mbind, action_bind in Hr;
    rewrite ?finish_inflight, ?restore_inflight in Hr.
  - destruct (apply_changes _ _ _); cbn in Hr; rewrite <-!app_assoc in Hr;
      injection Hr as <- <-; (eexists; split; [done|by split]).
  - cbn in Hr. rewrite <-app_assoc in Hr. injection Hr as <- <-.
    eexists; split; [done|]. cbn. rewrite Ho. naive_solver.
  - cbn in Hr. rewrite <-app_assoc in Hr. injection Hr as <- <-.
    eexists; split; [done|]. naive_solver.
  - cbn in Hr. rewrite <-app_assoc in Hr. injection Hr as <- <-.
    eexists; split; [done|]. naive_solver.
Qed.

Lemma broadcast_prepared_outcome env id s w r w' :
  broadcast_prepared_transaction env id s w = (r, w') →
  match r with
  | Err _ => w' = w
  | Ok o => ∃ h t, hash_from_hex s = Ok h ∧ holds w id h t ∧ outcome_spec env w t o w'
  end.
Proof.
  unfold broadcast_prepared_transaction, parse_prepared_hash. intros Hr.
  destruct (hash_from_hex s) as [h|e]; [|by injection Hr as <- <-].
  unfold mbind, action_bind, lift at 1 in Hr. cbn [map_err] in Hr.
  destruct (is_online env) eqn:Ho; cbn [negb] in Hr.
  2:{ destruct (offline_outcome id h w) as [[e He]|(t & Ht & He)]; rewrite He in Hr;
        injection Hr as <- <-; [done|]. exists h, t. split_and!; [done..|]. cbn.
      rewrite Ho, app_nil_r. by destruct w; auto. }
  unfold on_prepared, map_err_action in Hr.
  destruct (Slot.guard_take_exact_cases id h (prepared_transaction w))
    as [[e He]|(n & t & Hw & He)]; rewrite He in Hr; clear He; cbn [map_err] in Hr.
  { injection Hr as <- <-. by destruct w. }
  destruct w as [st pend eff]; cbn in Hw; subst st. cbn [pending_multisig effects] in Hr.
  rewrite guarded_submission_lift in Hr.
  destruct (storage_read _ (get_tx_version env)); [|by injection Hr as <- <-].
  rewrite guarded_submission_lift in Hr.
  destruct (storage_read _ (get_synced_topoheight env)); [|by injection Hr as <- <-].
  rewrite guarded_submission_lift in Hr.
  destruct (storage_read _ (get_top_block_hash env)); [|by injection Hr as <- <-].
  rewrite guarded_submission_lift in Hr. cbn [Slot.guard_transaction Slot.sg_transaction
    ok_or map_err] in Hr. unfold emit, modify in Hr.
  apply settle_outcome in Hr as (o & -> & ?); [|done].
  exists h, t. by split_and!.
Qed.

(** Claim C8 (functional): broadcasting a prepared transaction does one of two
    things.  An error leaves the wallet untouched and submits nothing.  An
    outcome is only ever given to the holder of the exact capability, whose
    transaction is submitted exactly once: the slot is emptied when the
    outcome is final, and it is left as it was, for a retry, when the outcome
    is retryable, in which case Dart is told [Network] or [Offline]; offline,
    nothing is submitted at all. *)
Theorem broadcast_prepared_spec env id s w r w' :
  broadcast_prepared_transaction env id s w = (r, w') →
  match r with
  | Err _ => w' = w
  | Ok o => ∃ h t, hash_from_hex s = Ok h ∧ holds w id h t ∧ outcome_spec env w t o w'
  end.
Proof. apply broadcast_prepared_outcome. Qed.

(** After a final outcome the same capability can never
    submit again, whatever the daemon and the storage answer then: every attempt
    is an error that changes nothing. *)
Theorem broadcast_at_most_once env env' id s w o w1 r w2 :
  broadcast_prepared_transaction env id s w = (Ok o, w1) → is_final o = true →
  broadcast_prepared_transaction env' id s w1 = (r, w2) →
  (∃ e, r = Err e) ∧ w2 = w1.
Proof.
  intros Hone%broadcast_prepared_outcome Hf Htwo%broadcast_prepared_outcome.
  destruct Hone as (h & t & _ & _ & Ho).
  assert (Slot.state (prepared_transaction w1) = Slot.Empty) as Hw1.
  { destruct o; cbn in Ho; destruct_and?; try done;
      match goal with H : consumed _ _ _ |- _ => by rewrite H end. }
  destruct r as [o'|e]; [|by eauto].
  destruct Htwo as (h' & t' & _ & [_ Hh] & _). congruence.
Qed.

End Handlers.

(** ** Concrete runs *)

#[local] Existing Instances plain_text demo_hash demo_address.

(** A transaction is its hash and its fee. *)
Definition demo_wallet_lib : WalletLib := {|
  Transaction := string * Z;
  TransactionBuilderState := unit;
  UnsignedTransaction := unit;
  tx_hash tx := tx.1;
  tx_get_fee tx := tx.2;
  summary_to_json hash _ _ := hash;
  format_coin amount _ := uint_to_string amount;
  COIN_DECIMALS := 8
|}.
#[local] Existing Instance demo_wallet_lib.

(** An online wallet with a balance of 100, a base fee of 10 and a daemon that
    answers [submitted]. *)
Definition demo_env (submitted : result WalletError unit) : Env := {|
  is_online := true;
  estimate_fees _ := Ok 10%Z;
  create_transaction_with_storage _ fee :=
    Ok ("tx"%string, match fee with FeeFixed f => f | FeeDefault => 10%Z end, tt);
  get_plaintext_balance_for _ := Ok 100%Z;
  get_asset_decimals _ := Ok 8%Z;
  get_tx_version := Ok 1%Z;
  get_synced_topoheight := Ok 5%Z;
  get_top_block_hash := Ok "top"%string;
  submit_transaction _ := submitted;
  apply_changes _ _ := Ok tt
|}.

Definition demo_wallet : XelisWallet :=
  mkWallet Slot.store_default Pending.pending_default [].

Definition demo_request : NativeTransactionTransferRequest :=
  mkRequest 5 "xelbob" "fxelis" (Some "invoice"%string) true.

Definition demo_prepared : NativePreparedTransaction * XelisWallet :=
  match prepare_transfers_transaction (demo_env (Ok tt)) [demo_request] (Tip 2) demo_wallet with
  | (Ok p, w) => (p, w)
  | (Err _, w) => (mkPrepared EmptyString 0 0 (PreparedTransfers []), w)
  end.

Lemma prepare_atomic_witness :
  ∃ pl, plan_of (demo_env (Ok tt)) (PrepareTransfers [demo_request]) (Tip 2) = Ok pl ∧
    committed (demo_env (Ok tt)) pl demo_wallet demo_prepared.1 demo_prepared.2.
Proof.
  apply (prepare_atomic (demo_env (Ok tt)) (PrepareTransfers [demo_request]) (Tip 2)
           demo_wallet (Ok demo_prepared.1) demo_prepared.2).
  reflexivity.
Defined.

Lemma spend_all_conserves_witness :
  ∃ pl, plan_of (demo_env (Ok tt)) (PrepareBurnAll "fxelis") Automatic = Ok pl ∧
    spends_all (demo_env (Ok tt)) "fxelis" pl.
Proof.
  eexists. split; [reflexivity|].
  apply (spend_all_conserves (demo_env (Ok tt)) (PrepareBurnAll "fxelis") "fxelis" Automatic).
  - right. reflexivity.
  - reflexivity.
Defined.

Lemma inspect_after_prepare_witness :
  ∃ asset destination, request_valid demo_request asset destination ∧
    inspect_prepared_transfer_extra_data (p_preparation_id demo_prepared.1)
      (p_hash demo_prepared.1) (Z.of_nat 0) demo_prepared.2
    = (ok_or (xelis_wallet_flutter CodeNotFound "PREPARED_TRANSFER_EXTRA_DATA_NOT_FOUND"
         "The selected prepared transfer does not contain extra data")
         (transfer_of demo_request asset destination).2, demo_prepared.2).
Proof.
  apply (@inspect_after_prepare _ _ _ _ demo_hash_laws (demo_env (Ok tt)) [demo_request]
           (Tip 2) demo_wallet).
  - reflexivity.
  - reflexivity.
  - unfold in_range, usize_max, u64_max. lia.
Defined.

(** The wallet after the prepared transaction was submitted. *)
Definition demo_submitted : XelisWallet :=
  (broadcast_prepared_transaction (demo_env (Ok tt)) 1 "ftx" demo_prepared.2).2.

Lemma broadcast_prepared_spec_witness :
  ∃ h t, hash_from_hex "ftx" = Ok h ∧ holds demo_prepared.2 1 h t ∧
    outcome_spec (demo_env (Ok tt)) demo_prepared.2 t BSubmitted demo_submitted.
Proof.
  apply (broadcast_prepared_spec (demo_env (Ok tt)) 1 "ftx" demo_prepared.2 (Ok BSubmitted)).
  reflexivity.
Defined.

Lemma broadcast_at_most_once_witness :
  (∃ e, broadcast_prepared_transaction (demo_env (Ok tt)) 1 "ftx" demo_submitted
        = (Err e, demo_submitted)) ∧ demo_submitted = demo_submitted.
Proof.
  eassert (_ ∧ demo_submitted = demo_submitted) as [Hr Hw].
  { apply (broadcast_at_most_once (demo_env (Ok tt)) (demo_env (Ok tt)) 1 "ftx"
             demo_prepared.2 BSubmitted demo_submitted
             (broadcast_prepared_transaction (demo_env (Ok tt)) 1 "ftx" demo_submitted).1
             demo_submitted); reflexivity. }
  split; [|exact Hw]. destruct Hr as [e He]. exists e. rewrite <-He.
  reflexivity.
Defined.

End Transactions.
