(* ===== verification/Protocol.v ===== *)
(** * The multisig signing protocol (rust/src/api/wallet/multisig/protocol.rs)

    A source wallet sends a signing request out of band, a participant inspects
    the typed transaction it contains and answers with a signature share.  The
    file models the construction and the verification of both.  Keys,
    signatures, proofs, transactions and the JSON encoding of the envelopes are
    values of the crates, the fields of [ProtocolLib]. *)

From Stdlib Require Import Ascii.
From S2P Require Import Prelude Errors External Text Addresses Builders.
From S2P Require Import Prepared Pending Submission Transactions.

Module Protocol.
Import Builders Transactions.

Section Types.
Context `{!HashLib, !AddressLib, !WalletLib}.

(** [xelis_common::transaction::TransferPayload], its ciphertext for the sender
    as the result of decompressing it. *)
Record TransferPayload (Ciphertext : Type) : Type := mkTransferPayload {
  tp_destination : PublicKey;
  tp_asset : Hash;
  tp_has_extra_data : bool;
  tp_sender_ciphertext : result anyhow_error Ciphertext
}.

(** [xelis_common::transaction::TransactionType]. *)
Inductive TransactionType (Ciphertext : Type) : Type :=
  | TypeTransfers (transfers : list (TransferPayload Ciphertext))
  | TypeBurn (burn : BurnPayload)
  | TypeMultiSig (payload : MultiSigPayload)
  | TypeOther.

Record MultisigSigningRequestTransfer : Type := mkRequestTransfer {
  rt_amount : Z;
  rt_asset : string;
  rt_destination : string;
  rt_has_extra_data : bool;
  rt_amount_proof : string
}.

Inductive MultisigSigningRequestTransaction : Type :=
  | ReqTransfers (transfers : list MultisigSigningRequestTransfer)
  | ReqBurn (asset : string) (amount : Z)
  | ReqDeleteMultisig.

Record MultisigSigningRequestPayload : Type := mkPayload {
  payload_version : Z;
  payload_network : Network;
  payload_unsigned_transaction : string;
  payload_transaction : MultisigSigningRequestTransaction
}.

Record MultisigSigningRequestEnvelope : Type := mkEnvelope {
  envelope_payload : MultisigSigningRequestPayload;
  envelope_source_signature : string
}.

Record MultisigSignatureShareEnvelope : Type := mkShareEnvelope {
  share_version : Z;
  share_signing_hash : string;
  share_signer_id : Z;
  share_signature : string
}.

Record MultisigSignature : Type := mkMultisigSignature {
  ms_id : Z;
  ms_signature : string
}.

Record NativeMultisigSignatureShare : Type := mkShare {
  nms_encoded : string;
  nms_signing_hash : string;
  nms_signer_id : Z;
  nms_signature : string
}.

Record ParsedMultisigSigningRequest : Type := mkParsed {
  pr_encoded : string;
  pr_signing_hash : Hash;
  pr_source : string;
  pr_network : Network;
  pr_fee : Z;
  pr_fee_limit : Z;
  pr_nonce : Z;
  pr_reference_topoheight : Z;
  pr_transaction : NativeMultisigSigningTransaction
}.

Record NativeMultisigSigningRequest : Type := mkSigningRequest {
  sr_request_id : option Z;
  sr_encoded : string;
  sr_signing_hash : string;
  sr_source : string;
  sr_network : string;
  sr_fee : Z;
  sr_fee_limit : Z;
  sr_nonce : Z;
  sr_reference_topoheight : Z;
  sr_threshold : Z;
  sr_participants : list NativeMultisigParticipant;
  sr_signer_id : option Z;
  sr_transaction : NativeMultisigSigningTransaction
}.

End Types.
Arguments mkTransferPayload {_ _ _} _ _ _ _.
Arguments tp_destination {_ _ _} _.
Arguments tp_asset {_ _ _} _.
Arguments tp_has_extra_data {_ _ _} _.
Arguments tp_sender_ciphertext {_ _ _} _.
Arguments TypeTransfers {_ _ _} _.
Arguments TypeBurn {_ _ _} _.
Arguments TypeMultiSig {_ _ _} _.
Arguments TypeOther {_ _ _}.

Class ProtocolLib `{!HashLib, !AddressLib, !WalletLib} := {
  KeyPair : Type;
  (** [elgamal::PublicKey], a decompressed key. *)
  Key : Type;
  decompress : PublicKey → result anyhow_error Key;
  Signature : Type;
  signature_from_hex : string → result anyhow_error Signature;
  signature_to_hex : Signature → string;
  (** [Signature::verify] of a message under a key. *)
  signature_verify : Signature → bytes → Key → bool;
  keypair_sign : KeyPair → bytes → Signature;
  hash_as_bytes : Hash → bytes;
  (** [MultiSig], the signatures collected so far. *)
  MultiSig : Type;
  multisig_new : MultiSig;
  (** [add_signature]: whether the signature was added, and the set after it. *)
  add_signature : MultiSig → Z → Signature → bool * MultiSig;
  (** The participant ids of the signatures it holds. *)
  signature_ids : MultiSig → list Z;
  Ciphertext : Type;
  BalanceProof : Type;
  balance_proof_new : KeyPair → Z → Ciphertext → BalanceProof;
  balance_proof_from_hex : string → result anyhow_error BalanceProof;
  balance_proof_to_hex : BalanceProof → string;
  balance_proof_amount : BalanceProof → Z;
  balance_proof_verify : BalanceProof → Key → Ciphertext → result anyhow_error unit;
  unsigned_from_hex : string → result anyhow_error UnsignedTransaction;
  unsigned_to_hex : UnsignedTransaction → string;
  unsigned_size : UnsignedTransaction → Z;
  (** [unsigned.multisig().is_none()]. *)
  unsigned_multisig_is_none : UnsignedTransaction → bool;
  unsigned_source : UnsignedTransaction → PublicKey;
  get_hash_for_multisig : UnsignedTransaction → Hash;
  set_multisig : UnsignedTransaction → MultiSig → UnsignedTransaction;
  finalize : UnsignedTransaction → KeyPair → Transaction;
  tx_get_data : Transaction → TransactionType Ciphertext;
  tx_get_source : Transaction → PublicKey;
  tx_get_fee_limit : Transaction → Z;
  tx_get_nonce : Transaction → Z;
  tx_reference_topoheight : Transaction → Z;
  (** [MultiSigPayload::is_delete]. *)
  is_delete : MultiSigPayload → bool;
  (** [network.to_string().to_lowercase()]. *)
  network_lowercase : Network → string;
  MAX_MULTISIG_PARTICIPANTS : Z;
  MAX_TRANSACTION_SIZE : Z;
  (** serde_json. *)
  payload_to_json : MultisigSigningRequestPayload → result anyhow_error bytes;
  envelope_to_json : MultisigSigningRequestEnvelope → result anyhow_error string;
  envelope_from_json : string → result anyhow_error MultisigSigningRequestEnvelope;
  share_to_json : MultisigSignatureShareEnvelope → result anyhow_error string;
  share_from_json : string → result anyhow_error MultisigSignatureShareEnvelope
}.

(** [MultiSig] keeps one signature per participant, in the order of insertion. *)
Class MultiSigLaws `{!HashLib, !AddressLib, !WalletLib, !ProtocolLib} : Prop := {
  signature_ids_new : signature_ids multisig_new = [];
  add_signature_fresh ms id sg :
    (add_signature ms id sg).1 = bool_decide (id ∉ signature_ids ms);
  add_signature_ids ms id sg :
    id ∉ signature_ids ms →
    signature_ids (add_signature ms id sg).2 = signature_ids ms ++ [id]
}.

(** Finalizing a transaction keeps its source. *)
Class FinalizeLaws `{!HashLib, !AddressLib, !WalletLib, !ProtocolLib} : Prop := {
  finalize_source u k : tx_get_source (finalize u k) = unsigned_source u
}.

(** The hex and JSON codecs of the crates invert their printers, and compact
    JSON has no white space around it. *)
Class CodecLaws `{!HashLib, !AddressLib, !WalletLib, !ProtocolLib} : Prop := {
  signature_from_to_hex sg : signature_from_hex (signature_to_hex sg) = Ok sg;
  share_from_to_json e j :
    share_to_json e = Ok j → share_from_json j = Ok e ∧ trim j = j
}.

Section Protocol.
Context `{!ErrorText, !HashLib, !AddressLib, !WalletLib, !ProtocolLib}.

Abbreviation fallible := (result anyhow_error).

Definition MULTISIG_SIGNING_REQUEST_VERSION : Z := 1.
Definition MULTISIG_SIGNATURE_SHARE_VERSION : Z := 1.
Definition MAX_MULTISIG_SIGNING_REQUEST_SIZE : Z := MAX_TRANSACTION_SIZE * 3.
Definition MAX_MULTISIG_SIGNATURE_SHARE_SIZE : Z := 1024.
(** [b"xelis:wallet:multisig-signing-request:v1\0"]. *)
Definition MULTISIG_SIGNING_REQUEST_DOMAIN : bytes :=
  String.list_byte_of_string "xelis:wallet:multisig-signing-request:v1" ++ [Byte.x00].

(** [.context("...")?]. *)
Definition with_context {A} (message : string) (r : fallible A) : fallible A :=
  map_err (context message) r.

(** The address of a public key. *)
Definition address_of (network : Network) (key : PublicKey) : string :=
  address_to_string (address_new (network_is_mainnet network) None key).

Definition into_request (p : ParsedMultisigSigningRequest) (request_id : option Z)
    (threshold : Z) (participants : list NativeMultisigParticipant)
    (signer_id : option Z) : NativeMultisigSigningRequest := {|
  sr_request_id := request_id;
  sr_encoded := pr_encoded p;
  sr_signing_hash := hash_to_hex (pr_signing_hash p);
  sr_source := pr_source p;
  sr_network := network_lowercase (pr_network p);
  sr_fee := pr_fee p;
  sr_fee_limit := pr_fee_limit p;
  sr_nonce := pr_nonce p;
  sr_reference_topoheight := pr_reference_topoheight p;
  sr_threshold := threshold;
  sr_participants := participants;
  sr_signer_id := signer_id;
  sr_transaction := pr_transaction p
|}.

Definition validate_multisig_setup (threshold participants : Z) : fallible unit :=
  ensure (bool_decide (participants ≠ 0)%Z)
    (bail "At least one multisig participant is required");;
  ensure (bool_decide (participants ≤ MAX_MULTISIG_PARTICIPANTS)%Z)
    (bail "Too many multisig participants");;
  ensure (bool_decide (threshold ≠ 0 ∧ threshold ≤ participants)%Z)
    (bail "Invalid multisig threshold").

Definition verify_multisig_signature (expected_signing_hash : Hash)
    (configuration : MultiSigPayload) (signature : MultisigSignature) :
    fallible (Z * Signature) :=
  participant ← ok_or (bail "The multisig participant id is invalid")
    (msp_participants configuration !! Z.to_nat (ms_id signature));
  participant ← with_context "The multisig participant key is invalid"
    (decompress participant);
  parsed_signature ← with_context "The multisig signature encoding is invalid"
    (signature_from_hex (ms_signature signature));
  ensure (bool_decide (signature_to_hex parsed_signature = ms_signature signature))
    (bail "The multisig signature encoding is not canonical");;
  ensure (signature_verify parsed_signature (hash_as_bytes expected_signing_hash) participant)
    (bail "The multisig signature is invalid for this transaction");;
  Ok (ms_id signature, parsed_signature).

(** The loop of [build_verified_multisig]. *)
Fixpoint add_verified (expected_signing_hash : Hash) (configuration : MultiSigPayload)
    (signatures : list MultisigSignature) (multisig : MultiSig) : fallible MultiSig :=
  match signatures with
  | [] => Ok multisig
  | signature :: signatures' =>
      '(id, verified) ← verify_multisig_signature expected_signing_hash configuration signature;
      let '(added, multisig) := add_signature multisig id verified in
      ensure added (bail "A multisig participant was provided more than once");;
      add_verified expected_signing_hash configuration signatures' multisig
  end.

Definition build_verified_multisig (expected_signing_hash : Hash)
    (configuration : MultiSigPayload) (signatures : list MultisigSignature) :
    fallible MultiSig :=
  ensure (bool_decide (zlen signatures = msp_threshold configuration))
    (bail "The multisig signature count does not match the configured threshold");;
  add_verified expected_signing_hash configuration signatures multisig_new.

Definition multisig_request_signing_bytes (payload : MultisigSigningRequestPayload) :
    fallible bytes :=
  payload ← with_context "Unable to encode the multisig signing request payload"
    (payload_to_json payload);
  Ok (MULTISIG_SIGNING_REQUEST_DOMAIN ++ payload).

Definition validate_transfer_public_details (declared : TransferBuilder)
    (actual : TransferPayload Ciphertext) (network : Network) : fallible unit :=
  ensure (bool_decide (is_mainnet (tb_destination declared) = network_is_mainnet network))
    (bail "A transfer destination belongs to another network");;
  ensure (bool_decide (get_public_key (tb_destination declared) = tp_destination actual))
    (bail "A transfer destination does not match the unsigned transaction");;
  ensure (bool_decide (tb_asset declared = tp_asset actual))
    (bail "A transfer asset does not match the unsigned transaction");;
  let declared_has_extra_data :=
    bool_decide (is_Some (tb_extra_data declared)) ||
    bool_decide (is_Some (extract_data (tb_destination declared)).1) in
  ensure (bool_decide (declared_has_extra_data = tp_has_extra_data actual))
    (bail "Transfer extra data does not match the unsigned transaction").

(** One iteration of the loops of [build_signing_request_transaction]. *)
Definition build_request_transfer (network : Network) (source_keypair : KeyPair)
    (declared : TransferBuilder) (actual : TransferPayload Ciphertext) :
    fallible MultisigSigningRequestTransfer :=
  validate_transfer_public_details declared actual network;;
  sender_ciphertext ← with_context "The transfer sender ciphertext is invalid"
    (tp_sender_ciphertext actual);
  let amount_proof := balance_proof_new source_keypair (tb_amount declared) sender_ciphertext in
  Ok {| rt_amount := tb_amount declared;
        rt_asset := hash_to_hex (tp_asset actual);
        rt_destination := address_of network (tp_destination actual);
        rt_has_extra_data := tp_has_extra_data actual;
        rt_amount_proof := balance_proof_to_hex amount_proof |}.

Definition type_mismatch : anyhow_error :=
  bail "The declared transaction type does not match the unsigned transaction".

Definition build_signing_request_transaction (declared : TransactionTypeBuilder)
    (actual : TransactionType Ciphertext) (network : Network) (source_keypair : KeyPair) :
    fallible MultisigSigningRequestTransaction :=
  match declared, actual with
  | TTransfers declared, TypeTransfers actual =>
      ensure (bool_decide (zlen declared = zlen actual))
        (bail "The transfer count does not match the unsigned transaction");;
      transfers ← mapM (λ '(d, a), build_request_transfer network source_keypair d a)
                    (zip declared actual);
      Ok (ReqTransfers transfers)
  | TBurn declared, TypeBurn actual =>
      ensure (bool_decide (burn_asset declared = burn_asset actual ∧
                           burn_amount declared = burn_amount actual))
        (bail "The burn details do not match the unsigned transaction");;
      Ok (ReqBurn (hash_to_hex (burn_asset actual)) (burn_amount actual))
  | TMultiSig declared, TypeMultiSig actual =>
      ensure (bool_decide (msb_threshold declared = msp_threshold actual))
        (bail "The multisig threshold does not match the unsigned transaction");;
      ensure (bool_decide (zlen (msb_participants declared) = zlen (msp_participants actual)) &&
              forallb (λ '(d, a), bool_decide (get_public_key d = a))
                (zip (msb_participants declared) (msp_participants actual)))
        (bail "The multisig participants do not match the unsigned transaction");;
      ensure (is_delete actual) (bail "Only multisig deletion requests are supported");;
      Ok ReqDeleteMultisig
  | _, _ => Err type_mismatch
  end.

(** One iteration of the loop of [validate_and_build_transaction_preview]. *)
Definition preview_transfer (network : Network) (source : Key)
    (declared : MultisigSigningRequestTransfer) (actual : TransferPayload Ciphertext) :
    fallible NativeMultisigSigningTransfer :=
  ensure (bool_decide (rt_destination declared = address_of network (tp_destination actual)))
    (bail "A transfer destination does not match the unsigned transaction");;
  ensure (bool_decide (rt_asset declared = hash_to_hex (tp_asset actual)))
    (bail "A transfer asset does not match the unsigned transaction");;
  ensure (bool_decide (rt_has_extra_data declared = tp_has_extra_data actual))
    (bail "Transfer extra data does not match the unsigned transaction");;
  amount_proof ← with_context "The transfer amount proof is invalid"
    (balance_proof_from_hex (rt_amount_proof declared));
  ensure (bool_decide (balance_proof_to_hex amount_proof = rt_amount_proof declared))
    (bail "The transfer amount proof encoding is not canonical");;
  ensure (bool_decide (balance_proof_amount amount_proof = rt_amount declared))
    (bail "The transfer amount does not match its proof");;
  sender_ciphertext ← with_context "The transfer sender ciphertext is invalid"
    (tp_sender_ciphertext actual);
  with_context "The transfer amount proof does not match the unsigned transaction"
    (balance_proof_verify amount_proof source sender_ciphertext);;
  Ok {| st_amount := rt_amount declared;
        st_asset := rt_asset declared;
        st_destination := rt_destination declared;
        st_has_extra_data := rt_has_extra_data declared |}.

Definition validate_and_build_transaction_preview
    (declared : MultisigSigningRequestTransaction) (actual : TransactionType Ciphertext)
    (network : Network) (source : Key) : fallible NativeMultisigSigningTransaction :=
  match declared, actual with
  | ReqTransfers declared, TypeTransfers actual =>
      ensure (bool_decide (zlen declared = zlen actual))
        (bail "The transfer count does not match the unsigned transaction");;
      transfers ← mapM (λ '(d, a), preview_transfer network source d a)
                    (zip declared actual);
      Ok (SigningTransfers transfers)
  | ReqBurn asset amount, TypeBurn actual =>
      ensure (bool_decide (asset = hash_to_hex (burn_asset actual) ∧
                           amount = burn_amount actual))
        (bail "The burn details do not match the unsigned transaction");;
      Ok (SigningBurn (hash_to_hex (burn_asset actual)) (burn_amount actual))
  | ReqDeleteMultisig, TypeMultiSig actual =>
      ensure (is_delete actual) (bail "Only multisig deletion requests are supported");;
      Ok SigningDeleteMultisig
  | _, _ => Err type_mismatch
  end.

(** [ephemeral] is the key pair that [KeyPair::new()] draws to reach the typed
    getters of the unsigned transaction. *)
Definition parse_multisig_signing_request (ephemeral : KeyPair) (encoded : string)
    (expected_network : Network) : fallible ParsedMultisigSigningRequest :=
  ensure (bool_decide (str_len encoded ≤ MAX_MULTISIG_SIGNING_REQUEST_SIZE)%Z)
    (bail "The multisig signing request is too large");;
  envelope ← with_context "Invalid multisig signing request"
    (envelope_from_json (trim encoded));
  let payload := envelope_payload envelope in
  ensure (bool_decide (payload_version payload = MULTISIG_SIGNING_REQUEST_VERSION))
    (bail "Unsupported multisig signing request version");;
  ensure (bool_decide (payload_network payload = expected_network))
    (bail "The multisig signing request belongs to another network");;
  unsigned ← with_context "Invalid unsigned transaction in multisig signing request"
    (unsigned_from_hex (payload_unsigned_transaction payload));
  ensure (bool_decide (unsigned_size unsigned ≤ MAX_TRANSACTION_SIZE)%Z)
    (bail "The unsigned transaction is too large");;
  ensure (bool_decide (unsigned_to_hex unsigned = payload_unsigned_transaction payload))
    (bail "The unsigned transaction encoding is not canonical");;
  ensure (unsigned_multisig_is_none unsigned)
    (bail "The multisig signing request already contains signatures");;
  source_signature ← with_context "Invalid multisig signing request attestation"
    (signature_from_hex (envelope_source_signature envelope));
  ensure (bool_decide (signature_to_hex source_signature = envelope_source_signature envelope))
    (bail "The multisig signing request attestation encoding is not canonical");;
  source ← with_context "Invalid multisig signing request source"
    (decompress (unsigned_source unsigned));
  signed ← multisig_request_signing_bytes payload;
  ensure (signature_verify source_signature signed source)
    (bail "The multisig signing request attestation is invalid");;
  canonical_encoded ← with_context "Unable to normalize the multisig signing request"
    (envelope_to_json envelope);
  ensure (bool_decide (canonical_encoded = trim encoded))
    (bail "The multisig signing request encoding is not canonical");;
  let transaction := finalize unsigned ephemeral in
  transaction_preview ← validate_and_build_transaction_preview (payload_transaction payload)
    (tx_get_data transaction) expected_network source;
  Ok {| pr_encoded := canonical_encoded;
        pr_signing_hash := get_hash_for_multisig unsigned;
        pr_source := address_of expected_network (tx_get_source transaction);
        pr_network := expected_network;
        pr_fee := tx_get_fee transaction;
        pr_fee_limit := tx_get_fee_limit transaction;
        pr_nonce := tx_get_nonce transaction;
        pr_reference_topoheight := tx_reference_topoheight transaction;
        pr_transaction := transaction_preview |}.

(** [iter().enumerate()] with the cast [id as u8]. *)
Definition number_participants (addresses : list string) : list NativeMultisigParticipant :=
  (λ '(id, address), mkParticipant (as_u8 id) address) <$> enumerate addresses.

Definition create_multisig_signing_request (ephemeral : KeyPair)
    (unsigned : UnsignedTransaction) (transaction_type : TransactionTypeBuilder)
    (configuration : MultiSigPayload) (network : Network) (source_keypair : KeyPair) :
    fallible NativeMultisigSigningRequest :=
  let finalized := finalize unsigned source_keypair in
  transaction ← build_signing_request_transaction transaction_type (tx_get_data finalized)
    network source_keypair;
  let payload := {| payload_version := MULTISIG_SIGNING_REQUEST_VERSION;
                    payload_network := network;
                    payload_unsigned_transaction := unsigned_to_hex unsigned;
                    payload_transaction := transaction |} in
  signed ← multisig_request_signing_bytes payload;
  let source_signature := keypair_sign source_keypair signed in
  let envelope := {| envelope_payload := payload;
                     envelope_source_signature := signature_to_hex source_signature |} in
  encoded ← with_context "Unable to encode the multisig signing request"
    (envelope_to_json envelope);
  parsed ← parse_multisig_signing_request ephemeral encoded network;
  let participants :=
    number_participants (address_of network <$> msp_participants configuration) in
  Ok (into_request parsed None (msp_threshold configuration) participants None).

Definition create_multisig_signature_share (signing_hash : Hash) (signer_id : Z)
    (signature : Signature) : fallible NativeMultisigSignatureShare :=
  let envelope := {| share_version := MULTISIG_SIGNATURE_SHARE_VERSION;
                     share_signing_hash := hash_to_hex signing_hash;
                     share_signer_id := signer_id;
                     share_signature := signature_to_hex signature |} in
  encoded ← with_context "Unable to encode the multisig signature share"
    (share_to_json envelope);
  Ok {| nms_encoded := encoded;
        nms_signing_hash := share_signing_hash envelope;
        nms_signer_id := signer_id;
        nms_signature := share_signature envelope |}.

Definition parse_multisig_signature_share (encoded : string) (expected_signing_hash : Hash) :
    fallible MultisigSignature :=
  ensure (bool_decide (str_len encoded ≤ MAX_MULTISIG_SIGNATURE_SHARE_SIZE)%Z)
    (bail "The multisig signature share is too large");;
  envelope ← with_context "Invalid multisig signature share"
    (share_from_json (trim encoded));
  ensure (bool_decide (share_version envelope = MULTISIG_SIGNATURE_SHARE_VERSION))
    (bail "Unsupported multisig signature share version");;
  ensure (bool_decide (share_signing_hash envelope = hash_to_hex expected_signing_hash))
    (bail "The signature share belongs to another multisig request");;
  canonical_encoded ← with_context "Unable to normalize the multisig signature share"
    (share_to_json envelope);
  ensure (bool_decide (canonical_encoded = trim encoded))
    (bail "The multisig signature share encoding is not canonical");;
  signature ← with_context "Invalid signature share encoding"
    (signature_from_hex (share_signature envelope));
  ensure (bool_decide (signature_to_hex signature = share_signature envelope))
    (bail "The signature share encoding is not canonical");;
  Ok {| ms_id := share_signer_id envelope; ms_signature := share_signature envelope |}.

(** ** Reference definitions for the theorems *)

(** A share that proves the participant's consent to this hash. *)
Definition share_valid (signing_hash : Hash) (configuration : MultiSigPayload)
    (s : MultisigSignature) : Prop :=
  ∃ participant key sg,
    msp_participants configuration !! Z.to_nat (ms_id s) = Some participant ∧
    decompress participant = Ok key ∧
    signature_from_hex (ms_signature s) = Ok sg ∧
    signature_to_hex sg = ms_signature s ∧
    signature_verify sg (hash_as_bytes signing_hash) key = true.

(** What the preview shows is what the transaction does. *)
Definition transfer_described (network : Network) (source : Key)
    (actual : TransferPayload Ciphertext) (shown : NativeMultisigSigningTransfer) : Prop :=
  st_destination shown = address_of network (tp_destination actual) ∧
  st_asset shown = hash_to_hex (tp_asset actual) ∧
  st_has_extra_data shown = tp_has_extra_data actual ∧
  ∃ proof ciphertext,
    tp_sender_ciphertext actual = Ok ciphertext ∧
    balance_proof_amount proof = st_amount shown ∧
    balance_proof_verify proof source ciphertext = Ok tt.

Definition described (network : Network) (source : Key)
    (actual : TransactionType Ciphertext) (shown : NativeMultisigSigningTransaction) : Prop :=
  match actual, shown with
  | TypeTransfers actual, SigningTransfers shown =>
      Forall2 (transfer_described network source) actual shown
  | TypeBurn actual, SigningBurn asset amount =>
      asset = hash_to_hex (burn_asset actual) ∧ amount = burn_amount actual
  | TypeMultiSig actual, SigningDeleteMultisig => is_delete actual = true
  | _, _ => False
  end.

(** ** Theorems *)

Lemma validate_multisig_setup_Ok threshold participants u :
  (0 ≤ threshold)%Z → (0 ≤ participants)%Z →
  validate_multisig_setup threshold participants = Ok u ↔
  (1 ≤ threshold ≤ participants)%Z ∧ (participants ≤ MAX_MULTISIG_PARTICIPANTS)%Z.
Proof.
  intros Ht Hp. unfold validate_multisig_setup. rewrite bind_Ok.
  setoid_rewrite bind_Ok. setoid_rewrite ensure_Ok.
  setoid_rewrite bool_decide_eq_true. split.
  - intros (_ & ? & _ & ? & ?). lia.
  - intros ?. exists tt. split; [lia|]. exists tt. lia.
Qed.

Lemma verify_multisig_signature_Ok h conf s x :
  verify_multisig_signature h conf s = Ok x →
  x.1 = ms_id s ∧ share_valid h conf s.
Proof.
  unfold verify_multisig_signature, with_context. intros Hv. inv_ok. subst.
  repeat match goal with H : bool_decide _ = true |- _ => apply bool_decide_eq_true in H end.
  split; [done|]. do 3 eexists; eauto.
Qed.

Lemma share_valid_verify h conf s :
  share_valid h conf s →
  ∃ sg, verify_multisig_signature h conf s = Ok (ms_id s, sg).
Proof.
  intros (participant & key & sg & Hp & Hk & Hs & Hc & Hv). exists sg.
  unfold verify_multisig_signature, with_context. rewrite Hp; cbn. rewrite Hk; cbn.
  rewrite Hs; cbn. rewrite bool_decide_true by done; cbn. by rewrite Hv.
Qed.

Section MultiSigTheorems.
Context `{!MultiSigLaws}.

Lemma add_verified_Ok h conf sigs : ∀ ms ms',
  add_verified h conf sigs ms = Ok ms' → NoDup (signature_ids ms) →
  signature_ids ms' = signature_ids ms ++ (ms_id <$> sigs) ∧
  NoDup (signature_ids ms ++ (ms_id <$> sigs)) ∧ Forall (share_valid h conf) sigs.
Proof.
  induction sigs as [|s sigs IH]; intros ms ms'; cbn.
  { intros [= <-] Hd. by rewrite app_nil_r. }
  intros ([id sg] & Hv & Ha)%bind_Ok Hd.
  apply verify_multisig_signature_Ok in Hv as [Hid Hs]; cbn in Hid; subst id.
  pose proof (add_signature_fresh ms (ms_id s) sg) as Hf.
  pose proof (add_signature_ids ms (ms_id s) sg) as Hi.
  destruct (add_signature ms (ms_id s) sg) as [added ms1]; cbn in *.
  apply bind_Ok in Ha as (u & Ha & Hr). apply ensure_Ok in Ha.
  rewrite Ha in Hf. apply symmetry, bool_decide_eq_true in Hf. specialize (Hi Hf).
  apply IH in Hr as (-> & Hn & Hfs).
  - rewrite Hi, <-app_assoc in *. cbn in *. auto.
  - rewrite Hi. apply NoDup_app; split_and!; [done| |apply NoDup_singleton].
    intros x Hx ->%list_elem_of_singleton. done.
Qed.

Lemma add_verified_complete h conf sigs : ∀ ms,
  NoDup (signature_ids ms ++ (ms_id <$> sigs)) → Forall (share_valid h conf) sigs →
  ∃ ms', add_verified h conf sigs ms = Ok ms'.
Proof.
  induction sigs as [|s sigs IH]; intros ms Hd Hf; cbn; [by eexists|].
  apply Forall_cons in Hf as [Hs Hf]. destruct (share_valid_verify _ _ _ Hs) as [sg ->]; cbn.
  assert (ms_id s ∉ signature_ids ms) as Hn.
  { apply NoDup_app in Hd as (_ & Hd & _). intros Hin. by apply (Hd _ Hin); left. }
  pose proof (add_signature_fresh ms (ms_id s) sg) as Hfr.
  pose proof (add_signature_ids ms (ms_id s) sg Hn) as Hi.
  destruct (add_signature ms (ms_id s) sg) as [added ms1]; cbn in *.
  rewrite Hfr, bool_decide_true by done; cbn. apply IH; [|done].
  by rewrite Hi, <-app_assoc.
Qed.

End MultiSigTheorems.

(** Claim C25 (safety): a multisig is assembled exactly when there are as many
    shares as the threshold demands, all from distinct participants of the
    configuration and each a canonical, valid signature of the pending hash;
    the result then holds one signature per share, in their order. *)
Theorem multisig_threshold_met `{!MultiSigLaws} h conf sigs :
  let complete := zlen sigs = msp_threshold conf ∧ NoDup (ms_id <$> sigs) ∧
                  Forall (share_valid h conf) sigs in
  match build_verified_multisig h conf sigs with
  | Ok ms => complete ∧ signature_ids ms = ms_id <$> sigs
  | Err _ => ¬ complete
  end.
Proof.
  unfold build_verified_multisig.
  destruct (decide (zlen sigs = msp_threshold conf)) as [Hl|Hl].
  2:{ rewrite bool_decide_false by done; cbn. tauto. }
  rewrite bool_decide_true by done; cbn.
  destruct (add_verified h conf sigs multisig_new) as [ms|e] eqn:He.
  - apply add_verified_Ok in He as (-> & Hd & Hf); rewrite signature_ids_new in *; cbn in *.
    + done.
    + constructor.
  - intros (_ & Hd & Hf). destruct (add_verified_complete h conf sigs multisig_new)
      as [ms Hms]; [by rewrite signature_ids_new|done|]. congruence.
Qed.

(** Claim C27 (roundtrip): the share that a participant creates is read back
    by the source wallet as the same participant and signature, and by no
    wallet waiting for another hash. *)
Theorem signature_share_roundtrip `{!CodecLaws} h id sg share :
  create_multisig_signature_share h id sg = Ok share →
  (str_len (nms_encoded share) ≤ MAX_MULTISIG_SIGNATURE_SHARE_SIZE)%Z →
  parse_multisig_signature_share (nms_encoded share) h
    = Ok (mkMultisigSignature id (signature_to_hex sg)) ∧
  ∀ h', hash_to_hex h' ≠ hash_to_hex h →
    is_ok (parse_multisig_signature_share (nms_encoded share) h') = false.
Proof.
  unfold create_multisig_signature_share, with_context. intros Hc. inv_ok. subst; cbn.
  match goal with H : share_to_json _ = Ok _ |- _ => rename H into Hj end.
  intros Hl. destruct (share_from_to_json _ _ Hj) as [Hf Ht].
  unfold parse_multisig_signature_share, with_context.
  split; [|intros h' Hh];
    repeat (first [rewrite bool_decide_true by done | rewrite Ht | rewrite Hf | rewrite Hj
                  | rewrite signature_from_to_hex];
            cbn [ensure mbind result_bind map_err share_version share_signing_hash
                 share_signer_id share_signature]); [done|].
  by rewrite bool_decide_false by congruence.
Qed.

Lemma parse_share_canonical encoded h s :
  parse_multisig_signature_share encoded h = Ok s →
  share_to_json (mkShareEnvelope MULTISIG_SIGNATURE_SHARE_VERSION (hash_to_hex h)
                   (ms_id s) (ms_signature s)) = Ok (trim encoded).
Proof.
  unfold parse_multisig_signature_share, with_context. intros Hp. inv_ok. subst; cbn.
  repeat match goal with H : bool_decide _ = true |- _ => apply bool_decide_eq_true in H end.
  match goal with H : share_to_json ?e = _ |- _ => destruct e as [v hh i sg] end.
  cbn in *. by subst.
Qed.

(** Shares are not malleable: two accepted texts that give
    the same participant and signature for a hash are the same text up to the
    white space around it. *)
Theorem signature_share_canonical e1 e2 h s :
  parse_multisig_signature_share e1 h = Ok s →
  parse_multisig_signature_share e2 h = Ok s → trim e1 = trim e2.
Proof.
  intros Hone%parse_share_canonical Htwo%parse_share_canonical. congruence.
Qed.

Lemma preview_transfer_Ok network source declared actual shown :
  preview_transfer network source declared actual = Ok shown →
  transfer_described network source actual shown.
Proof.
  unfold preview_transfer, with_context. intros Hp. inv_ok. subst.
  repeat match goal with
    | H : bool_decide _ = true |- _ => apply bool_decide_eq_true in H
    | u : unit |- _ => destruct u
    end.
  unfold transfer_described; cbn. split_and!; [done..|]. do 2 eexists; eauto.
Qed.

Lemma zip_Forall2 {A B C} (P : A → B → C → Prop) (Q : B → C → Prop) l k m :
  length l = length k → Forall2 (λ p c, P p.1 p.2 c) (zip l k) m →
  (∀ a b c, P a b c → Q b c) → Forall2 Q k m.
Proof.
  intros Hl Hf HQ. revert k m Hl Hf. induction l as [|a l IH]; intros [|b k] m Hl Hf;
    try done; cbn in *; inversion Hf; subst; constructor; eauto.
Qed.

Lemma preview_sound declared actual network source shown :
  validate_and_build_transaction_preview declared actual network source = Ok shown →
  described network source actual shown.
Proof.
  destruct declared as [d|asset amount|], actual as [a|a|a|]; try done; cbn; intros Hp;
    inv_ok; subst; cbn.
  - repeat match goal with H : bool_decide _ = true |- _ => apply bool_decide_eq_true in H end.
    match goal with H : mapM _ _ = Ok _ |- _ => apply mapM_Ok in H; rename H into Hm end.
    eapply (zip_Forall2 (λ x y z, preview_transfer network source x y = Ok z) _ d a);
      [unfold zlen in *; lia| |eauto using preview_transfer_Ok].
    eapply Forall2_impl; [exact Hm|]. by intros [] ?.
  - repeat match goal with H : bool_decide _ = true |- _ => apply bool_decide_eq_true in H end.
    naive_solver.
  - done.
Qed.

(** Claim C26 (safety): a participant signs what it was shown.  When a request
    is accepted, the hash to sign is the hash of an unsigned transaction whose
    source, fee, fee limit, nonce, reference and every transfer, burn or deletion
    are the ones displayed (addresses, assets, extra-data flags, and amounts
    proved against the ciphertexts); the signature in the request is that of the
    displayed source over the domain-separated payload; and all of it is for the
    expected network, with no signature in it yet, in the one canonical
    encoding. *)
Theorem signing_request_sound `{!FinalizeLaws} ephemeral encoded network p :
  parse_multisig_signing_request ephemeral encoded network = Ok p →
  ∃ unsigned envelope key sg,
    envelope_from_json (trim encoded) = Ok envelope ∧
    envelope_to_json envelope = Ok (trim encoded) ∧ pr_encoded p = trim encoded ∧
    unsigned_from_hex (payload_unsigned_transaction (envelope_payload envelope)) = Ok unsigned ∧
    unsigned_to_hex unsigned = payload_unsigned_transaction (envelope_payload envelope) ∧
    unsigned_multisig_is_none unsigned = true ∧
    pr_signing_hash p = get_hash_for_multisig unsigned ∧
    pr_network p = network ∧ payload_network (envelope_payload envelope) = network ∧
    pr_source p = address_of network (unsigned_source unsigned) ∧
    decompress (unsigned_source unsigned) = Ok key ∧
    signature_from_hex (envelope_source_signature envelope) = Ok sg ∧
    signature_to_hex sg = envelope_source_signature envelope ∧
    (∃ j, payload_to_json (envelope_payload envelope) = Ok j ∧
       signature_verify sg (MULTISIG_SIGNING_REQUEST_DOMAIN ++ j) key = true) ∧
    let transaction := finalize unsigned ephemeral in
    pr_fee p = tx_get_fee transaction ∧ pr_fee_limit p = tx_get_fee_limit transaction ∧
    pr_nonce p = tx_get_nonce transaction ∧
    pr_reference_topoheight p = tx_reference_topoheight transaction ∧
    described network key (tx_get_data transaction) (pr_transaction p).
Proof.
  unfold parse_multisig_signing_request, multisig_request_signing_bytes, with_context.
  intros Hp. inv_ok. subst; cbn.
  repeat match goal with H : bool_decide _ = true |- _ => apply bool_decide_eq_true in H end.
  match goal with H : validate_and_build_transaction_preview _ _ _ _ = Ok _ |- _ =>
    apply preview_sound in H end.
  subst. do 4 eexists. split_and!; try done; [by rewrite finalize_source|by eexists].
Qed.

End Protocol.

(** ** Concrete runs *)

#[local] Existing Instances plain_text demo_hash demo_address demo_wallet_lib.

Definition demo_share_envelope : MultisigSignatureShareEnvelope :=
  mkShareEnvelope 1 "ftx" 0 "sbob".
Definition demo_request_envelope : MultisigSigningRequestEnvelope :=
  mkEnvelope (mkPayload 1 Mainnet "00" (ReqBurn "fxelis" 5)) "salice".

#[local] Instance share_envelope_eq_dec : EqDecision MultisigSignatureShareEnvelope.
Proof. solve_decision. Defined.

(** Keys sign with their own name; the codecs know one envelope of each kind;
    the only unsigned transaction burns five units. *)
Definition demo_protocol : ProtocolLib := {|
  KeyPair := string;
  Key := string;
  decompress k := Ok k;
  Signature := string;
  signature_from_hex s :=
    match s with String "s"%char sg => Ok sg | _ => Err (bail "invalid hex") end;
  signature_to_hex sg := String "s"%char sg;
  signature_verify sg _ key := bool_decide (sg = key);
  keypair_sign k _ := k;
  hash_as_bytes _ := [];
  MultiSig := list Z;
  multisig_new := [];
  add_signature ms id _ :=
    if bool_decide (id ∈ ms) then (false, ms) else (true, (ms ++ [id])%list);
  signature_ids ms := ms;
  Ciphertext := unit;
  BalanceProof := Z;
  balance_proof_new _ amount _ := amount;
  balance_proof_from_hex _ := Err (bail "invalid proof");
  balance_proof_to_hex amount := uint_to_string amount;
  balance_proof_amount amount := amount;
  balance_proof_verify _ _ _ := Ok tt;
  unsigned_from_hex _ := Ok tt;
  unsigned_to_hex _ := "00";
  unsigned_size _ := 1%Z;
  unsigned_multisig_is_none _ := true;
  unsigned_source _ := "alice";
  get_hash_for_multisig _ := "tx";
  set_multisig u _ := u;
  finalize _ _ := ("tx", 10%Z);
  tx_get_data _ := TypeBurn (mkBurn 5 "xelis");
  tx_get_source _ := "alice";
  tx_get_fee_limit _ := 20%Z;
  tx_get_nonce _ := 0%Z;
  tx_reference_topoheight _ := 0%Z;
  is_delete p := bool_decide (msp_threshold p = 0)%Z;
  network_lowercase _ := "mainnet";
  MAX_MULTISIG_PARTICIPANTS := 255%Z;
  MAX_TRANSACTION_SIZE := 1024%Z;
  payload_to_json _ := Ok [];
  envelope_to_json _ := Ok "{request}";
  envelope_from_json s :=
    if bool_decide (s = "{request}") then Ok demo_request_envelope
    else Err (bail "invalid JSON");
  share_to_json e :=
    if bool_decide (e = demo_share_envelope) then Ok "{share}" else Err (bail "no JSON");
  share_from_json s :=
    if bool_decide (s = "{share}") then Ok demo_share_envelope else Err (bail "invalid JSON")
|}%string.
#[local] Existing Instance demo_protocol.

Lemma demo_multisig_laws : MultiSigLaws.
Proof.
  split; [done|..]; intros ms id sg; cbn.
  - case_bool_decide; cbn; by rewrite ?bool_decide_true, ?bool_decide_false by auto.
  - intros Hn. by rewrite bool_decide_false.
Qed.

Lemma demo_codec_laws : CodecLaws.
Proof.
  split; [done|]. intros e j; cbn. case_bool_decide; [|done]. intros [= <-]. by subst.
Qed.

Lemma demo_finalize_laws : FinalizeLaws.
Proof. by split. Qed.

Definition demo_configuration : MultiSigPayload := mkMultiSigPayload 1 ["bob"%string].

Definition demo_tx : Hash := "tx"%string.
Definition demo_eve : KeyPair := "eve"%string.

Lemma multisig_threshold_met_witness :
  let sigs := [mkMultisigSignature 0 "sbob"] in
  let complete := zlen sigs = msp_threshold demo_configuration ∧ NoDup (ms_id <$> sigs) ∧
                  Forall (share_valid demo_tx demo_configuration) sigs in
  match build_verified_multisig demo_tx demo_configuration sigs with
  | Ok ms => complete ∧ signature_ids ms = ms_id <$> sigs
  | Err _ => ¬ complete
  end.
Proof. apply (@multisig_threshold_met _ _ _ _ demo_multisig_laws). Defined.

Lemma signature_share_roundtrip_witness :
  let share := mkShare "{share}" "ftx" 0 "sbob" in
  parse_multisig_signature_share (nms_encoded share) demo_tx
    = Ok (mkMultisigSignature 0 (signature_to_hex "bob"%string)) ∧
  ∀ h', hash_to_hex h' ≠ hash_to_hex demo_tx →
    is_ok (parse_multisig_signature_share (nms_encoded share) h') = false.
Proof.
  apply (@signature_share_roundtrip _ _ _ _ demo_codec_laws demo_tx 0 "bob"%string
           (mkShare "{share}" "ftx" 0 "sbob")).
  - reflexivity.
  - vm_compute. discriminate.
Defined.

Lemma signature_share_canonical_witness : trim " {share}" = trim "{share}  ".
Proof.
  apply (signature_share_canonical " {share}" "{share}  " demo_tx
           (mkMultisigSignature 0 "sbob")); reflexivity.
Defined.

Lemma signing_request_sound_witness :
  ∃ p, parse_multisig_signing_request demo_eve "{request}" Mainnet = Ok p ∧
    pr_signing_hash p = demo_tx ∧ pr_source p = address_of Mainnet "alice"%string.
Proof.
  eexists. split; [reflexivity|].
  edestruct (@signing_request_sound _ _ _ _ demo_finalize_laws demo_eve "{request}" Mainnet)
    as (u & env & k & sg & _ & _ & _ & _ & _ & _ & Hh & _ & _ & Hs & _); [reflexivity|].
  split; [exact Hh|exact Hs].
Defined.

End Protocol.
