(* ===== verification/Multisig.v ===== *)
(** * Multisig handlers (rust/src/api/wallet/multisig.rs)

    The operations of [XelisWallet] on multisig accounts: setting one up,
    opening a signing request, inspecting and signing a request of another
    wallet, collecting shares, and finalizing into the prepared slot. *)

From S2P Require Import Prelude Errors External Text Addresses Builders.
From S2P Require Import Prepared Pending Submission Transactions Protocol.

Module Multisig.
Import Builders Transactions Protocol.

Section Handlers.
Context `{!ErrorText, !HashLib, !AddressLib, !WalletLib, !ProtocolLib}.

Abbreviation handler := (action XelisWallet NativeXelisError).

(** [xelis_common::api::daemon::MultisigState]. *)
Inductive MultisigState : Type :=
  | MsActive (participants : list Address) (threshold : Z)
  | MsDeleted.

Record NativeMultisigState : Type := mkMultisigState {
  ns_threshold : Z;
  ns_participants : list NativeMultisigParticipant;
  ns_topoheight : Z
}.

(** What the wallet crate answers: the storage, the opened key, the network
    handler (absent offline) and the construction of unsigned transactions. *)
Record MultisigEnv : Type := mkMultisigEnv {
  base_env : Env;
  network : Network;
  keypair : KeyPair;
  public_key : PublicKey;
  ephemeral : KeyPair;
  stored_multisig_state : result anyhow_error (option (MultiSigPayload * Z));
  network_handler : option (Address → result anyhow_error MultisigState);
  create_transaction_state : TransactionTypeBuilder → FeeBuilder →
    result anyhow_error TransactionBuilderState;
  create_unsigned_transaction : TransactionBuilderState → Z → TransactionTypeBuilder →
    FeeBuilder → Z → result anyhow_error (UnsignedTransaction * TransactionBuilderState);
  sign_data : bytes → Signature
}.

Definition parse_multisig_signing_hash (value : string) : result NativeXelisError Hash :=
  map_err (λ error, from_wallet_operation error CodeInvalidInput
                      "MULTISIG_SIGNING_HASH_INVALID")
    (hash_from_hex value).

Definition is_multisig_participant_address_valid (address : Address) (mainnet : bool)
    (wallet_public_key : PublicKey) : bool :=
  is_normal address && bool_decide (is_mainnet address = mainnet) &&
  bool_decide (get_public_key address ≠ wallet_public_key).

(** The loop of [parse_multisig_participants] with the [IndexSet] so far. *)
Fixpoint insert_participants (participants : list string) (mainnet : bool)
    (wallet_public_key : PublicKey) (participant_addresses : list Address) :
    result anyhow_error (list Address) :=
  match participants with
  | [] => Ok participant_addresses
  | participant :: participants' =>
      match address_from_string participant with
      | Err _ => Err (bail "Invalid multisig participant address")
      | Ok address =>
          if negb (is_multisig_participant_address_valid address mainnet wallet_public_key)
          then Err (bail "Invalid multisig participant address")
          else if bool_decide (address ∈ participant_addresses)
          then Err (bail "A multisig participant was provided more than once")
          else insert_participants participants' mainnet wallet_public_key
                 (participant_addresses ++ [address])
      end
  end.

Definition parse_multisig_participants (participants : list string) (mainnet : bool)
    (wallet_public_key : PublicKey) : result anyhow_error (list Address) :=
  insert_participants participants mainnet wallet_public_key [].

Record ResolvedMultisigSigningConfiguration : Type := mkResolved {
  rc_threshold : Z;
  rc_participants : list NativeMultisigParticipant;
  rc_signer_id : option Z
}.

(** The [signer_id] that the closure of [resolve_active_multisig_configuration]
    leaves behind: the last participant with the wallet's key. *)
Definition find_signer (wallet_public_key : PublicKey) (participants : list Address) :
    option Z :=
  foldl (λ signer_id '(id, participant),
    if bool_decide (get_public_key participant = wallet_public_key)
    then Some (as_u8 id) else signer_id) None (enumerate participants).

Definition resolve_active_multisig_configuration (state : MultisigState)
    (wallet_public_key : PublicKey) :
    result anyhow_error ResolvedMultisigSigningConfiguration :=
  match state with
  | MsActive participants threshold =>
      validate_multisig_setup threshold (zlen participants);;
      Ok {| rc_threshold := threshold;
            rc_participants := number_participants (address_to_string <$> participants);
            rc_signer_id := find_signer wallet_public_key participants |}
  | MsDeleted =>
      Err (bail "The multisig configuration was not active for this request")
  end.

Definition create_authorized_multisig_signature_share (signing_hash : Hash)
    (signer_id : option Z) (sign : bytes → Signature) :
    result anyhow_error NativeMultisigSignatureShare :=
  signer_id ← ok_or (bail
    "The opened wallet is not an authorized participant for this multisig request") signer_id;
  let signature := sign (hash_as_bytes signing_hash) in
  create_multisig_signature_share signing_hash signer_id signature.

(** One acquisition of the lock of the pending request. *)
Definition on_pending {A} (f : anyhow_error → NativeXelisError)
    (m : action (Pending.PendingMultisigStore (Hash := Hash) (T := PendingMultisigTransaction))
           anyhow_error A) : handler A := λ w,
  let '(r, store) := m (pending_multisig w) in
  (map_err f r, mkWallet (prepared_transaction w) store (effects w)).

Definition get_multisig_state (env : MultisigEnv) :
    result NativeXelisError (option NativeMultisigState) :=
  multisig ← storage_read "MULTISIG_STATE_READ_FAILED" (stored_multisig_state env);
  Ok match multisig with
     | None => None
     | Some (payload, topoheight) => Some {|
         ns_threshold := msp_threshold payload;
         ns_participants :=
           number_participants (map (address_of (network env)) (msp_participants payload));
         ns_topoheight := topoheight |}
     end.

Definition is_address_valid_for_multisig (env : MultisigEnv) (address : string) : bool :=
  match address_from_string address with
  | Ok address =>
      is_multisig_participant_address_valid address (network_is_mainnet (network env))
        (public_key env)
  | Err _ => false
  end.

Definition multisig_setup (env : MultisigEnv) (threshold : Z) (participants : list string)
    (fee_policy : NativeTransactionFeePolicy) : handler NativePreparedTransaction :=
  lift (apply_fee_policy 0 fee_policy);;
  lift (map_err (λ error, from_wallet_operation error CodeInvalidInput
                            "MULTISIG_SETUP_INVALID")
    (validate_multisig_setup threshold (zlen participants)));;
  participant_addresses ← lift (map_err (λ error, from_wallet_operation error
      CodeInvalidInput "MULTISIG_SETUP_PARTICIPANTS_INVALID")
    (parse_multisig_participants participants (network_is_mainnet (network env))
       (public_key env)));
  let prepared_participants :=
    number_participants (address_to_string <$> participant_addresses) in
  stored ← lift (storage_read "MULTISIG_SETUP_STATE_READ_FAILED" (stored_multisig_state env));
  if bool_decide (is_Some stored)
  then throw (xelis_wallet_flutter CodeConflict "MULTISIG_ALREADY_CONFIGURED"
                "Multisig is already configured")
  else
    let transaction_type := TMultiSig {| msb_participants := participant_addresses;
                                         msb_threshold := threshold |} in
    preparation ← begin_preparation;
    target_fee ← guarded_preparation preparation
      (lift (estimate_target_fee (base_env env) transaction_type fee_policy));
    create_and_commit_prepared_transaction (base_env env) preparation transaction_type
      (PreparedMultisigSetup threshold prepared_participants) [] target_fee.

(** ** Opening a request *)

Definition active_multisig_configuration (env : MultisigEnv) :
    result NativeXelisError MultiSigPayload :=
  stored ← storage_read "MULTISIG_CONFIGURATION_READ_FAILED" (stored_multisig_state env);
  ok_or (xelis_wallet_flutter CodeNotFound "MULTISIG_CONFIGURATION_NOT_FOUND"
           "No multisig configuration is active")
    match stored with Some (payload, _) => Some payload | None => None end.

Definition build_unsigned_transaction (env : MultisigEnv) (tx_type : TransactionTypeBuilder)
    (fee : FeeBuilder) (threshold : Z) :
    result NativeXelisError (UnsignedTransaction * TransactionBuilderState) :=
  state ← map_err (λ error, from_wallet_operation error CodeOperationFailed
      "MULTISIG_TRANSACTION_STATE_CREATION_FAILED") (create_transaction_state env tx_type fee);
  transaction_version ← storage_read "MULTISIG_TRANSACTION_VERSION_READ_FAILED"
    (get_tx_version (base_env env));
  map_err (λ error, from_wallet_operation error CodeOperationFailed
      "MULTISIG_UNSIGNED_TRANSACTION_CREATION_FAILED")
    (create_unsigned_transaction env state threshold tx_type fee transaction_version).

Definition store_pending_multisig_transaction (env : MultisigEnv)
    (unsigned : UnsignedTransaction) (state : TransactionBuilderState)
    (transaction_type : TransactionTypeBuilder) (configuration : MultiSigPayload)
    (target_fee : Z) : handler NativeMultisigSigningRequest :=
  let signing_hash := get_hash_for_multisig unsigned in
  request ← lift (map_err (λ error, from_wallet_operation error CodeSerialization
      "MULTISIG_SIGNING_REQUEST_CREATION_FAILED")
    (create_multisig_signing_request (ephemeral env) unsigned transaction_type configuration
       (network env) (keypair env)));
  if bool_decide (sr_fee request ≠ target_fee)
  then throw (xelis_wallet_flutter CodeInternal "MULTISIG_TRANSACTION_FEE_MISMATCH"
    ("Prepared multisig fee " +:+ uint_to_string (sr_fee request)
     +:+ " differs from requested fixed fee " +:+ uint_to_string target_fee))
  else
    request_id ← on_pending
      (Pending.map_pending_multisig_error CodeConflict "MULTISIG_REQUEST_STORE_FAILED")
      (Pending.insert signing_hash {| pm_unsigned := unsigned; pm_state := state;
         pm_configuration := configuration;
         pm_transaction_preview := sr_transaction request |});
    mret {| sr_request_id := Some request_id; sr_encoded := sr_encoded request;
            sr_signing_hash := sr_signing_hash request; sr_source := sr_source request;
            sr_network := sr_network request; sr_fee := sr_fee request;
            sr_fee_limit := sr_fee_limit request; sr_nonce := sr_nonce request;
            sr_reference_topoheight := sr_reference_topoheight request;
            sr_threshold := sr_threshold request;
            sr_participants := sr_participants request;
            sr_signer_id := sr_signer_id request;
            sr_transaction := sr_transaction request |}.

Definition prepare_pending_multisig_transaction_with_fee (env : MultisigEnv)
    (transaction_type : TransactionTypeBuilder) (target_fee : Z) :
    handler NativeMultisigSigningRequest :=
  w ← get_state;
  if bool_decide (is_Some (Pending.signing_hash (pending_multisig w)))
  then throw (xelis_wallet_flutter CodeConflict "MULTISIG_REQUEST_ALREADY_PENDING"
                "Another multisig request is already pending")
  else
    configuration ← lift (active_multisig_configuration env);
    '(unsigned, state) ← lift (build_unsigned_transaction env transaction_type
                                 (FeeFixed target_fee) (msp_threshold configuration));
    store_pending_multisig_transaction env unsigned state transaction_type configuration
      target_fee.

Definition prepare_pending_multisig_transaction (env : MultisigEnv)
    (transaction_type : TransactionTypeBuilder) (fee_policy : NativeTransactionFeePolicy) :
    handler NativeMultisigSigningRequest :=
  target_fee ← lift (estimate_target_fee (base_env env) transaction_type fee_policy);
  prepare_pending_multisig_transaction_with_fee env transaction_type target_fee.

Definition create_multisig_transfers_transaction (env : MultisigEnv)
    (transfers : list NativeTransactionTransferRequest)
    (fee_policy : NativeTransactionFeePolicy) : handler NativeMultisigSigningRequest :=
  lift (apply_fee_policy 0 fee_policy);;
  '(transaction_type, _, _) ← lift (build_atomic_transfers transfers);
  prepare_pending_multisig_transaction env transaction_type fee_policy.

Definition create_multisig_transfer_all_transaction (env : MultisigEnv) (str_address : string)
    (asset_hash extra_data : option string) (encrypt_extra_data : option bool)
    (fee_policy : NativeTransactionFeePolicy) : handler NativeMultisigSigningRequest :=
  lift (apply_fee_policy 0 fee_policy);;
  asset ← lift match asset_hash with
               | None => Ok XELIS_ASSET
               | Some value => parse_transaction_asset value
               end;
  destination ← lift (parse_transaction_destination str_address);
  balance ← lift (storage_read "MULTISIG_TRANSFER_ALL_BALANCE_READ_FAILED"
                    (get_plaintext_balance_for (base_env env) asset));
  estimated_type ← lift (insufficient "MULTISIG_TRANSFER_ALL_BALANCE_INSUFFICIENT"
    (build_transfer_all_type destination balance 0 asset extra_data encrypt_extra_data));
  target_fee ← lift (estimate_target_fee (base_env env) estimated_type fee_policy);
  amount ← lift (insufficient "MULTISIG_TRANSFER_ALL_BALANCE_INSUFFICIENT"
    (amount_after_fee balance target_fee asset "Insufficient balance for fees"));
  let transaction_type :=
    TTransfers [build_transfer destination amount asset extra_data encrypt_extra_data] in
  prepare_pending_multisig_transaction_with_fee env transaction_type target_fee.

Definition create_multisig_burn_transaction (env : MultisigEnv) (amount : Z)
    (asset_hash : string) (fee_policy : NativeTransactionFeePolicy) :
    handler NativeMultisigSigningRequest :=
  lift (apply_fee_policy 0 fee_policy);;
  if bool_decide (amount = 0)%Z
  then throw (xelis_wallet_flutter CodeInvalidInput "MULTISIG_TRANSACTION_AMOUNT_INVALID"
                "Burn amount must be greater than zero")
  else
    asset ← lift (parse_transaction_asset asset_hash);
    prepare_pending_multisig_transaction env (build_burn_type asset amount) fee_policy.

Definition create_multisig_burn_all_transaction (env : MultisigEnv) (asset_hash : string)
    (fee_policy : NativeTransactionFeePolicy) : handler NativeMultisigSigningRequest :=
  lift (apply_fee_policy 0 fee_policy);;
  asset ← lift (parse_transaction_asset asset_hash);
  balance ← lift (storage_read "MULTISIG_BURN_ALL_BALANCE_READ_FAILED"
                    (get_plaintext_balance_for (base_env env) asset));
  estimated_type ← lift (insufficient "MULTISIG_BURN_ALL_BALANCE_INSUFFICIENT"
    (build_burn_all_type asset balance 0));
  target_fee ← lift (estimate_target_fee (base_env env) estimated_type fee_policy);
  transaction_type ← lift (insufficient "MULTISIG_BURN_ALL_BALANCE_INSUFFICIENT"
    (build_burn_all_type asset balance target_fee));
  prepare_pending_multisig_transaction_with_fee env transaction_type target_fee.

Definition init_delete_multisig (env : MultisigEnv) (fee_policy : NativeTransactionFeePolicy) :
    handler NativeMultisigSigningRequest :=
  lift (apply_fee_policy 0 fee_policy);;
  prepare_pending_multisig_transaction env
    (TMultiSig {| msb_participants := []; msb_threshold := 0 |}) fee_policy.

(** ** Collecting shares *)

Definition finalize_multisig_transaction (env : MultisigEnv) (request_id : Z)
    (signing_hash : string) (signature_shares : list string) :
    handler NativePreparedTransaction :=
  expected_signing_hash ← lift (parse_multisig_signing_hash signing_hash);
  signatures ← lift (map_err (λ error, from_wallet_operation error CodeInvalidInput
      "MULTISIG_SIGNATURE_SHARES_INVALID")
    (mapM (λ share, parse_multisig_signature_share share expected_signing_hash)
       signature_shares));
  preparation ← begin_preparation;
  '(pending, multisig) ← guarded_preparation preparation (on_pending
      (Pending.map_pending_multisig_error CodeInvalidInput "MULTISIG_FINALIZATION_INVALID")
      (Pending.take_validated request_id expected_signing_hash (λ pending,
         build_verified_multisig expected_signing_hash (pm_configuration pending)
           signatures)));
  let unsigned := set_multisig (pm_unsigned pending) multisig in
  let tx := finalize unsigned (keypair env) in
  let hash := tx_hash tx in
  let fee := tx_get_fee tx in
  preparation_id ← on_prepared (map_err_action prepared_transaction_error
    (Slot.preparation_commit preparation hash
       (without_review_extra_data tx (pm_state pending))));
  mret {| p_hash := hash_to_hex hash; p_preparation_id := preparation_id; p_fee := fee;
          p_transaction := PreparedMultisigFinalized (pm_transaction_preview pending) |}.

Definition cancel_pending_multisig_request (request_id : Z) (signing_hash : string) :
    handler unit :=
  expected_signing_hash ← lift (parse_multisig_signing_hash signing_hash);
  on_pending (Pending.map_pending_multisig_error CodeNotFound
                "MULTISIG_REQUEST_CANCELLATION_FAILED")
    (Pending.cancel request_id expected_signing_hash).

Definition inspect_multisig_signature_share (request_id : Z) (signing_hash encoded : string) :
    handler NativeMultisigSignatureShare :=
  expected_signing_hash ← lift (parse_multisig_signing_hash signing_hash);
  signature ← lift (map_err (λ error, from_wallet_operation error CodeInvalidInput
      "MULTISIG_SIGNATURE_SHARE_INVALID")
    (parse_multisig_signature_share encoded expected_signing_hash));
  w ← get_state;
  lift (map_err (Pending.map_pending_multisig_error CodeInvalidInput
                   "MULTISIG_SIGNATURE_SHARE_VERIFICATION_FAILED")
    (Pending.validate request_id expected_signing_hash (λ pending,
       verify_multisig_signature expected_signing_hash (pm_configuration pending) signature)
       (pending_multisig w)));;
  mret {| nms_encoded := trim encoded;
          nms_signing_hash := hash_to_hex expected_signing_hash;
          nms_signer_id := ms_id signature;
          nms_signature := ms_signature signature |}.

(** ** Requests of other wallets *)

Definition resolve_multisig_signing_configuration (env : MultisigEnv)
    (request : ParsedMultisigSigningRequest) :
    result NativeXelisError ResolvedMultisigSigningConfiguration :=
  source ← map_err (λ error, from_wallet_operation error CodeInvalidInput
      "MULTISIG_SIGNING_REQUEST_SOURCE_INVALID") (address_from_string (pr_source request));
  get_multisig ← ok_or (xelis_wallet_flutter CodeOffline
      "MULTISIG_CONFIGURATION_REQUIRES_ONLINE_WALLET"
      "The wallet must be online to verify a multisig signing request")
    (network_handler env);
  state ← map_err (λ error, from_wallet_operation error CodeNetwork
      "MULTISIG_CONFIGURATION_LOOKUP_FAILED") (get_multisig source);
  map_err (λ error, from_wallet_operation error CodeRemoteRejected
      "MULTISIG_CONFIGURATION_INVALID")
    (resolve_active_multisig_configuration state (public_key env)).

Definition parse_request (env : MultisigEnv) (encoded : string) :
    result NativeXelisError ParsedMultisigSigningRequest :=
  map_err (λ error, from_wallet_operation error CodeInvalidInput
                      "MULTISIG_SIGNING_REQUEST_INVALID")
    (parse_multisig_signing_request (ephemeral env) encoded (network env)).

Definition inspect_multisig_signing_request (env : MultisigEnv) (encoded : string) :
    result NativeXelisError NativeMultisigSigningRequest :=
  parsed ← parse_request env encoded;
  configuration ← resolve_multisig_signing_configuration env parsed;
  Ok (into_request parsed None (rc_threshold configuration) (rc_participants configuration)
        (rc_signer_id configuration)).

Definition sign_multisig_signing_request (env : MultisigEnv) (encoded : string) :
    result NativeXelisError NativeMultisigSignatureShare :=
  parsed ← parse_request env encoded;
  configuration ← resolve_multisig_signing_configuration env parsed;
  map_err (λ error, from_wallet_operation error CodeInvalidInput
                      "MULTISIG_PARTICIPANT_UNAUTHORIZED")
    (create_authorized_multisig_signature_share (pr_signing_hash parsed)
       (rc_signer_id configuration) (sign_data env)).

(** ** Reference definitions for the theorems *)

(** The five handlers that open a request, as one operation. *)
Inductive open_request : Type :=
  | OpenTransfers (transfers : list NativeTransactionTransferRequest)
  | OpenTransferAll (str_address : string) (asset_hash extra_data : option string)
      (encrypt_extra_data : option bool)
  | OpenBurn (amount : Z) (asset_hash : string)
  | OpenBurnAll (asset_hash : string)
  | OpenDelete.

Definition open (env : MultisigEnv) (req : open_request)
    (policy : NativeTransactionFeePolicy) : handler NativeMultisigSigningRequest :=
  match req with
  | OpenTransfers transfers => create_multisig_transfers_transaction env transfers policy
  | OpenTransferAll str_address asset extra encrypt =>
      create_multisig_transfer_all_transaction env str_address asset extra encrypt policy
  | OpenBurn amount asset => create_multisig_burn_transaction env amount asset policy
  | OpenBurnAll asset => create_multisig_burn_all_transaction env asset policy
  | OpenDelete => init_delete_multisig env policy
  end.

(** Nothing changes on an error; on success the one pending request is the one
    returned, for the active configuration. *)
Definition opened (env : MultisigEnv) (w : XelisWallet)
    (r : result NativeXelisError NativeMultisigSigningRequest) (w' : XelisWallet) : Prop :=
  match r with
  | Err _ => w' = w
  | Ok request =>
      Pending.request (pending_multisig w) = None ∧
      ∃ id pending,
        active_multisig_configuration env = Ok (pm_configuration pending) ∧
        sr_request_id request = Some id ∧
        sr_transaction request = pm_transaction_preview pending ∧
        sr_threshold request = msp_threshold (pm_configuration pending) ∧
        id = (Pending.pending_next_generation (pending_multisig w) + 1)%Z ∧
        w' = mkWallet (prepared_transaction w)
               (Pending.mkPendingStore
                  (Some (id, get_hash_for_multisig (pm_unsigned pending), pending)) id)
               (effects w)
  end.

(** The wallet after a request was finalized into the slot. *)
Definition finalized (env : MultisigEnv) (w : XelisWallet) (p : NativePreparedTransaction)
    (request_id : Z) (signing_hash : string) (shares : list string) (w' : XelisWallet) : Prop :=
  ∃ h pending signatures multisig,
    hash_from_hex signing_hash = Ok h ∧
    mapM (λ share, parse_multisig_signature_share share h) shares = Ok signatures ∧
    Pending.request (pending_multisig w) = Some (request_id, h, pending) ∧
    build_verified_multisig h (pm_configuration pending) signatures = Ok multisig ∧
    let tx := finalize (set_multisig (pm_unsigned pending) multisig) (keypair env) in
    let id := (Slot.next_generation (prepared_transaction w) + 1)%Z in
    p = mkPrepared (hash_to_hex (tx_hash tx)) id (tx_get_fee tx)
          (PreparedMultisigFinalized (pm_transaction_preview pending)) ∧
    w' = mkWallet
           (Slot.mkStore (Slot.Ready id (tx_hash tx)
              (without_review_extra_data tx (pm_state pending))) id None)
           (Pending.mkPendingStore None (Pending.pending_next_generation (pending_multisig w)))
           (effects w).

(** ** Theorems *)

Lemma insert_participants_Ok ps mainnet key : ∀ acc l,
  NoDup acc →
  insert_participants ps mainnet key acc = Ok l ↔
  ∃ new, l = acc ++ new ∧ NoDup l ∧
    Forall2 (λ s a, address_from_string s = Ok a ∧
               is_multisig_participant_address_valid a mainnet key = true) ps new.
Proof.
  induction ps as [|s ps IH]; intros acc l Hd; cbn.
  { split; [intros [= <-]; exists []; by rewrite app_nil_r|].
    intros (new & -> & _ & Hf). inversion Hf. by rewrite app_nil_r. }
  destruct (address_from_string s) as [a|e] eqn:Ha; cbn.
  2:{ split; [done|]. intros (new & _ & _ & Hf). inversion Hf as [|? ? ? ? [? ?]]; congruence. }
  destruct (is_multisig_participant_address_valid a mainnet key) eqn:Hv; cbn.
  2:{ split; [done|]. intros (new & _ & _ & Hf). inversion Hf as [|? ? ? ? [? ?]]; congruence. }
  case_bool_decide as Hin.
  { split; [done|]. intros (new & -> & Hl & Hf).
    inversion Hf as [|? a' ? ? [Ha' _]]; subst. rewrite Ha in Ha'; injection Ha' as <-.
    apply NoDup_app in Hl as (_ & Hl & _). exfalso. by eapply Hl; [|left]. }
  rewrite IH.
  2:{ apply NoDup_app; split_and!; [done| |apply NoDup_singleton].
      intros x Hx ->%list_elem_of_singleton. done. }
  split.
  - intros (new & -> & Hl & Hf). exists (a :: new). rewrite <-app_assoc in *.
    split_and!; [done..|]. by constructor.
  - intros (new & -> & Hl & Hf). inversion Hf as [|? a' ? new' [Ha' _]]; subst.
    rewrite Ha in Ha'; injection Ha' as <-. exists new'. by rewrite <-app_assoc.
Qed.

(** A list of participants is accepted exactly when
    every entry parses to a normal address of the wallet's network with another
    key than the wallet's, and no address occurs twice; the participants keep
    their order. *)
Theorem participants_exact ps mainnet key l :
  parse_multisig_participants ps mainnet key = Ok l ↔
  NoDup l ∧ Forall2 (λ s a, address_from_string s = Ok a ∧
    is_normal a = true ∧ is_mainnet a = mainnet ∧ get_public_key a ≠ key) ps l.
Proof.
  unfold parse_multisig_participants. rewrite insert_participants_Ok by constructor.
  assert (∀ a, is_multisig_participant_address_valid a mainnet key = true ↔
    is_normal a = true ∧ is_mainnet a = mainnet ∧ get_public_key a ≠ key) as Hv.
  { intros a. unfold is_multisig_participant_address_valid.
    rewrite !andb_true_iff, !bool_decide_eq_true. tauto. }
  split.
  - intros (new & -> & Hd & Hf). split; [done|]. eapply Forall2_impl; [exact Hf|].
    intros s a [? ?]. by rewrite <-Hv.
  - intros [Hd Hf]. exists l. split_and!; [done..|]. eapply Forall2_impl; [exact Hf|].
    intros s a [? ?]. by rewrite Hv.
Qed.

Lemma enumerate_snoc {A} (l : list A) x :
  enumerate (l ++ [x]) = enumerate l ++ [(zlen l, x)].
Proof.
  unfold enumerate, zlen. rewrite imap_app; cbn. by rewrite Nat.add_0_r.
Qed.

Lemma find_signer_spec key l :
  (zlen l ≤ 256)%Z →
  match find_signer key l with
  | Some id => (0 ≤ id)%Z ∧ ∃ a, l !! Z.to_nat id = Some a ∧ get_public_key a = key
  | None => Forall (λ a, get_public_key a ≠ key) l
  end.
Proof.
  induction l as [|a l IH] using rev_ind; [constructor|].
  unfold find_signer, zlen in *. rewrite enumerate_snoc, foldl_app, length_app; cbn.
  intros Hl. case_bool_decide as Hk.
  - unfold as_u8, zlen. rewrite Z.mod_small by lia. split; [lia|].
    exists a. rewrite Nat2Z.id. by rewrite lookup_app_r, Nat.sub_diag by lia.
  - destruct (foldl _ _ _) as [id|].
    + destruct IH as (? & x & Hx & ?); [lia|]. split; [done|]. exists x.
      split; [|done]. by apply lookup_app_l_Some.
    + apply Forall_app; split; [apply IH; lia|by constructor].
Qed.

(** For an active configuration the ids given to the
    participants are their positions, the cast to [u8] losing nothing because
    the count was validated; the signer id found for the opened wallet is the
    position of a participant with its key, and there is none exactly when no
    participant has it. *)
Theorem resolved_ids_faithful participants threshold key r :
  (MAX_MULTISIG_PARTICIPANTS ≤ u8_max)%Z → (0 ≤ threshold)%Z →
  resolve_active_multisig_configuration (MsActive participants threshold) key = Ok r →
  (∀ i, rc_participants r !! i
        = (λ a, mkParticipant (Z.of_nat i) (address_to_string a)) <$> participants !! i) ∧
  match rc_signer_id r with
  | Some id => (0 ≤ id)%Z ∧ ∃ a, participants !! Z.to_nat id = Some a ∧ get_public_key a = key
  | None => Forall (λ a, get_public_key a ≠ key) participants
  end.
Proof.
  unfold u8_max. intros Hmax Ht; cbn. intros Hr. inv_ok. subst; cbn.
  match goal with H : validate_multisig_setup _ _ = _ |- _ =>
    apply validate_multisig_setup_Ok in H as [? ?]; [|done|unfold zlen; lia] end.
  split; [|apply find_signer_spec; lia]. intros i.
  unfold number_participants, enumerate. rewrite list_lookup_fmap, list_lookup_imap,
    list_lookup_fmap.
  destruct (participants !! i) as [a|] eqn:Hi; [cbn|done].
  apply lookup_lt_Some in Hi. unfold zlen in *. by rewrite as_u8_small by (unfold u8_max; lia).
Qed.

(** Taking the pending request while the preparation guard is alive. *)
Lemma guarded_take_cases {R} f g st n pend eff id h
    (check : PendingMultisigTransaction → result anyhow_error R) :
  (∃ e, guarded_preparation (Slot.mkPreparationGuard g true)
      (on_pending f (Pending.take_validated id h check))
      (mkWallet (Slot.mkStore st n (Some g)) pend eff)
    = (Err e, mkWallet (Slot.mkStore st n None) pend eff)) ∨
  ∃ t x, Pending.request pend = Some (id, h, t) ∧ check t = Ok x ∧
    guarded_preparation (Slot.mkPreparationGuard g true)
      (on_pending f (Pending.take_validated id h check))
      (mkWallet (Slot.mkStore st n (Some g)) pend eff)
    = (Ok (t, x), mkWallet (Slot.mkStore st n (Some g))
        (Pending.mkPendingStore None (Pending.pending_next_generation pend)) eff).
Proof.
  unfold guarded_preparation, on_pending; cbn [pending_multisig prepared_transaction effects].
  rewrite Pending.take_validated_cases.
  destruct (Pending.request pend) as [[[id' h'] t]|]; cbn [map_err].
  - case_bool_decide as Hm; [destruct Hm as [-> ->]; destruct (check t) eqn:Hc|];
      cbn [map_err prepared_transaction pending_multisig effects];
      rewrite ?Slot.preparation_drop_active; eauto 10.
  - left. eexists. cbn [prepared_transaction pending_multisig effects].
    by rewrite Slot.preparation_drop_active.
Qed.

Lemma finalize_outcome env id hash shares w r w' :
  finalize_multisig_transaction env id hash shares w = (r, w') →
  match r with
  | Ok p => finalized env w p id hash shares w'
  | Err _ => same_slot w w'
  end.
Proof.
  unfold finalize_multisig_transaction, parse_multisig_signing_hash. intros Hr.
  unfold mbind at 1, action_bind at 1, lift at 1 in Hr.
  destruct (hash_from_hex hash) as [h|e] eqn:Hh; cbn [map_err] in Hr;
    [|by injection Hr as <- <-].
  unfold mbind at 1, action_bind at 1, lift at 1 in Hr.
  destruct (mapM _ shares) as [signatures|e] eqn:Hm; cbn [map_err] in Hr;
    [|by injection Hr as <- <-].
  unfold mbind at 1, action_bind at 1 in Hr.
  destruct (begin_preparation_cases w) as [[e Hb]|(Ha & Hi & Hb)]; rewrite Hb in Hr; clear Hb.
  { by injection Hr as <- <-. }
  destruct w as [[st n ap] pend eff]; cbn in Ha, Hi; subst ap.
  cbn [prepared_transaction Slot.state Slot.next_generation pending_multisig effects] in Hr.
  unfold mbind at 1, action_bind at 1 in Hr.
  edestruct (guarded_take_cases (R := MultiSig)) as [[e He]|(t & ms & Hreq & Hv & He)];
    rewrite He in Hr; clear He; [by injection Hr as <- <-|].
  unfold mbind, action_bind, on_prepared, map_err_action in Hr.
  cbn [prepared_transaction pending_multisig effects] in Hr.
  rewrite Slot.preparation_commit_active in Hr by done. injection Hr as <- <-.
  exists h, t, signatures, ms. by split_and!.
Qed.

(** Claim C30 (functional): finalizing is all or nothing across the two stores.
    On success the pending request named by both its id and its hash is gone
    and the slot holds, under a fresh capability, that request's transaction
    finalized with the verified multisig.  On every error the request is still
    pending and the slot still holds what it held. *)
Theorem finalize_atomic env id hash shares w r w' :
  finalize_multisig_transaction env id hash shares w = (r, w') →
  match r with
  | Ok p => finalized env w p id hash shares w'
  | Err _ => same_slot w w'
  end.
Proof. apply finalize_outcome. Qed.

Lemma prepare_pending_with_fee_opened env tt fee w r w' :
  prepare_pending_multisig_transaction_with_fee env tt fee w = (r, w') → opened env w r w'.
Proof.
  unfold prepare_pending_multisig_transaction_with_fee, mbind, action_bind, get_state, throw,
    lift. intros Hr. case_bool_decide as Hp; [by injection Hr as <- <-|].
  destruct (active_multisig_configuration env) as [conf|e] eqn:Hc; [|by injection Hr as <- <-].
  destruct (build_unsigned_transaction _ _ _ _) as [[u st]|e]; [|by injection Hr as <- <-].
  unfold store_pending_multisig_transaction, mbind, action_bind, lift, throw in Hr.
  destruct (create_multisig_signing_request _ _ _ _ _ _) as [req|e] eqn:Hq; cbn [map_err] in Hr;
    [|by injection Hr as <- <-].
  case_bool_decide; [by injection Hr as <- <-|].
  destruct w as [prep [[x|] n] eff]; [by destruct Hp; eexists|].
  unfold on_pending in Hr. cbn [pending_multisig prepared_transaction effects] in Hr.
  rewrite Pending.insert_cases in Hr.
  cbn [Pending.request Pending.pending_next_generation] in Hr.
  case_bool_decide; cbn [map_err] in Hr; injection Hr as <- <-; [|done].
  split; [done|]. eexists _, (mkPendingTransaction u st conf (sr_transaction req)).
  split_and!; try done; cbn. unfold create_multisig_signing_request in Hq. inv_ok. by subst.
Qed.

(** Each of the five handlers that open a multisig
    request leaves the wallet untouched on an error, in particular while
    another request is pending; on success exactly the returned request is
    pending, under a fresh id, with the active configuration that the shares
    will be checked against. *)
Theorem open_atomic env req policy w r w' :
  open env req policy w = (r, w') → opened env w r w'.
Proof.
  destruct req; cbn;
    unfold create_multisig_transfers_transaction, create_multisig_transfer_all_transaction,
      create_multisig_burn_transaction, create_multisig_burn_all_transaction,
      init_delete_multisig, prepare_pending_multisig_transaction, mbind, action_bind, lift,
      throw; intros Hr;
    repeat match type of Hr with
    | context [match ?x with Ok _ => _ | Err _ => _ end] =>
        lazymatch x with context [prepare_pending_multisig_transaction_with_fee] => fail
        | _ => let Hx := fresh in destruct x eqn:Hx end;
        [|by injection Hr as <- <-]
    | context [if bool_decide _ then _ else _] =>
        case_bool_decide; [by injection Hr as <- <-|]
    | context [let (_, _) := ?x in _] => destruct x
    end; by eapply prepare_pending_with_fee_opened.
Qed.

End Handlers.

(** ** Concrete runs *)

#[local] Existing Instances plain_text demo_hash demo_address demo_wallet_lib demo_protocol.

Definition demo_multisig_env : MultisigEnv := {|
  base_env := demo_env (Ok tt);
  network := Mainnet;
  keypair := demo_eve;
  public_key := "alice"%string;
  ephemeral := demo_eve;
  stored_multisig_state := Ok (Some (demo_configuration, 5%Z));
  network_handler := None;
  create_transaction_state _ _ := Ok tt;
  create_unsigned_transaction _ _ _ _ _ := Ok (tt, tt);
  sign_data _ := "bob"%string
|}.

Definition demo_participants : list Address :=
  [mkDemoAddr true None "bob"; mkDemoAddr true None "carol"]%string.

Lemma resolved_ids_faithful_witness :
  let r := mkResolved 2 [mkParticipant 0 "xelbob"; mkParticipant 1 "xelcarol"] (Some 1%Z) in
  (∀ i, rc_participants r !! i
        = (λ a, mkParticipant (Z.of_nat i) (address_to_string a)) <$> demo_participants !! i) ∧
  match rc_signer_id r with
  | Some id => (0 ≤ id)%Z ∧ ∃ a, demo_participants !! Z.to_nat id = Some a ∧
      get_public_key a = "carol"%string
  | None => Forall (λ a, get_public_key a ≠ "carol"%string) demo_participants
  end.
Proof.
  apply (resolved_ids_faithful demo_participants 2 "carol"%string); [reflexivity|done|reflexivity].
Defined.

(** The wallet with a pending request for the hash [tx]. *)
Definition demo_pending_wallet : XelisWallet :=
  mkWallet Slot.store_default
    (Pending.mkPendingStore
       (Some (1%Z, demo_tx, mkPendingTransaction tt tt demo_configuration SigningDeleteMultisig)) 1)
    [].

Definition demo_finalized : XelisWallet :=
  (finalize_multisig_transaction demo_multisig_env 1 "ftx" ["{share}"%string]
     demo_pending_wallet).2.

Lemma finalize_atomic_witness :
  finalized demo_multisig_env demo_pending_wallet
    (mkPrepared "ftx" 1 10 (PreparedMultisigFinalized SigningDeleteMultisig)) 1 "ftx"
    ["{share}"%string] demo_finalized.
Proof.
  apply (finalize_atomic demo_multisig_env 1 "ftx" ["{share}"%string] demo_pending_wallet
    (Ok (mkPrepared "ftx" 1 10 (PreparedMultisigFinalized SigningDeleteMultisig)))).
  reflexivity.
Defined.

Lemma open_atomic_witness :
  opened demo_multisig_env demo_wallet
    (open demo_multisig_env (OpenBurn 5 "fxelis") Automatic demo_wallet).1
    (open demo_multisig_env (OpenBurn 5 "fxelis") Automatic demo_wallet).2 ∧
  is_ok (open demo_multisig_env (OpenBurn 5 "fxelis") Automatic demo_wallet).1 = true.
Proof.
  split; [|reflexivity].
  apply (open_atomic demo_multisig_env (OpenBurn 5 "fxelis") Automatic demo_wallet).
  apply surjective_pairing.
Defined.

End Multisig.
