(* ===== verification/Races.v ===== *)
(** * Racing multisig calls (rust/src/api/wallet/multisig.rs)

    [Multisig] has the handlers as uninterrupted runs.  The bridge runs them on
    several threads, and each takes the lock of the pending request and the lock
    of the prepared slot separately.  Here the handlers that change the pending
    request are calls whose steps are those critical sections, and they
    interleave with each other and with everything else that uses the slot. *)

From S2P Require Import Prelude Tasks Errors External Text Addresses Builders.
From S2P Require Import Prepared Pending Submission Transactions Protocol Multisig.

Module Races.
Import Tasks Builders Transactions Protocol Multisig.

Section Races.
Context `{!ErrorText, !HashLib, !AddressLib, !WalletLib, !ProtocolLib}.

(** What a successful call did. *)
Inductive outcome : Type :=
  | Finalized (request_id : Z) (p : NativePreparedTransaction)
  | Cancelled (request_id : Z)
  | Opened (request : NativeMultisigSigningRequest).

(** Where a call is.  The environment is what the wallet crate answers it. *)
Inductive call_pc : Type :=
  | FinalizeBegin (env : MultisigEnv) (request_id : Z) (signing_hash : string)
      (signature_shares : list string)
  | FinalizeTake (env : MultisigEnv) (generation request_id : Z) (expected_signing_hash : Hash)
      (signatures : list MultisigSignature)
  | FinalizeAbandon (generation : Z) (error : NativeXelisError)
  | FinalizeCommit (env : MultisigEnv) (generation request_id : Z)
      (pending : PendingMultisigTransaction) (multisig : MultiSig)
  | CancelPending (request_id : Z) (signing_hash : string)
  | OpenCheck (env : MultisigEnv) (transaction_type : TransactionTypeBuilder) (target_fee : Z)
  | OpenStore (env : MultisigEnv) (transaction_type : TransactionTypeBuilder) (target_fee : Z)
  | Done (r : result NativeXelisError outcome).

Abbreviation handler := (action XelisWallet NativeXelisError).
Abbreviation Slots := (Slot.system (Hash := Hash) (T := PreparedWalletTransaction)).
Abbreviation Requests := (Pending.PendingMultisigStore (Hash := Hash) (T := PendingMultisigTransaction)).

(** What a handler sees of the two stores. *)
Definition view (s : Slots) (p : Requests) : XelisWallet := mkWallet (Slot.store s) p [].

(** The transaction that a request becomes, and what is reported of it. *)
Definition final_transaction (env : MultisigEnv) (pending : PendingMultisigTransaction)
    (multisig : MultiSig) : Transaction :=
  finalize (set_multisig (pm_unsigned pending) multisig) (keypair env).
Definition final_report (env : MultisigEnv) (pending : PendingMultisigTransaction)
    (multisig : MultiSig) (preparation_id : Z) : NativePreparedTransaction :=
  let tx := final_transaction env pending multisig in
  {| p_hash := hash_to_hex (tx_hash tx); p_preparation_id := preparation_id;
     p_fee := tx_get_fee tx;
     p_transaction := PreparedMultisigFinalized (pm_transaction_preview pending) |}.

(** [prepare_pending_multisig_transaction_with_fee] after its first check. *)
Definition open_rest (env : MultisigEnv) (transaction_type : TransactionTypeBuilder)
    (target_fee : Z) : handler NativeMultisigSigningRequest :=
  configuration ← lift (active_multisig_configuration env);
  '(unsigned, state) ← lift (build_unsigned_transaction env transaction_type
                               (FeeFixed target_fee) (msp_threshold configuration));
  store_pending_multisig_transaction env unsigned state transaction_type configuration
    target_fee.

(** [finalize_multisig_transaction] up to the first lock. *)
Definition parse_shares (signing_hash : string) (signature_shares : list string) :
    result NativeXelisError (Hash * list MultisigSignature) :=
  expected_signing_hash ← parse_multisig_signing_hash signing_hash;
  signatures ← map_err (λ error, from_wallet_operation error CodeInvalidInput
      "MULTISIG_SIGNATURE_SHARES_INVALID")
    (mapM (λ share, parse_multisig_signature_share share expected_signing_hash)
       signature_shares);
  Ok (expected_signing_hash, signatures).

(** One critical section of a call, with the code up to it. *)
Definition exec (t : call_pc) (s : Slots) (p : Requests) : option (Slots * Requests * call_pc) :=
  match t with
  | FinalizeBegin env request_id signing_hash signature_shares =>
      match parse_shares signing_hash signature_shares with
      | Err e => Some (s, p, Done (Err e))
      | Ok (expected_signing_hash, signatures) =>
          match Slot.exec_begin s with
          | (Slot.RGeneration (Ok generation), s') =>
              Some (s', p, FinalizeTake env generation request_id expected_signing_hash signatures)
          | (Slot.RGeneration (Err e), s') =>
              Some (s', p, Done (Err (prepared_transaction_error e)))
          | _ => None
          end
      end
  | FinalizeTake env generation request_id expected_signing_hash signatures =>
      let '(r, p') := Pending.take_validated request_id expected_signing_hash (λ pending,
          build_verified_multisig expected_signing_hash (pm_configuration pending) signatures) p in
      Some (s, p',
        match r with
        | Ok (pending, multisig) => FinalizeCommit env generation request_id pending multisig
        | Err e => FinalizeAbandon generation (Pending.map_pending_multisig_error
            CodeInvalidInput "MULTISIG_FINALIZATION_INVALID" e)
        end)
  | FinalizeAbandon generation error =>
      '(_, s') ← Slot.exec s (Slot.ODropPreparation generation);
      Some (s', p, Done (Err error))
  | FinalizeCommit env generation request_id pending multisig =>
      let tx := final_transaction env pending multisig in
      '(r, s') ← Slot.exec s (Slot.OCommit generation (tx_hash tx)
                                (without_review_extra_data tx (pm_state pending)));
      match r with
      | Slot.RGeneration (Ok preparation_id) =>
          Some (s', p, Done (Ok (Finalized request_id
                 (final_report env pending multisig preparation_id))))
      | Slot.RGeneration (Err e) => Some (s', p, Done (Err (prepared_transaction_error e)))
      | _ => None
      end
  | CancelPending request_id signing_hash =>
      let '(r, w) := cancel_pending_multisig_request request_id signing_hash (view s p) in
      Some (s, pending_multisig w, Done ((λ _, Cancelled request_id) <$> r))
  | OpenCheck env transaction_type target_fee =>
      Some (s, p,
        if bool_decide (is_Some (Pending.signing_hash p))
        then Done (Err (xelis_wallet_flutter CodeConflict "MULTISIG_REQUEST_ALREADY_PENDING"
                          "Another multisig request is already pending"))
        else OpenStore env transaction_type target_fee)
  | OpenStore env transaction_type target_fee =>
      let '(r, w) := open_rest env transaction_type target_fee (view s p) in
      Some (s, pending_multisig w, Done (Opened <$> r))
  | Done _ => None
  end.

(** ** Interleaved calls *)

Record System : Type := mkSystem { slot : Slots; pending : Requests; calls : list call_pc }.

(** The preparation guard that a call owns. *)
Definition guard_of (t : call_pc) : option Z :=
  match t with
  | FinalizeTake _ g _ _ _ | FinalizeAbandon g _ | FinalizeCommit _ g _ _ _ => Some g
  | _ => None
  end.
(** A call is made, a call makes a step, or somebody else uses the slot; nobody
    else can consume the guard of a call. *)
Inductive label : Type :=
  | Make (t : call_pc)
  | Run (i : nat)
  | Use (o : Slot.op (Hash := Hash) (T := PreparedWalletTransaction)).

Definition initial (t : call_pc) : bool :=
  match t with
  | FinalizeBegin _ _ _ _ | CancelPending _ _ | OpenCheck _ _ _ => true
  | _ => false
  end.

Definition run (i : nat) (y : System) : option System :=
  t ← calls y !! i;
  '(s, p, t') ← exec t (slot y) (pending y);
  Some (mkSystem s p (<[i := t']> (calls y))).

Definition step (y : System) (l : label) : option System :=
  match l with
  | Make t => if initial t then Some (mkSystem (slot y) (pending y) (calls y ++ [t])) else None
  | Run i => run i y
  | Use o =>
      if bool_decide (Exists (λ t, is_Some (guard_of t) ∧ guard_of t = Slot.consumes o) (calls y))
      then None
      else '(_, s) ← Slot.exec (slot y) o; Some (mkSystem s (pending y) (calls y))
  end.

Definition started : System := mkSystem Slot.system_init Pending.pending_default [].
Definition reached : System → Prop := reaches step started.

(** The request that a call has opened, and the one that it has settled: taken
    for finalization, or cancelled. *)
Definition opens (t : call_pc) : option Z :=
  match t with Done (Ok (Opened request)) => sr_request_id request | _ => None end.
Definition settles (t : call_pc) : option Z :=
  match t with
  | FinalizeCommit _ _ id _ _ | Done (Ok (Finalized id _)) | Done (Ok (Cancelled id)) => Some id
  | _ => None
  end.
(** The request that is pending. *)
Definition waiting (p : Requests) : list Z := option_list ((λ r, r.1.1) <$> Pending.request p).

(** ** The steps of one call *)

Abbreviation active s := (Slot.active_preparation (Slot.store s)).

(** What a step does to the slot. *)
Lemma exec_slot t s p s' p' t' :
  Slot.shape s → (∀ g, guard_of t = Some g → active s = Some g) →
  exec t s p = Some (s', p', t') →
  Slot.shape s' ∧ (∀ g, guard_of t' = Some g → active s' = Some g) ∧
  (active s' = active s ∨ is_Some (guard_of t) ∨ active s = None) ∧
  (is_Some (guard_of t') → is_Some (guard_of t) ∨ active s = None).
Proof.
  intros Hs Hg Hx. destruct t as [env id h shares|env g id h sigs|g e|env g id pm ms|id h|env tt fee|env tt fee|r];
    cbn [guard_of] in Hg |- *; cbn [exec] in Hx.
  - destruct (parse_shares h shares) as [[h' sigs]|e]; [|simplify_eq; naive_solver].
    destruct (Slot.begin_prepared s Hs) as [[e He]|(Ha & g & s1 & He & Hs1 & Hg1 & _)];
      rewrite He in Hx; simplify_eq; naive_solver.
  - destruct (Pending.take_validated _ _ _ p) as [[[pm ms]|e] p1]; simplify_eq; naive_solver.
  - destruct (Slot.drop_prepared s g Hs) as (s1 & He & Ha & _); [by apply Hg|].
    pose proof (Slot.exec_refines _ _ _ _ Hs He) as [Hs1 _].
    rewrite He in Hx. cbn in Hx. simplify_eq. naive_solver.
  - edestruct (Slot.commit_prepared s g) as (s1 & He & Ha & _); [done|by apply Hg|].
    pose proof (Slot.exec_refines _ _ _ _ Hs He) as [Hs1 _].
    rewrite He in Hx. cbn in Hx. simplify_eq. naive_solver.
  - destruct (cancel_pending_multisig_request _ _ _). simplify_eq. naive_solver.
  - simplify_eq. case_bool_decide; naive_solver.
  - destruct (open_rest _ _ _ _). simplify_eq. naive_solver.
  - done.
Qed.

(** A cancellation removes the request that it names, or fails. *)
Lemma cancel_pending id hash w :
  let '(r, w') := cancel_pending_multisig_request id hash w in
  (∃ e, r = Err e) ∧ pending_multisig w' = pending_multisig w ∨
  r = Ok tt ∧ waiting (pending_multisig w) = [id] ∧
    pending_multisig w' = Pending.mkPendingStore None
      (Pending.pending_next_generation (pending_multisig w)).
Proof.
  unfold cancel_pending_multisig_request, parse_multisig_signing_hash, mbind, action_bind, lift.
  destruct (hash_from_hex hash) as [h|e]; cbn [map_err]; [|by eauto].
  unfold on_pending. rewrite Pending.cancel_cases.
  destruct w as [st [[[[id' h'] t]|] n] eff]; cbn; [|by eauto].
  case_bool_decide as Hm; cbn; [|by eauto]. destruct Hm as [-> ->]. by right.
Qed.

(** Opening stores a request under a new id, or fails. *)
Lemma open_pending env tt fee w :
  let '(r, w') := open_rest env tt fee w in
  let n := Pending.pending_next_generation (pending_multisig w) in
  (∃ e, r = Err e) ∧ pending_multisig w' = pending_multisig w ∨
  ∃ request h pm, r = Ok request ∧ sr_request_id request = Some (n + 1)%Z ∧
    Pending.request (pending_multisig w) = None ∧ (n + 1 ≤ u64_max)%Z ∧
    pending_multisig w' = Pending.mkPendingStore (Some (n + 1, h, pm))%Z (n + 1).
Proof.
  unfold open_rest, mbind, action_bind, lift.
  destruct (active_multisig_configuration env) as [conf|e]; [|by eauto].
  destruct (build_unsigned_transaction _ _ _ _) as [[u st]|e]; [|by eauto].
  unfold store_pending_multisig_transaction, mbind, action_bind, lift, throw.
  destruct (create_multisig_signing_request _ _ _ _ _ _) as [req|e]; cbn [map_err]; [|by eauto].
  case_bool_decide; [by eauto|]. unfold on_pending. rewrite Pending.insert_cases.
  destruct w as [prep [[x|] n] eff]; cbn; [by eauto|].
  case_bool_decide; cbn; [|by eauto]. right. by do 3 eexists.
Qed.

(** Opening touches the requests only. *)
Lemma open_frame env tt fee w :
  let w' := (open_rest env tt fee w).2 in
  prepared_transaction w' = prepared_transaction w ∧ effects w' = effects w.
Proof.
  unfold open_rest, mbind, action_bind, lift.
  destruct (active_multisig_configuration env) as [conf|e]; [|done].
  destruct (build_unsigned_transaction _ _ _ _) as [[u st]|e]; [|done].
  unfold store_pending_multisig_transaction, mbind, action_bind, lift, throw.
  destruct (create_multisig_signing_request _ _ _ _ _ _) as [req|e]; cbn [map_err]; [|done].
  case_bool_decide; [done|]. unfold on_pending.
  destruct (Pending.insert _ _ _) as [[]]; done.
Qed.

(** What a step does to the requests: none appears that was not opened, and none
    disappears that was not settled. *)
Lemma exec_pending t s p s' p' t' :
  Slot.shape s → (∀ g, guard_of t = Some g → active s = Some g) → Pending.pending_wf p →
  exec t s p = Some (s', p', t') →
  opens t = None ∧ Pending.pending_wf p' ∧
  option_list (settles t') ++ waiting p' ≡ₚ
    option_list (opens t') ++ option_list (settles t) ++ waiting p ∧
  (Pending.pending_next_generation p ≤ Pending.pending_next_generation p')%Z ∧
  (∀ id, opens t' = Some id →
     Pending.pending_next_generation p < id ≤ Pending.pending_next_generation p')%Z.
Proof.
  intros Hs Hg Hwf Hx.
  assert (∀ n, Pending.pending_next_generation p = n →
            Pending.pending_wf (Pending.mkPendingStore (Hash := Hash) (T := PendingMultisigTransaction) None n)) as Hnone.
  { intros n <-. split; [apply Hwf|done]. }
  destruct t as [env id h shares|env g id h sigs|g e|env g id pm ms|id h|env tt fee|env tt fee|r];
    cbn [exec] in Hx; [| | | | | | |done].
  - destruct (parse_shares h shares) as [[h' sigs]|e]; [|by simplify_eq].
    destruct (Slot.begin_prepared s Hs) as [[e He]|(Ha & g & s1 & He & _)];
      rewrite He in Hx; by simplify_eq.
  - rewrite Pending.take_validated_cases in Hx. unfold waiting.
    destruct (Pending.request p) as [[[id' h'] t]|] eqn:Hr; cbn in Hx; [|by simplify_eq; rewrite Hr].
    case_bool_decide as Hm; [destruct Hm as [-> ->]|by simplify_eq; rewrite Hr].
    destruct (build_verified_multisig _ _ _); simplify_eq; [|by rewrite Hr].
    split_and!; try done. by apply Hnone.
  - destruct (Slot.drop_prepared s g Hs) as (s1 & He & Ha & _); [by apply Hg|].
    rewrite He in Hx. by cbn in Hx; simplify_eq.
  - edestruct (Slot.commit_prepared s g) as (s1 & He & Ha & _); [done|by apply Hg|].
    rewrite He in Hx. by cbn in Hx; simplify_eq.
  - pose proof (cancel_pending id h (view s p)) as Hc.
    destruct (cancel_pending_multisig_request _ _ _) as [r w]. simplify_eq.
    destruct Hc as [[[e ->] ->]|(-> & Hw & ->)]; cbn; [done|].
    cbn in Hw. rewrite Hw. split_and!; try done. by apply Hnone.
  - simplify_eq. by case_bool_decide.
  - pose proof (open_pending env tt fee (view s p)) as Hc.
    destruct (open_rest _ _ _ _) as [r w]. simplify_eq. cbn in Hc.
    destruct Hc as [[[e ->] ->]|(req & h & pm & -> & Hid & Hr & Hn & ->)]; cbn; [done|].
    unfold waiting. rewrite Hid, Hr. cbn. split_and!; try done; [|lia|naive_solver lia].
    destruct Hwf as [Hb _]. split; cbn; [lia|]. intros ? ? ? [= <- <- <-]. lia.
Qed.

(** The stages that a call has left. *)
Definition stages (t : call_pc) : nat :=
  match t with
  | FinalizeBegin _ _ _ _ => 3
  | FinalizeTake _ _ _ _ _ | OpenCheck _ _ _ => 2
  | FinalizeAbandon _ _ | FinalizeCommit _ _ _ _ _ | CancelPending _ _ | OpenStore _ _ _ => 1
  | Done _ => 0
  end.

Lemma call_enabled t s p :
  Slot.shape s → (∀ g, guard_of t = Some g → active s = Some g) → (∀ r, t ≠ Done r) →
  ∃ s' p' t', exec t s p = Some (s', p', t') ∧ stages t' < stages t.
Proof.
  intros Hs Hg Ht.
  destruct t as [env id h shares|env g id h sigs|g e|env g id pm ms|id h|env tt fee|env tt fee|r];
    cbn [exec guard_of] in *; [| | | | | | |by destruct (Ht r)].
  - destruct (parse_shares h shares) as [[h' sigs]|e]; [|by do 3 eexists; split; [done|cbn; lia]].
    destruct (Slot.begin_prepared s Hs) as [[e ->]|(Ha & g & s1 & -> & _)];
      (do 3 eexists; split; [done|cbn; lia]).
  - destruct (Pending.take_validated _ _ _ p) as [[[pm ms]|e] p1];
      (do 3 eexists; split; [done|cbn; lia]).
  - destruct (Slot.drop_prepared s g Hs) as (s1 & -> & _); [by apply Hg|].
    do 3 eexists; split; [done|cbn; lia].
  - edestruct (Slot.commit_prepared s g) as (s1 & -> & _); [done|by apply Hg|].
    do 3 eexists; split; [done|cbn; lia].
  - destruct (cancel_pending_multisig_request _ _ _). do 3 eexists; split; [done|cbn; lia].
  - do 3 eexists; split; [done|]. case_bool_decide; cbn; lia.
  - destruct (open_rest _ _ _ _). do 3 eexists; split; [done|cbn; lia].
Qed.

(** ** Every interleaving *)

Record ok (y : System) : Prop := {
  ok_slot : Slot.shape (slot y);
  ok_guard i t g : calls y !! i = Some t → guard_of t = Some g → active (slot y) = Some g;
  ok_one i j t u : calls y !! i = Some t → calls y !! j = Some u →
    is_Some (guard_of t) → is_Some (guard_of u) → i = j;
  ok_pending : Pending.pending_wf (pending y);
  ok_account : omap opens (calls y) ≡ₚ omap settles (calls y) ++ waiting (pending y);
  ok_fresh : NoDup (omap opens (calls y));
  ok_issued id : id ∈ omap opens (calls y) →
    (id ≤ Pending.pending_next_generation (pending y))%Z
}.

Lemma omap_move {B} (f : call_pc → option B) ts i t t' :
  ts !! i = Some t →
  omap f (<[i := t']> ts) ++ option_list (f t) ≡ₚ omap f ts ++ option_list (f t').
Proof.
  intros Hi. rewrite insert_take_drop by (by eapply lookup_lt_Some).
  rewrite <-(take_drop_middle ts i t Hi) at 3. rewrite !omap_app. cbn.
  destruct (f t), (f t'); cbn; solve_Permutation.
Qed.

Lemma omap_new {B} (f : call_pc → option B) ts t : f t = None → omap f (ts ++ [t]) = omap f ts.
Proof. intros Ht. rewrite omap_app. cbn. by rewrite Ht, app_nil_r. Qed.

Lemma ok_run i y y' : ok y → run i y = Some y' → ok y'.
Proof.
  intros [Hs Hg Hone Hp Ha Hf Hi] Hx. unfold run in Hx.
  apply bind_Some in Hx as (t & Ht & Hx). apply bind_Some in Hx as ([[s p] t'] & Hx & [= <-]).
  assert (∀ g, guard_of t = Some g → active (slot y) = Some g) as Hgt by eauto.
  destruct (exec_slot _ _ _ _ _ _ Hs Hgt Hx) as (Hs' & Hg' & Hkeep & Hnew).
  destruct (exec_pending _ _ _ _ _ _ Hs Hgt Hp Hx) as (Hot & Hp' & Hac & Hle & Hid).
  pose proof (omap_move opens _ _ _ t' Ht) as Ho. rewrite Hot, app_nil_r in Ho.
  pose proof (omap_move settles _ _ _ t' Ht) as Hse.
  assert (∀ j u, j ≠ i → calls y !! j = Some u → is_Some (guard_of u) → guard_of t = None) as Hoth.
  { intros j u Hj Hu Hgu. apply eq_None_not_Some. intros Hti. by destruct Hj; eauto. }
  constructor; cbn; [done| | |done| | |].
  - intros j u g Hj Hu. apply list_lookup_insert_Some in Hj as [(-> & -> & _)|[Hj Hju]]; [by eauto|].
    pose proof (Hg _ _ _ Hju Hu) as Hact. pose proof (Hoth j u (not_eq_sym Hj) Hju ltac:(by eexists)) as Hn.
    destruct Hkeep as [->|[[? Hk]|Hk]]; [done|congruence|congruence].
  - intros j k u v Hj Hk Hu Hv.
    apply list_lookup_insert_Some in Hj as [(-> & -> & _)|[Hj Hju]];
      apply list_lookup_insert_Some in Hk as [(-> & -> & _)|[Hk Hkv]]; [done| | |by eauto].
    + destruct Hv as [g Hv]. destruct (Hnew Hu) as [[? Hn]|Hn]; [|by rewrite (Hg _ _ _ Hkv Hv) in Hn].
      by rewrite (Hoth k v (not_eq_sym Hk) Hkv ltac:(by eexists)) in Hn.
    + destruct Hu as [g Hu]. destruct (Hnew Hv) as [[? Hn]|Hn]; [|by rewrite (Hg _ _ _ Hju Hu) in Hn].
      by rewrite (Hoth j u (not_eq_sym Hj) Hju ltac:(by eexists)) in Hn.
  - apply (Permutation_app_inv_r (option_list (settles t))). rewrite Ho, Ha.
    trans (omap settles (calls y) ++ (option_list (settles t') ++ waiting p));
      [rewrite Hac; solve_Permutation|].
    trans ((omap settles (<[i:=t']> (calls y)) ++ option_list (settles t)) ++ waiting p);
      [rewrite Hse|]; solve_Permutation.
  - rewrite Ho. apply NoDup_app. split_and!; [done| |by destruct (opens t'); cbn; [apply NoDup_singleton|constructor]].
    intros id Hin Hid'. apply Hi in Hin. destruct (opens t') as [id'|]; [|by apply elem_of_nil in Hid'].
    apply list_elem_of_singleton in Hid' as ->. specialize (Hid _ eq_refl). lia.
  - intros id. rewrite Ho. intros [Hin|Hin]%elem_of_app; [apply Hi in Hin; lia|].
    destruct (opens t') as [id'|]; [|by apply elem_of_nil in Hin].
    apply list_elem_of_singleton in Hin as ->. specialize (Hid _ eq_refl). lia.
Qed.

(** A new call owns no guard. *)
Lemma guard_of_new ts t i u :
  guard_of t = None → (ts ++ [t]) !! i = Some u → is_Some (guard_of u) → ts !! i = Some u.
Proof.
  intros Ht [Hi|[_ Hi]]%lookup_app_Some [g Hu]; [done|].
  apply list_lookup_singleton_Some in Hi as [_ <-]. congruence.
Qed.

Lemma reached_ok y : reached y → ok y.
Proof.
  intros [tr Htr]. revert tr y Htr. apply reachable_invariant.
  - intros y ->. constructor; cbn; try done.
    + apply Slot.shape_empty. unfold u64_max. lia.
    + apply NoDup_nil_2.
    + intros id Hid. by apply elem_of_nil in Hid.
  - intros y [t|i|o] y' Hok Hx; cbn in Hx; [|by eapply ok_run|].
    + destruct (initial t) eqn:Ht; [|done]. injection Hx as <-. destruct Hok as [Hs Hg Hone Hp Ha Hf Hi].
      assert (guard_of t = None ∧ opens t = None ∧ settles t = None) as (Hgt & Hot & Hst)
        by (by destruct t).
      constructor; cbn; rewrite ?omap_new by done; try done.
      * intros j u g Hj Hu. eapply Hg; [|done]. eapply guard_of_new; by eauto.
      * intros j k u v Hj Hk Hu Hv. eapply Hone; [| |exact Hu|exact Hv]; by eapply guard_of_new.
    + case_bool_decide as Hc; [done|]. apply bind_Some in Hx as ([r s] & Hx & [= <-]).
      destruct Hok as [Hs Hg Hone Hp Ha Hf Hi].
      constructor; cbn; try done; [by apply Slot.exec_refines in Hx as []|].
      intros j u g Hj Hu. eapply Slot.use_keeps_preparation; [done..|by eauto|].
      intros Hco. apply Hc, Exists_exists. exists u. rewrite Hu, Hco.
      split; [by eapply list_elem_of_lookup_2|]. by eauto.
Qed.

(** The handler of [Multisig] that a call is a run of. *)
Definition handled {A} (f : A → outcome) (m : handler A) (w : XelisWallet) :
    result NativeXelisError outcome * XelisWallet :=
  let '(r, w') := m w in (f <$> r, w').
Definition sequential (t : call_pc) (w : XelisWallet) :
    result NativeXelisError outcome * XelisWallet :=
  match t with
  | FinalizeBegin env id hash shares =>
      handled (Finalized id) (finalize_multisig_transaction env id hash shares) w
  | CancelPending id hash =>
      handled (λ _, Cancelled id) (cancel_pending_multisig_request id hash) w
  | OpenCheck env transaction_type fee =>
      handled Opened (prepare_pending_multisig_transaction_with_fee env transaction_type fee) w
  | _ => (Err (xelis_wallet_flutter CodeInternal "" ""), w)
  end.

(** A call that nobody interrupts, of at most three steps. *)
Fixpoint alone (n : nat) (t : call_pc) (s : Slots) (p : Requests) : Slots * Requests * call_pc :=
  match n with
  | O => (s, p, t)
  | S n => match exec t s p with Some (s, p, t) => alone n t s p | None => (s, p, t) end
  end.

Lemma alone_finalize env id hash shares s p :
  Slot.shape s →
  let '(r, w) := sequential (FinalizeBegin env id hash shares) (view s p) in
  let '(s', p', t) := alone 3 (FinalizeBegin env id hash shares) s p in
  t = Done r ∧ view s' p' = w.
Proof.
  intros Hs. cbn [alone exec sequential]. unfold handled, finalize_multisig_transaction, parse_shares.
  unfold mbind at 1, action_bind at 1, lift at 1.
  destruct (parse_multisig_signing_hash hash) as [h|e]; cbn [mbind result_bind]; [|done].
  unfold mbind at 1, action_bind at 1, lift at 1.
  destruct (map_err _ (mapM _ shares)) as [sigs|e]; cbn [mbind result_bind]; [|done].
  unfold mbind at 1, action_bind at 1. unfold begin_preparation, on_prepared, map_err_action, Slot.exec_begin.
  unfold view; cbn [prepared_transaction pending_multisig effects].
  destruct (Slot.preparation_begin_cases (Slot.store s)) as [[e He]|(Ha & Hi & He)]; rewrite He; cbn [map_err].
  { by destruct s. }
  destruct s as [[st n ap] ps subs]; cbn in Ha, Hi. subst ap. cbn [Slot.state Slot.next_generation].
  clear He.
  unfold mbind at 1, action_bind at 1, guarded_preparation, on_pending.
  cbn [exec Slot.store Slot.preparations Slot.submissions Slot.pg_generation prepared_transaction pending_multisig effects].
  destruct (Pending.take_validated _ _ _ p) as [[[pm ms]|e] p1]; cbn [map_err alone exec].
  - rewrite Slot.exec_own_commit. rewrite !Slot.preparation_commit_active by done. cbn.
    unfold mbind, action_bind. cbn [prepared_transaction pending_multisig effects].
    by rewrite !Slot.preparation_commit_active by done.
  - rewrite Slot.exec_own_drop. done.
Qed.

Lemma alone_other t s p :
  (∃ id hash, t = CancelPending id hash) ∨ (∃ env tt fee, t = OpenCheck env tt fee) →
  let '(r, w) := sequential t (view s p) in
  let '(s', p', t') := alone 3 t s p in
  t' = Done r ∧ view s' p' = w.
Proof.
  intros [(id & hash & ->)|(env & tt & fee & ->)]; cbn [sequential alone exec]; unfold handled.
  - unfold cancel_pending_multisig_request, parse_multisig_signing_hash, mbind, action_bind, lift.
    destruct (map_err _ (hash_from_hex hash)) as [h|e]; [|done]. unfold on_pending.
    by destruct (Pending.cancel _ _ _).
  - unfold prepare_pending_multisig_transaction_with_fee.
    unfold mbind at 1, action_bind at 1, get_state.
    case_bool_decide as Hp; cbn [pending_multisig view] in Hp |- *; [by rewrite bool_decide_true by done|].
    rewrite bool_decide_false by done. cbn [alone exec]. fold (open_rest env tt fee).
    destruct (open_rest env tt fee (view s p)) as [r w] eqn:Ho. split; [done|].
    pose proof (open_frame env tt fee (view s p)) as Hf. rewrite Ho in Hf. cbn in Hf.
    destruct w as [prep pend eff]. cbn in Hf. destruct Hf as [-> ->]. done.
Qed.

(** ** Theorems *)

(** Each of the handlers of multisig.rs is the run of
    its call that nobody interrupts, from every state that can be reached: the
    same result, and the same two stores. *)
Theorem handlers_are_runs y t :
  reached y → initial t = true →
  let '(r, w) := sequential t (view (slot y) (pending y)) in
  let '(s', p', t') := alone 3 t (slot y) (pending y) in
  t' = Done r ∧ view s' p' = w.
Proof.
  intros Hy%reached_ok Ht. destruct t; try done;
    [apply alone_finalize, Hy|apply alone_other; by eauto..].
Qed.

(** Claim C24 (safety): however calls that open, finalize and cancel requests
    race with each other and with other uses of the slot, every request that was
    opened is settled once or still pending, none is settled that was not
    opened, and the ids are all different. *)
Theorem requests_settled_once y :
  reached y →
  omap opens (calls y) ≡ₚ omap settles (calls y) ++ waiting (pending y) ∧
  NoDup (omap opens (calls y)).
Proof. intros Hy%reached_ok. split; apply Hy. Qed.

(** A request that a finalization has taken is never lost:
    whatever others do meanwhile, committing it succeeds, and the slot then holds
    the transaction of that request under the capability that is reported. *)
Theorem taken_request_committed y i env g id pm ms :
  reached y → calls y !! i = Some (FinalizeCommit env g id pm ms) →
  let tx := final_transaction env pm ms in
  ∃ y', run i y = Some y' ∧
    calls y' !! i = Some (Done (Ok (Finalized id (final_report env pm ms g)))) ∧
    Slot.state (Slot.store (slot y')) =
      Slot.Ready g (tx_hash tx) (without_review_extra_data tx (pm_state pm)).
Proof.
  intros Hy%reached_ok Hi tx.
  destruct (Slot.commit_prepared (slot y) g (tx_hash tx) (without_review_extra_data tx (pm_state pm)))
    as (s' & He & _ & Hst); [apply Hy|by eapply ok_guard|].
  unfold run. rewrite Hi. cbn [mbind option_bind exec]. fold tx. rewrite He. cbn [mbind option_bind].
  eexists. split; [done|]. split; [|done].
  apply list_lookup_insert_eq. by eapply lookup_lt_Some.
Qed.

(** No call ever waits for another one, and a call that has
    not returned comes closer to its end with each of its steps. *)
Theorem calls_never_wait y i t :
  reached y → calls y !! i = Some t → (∀ r, t ≠ Done r) →
  ∃ y' t', run i y = Some y' ∧ calls y' !! i = Some t' ∧ stages t' < stages t.
Proof.
  intros Hy%reached_ok Hi Ht.
  destruct (call_enabled t (slot y) (pending y)) as (s' & p' & t' & Hx & Hlt);
    [apply Hy|intros g Hg; by eapply ok_guard|done|].
  unfold run. rewrite Hi. cbn [mbind option_bind]. rewrite Hx. cbn [mbind option_bind].
  do 2 eexists. split; [done|]. split; [|exact Hlt].
  apply list_lookup_insert_eq. by eapply lookup_lt_Some.
Qed.
End Races.

(** ** A race *)

#[local] Existing Instances plain_text demo_hash demo_address demo_wallet_lib demo_protocol.

(** A request is opened; while it is being finalized it is cancelled, and the
    application tries to prepare another transaction. *)
Definition race_asset : Hash := "xelis"%string.
Definition race_open : list label :=
  [Make (OpenCheck demo_multisig_env (build_burn_type race_asset 5) 10); Run 0; Run 0].
Definition race_taken : list label :=
  race_open ++ [Make (FinalizeBegin demo_multisig_env 1 "ftx" ["{share}"%string]);
    Make (CancelPending 1 "ftx"); Run 1; Run 1; Use Slot.OBegin; Run 2].
Definition race_done : list label := race_taken ++ [Run 1].

Definition raced (ls : list label) : System := played step started ls.

Lemma raced_reached ls : plays step started ls = true → reached (raced ls).
Proof. apply played_reachable. Qed.

Example race_settled :
  omap settles (calls (raced race_done)) = [1%Z] ∧ waiting (pending (raced race_done)) = [] ∧
  match calls (raced race_done) !! 2 with
  | Some (Done (Err e)) => code e = CodeNotFound | _ => False
  end.
Proof. by vm_compute. Qed.

Lemma handlers_are_runs_witness :
  let y := raced race_open in
  let t := FinalizeBegin demo_multisig_env 1 "ftx" ["{share}"%string] in
  let '(r, w) := sequential t (view (slot y) (pending y)) in
  let '(s', p', t') := alone 3 t (slot y) (pending y) in
  t' = Done r ∧ view s' p' = w.
Proof.
  apply (handlers_are_runs (raced race_open)); [|reflexivity].
  apply raced_reached. by vm_compute.
Defined.

Lemma requests_settled_once_witness :
  let y := raced race_taken in
  omap opens (calls y) ≡ₚ omap settles (calls y) ++ waiting (pending y) ∧
  NoDup (omap opens (calls y)).
Proof. apply requests_settled_once, raced_reached. by vm_compute. Defined.

Lemma taken_request_committed_witness :
  ∃ y', run 1 (raced race_taken) = Some y' ∧
    Slot.state (Slot.store (slot y')) ≠ Slot.Empty.
Proof.
  edestruct (taken_request_committed (raced race_taken) 1 demo_multisig_env 1) as (y' & Hr & _ & Hst);
    [apply raced_reached; by vm_compute|reflexivity|].
  exists y'. split; [exact Hr|]. by rewrite Hst.
Defined.

Lemma calls_never_wait_witness :
  ∃ y' t', run 2 (raced (take 5 race_taken)) = Some y' ∧ calls y' !! 2 = Some t' ∧ stages t' < 1.
Proof.
  apply (calls_never_wait (raced (take 5 race_taken)) 2 (CancelPending 1 "ftx"));
    [apply raced_reached; by vm_compute|reflexivity|done].
Defined.
End Races.
