(* ===== verification/Broadcasts.v ===== *)
(** * Racing transaction calls (rust/src/api/wallet/transactions.rs and
    multisig_setup of rust/src/api/wallet/multisig.rs)

    [Transactions] and [Multisig] have the handlers as uninterrupted runs.  Here
    they are calls whose steps are the critical sections of the prepared slot,
    with the waiting for the storage and the daemon in between; they interleave
    with each other and with the finalization of multisig requests, whose own
    steps are those of [Races], and the bridge may drop one where it waits.  The
    trace records what was done to the slot and what left the wallet. *)

From S2P Require Import Prelude Tasks Errors External Text Addresses Builders.
From S2P Require Import Prepared Pending Submission Transactions Protocol Multisig.

Module Broadcasts.
Import Tasks Builders Submission Transactions.
Import Multisig (MultisigEnv, base_env, network, public_key, stored_multisig_state).

Section Broadcasts.
Context `{!ErrorText, !HashLib, !AddressLib, !WalletLib, !Protocol.ProtocolLib}.

Abbreviation Slots := (Slot.system (Hash := Hash) (T := PreparedWalletTransaction)).
Abbreviation slot_op := (Slot.op (Hash := Hash) (T := PreparedWalletTransaction)).
Abbreviation slot_response := (Slot.response (T := PreparedWalletTransaction)).

(** What a call returns; [Dropped] when the bridge dropped it. *)
Inductive answer : Type :=
  | Prepared (r : result NativeXelisError NativePreparedTransaction)
  | Stored (r : result anyhow_error string)
  | Cancelled (r : result NativeXelisError unit)
  | Cleared (r : result anyhow_error (Transaction * TransactionBuilderState))
  | Inspected (r : result NativeXelisError NativePreparedTransferExtraData)
  | Broadcast (r : result NativeXelisError NativePreparedTransactionBroadcastOutcome)
  | LegacyBroadcast (r : result anyhow_error BroadcastTransactionOutcome)
  | Dropped.

(** The two broadcasting handlers differ in what they report. *)
Inductive api : Type := Stable | Legacy.

Definition slot_failure (a : api) (e : Slot.PreparedTransactionError) : answer :=
  match a with
  | Stable => Broadcast (Err (prepared_transaction_error e))
  | Legacy => LegacyBroadcast (Err (prepared_anyhow e))
  end.
Definition applied (a : api) (r : result anyhow_error unit) : answer :=
  match a, r with
  | Stable, Ok _ => Broadcast (Ok BSubmitted)
  | Stable, Err error => Broadcast (Ok (BSubmittedNeedsResync (from_wallet_storage_operation error
      "PREPARED_TRANSACTION_LOCAL_APPLY_FAILED")))
  | Legacy, Ok _ => LegacyBroadcast (Ok OutSubmitted)
  | Legacy, Err _ => LegacyBroadcast (Ok OutSubmittedNeedsResync)
  end.
Definition retryable (a : api) (error : WalletError) : answer :=
  match a with
  | Stable => Broadcast (Ok (BRetryable (from_wallet_error error)))
  | Legacy => LegacyBroadcast (Ok OutRetryable)
  end.
Definition rejected (a : api) (error : WalletError) : answer :=
  match a with
  | Stable => Broadcast (Ok (BRejected (from_wallet_error error)))
  | Legacy => LegacyBroadcast (Ok OutRejected)
  end.
Definition local_failure (a : api) (error : WalletError) : answer :=
  match a with
  | Stable => Broadcast (Ok (BLocalFailure (from_wallet_error error)))
  | Legacy => LegacyBroadcast (Ok OutLocalFailure)
  end.

(** The requests of the legacy handlers that store a transaction. *)
Inductive legacy_request : Type :=
  | CreateTransfers (transfers : list Transfer)
  | CreateTransferAll (str_address : string) (asset_hash extra_data : option string)
      (encrypt_extra_data : option bool)
  | CreateBurn (float_amount : f64) (asset_hash : string)
  | CreateBurnAll (asset_hash : string).

(** Where a call is.  The environment is what the wallet crate and the daemon
    answer it; what a preparing call computes while it holds its guard is
    [planned]. *)
Inductive call_pc : Type :=
  | PrepareBegin (env : Env) (request : prepare_request) (policy : NativeTransactionFeePolicy)
  | SetupCheck (env : MultisigEnv) (threshold : Z) (participants : list string)
      (policy : NativeTransactionFeePolicy)
  | SetupBegin (env : MultisigEnv) (threshold : Z) (addresses : list Address)
      (policy : NativeTransactionFeePolicy)
  | PrepareBuild (env : Env) (planned : result NativeXelisError plan) (generation : Z)
  | PrepareAbandon (generation : Z) (error : NativeXelisError)
  | PrepareCommit (generation : Z) (prepared : PreparedWalletTransaction)
      (kind : NativePreparedTransactionKind)
  | CreateLegacy (env : Env) (request : legacy_request)
  | StoreLegacy (env : Env) (transaction_type : TransactionTypeBuilder)
  | InspectExact (preparation_id : Z) (tx_hash : string) (transfer_index : Z)
  | CancelExact (preparation_id : Z) (tx_hash : string)
  | ClearLegacy (tx_hash : string)
  | BroadcastCheck (env : Env) (preparation_id : Z) (tx_hash : string)
  | BroadcastOffline (preparation_id : Z) (hash : Hash)
  | BroadcastTake (env : Env) (preparation_id : Z) (hash : Hash)
  | BroadcastRead (env : Env) (generation : Z) (prepared : PreparedWalletTransaction)
  | BroadcastGiveUp (generation : Z) (prepared : PreparedWalletTransaction)
      (error : NativeXelisError)
  | LegacyCheck (env : Env) (tx_hash : string)
  | LegacyTake (env : Env) (hash : Hash)
  | Submit (a : api) (env : Env) (generation : Z) (prepared : PreparedWalletTransaction)
  | Settle (a : api) (env : Env) (generation : Z) (prepared : PreparedWalletTransaction)
  | Apply (a : api) (env : Env) (prepared : PreparedWalletTransaction)
  | Clear (ans : answer)
  | Done (ans : answer).

(** What happens: an operation of the slot, or something outside of it. *)
Inductive event : Type :=
  | OnSlot (o : slot_op) (r : slot_response)
  | Sent (generation : Z) (tx : Transaction)
  | Applied (tx : Transaction)
  | ClearedUnconfirmed.

Definition effect_of (e : event) : option effect :=
  match e with
  | OnSlot _ _ => None
  | Sent _ tx => Some (EffSubmit tx)
  | Applied tx => Some (EffApply tx)
  | ClearedUnconfirmed => Some EffClearUnconfirmed
  end.
Definition slot_part (e : event) : option (slot_op * slot_response) :=
  match e with OnSlot o r => Some (o, r) | _ => None end.

(** One acquisition of the slot's lock. *)
Definition on_slot (o : slot_op) (s : Slots) (next : slot_response → option call_pc) :
    option (list event * Slots * call_pc) :=
  '(r, s') ← Slot.exec s o;
  t ← next r;
  Some ([OnSlot o r], s', t).

(** What a preparing handler computes while it holds its guard. *)
Definition build (env : Env) (planned : result NativeXelisError plan) :
    result NativeXelisError (PreparedWalletTransaction * NativePreparedTransactionKind) :=
  p ← planned;
  '(tx, st) ← map_err (λ error, from_wallet_operation error CodeOperationFailed
                                  "PREPARED_TRANSACTION_CREATION_FAILED")
    (create_transaction_with_storage env (plan_type p) (FeeFixed (plan_fee p)));
  if bool_decide (tx_get_fee tx ≠ plan_fee p)
  then Err (xelis_wallet_flutter CodeInternal "PREPARED_TRANSACTION_FEE_MISMATCH"
         ("Prepared fee " +:+ uint_to_string (tx_get_fee tx) +:+
          " differs from requested fixed fee " +:+ uint_to_string (plan_fee p)))
  else Ok (mkPreparedWallet tx st (plan_review p), plan_kind p).

(** [begin] of the preparation guard. *)
Definition begin_prepare (env : Env) (planned : result NativeXelisError plan) (s : Slots) :
    option (list event * Slots * call_pc) :=
  on_slot Slot.OBegin s (λ r, match r with
    | Slot.RGeneration (Ok g) => Some (PrepareBuild env planned g)
    | Slot.RGeneration (Err e) => Some (Done (Prepared (Err (prepared_transaction_error e))))
    | _ => None
    end).

(** What [multisig_setup] checks before its guard, and plans under it. *)
Definition setup_checks (env : MultisigEnv) (threshold : Z) (participants : list string)
    (policy : NativeTransactionFeePolicy) : result NativeXelisError (list Address) :=
  apply_fee_policy 0 policy;;
  map_err (λ error, from_wallet_operation error CodeInvalidInput "MULTISIG_SETUP_INVALID")
    (Protocol.validate_multisig_setup threshold (zlen participants));;
  addresses ← map_err (λ error, from_wallet_operation error CodeInvalidInput
                                  "MULTISIG_SETUP_PARTICIPANTS_INVALID")
    (Multisig.parse_multisig_participants participants (network_is_mainnet (network env))
       (public_key env));
  stored ← storage_read "MULTISIG_SETUP_STATE_READ_FAILED" (stored_multisig_state env);
  if bool_decide (is_Some stored)
  then Err (xelis_wallet_flutter CodeConflict "MULTISIG_ALREADY_CONFIGURED"
              "Multisig is already configured")
  else Ok addresses.
Definition plan_setup (env : MultisigEnv) (threshold : Z) (addresses : list Address)
    (policy : NativeTransactionFeePolicy) : result NativeXelisError plan :=
  let transaction_type := TMultiSig {| msb_participants := addresses;
                                       msb_threshold := threshold |} in
  target_fee ← estimate_target_fee (base_env env) transaction_type policy;
  Ok (mkPlan transaction_type
        (PreparedMultisigSetup threshold
           (Protocol.number_participants (address_to_string <$> addresses))) [] target_fee).

(** The transaction that a legacy handler goes on to build. *)
Definition legacy_type (env : Env) (request : legacy_request) :
    result anyhow_error TransactionTypeBuilder :=
  match request with
  | CreateTransfers transfers =>
      map_err (context "Error while creating transaction type builder") (create_transfers env transfers)
  | CreateTransferAll str_address asset_hash extra_data encrypt_extra_data =>
      asset ← match asset_hash with
              | None => Ok XELIS_ASSET
              | Some value => map_err (context "Invalid asset") (hash_from_hex value)
              end;
      balance ← get_plaintext_balance_for env asset;
      address ← map_err (context "Invalid address") (address_from_string str_address);
      estimated ← build_transfer_all_type address balance 0 asset extra_data encrypt_extra_data;
      fees ← map_err (context "Error while estimating fees") (estimate_fees env estimated);
      build_transfer_all_type address balance fees asset extra_data encrypt_extra_data
  | CreateBurn float_amount asset_hash =>
      asset ← map_err (context "Invalid asset") (hash_from_hex asset_hash);
      decimals ← map_err (context "Asset not found in storage") (get_asset_decimals env asset);
      amount ← checked_atomic_amount float_amount decimals;
      Ok (build_burn_type asset amount)
  | CreateBurnAll asset_hash =>
      asset ← map_err (context "Invalid asset") (hash_from_hex asset_hash);
      balance ← get_plaintext_balance_for env asset;
      estimated ← build_burn_all_type asset balance 0;
      fees ← map_err (context "Error while estimating fees") (estimate_fees env estimated);
      build_burn_all_type asset balance fees
  end.

(** What [inspect_prepared_transfer_extra_data] reads under the slot's read lock. *)
Definition inspect (preparation_id : Z) (tx_hash : string) (transfer_index : Z) (s : Slots) :
    result NativeXelisError NativePreparedTransferExtraData :=
  hash ← parse_prepared_hash tx_hash;
  transfer_index ← ok_or (xelis_wallet_flutter CodeInvalidInput
      "PREPARED_TRANSFER_INDEX_INVALID"
      "Prepared transfer index is outside the supported range")
    (try_from usize_max transfer_index);
  prepared ← map_err prepared_transaction_error
    (Slot.ready_exact preparation_id hash (Slot.store s)).1;
  if bool_decide (transfer_count prepared ≤ transfer_index)%Z
  then Err (xelis_wallet_flutter CodeInvalidInput "PREPARED_TRANSFER_INDEX_INVALID"
    ("Prepared transfer index " +:+ uint_to_string transfer_index
     +:+ " is outside the transaction transfer count "
     +:+ uint_to_string (transfer_count prepared)))
  else ok_or (xelis_wallet_flutter CodeNotFound
      "PREPARED_TRANSFER_EXTRA_DATA_NOT_FOUND"
      "The selected prepared transfer does not contain extra data")
    (review_extra_data prepared transfer_index).

Definition stable_reads (env : Env) : result NativeXelisError unit :=
  storage_read "PREPARED_TRANSACTION_STORAGE_VERSION_READ_FAILED" (get_tx_version env);;
  storage_read "PREPARED_TRANSACTION_TOPOHEIGHT_READ_FAILED" (get_synced_topoheight env);;
  storage_read "PREPARED_TRANSACTION_TOP_BLOCK_READ_FAILED" (get_top_block_hash env);;
  Ok tt.
Definition legacy_checks (env : Env) (tx_hash : string) : result anyhow_error Hash :=
  ensure_wallet_online (is_online env);;
  get_tx_version env;;
  get_synced_topoheight env;;
  get_top_block_hash env;;
  hash_from_hex tx_hash.

(** One step of a call: the code up to and including its next critical section or
    its next call outside. *)
Definition exec (t : call_pc) (s : Slots) : option (list event * Slots * call_pc) :=
  let goto t := Some ([], s, t) in
  match t with
  | PrepareBegin env request policy =>
      match apply_fee_policy 0 policy with
      | Err e => goto (Done (Prepared (Err e)))
      | Ok _ => begin_prepare env (plan_of env request policy) s
      end
  | SetupCheck env threshold participants policy =>
      goto match setup_checks env threshold participants policy with
           | Ok addresses => SetupBegin env threshold addresses policy
           | Err e => Done (Prepared (Err e))
           end
  | SetupBegin env threshold addresses policy =>
      begin_prepare (base_env env) (plan_setup env threshold addresses policy) s
  | PrepareBuild env planned g =>
      goto match build env planned with
           | Ok (prepared, kind) => PrepareCommit g prepared kind
           | Err e => PrepareAbandon g e
           end
  | PrepareAbandon g e =>
      on_slot (Slot.ODropPreparation g) s (λ _, Some (Done (Prepared (Err e))))
  | PrepareCommit g prepared kind =>
      let tx := pw_transaction prepared in
      on_slot (Slot.OCommit g (Transactions.tx_hash tx) prepared) s (λ r, match r with
        | Slot.RGeneration (Ok preparation_id) => Some (Done (Prepared (Ok
            {| p_hash := hash_to_hex (Transactions.tx_hash tx); p_preparation_id := preparation_id;
               p_fee := tx_get_fee tx; p_transaction := kind |})))
        | Slot.RGeneration (Err e) => Some (Done (Prepared (Err (prepared_transaction_error e))))
        | _ => None
        end)
  | CreateLegacy env request =>
      goto match legacy_type env request with
           | Ok transaction_type => StoreLegacy env transaction_type
           | Err e => Done (Stored (Err e))
           end
  | InspectExact preparation_id tx_hash transfer_index =>
      goto (Done (Inspected (inspect preparation_id tx_hash transfer_index s)))
  | StoreLegacy env transaction_type =>
      match create_transaction_with_storage env transaction_type FeeDefault with
      | Err e => goto (Done (Stored (Err e)))
      | Ok (tx, st) =>
          let hash := Transactions.tx_hash tx in
          on_slot (Slot.OReplace hash (without_review_extra_data tx st)) s (λ r, match r with
            | Slot.RGeneration (Ok _) =>
                Some (Done (Stored (Ok (transaction_summary_json hash (tx_get_fee tx) transaction_type))))
            | Slot.RGeneration (Err e) => Some (Done (Stored (Err (prepared_anyhow e))))
            | _ => None
            end)
      end
  | CancelExact preparation_id tx_hash =>
      match parse_prepared_hash tx_hash with
      | Err e => goto (Done (Cancelled (Err e)))
      | Ok hash =>
          on_slot (Slot.OCancelExact preparation_id hash) s (λ r, match r with
            | Slot.RTransaction (Ok _) => Some (Done (Cancelled (Ok tt)))
            | Slot.RTransaction (Err e) => Some (Done (Cancelled (Err (prepared_transaction_error e))))
            | _ => None
            end)
      end
  | ClearLegacy tx_hash =>
      match hash_from_hex tx_hash with
      | Err e => goto (Done (Cleared (Err e)))
      | Ok hash =>
          on_slot (Slot.OCancel hash) s (λ r, match r with
            | Slot.RTransaction (Ok p) => Some (Done (Cleared (Ok (pw_transaction p, pw_state p))))
            | Slot.RTransaction (Err e) => Some (Done (Cleared (Err (prepared_anyhow e))))
            | _ => None
            end)
      end
  | BroadcastCheck env preparation_id tx_hash =>
      goto match parse_prepared_hash tx_hash with
           | Err e => Done (Broadcast (Err e))
           | Ok hash => if negb (is_online env) then BroadcastOffline preparation_id hash
                        else BroadcastTake env preparation_id hash
           end
  | BroadcastOffline preparation_id hash =>
      goto (Done (Broadcast
        match (Slot.ensure_ready_exact preparation_id hash (Slot.store s)).1 with
        | Ok _ => Ok (BRetryable (from_wallet_error WNotOnlineMode))
        | Err e => Err (prepared_transaction_error e)
        end))
  | BroadcastTake env preparation_id hash =>
      on_slot (Slot.OTakeExact preparation_id hash) s (λ r, match r with
        | Slot.RTaken (Ok (g, prepared)) => Some (BroadcastRead env g prepared)
        | Slot.RTaken (Err e) => Some (Done (slot_failure Stable e))
        | _ => None
        end)
  | BroadcastRead env g prepared =>
      goto match stable_reads env with
           | Ok _ => Submit Stable env g prepared
           | Err e => BroadcastGiveUp g prepared e
           end
  | BroadcastGiveUp g _ e =>
      on_slot (Slot.ODropSubmission g) s (λ _, Some (Done (Broadcast (Err e))))
  | LegacyCheck env tx_hash =>
      goto match legacy_checks env tx_hash with
           | Ok hash => LegacyTake env hash
           | Err e => Done (LegacyBroadcast (Err e))
           end
  | LegacyTake env hash =>
      on_slot (Slot.OTake hash) s (λ r, match r with
        | Slot.RTaken (Ok (g, prepared)) => Some (Submit Legacy env g prepared)
        | Slot.RTaken (Err e) => Some (Done (slot_failure Legacy e))
        | _ => None
        end)
  | Submit a env g prepared =>
      Some ([Sent g (pw_transaction prepared)], s, Settle a env g prepared)
  | Settle a env g prepared =>
      let finish next := on_slot (Slot.OFinish g) s (λ r, match r with
        | Slot.RTransaction (Ok finished) => Some (next finished)
        | Slot.RTransaction (Err e) => Some (Done (slot_failure a e))
        | _ => None
        end) in
      match resolve_submission (submit_transaction env (pw_transaction prepared)) with
      | ResSubmitted => finish (Apply a env)
      | ResRetryable error =>
          on_slot (Slot.ORestore g) s (λ r, match r with
            | Slot.RUnit (Ok _) => Some (Clear (retryable a error))
            | Slot.RUnit (Err e) => Some (Done (slot_failure a e))
            | _ => None
            end)
      | ResDaemonRejected error => finish (λ _, Clear (rejected a error))
      | ResLocalFailure error => finish (λ _, Clear (local_failure a error))
      end
  | Apply a env prepared =>
      let tx := pw_transaction prepared in
      let r := apply_changes env (pw_state prepared) tx in
      Some (Applied tx :: (if is_ok r then [] else [ClearedUnconfirmed]), s, Done (applied a r))
  | Clear ans => Some ([ClearedUnconfirmed], s, Done ans)
  | Done _ => None
  end.

(** ** Interleaved calls *)

Record System : Type := mkSystem { slot : Slots; calls : list call_pc; trace : list event }.

(** The guards that a call owns. *)
Definition preparation_of (t : call_pc) : option Z :=
  match t with
  | PrepareBuild _ _ g | PrepareAbandon g _ | PrepareCommit g _ _ => Some g
  | _ => None
  end.
Definition submission_of (t : call_pc) : option (Z * PreparedWalletTransaction) :=
  match t with
  | BroadcastRead _ g prepared | BroadcastGiveUp g prepared _ | Submit _ _ g prepared
  | Settle _ _ g prepared => Some (g, prepared)
  | _ => None
  end.

(** A call is dropped where it waits for the storage or the daemon; its guards
    are dropped with it. *)
Definition abort (t : call_pc) (s : Slots) : option (list event * Slots * call_pc) :=
  match t with
  | PrepareBuild _ _ g => on_slot (Slot.ODropPreparation g) s (λ _, Some (Done Dropped))
  | BroadcastRead _ g _ | Settle _ _ g _ =>
      on_slot (Slot.ODropSubmission g) s (λ _, Some (Done Dropped))
  | SetupCheck _ _ _ _ | CreateLegacy _ _ | StoreLegacy _ _ | BroadcastCheck _ _ _
  | LegacyCheck _ _ | Apply _ _ _ | Clear _ => Some ([], s, Done Dropped)
  | _ => None
  end.

Definition initial (t : call_pc) : bool :=
  match t with
  | PrepareBegin _ _ _ | SetupCheck _ _ _ _ | CreateLegacy _ _ | InspectExact _ _ _
  | CancelExact _ _ | ClearLegacy _ | BroadcastCheck _ _ _ | LegacyCheck _ _ => true
  | _ => false
  end.

(** What the finalization of a multisig request does to the slot. *)
Definition finalizing (o : slot_op) : Prop :=
  match o with
  | Slot.OBegin | Slot.ODropPreparation _ => True
  | Slot.OCommit _ h p => h = Transactions.tx_hash (pw_transaction p)
  | _ => False
  end.
#[global] Instance finalizing_dec o : Decision (finalizing o).
Proof. destruct o; cbn; apply _. Defined.

(** A call is made, makes a step or is dropped; or a multisig request is being
    finalized, which never consumes the guard of one of these calls. *)
Inductive label : Type :=
  | Make (t : call_pc)
  | Run (i : nat)
  | Abort (i : nat)
  | Use (o : slot_op).

Definition advance (f : call_pc → Slots → option (list event * Slots * call_pc)) (i : nat)
    (y : System) : option System :=
  t ← calls y !! i;
  '(evs, s, t') ← f t (slot y);
  Some (mkSystem s (<[i := t']> (calls y)) (trace y ++ evs)).

Definition step (y : System) (l : label) : option System :=
  match l with
  | Make t => if initial t then Some (mkSystem (slot y) (calls y ++ [t]) (trace y)) else None
  | Run i => advance exec i y
  | Abort i => advance abort i y
  | Use o =>
      if bool_decide (finalizing o ∧
                      Forall (λ t, preparation_of t = None ∨ preparation_of t ≠ Slot.consumes o) (calls y))
      then '(r, s) ← Slot.exec (slot y) o; Some (mkSystem s (calls y) (trace y ++ [OnSlot o r]))
      else None
  end.

Definition started : System := mkSystem Slot.system_init [] [].
Definition reached : System → Prop := reaches step started.

(** The part of the slot in what happened. *)
Definition slot_trace : list event → list (slot_op * slot_response) := omap slot_part.

(** ** The steps of one call *)

Abbreviation active s := (Slot.active_preparation (Slot.store s)).

(** A transaction is put into the slot under its own hash. *)
Definition named (o : slot_op) : Prop :=
  match o with
  | Slot.OCommit _ h p | Slot.OReplace h p => h = Transactions.tx_hash (pw_transaction p)
  | _ => True
  end.

(** What a step may do: one operation of the slot, which consumes no guard but
    those of the call; or nothing to the slot, and then it sends at most the
    transaction that the call holds in flight. *)
Inductive move (t : call_pc) (s : Slots) : list event → Slots → Prop :=
  | move_slot o r s' :
      Slot.exec s o = Some (r, s') → named o →
      (Slot.consumes o = None ∨ Slot.consumes o = preparation_of t) →
      (Slot.consumes_submission o = None ∨ Slot.consumes_submission o = fst <$> submission_of t) →
      move t s [OnSlot o r] s'
  | move_out evs :
      omap slot_part evs = [] →
      (∀ g tx, Sent g tx ∈ evs → evs = [Sent g tx] ∧
         ∃ p, submission_of t = Some (g, p) ∧ pw_transaction p = tx) →
      move t s evs s.

(** The guards of a call after a step: those it had, or a new one that nobody had. *)
Definition keeps (t : call_pc) (s : Slots) (t' : call_pc) (s' : Slots) : Prop :=
  (∀ g, preparation_of t' = Some g →
     preparation_of t = Some g ∧ s' = s ∨ active s = None ∧ active s' = Some g) ∧
  (∀ g p, submission_of t' = Some (g, p) →
     submission_of t = Some (g, p) ∧ s' = s ∨
     Slot.submissions s = [] ∧ ∃ h, Slot.submissions s' = [Slot.mkGuard g h (Some p)]).

Lemma on_slot_move t s o next evs s' t' :
  on_slot o s next = Some (evs, s', t') → named o →
  (Slot.consumes o = None ∨ Slot.consumes o = preparation_of t) →
  (Slot.consumes_submission o = None ∨ Slot.consumes_submission o = fst <$> submission_of t) →
  move t s evs s' ∧ ∃ r, Slot.exec s o = Some (r, s') ∧ next r = Some t'.
Proof.
  unfold on_slot. intros Hx ? ? ?. apply bind_Some in Hx as ([r s1] & He & Hx).
  apply bind_Some in Hx as (t1 & Ht & [= <- <- <-]). split; [by econstructor|by eauto].
Qed.

Lemma out_move t s : move t s [] s.
Proof. apply move_out; [done|]. intros g tx Hin. by apply elem_of_nil in Hin. Qed.

(** A step that leaves the guards of the call and the slot alone. *)
Ltac stays := split; [apply out_move|split; intros; cbn in *; simplify_eq; by auto].
(** A step on the slot after which the call has no guard. *)
Ltac releases Hx :=
  let r := fresh "r" in let Hm := fresh "Hm" in let He := fresh "He" in let Hn := fresh "Hn" in
  match goal with |- move ?t _ _ _ ∧ _ =>
    apply (on_slot_move t) in Hx as [Hm (r & He & Hn)]; [|done|by cbn; auto|by cbn; auto]
  end;
  split; [exact Hm|]; repeat (case_match; try done); simplify_eq; split; intros; by cbn in *.

Lemma taken_keeps t s t' s' o r g p :
  Slot.shape s → Slot.exec s o = Some (r, s') → r = Slot.RTaken (Ok (g, p)) →
  preparation_of t' = None → submission_of t' = Some (g, p) → keeps t s t' s'.
Proof.
  intros Hs He Hr Hp Hsub. destruct (Slot.taken_inflight s o r s' g p Hs He Hr) as (Hno & h & Hin).
  split; [by rewrite Hp|]. intros g' p'. rewrite Hsub. intros [= <- <-]. by eauto.
Qed.

Lemma begin_move t env planned s evs s' t' :
  Slot.shape s → preparation_of t = None → submission_of t = None →
  begin_prepare env planned s = Some (evs, s', t') → move t s evs s' ∧ keeps t s t' s'.
Proof.
  intros Hs Hp Hsub Hx. apply (on_slot_move t) in Hx as [Hm (r & He & Hn)]; [|done|by auto|by auto].
  split; [exact Hm|]. cbn in He. injection He as He.
  destruct (Slot.begin_prepared s Hs) as [[e Hb]|(Ha & g & s1 & Hb & _ & Hg & _)];
    rewrite Hb in He; simplify_eq; split; intros; cbn in *; simplify_eq; by auto.
Qed.

Lemma exec_move t s evs s' t' :
  Slot.shape s → exec t s = Some (evs, s', t') → move t s evs s' ∧ keeps t s t' s'.
Proof.
  intros Hs Hx. destruct t as [env rq pol|env th ps pol|env th ads pol|env pl g|g e|g p k|env rq|env tt
    |id h n|id h|h|env id h|id h|env id h
    |env g p|g p e|env h|env h|a env g p|a env g p|a env p|ans|ans]; cbn [exec] in Hx.
  - destruct (apply_fee_policy 0 pol); [|simplify_eq; stays]. by eapply begin_move.
  - simplify_eq. destruct (setup_checks env th ps pol); stays.
  - by eapply begin_move.
  - simplify_eq. destruct (build env pl) as [[p k]|e]; stays.
  - releases Hx.
  - releases Hx.
  - simplify_eq. destruct (legacy_type env rq); stays.
  - destruct (create_transaction_with_storage env tt FeeDefault) as [[tx st]|e]; [|simplify_eq; stays].
    releases Hx.
  - simplify_eq. stays.
  - destruct (parse_prepared_hash h); [|simplify_eq; stays]. releases Hx.
  - destruct (hash_from_hex h); [|simplify_eq; stays]. releases Hx.
  - simplify_eq. destruct (parse_prepared_hash h); [destruct (negb (is_online env))|]; stays.
  - simplify_eq. stays.
  - apply (on_slot_move (BroadcastTake env id h)) in Hx as [Hm (r & He & Hn)]; [|done|by auto|by auto].
    split; [exact Hm|]. destruct r as [| |[[g p]|e]|]; simplify_eq; [by eapply taken_keeps|].
    split; intros; by cbn in *.
  - simplify_eq. destruct (stable_reads env); stays.
  - releases Hx.
  - simplify_eq. destruct (legacy_checks env h); stays.
  - apply (on_slot_move (LegacyTake env h)) in Hx as [Hm (r & He & Hn)]; [|done|by auto|by auto].
    split; [exact Hm|]. destruct r as [| |[[g p]|e]|]; simplify_eq; [by eapply taken_keeps|].
    split; intros; by cbn in *.
  - simplify_eq. split; [|split; intros; cbn in *; simplify_eq; by auto].
    apply move_out; [done|]. intros g' tx [= -> ->]%list_elem_of_singleton. by eauto.
  - destruct (resolve_submission _); releases Hx.
  - simplify_eq. split; [|split; intros; by cbn in *]. apply move_out.
    + by destruct (is_ok _).
    + intros g tx Hin. exfalso. destruct (is_ok _); set_solver.
  - simplify_eq. split; [|split; intros; by cbn in *]. apply move_out; [done|]. set_solver.
  - done.
Qed.

Lemma abort_move t s evs s' t' :
  Slot.shape s → abort t s = Some (evs, s', t') → move t s evs s' ∧ keeps t s t' s'.
Proof.
  intros Hs Hx. destruct t; cbn [abort] in Hx; try done; try (simplify_eq; stays); releases Hx.
Qed.

(** A submission's guard after a step is that of the call, or it was there before
    and belongs to another one. *)
Definition owned (t : call_pc) (s : Slots) (t' : call_pc) (s' : Slots) : Prop :=
  ∀ G, Slot.submissions s' = [G] →
    is_Some (submission_of t') ∨ Slot.submissions s = [G] ∧ submission_of t = None.

Lemma owned_same t s t' : (is_Some (submission_of t) → is_Some (submission_of t')) → owned t s t' s.
Proof. intros Ht G HG. destruct (submission_of t) as [x|]; [left; by apply Ht|by right]. Qed.

(** An operation of a call without such a guard. *)
Lemma owned_other t s o r s' t' :
  Slot.shape s → Slot.exec s o = Some (r, s') → submission_of t = None →
  (∀ g p, r = Slot.RTaken (Ok (g, p)) → is_Some (submission_of t')) → owned t s t' s'.
Proof.
  intros Hs He Ht Hr G HG.
  destruct (Slot.submissions_from s o r s' G Hs He HG) as [(p & -> & _)|[HG' _]]; [left; by eapply Hr|by right].
Qed.

(** An operation that consumes the guard. *)
Lemma owned_consumed t s o r s' t' g h p :
  Slot.shape s → Slot.exec s o = Some (r, s') → Slot.submissions s = [Slot.mkGuard g h (Some p)] →
  Slot.consumes_submission o = Some g → owned t s t' s'.
Proof.
  intros Hs He Hg Hc G HG.
  destruct (Slot.submissions_from s o r s' G Hs He HG) as [(q & _ & Hn)|[HG' Hn]]; [congruence|].
  rewrite Hg in HG'. by injection HG' as <-.
Qed.

Ltac other Hs Hx :=
  let r := fresh "r" in let He := fresh "He" in let Hn := fresh "Hn" in
  apply bind_Some in Hx as ([r ?] & He & Hx); apply bind_Some in Hx as (? & Hn & [= <- <- <-]);
  apply (owned_other _ _ _ _ _ _ Hs He); [done|];
  intros ? ? ->; first [by simplify_eq|by apply bind_Some in He as ([? ?] & _ & [=])].
Ltac consumed Hs Hx Hsub :=
  let He := fresh "He" in let h := fresh "h" in let Hh := fresh "Hh" in
  apply bind_Some in Hx as ([? ?] & He & Hx); apply bind_Some in Hx as (? & _ & [= <- <- <-]);
  destruct (Hsub _ _ eq_refl) as [h Hh]; by eapply (owned_consumed _ _ _ _ _ _ _ _ _ Hs He Hh).

Lemma exec_owned t s evs s' t' :
  Slot.shape s →
  (∀ g p, submission_of t = Some (g, p) → ∃ h, Slot.submissions s = [Slot.mkGuard g h (Some p)]) →
  exec t s = Some (evs, s', t') → owned t s t' s'.
Proof.
  intros Hs Hsub Hx. destruct t; cbn [exec] in Hx; unfold begin_prepare, on_slot in Hx;
    repeat match type of Hx with
      | match ?x with _ => _ end = Some _ => destruct x as [?|?] || destruct x
      end; try done; try (other Hs Hx); try (consumed Hs Hx Hsub);
    simplify_eq; apply owned_same; cbn; intros [? [=]].
  all: by repeat case_match.
Qed.

Lemma abort_owned t s evs s' t' :
  Slot.shape s →
  (∀ g p, submission_of t = Some (g, p) → ∃ h, Slot.submissions s = [Slot.mkGuard g h (Some p)]) →
  abort t s = Some (evs, s', t') → owned t s t' s'.
Proof.
  intros Hs Hsub Hx. destruct t; cbn [abort] in Hx; unfold on_slot in Hx; try done;
    try (other Hs Hx); try (consumed Hs Hx Hsub);
    simplify_eq; apply owned_same; cbn; by intros [? [=]].
Qed.

(** ** Every interleaving *)

(** The slot after [tr] has the transaction [tx] in flight under [g]. *)
Definition in_flight (tr : list event) (g : Z) (tx : Transaction) : Prop :=
  ∃ s h p, Slot.reaches (slot_trace tr) s ∧ Slot.submissions s = [Slot.mkGuard g h (Some p)] ∧
    pw_transaction p = tx.

Record ok (y : System) : Prop := {
  ok_reach : Slot.reaches (slot_trace (trace y)) (slot y);
  ok_prep i t g : calls y !! i = Some t → preparation_of t = Some g → active (slot y) = Some g;
  ok_prep_one i j t u : calls y !! i = Some t → calls y !! j = Some u →
    is_Some (preparation_of t) → is_Some (preparation_of u) → i = j;
  ok_sub i t g p : calls y !! i = Some t → submission_of t = Some (g, p) →
    ∃ h, Slot.submissions (slot y) = [Slot.mkGuard g h (Some p)];
  ok_sub_one i j t u : calls y !! i = Some t → calls y !! j = Some u →
    is_Some (submission_of t) → is_Some (submission_of u) → i = j;
  ok_owner G : Slot.submissions (slot y) = [G] →
    ∃ i t, calls y !! i = Some t ∧ is_Some (submission_of t);
  ok_sent pre g tx post : trace y = pre ++ Sent g tx :: post → in_flight pre g tx;
  ok_named o r : OnSlot o r ∈ trace y → named o
}.

(** What a step does to the slot extends its trace. *)
Lemma move_reach t s evs s' tr :
  Slot.reaches (slot_trace tr) s → move t s evs s' → Slot.reaches (slot_trace (tr ++ evs)) s'.
Proof.
  unfold slot_trace. intros Hr Hm. rewrite omap_app. destruct Hm as [o r s' He|evs Hn].
  - cbn. by eapply (reachable_step _ _ s (o, r)).
  - by rewrite Hn, app_nil_r.
Qed.

(** Guards of others survive the step. *)
Lemma move_prep t s evs s' g :
  Slot.shape s → move t s evs s' → active s = Some g → preparation_of t ≠ Some g →
  active s' = Some g.
Proof.
  intros Hs [o r s1 He _ Hc _|? _ _] Ha Ht; [|done].
  eapply Slot.use_keeps_preparation; [done..|]. destruct Hc as [-> | ->]; [done|exact Ht].
Qed.
Lemma move_sub t s evs s' g h p :
  Slot.shape s → move t s evs s' → Slot.submissions s = [Slot.mkGuard g h (Some p)] →
  submission_of t = None → Slot.submissions s' = [Slot.mkGuard g h (Some p)].
Proof.
  intros Hs [o r s1 He _ _ Hc|? _ _] Ha Ht; [|done].
  eapply Slot.use_keeps_submission; [done..|]. rewrite Ht in Hc. destruct Hc as [-> | ->]; done.
Qed.

Lemma sent_snoc tr evs :
  (∀ pre g tx post, tr = pre ++ Sent g tx :: post → in_flight pre g tx) →
  (∀ g tx, Sent g tx ∈ evs → evs = [Sent g tx] ∧ in_flight tr g tx) →
  ∀ pre g tx post, tr ++ evs = pre ++ Sent g tx :: post → in_flight pre g tx.
Proof.
  intros Htr Hev pre g tx post Heq. apply app_eq_inv in Heq as [(k & Hk & Heq)|(k & Hk & Heq)].
  - destruct k as [|e k]; cbn in Hk; simplify_eq/=.
    + rewrite app_nil_r in *. destruct (Hev g tx) as [_ Hf]; [by left|]. exact Hf.
    + by eapply Htr.
  - destruct (Hev g tx) as [He Hf]; [subst evs; apply elem_of_app; right; by left|].
    rewrite He in Heq. destruct k as [|e k]; cbn in Heq; simplify_eq/=; [by rewrite app_nil_r|].
    by destruct k.
Qed.

Lemma move_named t s evs s' o r : move t s evs s' → OnSlot o r ∈ evs → named o.
Proof.
  intros [o' r' s1 _ Hn _ _|? Hno _] Hin.
  - by apply list_elem_of_singleton in Hin as [= -> ->].
  - exfalso. assert ((o, r) ∈ omap slot_part evs0) as Ho; [|rewrite Hno in Ho; by apply elem_of_nil in Ho].
    apply list_elem_of_omap. by eexists.
Qed.

Lemma move_sent t s evs s' tr g tx :
  move t s evs s' → Sent g tx ∈ evs →
  (∀ p, submission_of t = Some (g, p) → pw_transaction p = tx → in_flight tr g tx) →
  evs = [Sent g tx] ∧ in_flight tr g tx.
Proof.
  intros [o' r' s1 _ _ _ _|evs0 _ Hs] Hin Hf; [by apply list_elem_of_singleton in Hin|].
  destruct (Hs _ _ Hin) as (-> & p & Hp & Htx). by eauto.
Qed.

Lemma ok_advance f i y y' :
  (∀ t s evs s' t', Slot.shape s → f t s = Some (evs, s', t') → move t s evs s' ∧ keeps t s t' s') →
  (∀ t s evs s' t', Slot.shape s →
     (∀ g p, submission_of t = Some (g, p) → ∃ h, Slot.submissions s = [Slot.mkGuard g h (Some p)]) →
     f t s = Some (evs, s', t') → owned t s t' s') →
  ok y → advance f i y = Some y' → ok y'.
Proof.
  intros Hf Hfo Hok Hx. unfold advance in Hx.
  apply bind_Some in Hx as (t & Ht & Hx). apply bind_Some in Hx as ([[evs s] t'] & Hx & [= <-]).
  pose proof (Slot.reaches_shape _ _ (ok_reach _ Hok)) as Hs.
  destruct (Hf _ _ _ _ _ Hs Hx) as [Hm [Hkp Hks]].
  assert (∀ j u, j ≠ i → calls y !! j = Some u → is_Some (preparation_of u) → preparation_of t = None) as Hop.
  { intros j u Hj Hu Hg. apply eq_None_not_Some. intros Hti. by destruct Hj; eapply ok_prep_one. }
  assert (∀ j u, j ≠ i → calls y !! j = Some u → is_Some (submission_of u) → submission_of t = None) as Hos.
  { intros j u Hj Hu Hg. apply eq_None_not_Some. intros Hti. by destruct Hj; eapply ok_sub_one. }
  constructor; cbn.
  - by eapply move_reach; [apply Hok|].
  - intros j u g Hj Hu. apply list_lookup_insert_Some in Hj as [(-> & -> & _)|[Hj Hju]].
    + destruct (Hkp g Hu) as [[Hg ->]|[_ Ha]]; [by eapply ok_prep|done].
    + eapply move_prep; [done..|by eapply ok_prep|]. by rewrite (Hop j u (not_eq_sym Hj) Hju ltac:(by eexists)).
  - intros j k u v Hj Hk Hu Hv.
    assert (∀ l w, l ≠ i → calls y !! l = Some w → is_Some (preparation_of w) →
              is_Some (preparation_of t') → False) as Hno.
    { intros l w Hl Hw [g Hg] [g' Hg']. pose proof (ok_prep _ Hok _ _ _ Hw Hg) as Ha.
      pose proof (Hop l w Hl Hw ltac:(by eexists)) as Hn.
      destruct (Hkp _ Hg') as [[? _]|[? _]]; congruence. }
    apply list_lookup_insert_Some in Hj as [(-> & -> & _)|[Hj Hju]];
      apply list_lookup_insert_Some in Hk as [(-> & -> & _)|[Hk Hkv]];
      [done|exfalso; by eapply (Hno k)|exfalso; by eapply (Hno j)|by eapply ok_prep_one].
  - intros j u g p Hj Hu. apply list_lookup_insert_Some in Hj as [(-> & -> & _)|[Hj Hju]].
    + destruct (Hks g p Hu) as [[Hg ->]|[_ Ha]]; [by eapply ok_sub|done].
    + destruct (ok_sub _ Hok _ _ _ _ Hju Hu) as [h Hh]. exists h.
      eapply move_sub; [done..|]. exact (Hos j u (not_eq_sym Hj) Hju ltac:(by eexists)).
  - intros j k u v Hj Hk Hu Hv.
    assert (∀ l w, l ≠ i → calls y !! l = Some w → is_Some (submission_of w) →
              is_Some (submission_of t') → False) as Hno.
    { intros l w Hl Hw [[g p] Hg] [[g' p'] Hg']. destruct (ok_sub _ Hok _ _ _ _ Hw Hg) as [h Ha].
      pose proof (Hos l w Hl Hw ltac:(by eexists)) as Hn.
      destruct (Hks _ _ Hg') as [[? _]|[? _]]; congruence. }
    apply list_lookup_insert_Some in Hj as [(-> & -> & _)|[Hj Hju]];
      apply list_lookup_insert_Some in Hk as [(-> & -> & _)|[Hk Hkv]];
      [done|exfalso; by eapply (Hno k)|exfalso; by eapply (Hno j)|by eapply ok_sub_one].
  - intros G HG. destruct (Hfo _ _ _ _ _ Hs (λ g p, ok_sub _ Hok i t g p Ht) Hx G HG) as [Ho|[HG' Hn]].
    + exists i, t'. split; [|done]. apply list_lookup_insert_eq. by eapply lookup_lt_Some.
    + destruct (ok_owner _ Hok G HG') as (j & u & Hj & Hu). exists j, u. split; [|done].
      rewrite list_lookup_insert_ne; [done|]. intros ->. rewrite Hj in Ht. injection Ht as ->.
      rewrite Hn in Hu. by destruct Hu.
  - apply sent_snoc; [apply Hok|]. intros g tx Hin. eapply move_sent; [done..|].
    intros p Hp Htx. destruct (ok_sub _ Hok _ _ _ _ Ht Hp) as [h Hh]. do 3 eexists.
    split; [apply Hok|]. by eauto.
  - intros o r [Hin|Hin]%elem_of_app; [by eapply ok_named|by eapply move_named].
Qed.

(** A new call owns no guard. *)
Lemma lookup_new {B} (f : call_pc → option B) ts t i u :
  f t = None → (ts ++ [t]) !! i = Some u → is_Some (f u) → ts !! i = Some u.
Proof.
  intros Ht [Hi|[_ Hi]]%lookup_app_Some [g Hu]; [done|].
  apply list_lookup_singleton_Some in Hi as [_ <-]. congruence.
Qed.

Lemma ok_make t y : ok y → initial t = true → ok (mkSystem (slot y) (calls y ++ [t]) (trace y)).
Proof.
  intros [Hr Hp Hp1 Hs Hs1 Ho Hse Hn] Ht.
  assert (preparation_of t = None ∧ submission_of t = None) as [Hpt Hst] by (by destruct t).
  constructor; cbn; [done| | | | | |done|done].
  - intros i u g Hi Hu. eapply Hp; [|done]. by eapply (lookup_new preparation_of).
  - intros i j u v Hi Hj Hu Hv. eapply Hp1; [| |exact Hu|exact Hv]; by eapply (lookup_new preparation_of).
  - intros i u g p Hi Hu. eapply Hs; [|done]. by eapply (lookup_new submission_of).
  - intros i j u v Hi Hj Hu Hv. eapply Hs1; [| |exact Hu|exact Hv]; by eapply (lookup_new submission_of).
  - intros G HG. destruct (Ho G HG) as (i & u & Hi & Hu). exists i, u. split; [|done].
    by apply lookup_app_l_Some.
Qed.

(** A finalization never takes a transaction for submission. *)
Lemma finalizing_takes_nothing o s g p s' :
  finalizing o → Slot.exec s o = Some (Slot.RTaken (Ok (g, p)), s') → False.
Proof.
  destruct o; try done; intros _ He; cbn in He.
  - unfold Slot.exec_begin in He. by destruct (Slot.preparation_begin _) as [[]].
  - apply bind_Some in He as ([? ?] & _ & He). by destruct (Slot.preparation_commit _ _ _ _).
  - by apply bind_Some in He as ([? ?] & _ & [=]).
Qed.

Lemma ok_use o y r s :
  ok y → finalizing o →
  Forall (λ t, preparation_of t = None ∨ preparation_of t ≠ Slot.consumes o) (calls y) →
  Slot.exec (slot y) o = Some (r, s) → ok (mkSystem s (calls y) (trace y ++ [OnSlot o r])).
Proof.
  intros [Hr Hp Hp1 Hs Hs1 Ho Hse Hn] Hfo Hown He.
  pose proof (Slot.reaches_shape _ _ Hr) as Hsh. constructor; cbn; [| |done| |done| | |].
  - unfold slot_trace. rewrite omap_app. by eapply (reachable_step _ _ (slot y) (o, r)).
  - intros i t g Hi Ht. eapply Slot.use_keeps_preparation; [done..|by eapply Hp|].
    rewrite Forall_forall in Hown. specialize (Hown t (list_elem_of_lookup_2 _ _ _ Hi)).
    rewrite Ht in Hown. intros Hc. destruct Hown; congruence.
  - intros i t g p Hi Ht. destruct (Hs _ _ _ _ Hi Ht) as [h Hh]. exists h.
    eapply Slot.use_keeps_submission; [done..|]. by destruct o.
  - intros G HG. destruct (Slot.submissions_from _ _ _ _ G Hsh He HG) as [(p & -> & _)|[HG' _]]; [|by eapply Ho].
    by destruct (finalizing_takes_nothing _ _ _ _ _ Hfo He).
  - apply sent_snoc; [done|]. intros g tx Hin. by apply list_elem_of_singleton in Hin.
  - intros o' r' [Hin|Hin]%elem_of_app; [by eapply Hn|].
    apply list_elem_of_singleton in Hin as [= -> ->]. by destruct o.
Qed.

Lemma ok_step y l y' : ok y → step y l = Some y' → ok y'.
Proof.
  intros Hok Hx. destruct l as [t|i|i|o]; cbn in Hx.
  - destruct (initial t) eqn:Ht; [|done]. injection Hx as <-. by apply ok_make.
  - eapply ok_advance; [intros; by eapply exec_move|intros; by eapply exec_owned|done..].
  - eapply ok_advance; [intros; by eapply abort_move|intros; by eapply abort_owned|done..].
  - case_bool_decide as Hc; [|done]. apply bind_Some in Hx as ([r s] & Hx & [= <-]).
    destruct Hc. by apply ok_use.
Qed.

Lemma spending_ok y : reached y → ok y.
Proof.
  intros [tr Htr]. revert tr y Htr. apply reachable_invariant; [|by intros; eapply ok_step].
  intros y ->. constructor; cbn; try done.
  - by constructor.
  - intros [] ? ? ? ?; by simplify_eq/=.
  - intros ? ? Hin. by apply elem_of_nil in Hin.
Qed.

(** ** Theorems *)

(** Claim C4 (safety): a transaction leaves the wallet only if it is the one that
    was put into the slot last, exactly as it was put there, under the same
    capability and hash, and was neither finished, cancelled nor replaced since:
    nothing is sent after its final outcome or its cancellation, whatever races. *)
Theorem sent_is_latest y pre g tx post :
  reached y → trace y = pre ++ Sent g tx :: post →
  ∃ tr1 l tr2 p, slot_trace pre = tr1 ++ l :: tr2 ∧
    Slot.puts l = Some (g, Transactions.tx_hash tx, p) ∧ pw_transaction p = tx ∧
    ∀ l', l' ∈ tr2 → Slot.puts l' = None ∧ Slot.empties l' = false.
Proof.
  intros Hy%spending_ok Htr. destruct (ok_sent _ Hy _ _ _ _ Htr) as (s & h & p & Hr & Hg & <-).
  destruct (Slot.inflight_content s g h p (Slot.reaches_shape _ _ Hr) Hg) as [Hc _].
  destruct (Slot.content_latest _ _ _ Hr Hc) as (tr1 & [o r] & tr2 & Heq & Hp & Hlast).
  exists tr1, (o, r), tr2, p. split_and!; [done| |done|done]. rewrite Hp.
  assert (named o) as Hn.
  { eapply (ok_named _ Hy o r). rewrite Htr. apply elem_of_app. left.
    assert ((o, r) ∈ slot_trace pre) as Hin by (rewrite Heq; apply elem_of_app; right; by left).
    apply list_elem_of_omap in Hin as ([o' r'| | |] & Hin & Hsome); by simplify_eq/=. }
  destruct o; try done; cbn in Hp, Hn; repeat (case_match; try done); by simplify_eq.
Qed.

(** Claim C6 (invariant): in every race the slot is in flight exactly while one
    call holds that very transaction: no second call does, and no call is
    preparing another one.  A call that ends, by an answer or because it is
    dropped, never leaves the slot in flight behind it. *)
Theorem in_flight_owned y :
  reached y →
  match Slot.state (Slot.store (slot y)) with
  | Slot.InFlight g h =>
      (∃ i t p, calls y !! i = Some t ∧ submission_of t = Some (g, p) ∧
         Slot.content (slot y) = Some (g, h, p) ∧
         ∀ j u, calls y !! j = Some u → is_Some (submission_of u) → j = i) ∧
      (∀ u, u ∈ calls y → preparation_of u = None)
  | _ => ∀ u, u ∈ calls y → submission_of u = None
  end.
Proof.
  intros Hy%spending_ok. pose proof (Slot.reaches_shape _ _ (ok_reach _ Hy)) as Hs.
  assert (Slot.submissions (slot y) = [] → ∀ u, u ∈ calls y → submission_of u = None) as Hnone.
  { intros Hno u [j Hj]%list_elem_of_lookup. apply eq_None_not_Some. intros [[g p] Hu].
    destruct (ok_sub _ Hy _ _ _ _ Hj Hu) as [h Hh]. by rewrite Hno in Hh. }
  pose proof (Slot.inflight_guarded _ Hs) as Hg.
  destruct (Slot.state _) as [|g h p|g h]; [by apply Hnone..|].
  destruct Hg as (p & Hg & Hc). destruct (Slot.inflight_content _ _ _ _ Hs Hg) as (_ & _ & Ha).
  split.
  - destruct (ok_owner _ Hy _ Hg) as (i & t & Hi & [[g' p'] Ht]). exists i, t, p.
    destruct (ok_sub _ Hy _ _ _ _ Hi Ht) as [h' Hh]. rewrite Hg in Hh. injection Hh as -> -> ->.
    split_and!; [done..|]. intros j u Hj Hu. by eapply ok_sub_one.
  - intros u [j Hj]%list_elem_of_lookup. apply eq_None_not_Some. intros [a Hu].
    by rewrite (ok_prep _ Hy _ _ _ Hj Hu) in Ha.
Qed.

(** Claim C5 (functional): when the daemon's answer arrives, the slot is settled
    as the answer demands, in every race: the transaction is used up or offered
    again, and the call never ends with an internal error. *)
Theorem answers_settled y i a env g p :
  reached y → calls y !! i = Some (Settle a env g p) →
  ∃ y' t', advance exec i y = Some y' ∧ calls y' !! i = Some t' ∧
    match resolve_submission (submit_transaction env (pw_transaction p)) with
    | ResSubmitted => t' = Apply a env p ∧ Slot.state (Slot.store (slot y')) = Slot.Empty
    | ResRetryable e => t' = Clear (retryable a e) ∧
        ∃ h, Slot.state (Slot.store (slot y')) = Slot.Ready g h p
    | ResDaemonRejected e =>
        t' = Clear (rejected a e) ∧ Slot.state (Slot.store (slot y')) = Slot.Empty
    | ResLocalFailure e =>
        t' = Clear (local_failure a e) ∧ Slot.state (Slot.store (slot y')) = Slot.Empty
    end.
Proof.
  intros Hy%spending_ok Hi. destruct (ok_sub _ Hy _ _ g p Hi eq_refl) as [h Hh].
  pose proof (Slot.reaches_shape _ _ (ok_reach _ Hy)) as Hs.
  destruct (Slot.consume_inflight _ _ _ _ Hs Hh) as ((s1 & Hf & Hs1) & (s2 & Hr & Hs2) & _).
  unfold advance. rewrite Hi. cbn [mbind option_bind exec].
  destruct (resolve_submission _); unfold on_slot; rewrite ?Hf, ?Hr; cbn [mbind option_bind];
    do 2 eexists; (split; [done|split; [apply list_lookup_insert_eq; by eapply lookup_lt_Some|by eauto]]).
Qed.

(** ** The handlers as runs *)

(** The legacy handlers. *)
Definition create (env : Env) (request : legacy_request) : action XelisWallet anyhow_error string :=
  match request with
  | CreateTransfers transfers => create_transfers_transaction env transfers
  | CreateTransferAll str_address asset_hash extra_data encrypt_extra_data =>
      create_transfer_all_transaction env str_address asset_hash extra_data encrypt_extra_data
  | CreateBurn float_amount asset_hash => create_burn_transaction env float_amount asset_hash
  | CreateBurnAll asset_hash => create_burn_all_transaction env asset_hash
  end.

(** The handler of [Transactions] or [Multisig] that a call is a run of. *)
Definition sequential (t : call_pc) (w : XelisWallet) : answer * XelisWallet :=
  match t with
  | PrepareBegin env request policy =>
      let '(r, w') := prepare env request policy w in (Prepared r, w')
  | SetupCheck env threshold participants policy =>
      let '(r, w') := Multisig.multisig_setup env threshold participants policy w in (Prepared r, w')
  | CreateLegacy env request => let '(r, w') := create env request w in (Stored r, w')
  | InspectExact id hash index =>
      let '(r, w') := inspect_prepared_transfer_extra_data id hash index w in (Inspected r, w')
  | CancelExact id hash => let '(r, w') := cancel_prepared_transaction id hash w in (Cancelled r, w')
  | ClearLegacy hash => let '(r, w') := clear_transaction_internal hash w in (Cleared r, w')
  | BroadcastCheck env id hash =>
      let '(r, w') := broadcast_prepared_transaction env id hash w in (Broadcast r, w')
  | LegacyCheck env hash =>
      let '(r, w') := broadcast_transaction env hash w in (LegacyBroadcast r, w')
  | _ => (Dropped, w)
  end.

(** A call that nobody interrupts, of at most six steps. *)
Fixpoint alone (n : nat) (t : call_pc) (s : Slots) (tr : list event) :
    call_pc * Slots * list event :=
  match n with
  | O => (t, s, tr)
  | S n => match exec t s with
           | Some (evs, s, t) => alone n t s (tr ++ evs)
           | None => (t, s, tr)
           end
  end.

(** The wallet that a handler would see. *)
Definition view (s : Slots) pend (tr : list event) : XelisWallet :=
  mkWallet (Slot.store s) pend (omap effect_of tr).

Definition agrees (t : call_pc) (s : Slots) : Prop :=
  ∀ pend tr, let '(ans, w) := sequential t (view s pend tr) in
    let '(t', s', tr') := alone 6 t s tr in t' = Done ans ∧ view s' pend tr' = w.

Lemma lift_bind {E A B} (r : result E A) (f : A → action XelisWallet E B) w :
  (x ← lift r; f x) w = match r with Ok x => f x w | Err e => (Err e, w) end.
Proof. by destruct r. Qed.

Lemma create_typed env rq w :
  create env rq w =
  match legacy_type env rq with
  | Ok transaction_type => create_and_store_prepared_transaction env transaction_type w
  | Err e => (Err e, w)
  end.
Proof.
  destruct rq as [ts|a h x b|f h|h]; cbn [create legacy_type];
    unfold create_transfers_transaction, create_transfer_all_transaction, create_burn_transaction,
      create_burn_all_transaction;
    repeat (rewrite lift_bind; match goal with
      |- match ?r with _ => _ end = _ => destruct r; cbn [mbind result_bind]; [|done] end);
    done.
Qed.

Lemma agrees_create env rq s : agrees (CreateLegacy env rq) s.
Proof.
  intros pend tr. cbn [sequential alone exec]. rewrite create_typed.
  destruct (legacy_type env rq) as [tt|e]; cbn [exec]; [|split; [done|]; unfold view; by rewrite app_nil_r].
  unfold create_and_store_prepared_transaction, build_and_store_prepared.
  unfold mbind, action_bind, result_bind, lift, on_prepared, map_err_action.
  destruct (create_transaction_with_storage env tt FeeDefault) as [[tx st]|e];
    [|split; [done|]; unfold view; by rewrite !app_nil_r].
  unfold view; cbn [prepared_transaction pending_multisig effects]. unfold on_slot. cbn [Slot.exec].
  destruct (Slot.replace _ _ _) as [[g|e] st1]; cbn; (split; [done|]);
    rewrite !omap_app; cbn; by rewrite !app_nil_r.
Qed.

Lemma agrees_inspect id h n s : agrees (InspectExact id h n) s.
Proof.
  intros pend tr. cbn [sequential alone exec].
  unfold inspect_prepared_transfer_extra_data, inspect, mbind, action_bind, result_bind, lift, throw,
    on_prepared, map_err_action.
  destruct (parse_prepared_hash h); [|split; [done|]; unfold view; by rewrite app_nil_r].
  destruct (ok_or _ (try_from _ n)); [|split; [done|]; unfold view; by rewrite app_nil_r].
  unfold view; cbn [prepared_transaction pending_multisig effects].
  destruct (Slot.ready_exact_cases id a (Slot.store s)) as [(e & -> & _)|(m & t & Hs & -> & _)];
    cbn [map_err fst]; [|case_bool_decide]; (split; [done|]); by rewrite app_nil_r.
Qed.

Lemma agrees_single t s :
  (∃ id h, t = CancelExact id h) ∨ (∃ h, t = ClearLegacy h) → agrees t s.
Proof.
  intros [(id & h & ->)|[h ->]] pend tr; cbn [sequential alone exec].
  - unfold cancel_prepared_transaction, mbind, action_bind, lift, on_prepared, map_err_action.
    destruct (parse_prepared_hash h) as [hash|e]; [|split; [done|]; unfold view; by rewrite app_nil_r].
    unfold view; cbn [prepared_transaction pending_multisig effects]. unfold on_slot. cbn [Slot.exec].
    destruct (Slot.cancel_exact _ _ _) as [[p|e] st1]; cbn; (split; [done|]);
      rewrite omap_app; cbn; by rewrite app_nil_r.
  - unfold clear_transaction_internal, mbind, action_bind, lift, on_prepared, map_err_action.
    destruct (hash_from_hex h) as [hash|e]; [|split; [done|]; unfold view; by rewrite app_nil_r].
    unfold view; cbn [prepared_transaction pending_multisig effects]. unfold on_slot. cbn [Slot.exec].
    destruct (Slot.cancel _ _) as [[p|e] st1]; cbn; (split; [done|]);
      rewrite omap_app; cbn; by rewrite app_nil_r.
Qed.

Lemma prepare_plan_of env rq pol : prepare env rq pol = prepare_planned env pol (plan_of env rq pol).
Proof. by destruct rq. Qed.

(** What a preparing handler does under its guard. *)
Lemma prepare_built env planned st n g pend eff :
  (∀ g h, st ≠ Slot.InFlight g h) →
  let G := Slot.mkPreparationGuard g true in
  (p ← guarded_preparation G (lift planned);
   create_and_commit_prepared_transaction env G (plan_type p) (plan_kind p) (plan_review p) (plan_fee p))
    (mkWallet (Slot.mkStore st n (Some g)) pend eff) =
  match build env planned with
  | Err e => (Err e, mkWallet (Slot.mkStore st n None) pend eff)
  | Ok (p, k) =>
      let tx := pw_transaction p in
      (Ok {| p_hash := hash_to_hex (Transactions.tx_hash tx); p_preparation_id := g;
             p_fee := tx_get_fee tx; p_transaction := k |},
       mkWallet (Slot.mkStore (Slot.Ready g (Transactions.tx_hash tx) p) n None) pend eff)
  end.
Proof.
  intros Hi G. unfold create_and_commit_prepared_transaction, build.
  unfold mbind, action_bind, result_bind, guarded_preparation, lift, throw, on_prepared, map_err_action, mret, action_ret.
  destruct planned as [p|e]; cbn [prepared_transaction pending_multisig effects];
    [|by unfold G; rewrite Slot.preparation_drop_active].
  destruct (map_err _ _) as [[tx sta]|e]; cbn [prepared_transaction pending_multisig effects];
    [|by unfold G; rewrite Slot.preparation_drop_active].
  case_bool_decide; cbn [prepared_transaction pending_multisig effects];
    [by unfold G; rewrite Slot.preparation_drop_active|].
  unfold G. by rewrite Slot.preparation_commit_active by done.
Qed.

(** A handler from its [begin] on, and the steps of the call. *)
Definition prepares (env : Env) (planned : result NativeXelisError plan) :
    action XelisWallet NativeXelisError NativePreparedTransaction :=
  preparation ← begin_preparation;
  p ← guarded_preparation preparation (lift planned);
  create_and_commit_prepared_transaction env preparation (plan_type p) (plan_kind p) (plan_review p)
    (plan_fee p).

Lemma prepares_runs env planned s pend tr n :
  Slot.shape s →
  let '(r, w) := prepares env planned (view s pend tr) in
  ∃ evs s1 t1, begin_prepare env planned s = Some (evs, s1, t1) ∧
    let '(t', s', tr') := alone (2 + n) t1 s1 (tr ++ evs) in
    t' = Done (Prepared r) ∧ view s' pend tr' = w.
Proof.
  intros Hs. unfold prepares, begin_prepare, mbind at 1, action_bind at 1, begin_preparation, on_prepared at 1,
    map_err_action at 1, on_slot. cbn [Slot.exec]. unfold Slot.exec_begin.
  unfold view at 1; cbn [prepared_transaction pending_multisig effects].
  destruct (Slot.preparation_begin_cases (Slot.store s)) as [[e He]|(Ha & Hi & He)]; rewrite He;
    cbn [map_err mbind option_bind].
  { do 3 eexists. split; [done|]. cbn [alone exec Nat.add]. split; [done|]. unfold view.
    rewrite omap_app. cbn. rewrite app_nil_r. by destruct s. }
  clear He. destruct s as [[st m ap] ps subs]; cbn in Ha, Hi. subst ap.
  cbn [Slot.state Slot.next_generation Slot.store Slot.pg_generation Slot.preparations Slot.submissions].
  rewrite prepare_built by done. destruct (build env planned) as [[p k]|e] eqn:Hb;
    do 3 eexists; (split; [done|]); cbn [alone exec Nat.add]; rewrite Hb; cbn [exec]; unfold on_slot;
    rewrite ?Slot.exec_own_commit, ?Slot.exec_own_drop, ?Slot.preparation_commit_active,
      ?Slot.preparation_drop_active by done;
    cbn [mbind option_bind exec]; destruct n; cbn [alone exec]; (split; [done|]); unfold view; cbn [Slot.store];
    by rewrite !omap_app, !app_nil_r.
Qed.

Lemma agrees_prepare env rq pol s : Slot.shape s → agrees (PrepareBegin env rq pol) s.
Proof.
  intros Hs pend tr. cbn [sequential alone exec]. rewrite prepare_plan_of.
  unfold prepare_planned. unfold mbind at 1, action_bind at 1, lift at 1.
  destruct (apply_fee_policy 0 pol) as [fee|e]; [|split; [done|]; unfold view; by rewrite app_nil_r].
  pose proof (prepares_runs env (plan_of env rq pol) s pend tr 3 Hs) as Hp.
  change (preparation ← begin_preparation; _) with (prepares env (plan_of env rq pol)).
  destruct (prepares env _ _) as [r w]. destruct Hp as (evs & s1 & t1 & -> & Hp). exact Hp.
Qed.

Lemma multisig_setup_prepares env th ps pol w :
  Multisig.multisig_setup env th ps pol w =
  match setup_checks env th ps pol with
  | Ok addresses => prepares (base_env env) (plan_setup env th addresses pol) w
  | Err e => (Err e, w)
  end.
Proof.
  unfold Multisig.multisig_setup, setup_checks.
  repeat (rewrite lift_bind; match goal with
    |- match ?r with _ => _ end = _ => destruct r; cbn [mbind result_bind]; [|done] end).
  case_bool_decide; [done|]. unfold prepares, plan_setup, mbind, action_bind.
  destruct (begin_preparation w) as [[g|e] w1]; [|done].
  unfold guarded_preparation, lift, result_bind.
  by destruct (estimate_target_fee _ _ _).
Qed.

Lemma agrees_setup env th ps pol s : Slot.shape s → agrees (SetupCheck env th ps pol) s.
Proof.
  intros Hs pend tr. cbn [sequential alone exec]. rewrite multisig_setup_prepares.
  destruct (setup_checks env th ps pol) as [ads|e]; cbn [exec];
    [|split; [done|]; unfold view; by rewrite app_nil_r].
  rewrite app_nil_r.
  pose proof (prepares_runs (base_env env) (plan_setup env th ads pol) s pend tr 2 Hs) as Hp.
  destruct (prepares (base_env env) _ _) as [r w]. destruct Hp as (evs & s1 & t1 & -> & Hp). exact Hp.
Qed.

(** The answer of the daemon, for the handler and for the call. *)
Ltac settle_runs t env Hfi Hre Xfi Xre :=
  unfold finish, restore, clear_unconfirmed_transaction_state, on_prepared, map_err_action, on_slot,
    mbind, action_bind, emit, modify, mret, action_ret;
  destruct (resolve_submission _);
    cbn [prepared_transaction pending_multisig effects]; rewrite ?Hfi, ?Hre, ?Xfi, ?Xre;
    cbn [map_err mbind option_bind exec prepared_transaction pending_multisig effects];
    try destruct (apply_changes env (pw_state t) (pw_transaction t)); cbn [is_ok];
    (split; [done|]); unfold view; cbn [Slot.store];
    rewrite !omap_app, ?app_nil_r; cbn; by rewrite ?app_nil_r, <-?app_assoc.

Lemma agrees_broadcast env id h s : Slot.shape s → agrees (BroadcastCheck env id h) s.
Proof.
  intros Hs pend tr. cbn [sequential alone exec]. unfold broadcast_prepared_transaction.
  unfold mbind at 1, action_bind at 1, lift at 1.
  destruct (parse_prepared_hash h) as [hash|e]; cbn [exec];
    [|split; [done|]; unfold view; by rewrite app_nil_r].
  destruct (negb (is_online env)); cbn [exec].
  { unfold offline_prepared_transaction_outcome, mbind, action_bind, on_prepared, map_err_action, view.
    cbn [prepared_transaction pending_multisig effects].
    destruct (Slot.ready_exact_cases id hash (Slot.store s)) as [(e & _ & ->)|(n & t & _ & _ & ->)];
      cbn; (split; [done|]); by rewrite !app_nil_r. }
  unfold mbind at 1, action_bind at 1, on_prepared at 1, map_err_action at 1. unfold view at 1.
  cbn [prepared_transaction pending_multisig effects]. unfold on_slot at 1.
  destruct (Slot.take_system s (Slot.guard_take_exact id hash) (Slot.OTakeExact id hash) id hash Hs)
    as [(e & Ht & He)|(n & g & t & -> & Ht & He)]; [by auto|rewrite Ht, He; cbn [map_err mbind option_bind]..].
  { split; [done|]. unfold view. by rewrite !omap_app, !app_nil_r. }
  clear Hs Ht He. unfold view at 1 2; cbn [prepared_transaction pending_multisig effects exec].
  destruct (Slot.guard_ends_inflight g hash t n) as (Hd & Hre & Hfi).
  destruct (Slot.inflight_ends n g hash t) as (Xfi & Xre & Xd).
  unfold stable_reads, guarded_submission, mbind, action_bind, result_bind, lift, emit, modify.
  destruct (storage_read _ (get_tx_version env)); cbn [prepared_transaction pending_multisig effects exec];
    [|rewrite Hd; unfold on_slot; rewrite Xd; split; [done|]; unfold view; by rewrite !omap_app, !app_nil_r].
  destruct (storage_read _ (get_synced_topoheight env)); cbn [prepared_transaction pending_multisig effects exec];
    [|rewrite Hd; unfold on_slot; rewrite Xd; split; [done|]; unfold view; by rewrite !omap_app, !app_nil_r].
  destruct (storage_read _ (get_top_block_hash env)); cbn [prepared_transaction pending_multisig effects exec];
    [|rewrite Hd; unfold on_slot; rewrite Xd; split; [done|]; unfold view; by rewrite !omap_app, !app_nil_r].
  cbn [Slot.guard_transaction Slot.sg_transaction ok_or map_err prepared_transaction pending_multisig effects].
  unfold settle_prepared_submission. settle_runs t env Hfi Hre Xfi Xre.
Qed.

Lemma agrees_legacy env h s : Slot.shape s → agrees (LegacyCheck env h) s.
Proof.
  intros Hs pend tr. cbn [sequential alone exec]. unfold broadcast_transaction, legacy_checks.
  unfold mbind at 1, action_bind at 1, lift at 1.
  destruct (ensure_wallet_online (is_online env)); cbn [exec mbind result_bind];
    [|split; [done|]; unfold view; by rewrite !app_nil_r].
  unfold mbind at 1, action_bind at 1, lift at 1.
  destruct (get_tx_version env); cbn [exec mbind result_bind];
    [|split; [done|]; unfold view; by rewrite !app_nil_r].
  unfold mbind at 1, action_bind at 1, lift at 1.
  destruct (get_synced_topoheight env); cbn [exec mbind result_bind];
    [|split; [done|]; unfold view; by rewrite !app_nil_r].
  unfold mbind at 1, action_bind at 1, lift at 1.
  destruct (get_top_block_hash env); cbn [exec mbind result_bind];
    [|split; [done|]; unfold view; by rewrite !app_nil_r].
  unfold mbind at 1, action_bind at 1, lift at 1.
  destruct (hash_from_hex h) as [hash|e]; cbn [exec mbind result_bind];
    [|split; [done|]; unfold view; by rewrite !app_nil_r].
  unfold mbind at 1, action_bind at 1, on_prepared at 1, map_err_action at 1. unfold view at 1.
  cbn [prepared_transaction pending_multisig effects]. unfold on_slot at 1.
  destruct (Slot.take_system s (Slot.guard_take hash) (Slot.OTake hash) 0 hash Hs)
    as [(e & Ht & He)|(n & g & t & -> & Ht & He)]; [by auto|rewrite Ht, He; cbn [map_err mbind option_bind]..].
  { split; [done|]. unfold view. by rewrite !omap_app, !app_nil_r. }
  clear Hs Ht He. unfold view at 1 2; cbn [prepared_transaction pending_multisig effects exec].
  destruct (Slot.guard_ends_inflight g hash t n) as (Hd & Hre & Hfi).
  destruct (Slot.inflight_ends n g hash t) as (Xfi & Xre & Xd).
  unfold guarded_submission, mbind, action_bind, result_bind, lift, emit, modify.
  cbn [Slot.guard_transaction Slot.sg_transaction ok_or map_err prepared_transaction pending_multisig effects].
  settle_runs t env Hfi Hre Xfi Xre.
Qed.

(** Claim C7 (equivalence): each handler of transactions.rs that uses the slot, the
    legacy ones and the inspection included, and [multisig_setup], is the run of its
    call that nobody interrupts, from its start and from every state that can be
    reached: the same result, the same slot and the same effects. *)
Theorem spending_handlers_are_runs y t pend :
  reached y → initial t = true →
  let '(ans, w) := sequential t (view (slot y) pend (trace y)) in
  let '(t', s', tr') := alone 6 t (slot y) (trace y) in
  t' = Done ans ∧ view s' pend tr' = w.
Proof.
  intros Hy%spending_ok Ht. pose proof (Slot.reaches_shape _ _ (ok_reach _ Hy)) as Hs.
  assert (agrees t (slot y)) as Ha; [|exact (Ha pend (trace y))].
  destruct t; try done;
    [by apply agrees_prepare|by apply agrees_setup|by apply agrees_create|by apply agrees_inspect
    |apply agrees_single; by eauto..|by apply agrees_broadcast|by apply agrees_legacy].
Qed.

(** ** Every call ends *)

(** The stages that a call has left. *)
Definition stages (t : call_pc) : nat :=
  match t with
  | BroadcastCheck _ _ _ => 6
  | BroadcastTake _ _ _ | LegacyCheck _ _ => 5
  | BroadcastRead _ _ _ | LegacyTake _ _ | SetupCheck _ _ _ _ => 4
  | PrepareBegin _ _ _ | SetupBegin _ _ _ _ | Submit _ _ _ _ => 3
  | PrepareBuild _ _ _ | Settle _ _ _ _ | CreateLegacy _ _ => 2
  | PrepareAbandon _ _ | PrepareCommit _ _ _ | StoreLegacy _ _ | CancelExact _ _ | ClearLegacy _
  | InspectExact _ _ _
  | BroadcastOffline _ _ | BroadcastGiveUp _ _ _ | Apply _ _ _ | Clear _ => 1
  | Done _ => 0
  end.

Definition progresses (t : call_pc) (s : Slots) : Prop :=
  ∃ evs s' t', exec t s = Some (evs, s', t') ∧ stages t' < stages t.

Ltac progress_step := do 3 eexists; split; [done|cbn; lia].

Lemma call_progresses t s :
  Slot.shape s → (∀ g, preparation_of t = Some g → active s = Some g) →
  (∀ g p, submission_of t = Some (g, p) → ∃ h, Slot.submissions s = [Slot.mkGuard g h (Some p)]) →
  (∀ ans, t ≠ Done ans) → progresses t s.
Proof.
  intros Hs Hp Hsub Ht. unfold progresses.
  destruct t as [env rq pol|env th ps pol|env th ads pol|env pl g|g e|g p k|env rq|env tt
    |id h n|id h|h|env id h|id h|env id h
    |env g p|g p e|env h|env h|a env g p|a env g p|a env p|ans|ans];
    cbn [exec preparation_of submission_of] in *; unfold begin_prepare, on_slot.
  - destruct (apply_fee_policy 0 pol); [|progress_step]. cbn [Slot.exec].
    destruct (Slot.begin_prepared s Hs) as [[e ->]|(_ & g & s1 & -> & _)]; progress_step.
  - destruct (setup_checks env th ps pol); progress_step.
  - cbn [Slot.exec].
    destruct (Slot.begin_prepared s Hs) as [[e ->]|(_ & g & s1 & -> & _)]; progress_step.
  - destruct (build env pl) as [[p k]|e]; progress_step.
  - destruct (Slot.drop_prepared s g Hs (Hp g eq_refl)) as (s1 & -> & _). progress_step.
  - edestruct (Slot.commit_prepared s g) as (s1 & -> & _); [done|by apply Hp|]. progress_step.
  - destruct (legacy_type env rq); progress_step.
  - destruct (create_transaction_with_storage env tt FeeDefault) as [[tx st]|e]; [|progress_step].
    cbn [Slot.exec]. destruct (Slot.replace _ _ _) as [[]]; progress_step.
  - progress_step.
  - destruct (parse_prepared_hash h); [|progress_step].
    cbn [Slot.exec]. destruct (Slot.cancel_exact _ _ _) as [[]]; progress_step.
  - destruct (hash_from_hex h); [|progress_step].
    cbn [Slot.exec]. destruct (Slot.cancel _ _) as [[]]; progress_step.
  - destruct (parse_prepared_hash h); [destruct (negb (is_online env))|]; progress_step.
  - progress_step.
  - destruct (Slot.take_system s (Slot.guard_take_exact id h) (Slot.OTakeExact id h) id h Hs)
      as [(e & _ & ->)|(n & g & p & _ & _ & ->)]; [by auto|progress_step..].
  - destruct (stable_reads env); progress_step.
  - destruct (Hsub g p eq_refl) as [h Hh].
    destruct (Slot.consume_inflight _ _ _ _ Hs Hh) as (_ & _ & s1 & -> & _). progress_step.
  - destruct (legacy_checks env h); progress_step.
  - destruct (Slot.take_system s (Slot.guard_take h) (Slot.OTake h) 0 h Hs)
      as [(e & _ & ->)|(n & g & p & _ & _ & ->)]; [by auto|progress_step..].
  - progress_step.
  - destruct (Hsub g p eq_refl) as [h Hh].
    destruct (Slot.consume_inflight _ _ _ _ Hs Hh) as ((s1 & Hf & _) & (s2 & Hr & _) & _).
    destruct (resolve_submission _); rewrite ?Hf, ?Hr; progress_step.
  - progress_step.
  - progress_step.
  - by destruct (Ht ans).
Qed.

(** No call waits for another one: in every race each call
    that has not ended can make its next step as soon as the storage and the
    daemon answer it, and it is done after at most six of its own steps. *)
Theorem spending_never_waits y i t :
  reached y → calls y !! i = Some t → (∀ ans, t ≠ Done ans) →
  stages t ≤ 6 ∧
  ∃ y' t', advance exec i y = Some y' ∧ calls y' !! i = Some t' ∧ stages t' < stages t.
Proof.
  intros Hy%spending_ok Hi Ht. split; [destruct t; cbn; lia|].
  destruct (call_progresses t (slot y)) as (evs & s' & t' & Hx & Hlt);
    [by eapply Slot.reaches_shape, ok_reach|intros; by eapply ok_prep|intros; by eapply ok_sub|done|].
  unfold advance. rewrite Hi. cbn [mbind option_bind]. rewrite Hx. cbn [mbind option_bind].
  do 2 eexists. split; [done|]. split; [|exact Hlt].
  apply list_lookup_insert_eq. by eapply lookup_lt_Some.
Qed.
End Broadcasts.

(** ** A race *)

#[local] Existing Instances plain_text demo_hash demo_address demo_wallet_lib Protocol.demo_protocol.

(** A transaction is prepared; two calls broadcast it and a third one cancels
    it.  The first broadcast is served, the others are refused. *)
Definition race_env : Env := demo_env (Ok tt).
Definition race_prepared : list label :=
  [Make (PrepareBegin race_env (PrepareBurn 5 "fxelis") Automatic); Run 0; Run 0; Run 0].
Definition race_sent : list label :=
  race_prepared ++
  [Make (BroadcastCheck race_env 1 "ftx"); Make (BroadcastCheck race_env 1 "ftx");
   Make (CancelExact 1 "ftx"); Run 1; Run 2; Run 1; Run 2; Run 3; Run 1; Run 1].
Definition raced (ls : list label) : System := played step started ls.

Lemma race_reached ls : plays step started ls = true → reached (raced ls).
Proof. apply played_reachable. Qed.

(** Whether an event is the sending of a transaction. *)
Definition is_sent (e : event) : bool := match e with Sent _ _ => true | _ => false end.

Example race_sends_once :
  length (List.filter is_sent (trace (raced (race_sent ++ [Run 1; Run 1])))) = 1 ∧
  match calls (raced (race_sent ++ [Run 1; Run 1])) with
  | [Done (Prepared (Ok _)); Done (Broadcast (Ok BSubmitted)); Done (Broadcast (Err e));
     Done (Cancelled (Err e'))] => code e = CodeOperationInProgress ∧ code e' = CodeOperationInProgress
  | _ => False
  end.
Proof. by vm_compute. Qed.

Lemma sent_is_latest_witness :
  ∃ tr1 l tr2 p, slot_trace (take 5 (trace (raced race_sent))) = tr1 ++ l :: tr2 ∧
    Slot.puts l = Some (1%Z, Transactions.tx_hash (pw_transaction p), p) ∧
    ∀ l', l' ∈ tr2 → Slot.puts l' = None ∧ Slot.empties l' = false.
Proof.
  edestruct (sent_is_latest (raced race_sent) (take 5 (trace (raced race_sent))) 1) as
    (tr1 & l & tr2 & p & Heq & Hp & Htx & Hl).
  - apply race_reached. by vm_compute.
  - rewrite <-(take_drop 5 (trace (raced race_sent))) at 1. apply (f_equal (app _)). reflexivity.
  - exists tr1, l, tr2, p. rewrite Htx. split; [exact Heq|]. split; [exact Hp|exact Hl].
Defined.

Lemma in_flight_owned_witness :
  (∃ i t p, calls (raced race_sent) !! i = Some t ∧ submission_of t = Some (1%Z, p) ∧
     Slot.content (slot (raced race_sent)) = Some (1%Z, "tx"%string, p) ∧
     ∀ j u, calls (raced race_sent) !! j = Some u → is_Some (submission_of u) → j = i) ∧
  (∀ u, u ∈ calls (raced race_sent) → preparation_of u = None).
Proof.
  refine (in_flight_owned (raced race_sent) _). apply race_reached. by vm_compute.
Defined.

Lemma answers_settled_witness :
  ∃ y' t', advance exec 1 (raced race_sent) = Some y' ∧ calls y' !! 1 = Some t' ∧
    Slot.state (Slot.store (slot y')) = Slot.Empty.
Proof.
  edestruct (answers_settled (raced race_sent) 1) as (y' & t' & Hx & Ht & Hs).
  - apply race_reached. by vm_compute.
  - reflexivity.
  - exists y', t'. split; [exact Hx|]. split; [exact Ht|exact (proj2 Hs)].
Defined.

Lemma spending_handlers_are_runs_witness :
  let t := BroadcastCheck race_env 1 "ftx" in
  let y := raced race_prepared in
  let '(ans, w) := sequential t (view (slot y) Pending.pending_default (trace y)) in
  let '(t', s', tr') := alone 6 t (slot y) (trace y) in
  t' = Done ans ∧ view s' Pending.pending_default tr' = w.
Proof.
  apply (spending_handlers_are_runs (raced race_prepared)); [|reflexivity].
  apply race_reached. by vm_compute.
Defined.

Lemma spending_never_waits_witness :
  ∃ y' t', advance exec 1 (raced race_sent) = Some y' ∧ calls y' !! 1 = Some t' ∧ stages t' < 2.
Proof.
  edestruct (spending_never_waits (raced race_sent) 1) as (_ & Hx).
  - apply race_reached. by vm_compute.
  - reflexivity.
  - done.
  - exact Hx.
Defined.
End Broadcasts.
