(* ===== verification/AddressBook.v ===== *)
(** * The address book (rust/src/api/address_book_v2.rs)

    Destination-first address-book entries kept in a tree of the wallet's
    encrypted key/value storage: validation and normalization, the stored
    schema, the migration from the legacy tree, and the operations of the API.

    The storage is the class [CustomStorage].  Each of its operations may fail
    ([StorageLaws]); where a theorem is about one that works, it says so
    ([StorageWorks]).  [faulty_storage] is an instance, whose writes fail where
    it is told to; [demo_storage] is the one that never fails. *)

From stdpp Require Import sorting.
From S2P Require Import Prelude Errors External Text Addresses.

Module AddressBook.
Import Wire.

(** [EncryptedStorage]: the custom-data part.  [stored] is the abstract content,
    which only the laws mention. *)
Class CustomStorage `{!HashLib} := {
  Storage : Type;
  stored : Storage → string → DataValue → option DataElement;
  has_custom_data : string → DataValue → Storage → result anyhow_error bool;
  get_custom_data : string → DataValue → Storage → result anyhow_error DataElement;
  set_custom_data : string → DataValue → DataElement → action Storage anyhow_error unit;
  delete_custom_data : string → DataValue → action Storage anyhow_error unit;
  (** [query_db(tree, None, None, None, None)]: all the entries of the tree. *)
  query_db : string → Storage → result anyhow_error (list (DataValue * DataElement))
}.

(** What an operation that succeeds did.  A write that fails concerned at most its
    own record, and may have been carried out. *)
Class StorageLaws `{!HashLib, !CustomStorage} : Prop := {
  has_stored t k s b : has_custom_data t k s = Ok b → b = bool_decide (is_Some (stored s t k));
  get_stored t k s v : get_custom_data t k s = Ok v → stored s t k = Some v;
  set_stored t k v s r s' : set_custom_data t k v s = (r, s') →
    (∀ t' k', ¬ (t' = t ∧ k' = k) → stored s' t' k' = stored s t' k') ∧
    (stored s' t k = Some v ∨ r ≠ Ok tt ∧ stored s' t k = stored s t k);
  delete_stored t k s r s' : delete_custom_data t k s = (r, s') →
    (∀ t' k', ¬ (t' = t ∧ k' = k) → stored s' t' k' = stored s t' k') ∧
    (stored s' t k = None ∨ r ≠ Ok tt ∧ stored s' t k = stored s t k);
  query_stored t s l : query_db t s = Ok l → NoDup l.*1 ∧
    ∀ k v, (k, v) ∈ l ↔ stored s t k = Some v
}.

(** A storage on which no operation fails. *)
Class StorageWorks `{!HashLib, !CustomStorage} : Prop := {
  has_works t k s : is_ok (has_custom_data t k s) = true;
  get_works t k s : is_Some (stored s t k) → is_ok (get_custom_data t k s) = true;
  set_works t k v s : is_ok (set_custom_data t k v s).1 = true;
  delete_works t k s : is_ok (delete_custom_data t k s).1 = true
}.

(** What the code uses of Unicode case folding and of [hash_multiple]. *)
Class TextLib `{!HashLib} := {
  to_lowercase : string → string;
  hash_multiple : list bytes → Hash
}.

Definition LEGACY_TREE : string := "address_book".
Definition ADDRESS_BOOK_V2_TREE : string := "address_book_v2".
Definition MIGRATION_MARKER_KEY : string := "_meta:migration_v1_complete".
Definition ENTRY_KEY_PREFIX : string := "entry:".
Definition SCHEMA_VERSION : Z := 2.
Definition ENTRY_ID_DOMAIN : bytes :=
  String.list_byte_of_string "xelis-wallet-flutter:address-book-entry:v2".
Definition MAX_ADDRESS_BYTES : Z := 8192.
Definition MAX_DISPLAY_NAME_CHARS : Z := 128.
Definition MAX_DESTINATION_LABEL_CHARS : Z := 128.
Definition MAX_NOTE_CHARS : Z := 2048.
Definition MAX_QUERY_CHARS : Z := 256.
Definition MAX_PAGE_SIZE : Z := 500.

(** models/address_book_v2.rs. *)
Inductive NativeSavedDestinationKind : Type := Standard | Integrated.
Inductive NativeIntegratedDataKind : Type :=
  | KBoolValue | KString | KU8 | KU16 | KU32 | KU64 | KU128 | KHash | KBlob | KArray | KFields.

Record NativeSavedDestination : Type := mkSavedDestination {
  sd_address : string;
  sd_base_address : string;
  sd_kind : NativeSavedDestinationKind;
  sd_integrated_data_kind : option NativeIntegratedDataKind
}.

Record NativeAddressBookEntry : Type := mkEntry {
  e_id : string;
  e_display_name : string;
  e_destination_label : option string;
  e_note : option string;
  e_destination : NativeSavedDestination
}.

Record NativeAddressBookPage : Type := mkPage {
  page_entries : list NativeAddressBookEntry;
  page_total : Z;
  page_has_more : bool
}.

Inductive NativeAddressBookMatchKind : Type := Exact | BaseOnly | Ambiguous | NoMatch.

Record NativeAddressBookMatch : Type := mkMatch {
  m_kind : NativeAddressBookMatchKind;
  m_entries : list NativeAddressBookEntry
}.

Record NativeAddressBookMigrationResult : Type := mkMigration {
  migrated_entries : Z;
  already_complete : bool
}.

#[export] Instance NativeSavedDestinationKind_eq_dec : EqDecision NativeSavedDestinationKind.
Proof. solve_decision. Defined.
#[export] Instance NativeIntegratedDataKind_eq_dec : EqDecision NativeIntegratedDataKind.
Proof. solve_decision. Defined.
#[export] Instance NativeSavedDestination_eq_dec : EqDecision NativeSavedDestination.
Proof. solve_decision. Defined.
#[export] Instance NativeAddressBookEntry_eq_dec : EqDecision NativeAddressBookEntry.
Proof. solve_decision. Defined.

Section Book.
Context `{!ErrorText, !HashLib, !AddressLib, !CustomStorage, !TextLib}.

Abbreviation fallible := (result NativeXelisError).
Abbreviation book := (action Storage NativeXelisError).

Record CanonicalDestination : Type := mkCanonical {
  cd_address : string;
  cd_base_address : string;
  cd_integrated_data : option DataElement;
  cd_integrated_data_kind : option NativeIntegratedDataKind
}.

Definition to_native (d : CanonicalDestination) : NativeSavedDestination :=
  {| sd_address := cd_address d;
     sd_base_address := cd_base_address d;
     sd_kind := if bool_decide (is_Some (cd_integrated_data d)) then Integrated else Standard;
     sd_integrated_data_kind := cd_integrated_data_kind d |}.

Definition address_book_error (code : NativeXelisErrorCode) (native_kind message : string) :
    NativeXelisError := xelis_wallet_flutter code native_kind message.

Definition storage_error (native_kind : string) (error : anyhow_error) : NativeXelisError :=
  from_wallet_storage_operation error native_kind.

Definition data_kind (value : DataElement) : NativeIntegratedDataKind :=
  match value with
  | DValue (DBool _) => KBoolValue
  | DValue (DString _) => KString
  | DValue (DU8 _) => KU8
  | DValue (DU16 _) => KU16
  | DValue (DU32 _) => KU32
  | DValue (DU64 _) => KU64
  | DValue (DU128 _) => KU128
  | DValue (DHash _) => KHash
  | DValue (DBlob _) => KBlob
  | DArray _ => KArray
  | DFields _ => KFields
  end.

Definition canonical_destination (address : string) (expected_mainnet : bool) :
    fallible CanonicalDestination :=
  let address := trim address in
  if bool_decide (address = EmptyString ∨ MAX_ADDRESS_BYTES < str_len address)%Z
  then Err (address_book_error CodeInvalidInput "ADDRESS_BOOK_ADDRESS_INVALID"
              "Address-book destination is empty or exceeds the supported size")
  else
    parsed ← map_err (λ _, address_book_error CodeInvalidInput
        "ADDRESS_BOOK_ADDRESS_INVALID"
        "Address-book destination is not a valid XELIS address")
      (address_from_string address);
    if bool_decide (is_mainnet parsed ≠ expected_mainnet)
    then Err (address_book_error CodeNetworkMismatch "ADDRESS_BOOK_ADDRESS_NETWORK_MISMATCH"
                "Address-book destination belongs to a different network")
    else
      let '(integrated_data, base) := extract_data parsed in
      Ok {| cd_address := address_to_string parsed;
            cd_base_address := address_to_string base;
            cd_integrated_data := integrated_data;
            cd_integrated_data_kind := data_kind <$> integrated_data |}.

Definition canonical_destination_from_parts (base_address : string)
    (integrated_data : option NativeXelisDataElement) (expected_mainnet : bool) :
    fallible CanonicalDestination :=
  base ← canonical_destination base_address expected_mainnet;
  if bool_decide (is_Some (cd_integrated_data base))
  then Err (address_book_error CodeInvalidInput "ADDRESS_BOOK_BASE_ADDRESS_INTEGRATED"
              "Address-book base address must not contain integrated data")
  else
    match integrated_data with
    | None => Ok base
    | Some integrated_data =>
        integrated_data ← into_xelis integrated_data;
        reparsed ← map_err (λ _, address_book_error CodeInternal
            "ADDRESS_BOOK_BASE_ADDRESS_INCONSISTENT"
            "Canonical address-book base address could not be reconstructed")
          (address_from_string (cd_address base));
        let address := address_new expected_mainnet (Some integrated_data)
                         (get_public_key reparsed) in
        canonical_destination (address_to_string address) expected_mainnet
    end.

Definition normalize_required (value : string) (max_chars : Z) (native_kind message : string) :
    fallible string :=
  let value := trim value in
  if bool_decide (value = EmptyString ∨ max_chars < chars_count value)%Z
  then Err (address_book_error CodeInvalidInput native_kind message)
  else Ok value.

Definition normalize_optional (value : option string) (max_chars : Z)
    (native_kind message : string) : fallible (option string) :=
  match value with
  | None => Ok None
  | Some value =>
      let value := trim value in
      if bool_decide (value = EmptyString) then Ok None
      else if bool_decide (max_chars < chars_count value)%Z
      then Err (address_book_error CodeInvalidInput native_kind message)
      else Ok (Some value)
  end.

Definition entry_id (address : string) : string :=
  hash_to_hex (hash_multiple [ENTRY_ID_DOMAIN; String.list_byte_of_string address]).

Definition entry_key (id : string) : DataValue := DString (ENTRY_KEY_PREFIX +:+ id).

Definition is_entry_id_byte (value : Z) : bool :=
  bool_decide (48 ≤ value ≤ 57)%Z || bool_decide (97 ≤ value ≤ 102)%Z.

Definition validate_entry_id (id : string) : fallible unit :=
  if bool_decide (str_len id ≠ 64)%Z || negb (forallb is_entry_id_byte (to_bytes id))
  then Err (address_book_error CodeInvalidInput "ADDRESS_BOOK_ENTRY_ID_INVALID"
              "Address-book entry identifier is invalid")
  else Ok tt.

Definition normalize_entry (address display_name : string)
    (destination_label note : option string) (mainnet : bool) :
    fallible NativeAddressBookEntry :=
  destination ← canonical_destination address mainnet;
  display_name ← normalize_required display_name MAX_DISPLAY_NAME_CHARS
    "ADDRESS_BOOK_DISPLAY_NAME_INVALID"
    "Address-book display name is empty or exceeds the supported size";
  destination_label ← normalize_optional destination_label MAX_DESTINATION_LABEL_CHARS
    "ADDRESS_BOOK_DESTINATION_LABEL_INVALID"
    "Address-book destination label exceeds the supported size";
  note ← normalize_optional note MAX_NOTE_CHARS "ADDRESS_BOOK_NOTE_INVALID"
    "Address-book note exceeds the supported size";
  Ok {| e_id := entry_id (cd_address destination);
        e_display_name := display_name;
        e_destination_label := destination_label;
        e_note := note;
        e_destination := to_native destination |}.

(** [IndexMap::get] and [insert] of a new key. *)
Fixpoint field_get (fields : list (DataValue * DataElement)) (name : string) :
    option DataElement :=
  match fields with
  | [] => None
  | (key, value) :: fields' =>
      if bool_decide (key = DString name) then Some value else field_get fields' name
  end.
Definition field (name : string) (value : DataValue) : DataValue * DataElement :=
  (DString name, DValue value).

Definition schema_error (message : string) : NativeXelisError :=
  address_book_error CodeSerialization "ADDRESS_BOOK_ENTRY_SCHEMA_INVALID" message.

Definition string_field (fields : list (DataValue * DataElement)) (name : string)
    (required : bool) : fallible (option string) :=
  match field_get fields name with
  | None =>
      if required then Err (schema_error "Address-book entry is missing a required field")
      else Ok None
  | Some (DValue (DString value)) => Ok (Some value)
  | Some _ => Err (schema_error "Address-book entry contains an invalid field type")
  end.

(** [string_field(.., true)?.expect("required field checked")]: the [None] that
    would panic is not produced for a required field. *)
Definition required_field (fields : list (DataValue * DataElement)) (name : string) :
    fallible string :=
  value ← string_field fields name true;
  match value with
  | Some value => Ok value
  | None => Err (schema_error "required field checked")
  end.

Definition encode_entry (entry : NativeAddressBookEntry) : DataElement :=
  DFields
    ([field "schema_version" (DU8 SCHEMA_VERSION);
      field "id" (DString (e_id entry));
      field "display_name" (DString (e_display_name entry))]
     ++ match e_destination_label entry with
        | Some value => [field "destination_label" (DString value)]
        | None => []
        end
     ++ match e_note entry with
        | Some value => [field "note" (DString value)]
        | None => []
        end
     ++ [field "address" (DString (sd_address (e_destination entry)))]).

Definition decode_entry (key_id : string) (value : DataElement) (mainnet : bool) :
    fallible NativeAddressBookEntry :=
  match value with
  | DFields fields =>
      match field_get fields "schema_version" with
      | Some (DValue (DU8 version)) =>
          if bool_decide (version = SCHEMA_VERSION) then
            stored_id ← required_field fields "id";
            display_name ← required_field fields "display_name";
            address ← required_field fields "address";
            destination_label ← string_field fields "destination_label" false;
            note ← string_field fields "note" false;
            normalized ← normalize_entry address display_name destination_label note mainnet;
            if bool_decide (stored_id ≠ key_id ∨ e_id normalized ≠ key_id)
            then Err (address_book_error CodeSerialization "ADDRESS_BOOK_ENTRY_ID_MISMATCH"
              "Address-book entry identifier does not match its canonical destination")
            else Ok normalized
          else Err (address_book_error CodeUnsupported
            "ADDRESS_BOOK_SCHEMA_VERSION_UNSUPPORTED"
            "Address-book entry schema version is unsupported")
      | _ => Err (address_book_error CodeUnsupported
            "ADDRESS_BOOK_SCHEMA_VERSION_UNSUPPORTED"
            "Address-book entry schema version is unsupported")
      end
  | _ => Err (schema_error "Address-book entry is not a fields element")
  end.

Definition encode_marker (migrated_entries : Z) : DataElement :=
  DFields [field "schema_version" (DU8 SCHEMA_VERSION);
           field "migrated_entries" (DU32 migrated_entries)].

Definition marker_error : NativeXelisError :=
  address_book_error CodeSerialization "ADDRESS_BOOK_MIGRATION_MARKER_INVALID"
    "Address-book migration marker is invalid".

Definition decode_marker (value : DataElement) : fallible Z :=
  match value with
  | DFields fields =>
      match field_get fields "schema_version", field_get fields "migrated_entries" with
      | Some (DValue (DU8 version)), Some (DValue (DU32 count)) =>
          if bool_decide (version = SCHEMA_VERSION) then Ok count else Err marker_error
      | _, _ => Err marker_error
      end
  | _ => Err marker_error
  end.

(** [str::strip_prefix]. *)
Definition strip_prefix (prefix s : string) : option string :=
  if String.prefix prefix s
  then Some (String.substring (String.length prefix)
               (String.length s - String.length prefix) s)
  else None.

Definition key_error (message : string) : NativeXelisError :=
  address_book_error CodeSerialization "ADDRESS_BOOK_ENTRY_KEY_INVALID" message.

(** The loop of [read_v2_entries]. *)
Fixpoint decode_all (mainnet : bool) (values : list (DataValue * DataElement)) :
    fallible (list NativeAddressBookEntry) :=
  match values with
  | [] => Ok []
  | (DString key, value) :: values' =>
      if bool_decide (key = MIGRATION_MARKER_KEY) then decode_all mainnet values'
      else
        match strip_prefix ENTRY_KEY_PREFIX key with
        | Some id =>
            validate_entry_id id;;
            entry ← decode_entry id value mainnet;
            entries ← decode_all mainnet values';
            Ok (entry :: entries)
        | None => Err (key_error "Address-book v2 contains an unknown key")
        end
  | _ :: _ => Err (key_error "Address-book v2 contains an invalid key")
  end.

(** The order of [sort_by]: the lowercase names, then the ids. *)
Definition entry_le (left right : NativeAddressBookEntry) : Prop :=
  match String.compare (to_lowercase (e_display_name left))
          (to_lowercase (e_display_name right)) with
  | Lt => True
  | Eq => String.compare (e_id left) (e_id right) ≠ Gt
  | Gt => False
  end.
#[export] Instance entry_le_dec : RelDecision entry_le.
Proof. intros l r. unfold entry_le. destruct (String.compare _ _); apply _. Defined.

Definition read_v2_entries (s : Storage) (mainnet : bool) :
    fallible (list NativeAddressBookEntry) :=
  values ← map_err (storage_error "ADDRESS_BOOK_LIST_FAILED")
             (query_db ADDRESS_BOOK_V2_TREE s);
  entries ← decode_all mainnet values;
  Ok (merge_sort entry_le entries).

Definition match_destination (entries : list NativeAddressBookEntry)
    (destination : CanonicalDestination) : NativeAddressBookMatch :=
  match list_find (λ entry, sd_address (e_destination entry) = cd_address destination)
          entries with
  | Some (_, entry) => mkMatch Exact [entry]
  | None =>
      let base_matches :=
        filter (λ entry, sd_base_address (e_destination entry) = cd_base_address destination)
          entries in
      mkMatch match length base_matches with
              | 0 => NoMatch
              | 1 => BaseOnly
              | _ => Ambiguous
              end base_matches
  end.

(** ** The operations of the API *)

(** A fallible storage call with its error classified. *)
Definition stored_read {A} (native_kind : string) (r : Storage → result anyhow_error A) :
    book A := λ s, (map_err (storage_error native_kind) (r s), s).
Definition stored_write (native_kind : string) (m : action Storage anyhow_error unit) :
    book unit := map_err_action (storage_error native_kind) m.

(** One legacy record, validated and normalized. *)
Definition migrate_record (mainnet : bool) (record : DataValue * DataElement) :
    fallible NativeAddressBookEntry :=
  match record with
  | (DString key_address, DFields fields) =>
      display_name ← required_field fields "name";
      field_address ← required_field fields "address";
      note ← string_field fields "note" false;
      canonical_key ← canonical_destination key_address mainnet;
      entry ← normalize_entry field_address display_name None note mainnet;
      if bool_decide (sd_address (e_destination entry) ≠ cd_address canonical_key)
      then Err (address_book_error CodeSerialization "ADDRESS_BOOK_LEGACY_ADDRESS_MISMATCH"
                  "Legacy address-book key and stored destination do not match")
      else Ok entry
  | (DString _, _) =>
      Err (address_book_error CodeSerialization "ADDRESS_BOOK_LEGACY_ENTRY_INVALID"
             "Legacy address-book entry has an invalid schema")
  | _ =>
      Err (address_book_error CodeSerialization "ADDRESS_BOOK_LEGACY_KEY_INVALID"
             "Legacy address-book entry contains an invalid key")
  end.

(** The [HashMap] of migrated entries by id, as an association list: its
    iteration order is unspecified and the theorems do not depend on it. *)
Definition migrated_insert (entry : NativeAddressBookEntry)
    (migrated : list NativeAddressBookEntry) : fallible (list NativeAddressBookEntry) :=
  match list_find (λ previous, e_id previous = e_id entry) migrated with
  | Some (_, previous) =>
      if bool_decide (previous ≠ entry)
      then Err (address_book_error CodeConflict "ADDRESS_BOOK_MIGRATION_DUPLICATE"
                  "Legacy address-book entries conflict after canonicalization")
      else Ok migrated
  | None => Ok (migrated ++ [entry])
  end.

Fixpoint collect_legacy (mainnet : bool) (records : list (DataValue * DataElement))
    (migrated : list NativeAddressBookEntry) : fallible (list NativeAddressBookEntry) :=
  match records with
  | [] => Ok migrated
  | record :: records' =>
      entry ← migrate_record mainnet record;
      migrated ← migrated_insert entry migrated;
      collect_legacy mainnet records' migrated
  end.

(** The second loop of the migration, for one entry. *)
Definition write_migrated (mainnet : bool) (entry : NativeAddressBookEntry) : book unit :=
  let key := entry_key (e_id entry) in
  present ← stored_read "ADDRESS_BOOK_MIGRATION_ENTRY_READ_FAILED"
    (has_custom_data ADDRESS_BOOK_V2_TREE key);
  if (present : bool) then
    value ← stored_read "ADDRESS_BOOK_MIGRATION_ENTRY_READ_FAILED"
      (get_custom_data ADDRESS_BOOK_V2_TREE key);
    existing ← lift (decode_entry (e_id entry) value mainnet);
    if bool_decide (existing ≠ entry)
    then throw (address_book_error CodeConflict "ADDRESS_BOOK_MIGRATION_ENTRY_CONFLICT"
                  "Existing address-book v2 entry conflicts with legacy data")
    else mret tt
  else
    stored_write "ADDRESS_BOOK_MIGRATION_ENTRY_WRITE_FAILED"
      (set_custom_data ADDRESS_BOOK_V2_TREE key (encode_entry entry)).

Fixpoint write_all (mainnet : bool) (entries : list NativeAddressBookEntry) : book unit :=
  match entries with
  | [] => mret tt
  | entry :: entries' => write_migrated mainnet entry;; write_all mainnet entries'
  end.

Definition count_overflow : NativeXelisError :=
  address_book_error CodeInternal "ADDRESS_BOOK_ENTRY_COUNT_OVERFLOW"
    "Address-book entry count exceeds the supported range".

Definition migrate_address_book_v2 (mainnet : bool) : book NativeAddressBookMigrationResult :=
  let marker_key := DString MIGRATION_MARKER_KEY in
  complete ← stored_read "ADDRESS_BOOK_MIGRATION_MARKER_READ_FAILED"
    (has_custom_data ADDRESS_BOOK_V2_TREE marker_key);
  if (complete : bool) then
    value ← stored_read "ADDRESS_BOOK_MIGRATION_MARKER_READ_FAILED"
      (get_custom_data ADDRESS_BOOK_V2_TREE marker_key);
    count ← lift (decode_marker value);
    mret {| migrated_entries := count; already_complete := true |}
  else
    legacy ← stored_read "ADDRESS_BOOK_MIGRATION_LEGACY_READ_FAILED" (query_db LEGACY_TREE);
    migrated ← lift (collect_legacy mainnet legacy []);
    write_all mainnet migrated;;
    count ← lift (ok_or count_overflow (try_from u32_max (zlen migrated)));
    stored_write "ADDRESS_BOOK_MIGRATION_MARKER_WRITE_FAILED"
      (set_custom_data ADDRESS_BOOK_V2_TREE marker_key (encode_marker count));;
    mret {| migrated_entries := count; already_complete := false |}.

(** [str::contains]. *)
Definition contains (needle s : string) : bool := bool_decide (is_Some (String.index 0 needle s)).

Definition matches_query (query : string) (entry : NativeAddressBookEntry) : bool :=
  contains query (to_lowercase (e_display_name entry)) ||
  match e_destination_label entry with
  | Some value => contains query (to_lowercase value)
  | None => false
  end ||
  contains query (to_lowercase (sd_address (e_destination entry))).

(** The page computation at the end of [list_address_book_entries_v2]. *)
Definition paginate (entries : list NativeAddressBookEntry) (skip : Z) (take : option Z) :
    fallible NativeAddressBookPage :=
  total ← ok_or count_overflow (try_from u32_max (zlen entries));
  skip ← ok_or (address_book_error CodeInvalidInput "ADDRESS_BOOK_PAGE_OFFSET_INVALID"
      "Address-book page offset exceeds the supported range") (try_from usize_max skip);
  let page := skip_take skip take entries in
  let returned := default u32_max (try_from u32_max (zlen page)) in
  let has_more :=
    match checked_add usize_max skip returned with
    | Some value => bool_decide (value < total)%Z
    | None => false
    end in
  Ok {| page_entries := page; page_total := total; page_has_more := has_more |}.

Definition list_address_book_entries_v2 (mainnet : bool) (query : option string) (skip : Z)
    (take : option Z) : book NativeAddressBookPage :=
  migrate_address_book_v2 mainnet;;
  if match take with
     | Some value => bool_decide (value = 0 ∨ MAX_PAGE_SIZE < value)%Z
     | None => false
     end
  then throw (address_book_error CodeInvalidInput "ADDRESS_BOOK_PAGE_SIZE_INVALID"
                "Address-book page size is outside the supported range")
  else
    query ← lift (normalize_optional query MAX_QUERY_CHARS "ADDRESS_BOOK_QUERY_INVALID"
                    "Address-book query exceeds the supported size");
    s ← get_state;
    entries ← lift (read_v2_entries s mainnet);
    let entries :=
      match query with
      | Some query => filter (λ entry, matches_query (to_lowercase query) entry = true) entries
      | None => entries
      end in
    lift (paginate entries skip take).

Definition upsert_address_book_entry_v2 (mainnet : bool) (address display_name : string)
    (destination_label note : option string) : book NativeAddressBookEntry :=
  migrate_address_book_v2 mainnet;;
  entry ← lift (normalize_entry address display_name destination_label note mainnet);
  stored_write "ADDRESS_BOOK_ENTRY_WRITE_FAILED"
    (set_custom_data ADDRESS_BOOK_V2_TREE (entry_key (e_id entry)) (encode_entry entry));;
  mret entry.

Definition entry_not_found : NativeXelisError :=
  address_book_error CodeNotFound "ADDRESS_BOOK_ENTRY_NOT_FOUND"
    "Address-book entry was not found".

Definition remove_address_book_entry_v2 (mainnet : bool) (entry_id : string) : book unit :=
  migrate_address_book_v2 mainnet;;
  lift (validate_entry_id entry_id);;
  let key := entry_key entry_id in
  present ← stored_read "ADDRESS_BOOK_ENTRY_READ_FAILED"
    (has_custom_data ADDRESS_BOOK_V2_TREE key);
  if negb (present : bool) then throw entry_not_found
  else stored_write "ADDRESS_BOOK_ENTRY_DELETE_FAILED"
         (delete_custom_data ADDRESS_BOOK_V2_TREE key).

Definition find_address_book_entry_v2 (mainnet : bool) (entry_id : string) :
    book NativeAddressBookEntry :=
  migrate_address_book_v2 mainnet;;
  lift (validate_entry_id entry_id);;
  let key := entry_key entry_id in
  present ← stored_read "ADDRESS_BOOK_ENTRY_READ_FAILED"
    (has_custom_data ADDRESS_BOOK_V2_TREE key);
  if negb (present : bool) then throw entry_not_found
  else
    value ← stored_read "ADDRESS_BOOK_ENTRY_READ_FAILED"
      (get_custom_data ADDRESS_BOOK_V2_TREE key);
    lift (decode_entry entry_id value mainnet).

Definition match_address_book_address_v2 (mainnet : bool) (address : string) :
    book NativeAddressBookMatch :=
  migrate_address_book_v2 mainnet;;
  destination ← lift (canonical_destination address mainnet);
  s ← get_state;
  entries ← lift (read_v2_entries s mainnet);
  mret (match_destination entries destination).

Definition match_address_book_destination_v2 (mainnet : bool) (base_address : string)
    (integrated_data : option NativeXelisDataElement) : book NativeAddressBookMatch :=
  migrate_address_book_v2 mainnet;;
  destination ← lift (canonical_destination_from_parts base_address integrated_data mainnet);
  s ← get_state;
  entries ← lift (read_v2_entries s mainnet);
  mret (match_destination entries destination).

(** ** Reference definitions for the theorems *)

(** The address prints to a text that the book accepts and reads back. *)
Definition prints_canonically (a : Address) : Prop :=
  address_from_string (address_to_string a) = Ok a ∧
  trim (address_to_string a) = address_to_string a ∧
  address_to_string a ≠ EmptyString ∧
  (str_len (address_to_string a) ≤ MAX_ADDRESS_BYTES)%Z.

(** The entry is in the store: as it is written now, or as an older record that
    decodes to it. *)
Definition recorded (mainnet : bool) (s : Storage) (e : NativeAddressBookEntry) : Prop :=
  ∃ v, stored s ADDRESS_BOOK_V2_TREE (entry_key (e_id e)) = Some v ∧
    (v = encode_entry e ∨ decode_entry (e_id e) v mainnet = Ok e).

(** [s'] has all the records of [s], changed at most by new records in the
    address-book tree. *)
Definition extends (s s' : Storage) : Prop :=
  (∀ k v, stored s ADDRESS_BOOK_V2_TREE k = Some v →
          stored s' ADDRESS_BOOK_V2_TREE k = Some v) ∧
  (∀ t k, t ≠ ADDRESS_BOOK_V2_TREE → stored s' t k = stored s t k).

(** ** Theorems *)

Lemma canonical_destination_Ok address mainnet d :
  canonical_destination address mainnet = Ok d →
  ∃ a, address_from_string (trim address) = Ok a ∧ is_mainnet a = mainnet ∧
    d = mkCanonical (address_to_string a) (address_to_string (extract_data a).2)
          (extract_data a).1 (data_kind <$> (extract_data a).1).
Proof.
  unfold canonical_destination. case_bool_decide; [done|].
  rewrite bind_Ok. intros (a & Ha%map_err_Ok & Hd). exists a.
  destruct (decide (is_mainnet a = mainnet)).
  - rewrite bool_decide_false in Hd by auto. destruct (extract_data a). by simplify_eq.
  - by rewrite bool_decide_true in Hd.
Qed.

Lemma canonical_destination_idem address mainnet d :
  canonical_destination address mainnet = Ok d →
  (∀ a, address_from_string (trim address) = Ok a → prints_canonically a) →
  canonical_destination (cd_address d) mainnet = Ok d.
Proof.
  intros (a & Ha & Hm & ->)%canonical_destination_Ok Hp.
  destruct (Hp a Ha) as (Hr & Ht & Hn & Hl). unfold canonical_destination.
  cbn [cd_address]. rewrite Ht. rewrite bool_decide_false by (intros [|]; [done|lia]).
  rewrite Hr; cbn. rewrite bool_decide_false by auto. by destruct (extract_data a).
Qed.

Lemma normalize_required_idem v n k m v' :
  normalize_required v n k m = Ok v' → normalize_required v' n k m = Ok v'.
Proof.
  unfold normalize_required. case_bool_decide; [done|]. intros [= <-].
  rewrite trim_idemp. by rewrite bool_decide_false.
Qed.

Lemma normalize_optional_idem v n k m v' :
  normalize_optional v n k m = Ok v' → normalize_optional v' n k m = Ok v'.
Proof.
  unfold normalize_optional. destruct v as [v|]; [|by intros [= <-]].
  case_bool_decide; [by intros [= <-]|]. case_bool_decide; [done|]. intros [= <-].
  rewrite trim_idemp. by rewrite !bool_decide_false.
Qed.

(** Normalization is idempotent. *)
Lemma normalize_entry_idem address name label note mainnet e :
  normalize_entry address name label note mainnet = Ok e →
  (∀ a, address_from_string (trim address) = Ok a → prints_canonically a) →
  normalize_entry (sd_address (e_destination e)) (e_display_name e) (e_destination_label e)
    (e_note e) mainnet = Ok e.
Proof.
  unfold normalize_entry. intros He Hp. inv_ok. subst; cbn.
  erewrite canonical_destination_idem by done; cbn.
  erewrite normalize_required_idem by done; cbn.
  erewrite normalize_optional_idem by done; cbn.
  by erewrite normalize_optional_idem by done.
Qed.

Ltac field_reads :=
  repeat (cbn [field_get field fst snd app mbind result_bind];
          first [rewrite bool_decide_true by done
                |rewrite bool_decide_false by (intros [=])]).

Lemma encode_fields e :
  ∃ fields, encode_entry e = DFields fields ∧
    field_get fields "schema_version" = Some (DValue (DU8 SCHEMA_VERSION)) ∧
    field_get fields "id" = Some (DValue (DString (e_id e))) ∧
    field_get fields "display_name" = Some (DValue (DString (e_display_name e))) ∧
    field_get fields "address" = Some (DValue (DString (sd_address (e_destination e)))) ∧
    field_get fields "destination_label"
      = (λ v, DValue (DString v)) <$> e_destination_label e ∧
    field_get fields "note" = (λ v, DValue (DString v)) <$> e_note e.
Proof.
  unfold encode_entry. eexists. split; [reflexivity|].
  destruct (e_destination_label e), (e_note e); split_and!; field_reads; done.
Qed.

Lemma decode_encode e mainnet :
  normalize_entry (sd_address (e_destination e)) (e_display_name e) (e_destination_label e)
    (e_note e) mainnet = Ok e →
  decode_entry (e_id e) (encode_entry e) mainnet = Ok e.
Proof.
  intros Hn. destruct (encode_fields e) as (fs & -> & Hv & Hid & Hname & Haddr & Hlabel & Hnote).
  unfold decode_entry. rewrite Hv. rewrite bool_decide_true by done.
  unfold required_field, string_field. rewrite Hid, Hname, Haddr, Hlabel, Hnote; cbn.
  destruct (e_destination_label e), (e_note e); cbn; rewrite Hn; cbn;
    by rewrite bool_decide_false by naive_solver.
Qed.

(** Every entry that normalization accepts is read back
    unchanged from the record it is stored as, whatever optional fields it has,
    under the key derived from its canonical destination. *)
Theorem entry_codec_roundtrip address name label note mainnet e :
  normalize_entry address name label note mainnet = Ok e →
  (∀ a, address_from_string (trim address) = Ok a → prints_canonically a) →
  decode_entry (e_id e) (encode_entry e) mainnet = Ok e.
Proof. intros He Hp. by eapply decode_encode, normalize_entry_idem. Qed.

Lemma decode_encode_marker n : decode_marker (encode_marker n) = Ok n.
Proof.
  unfold decode_marker, encode_marker. by field_reads.
Qed.

(** Matching prefers the exact destination: it reports
    [Exact] with one saved entry for that very address whenever there is one;
    otherwise all the entries with the same base address, and whether there is
    none, one, or an ambiguous choice. *)
Theorem match_destination_exact entries d :
  let r := match_destination entries d in
  match m_kind r with
  | Exact => ∃ e, m_entries r = [e] ∧ e ∈ entries ∧
      sd_address (e_destination e) = cd_address d
  | k =>
      Forall (λ e, sd_address (e_destination e) ≠ cd_address d) entries ∧
      (∀ e, e ∈ m_entries r ↔
            e ∈ entries ∧ sd_base_address (e_destination e) = cd_base_address d) ∧
      match k with
      | BaseOnly => length (m_entries r) = 1
      | Ambiguous => 2 ≤ length (m_entries r)
      | _ => m_entries r = []
      end
  end.
Proof.
  unfold match_destination. destruct (list_find _ entries) as [[i e]|] eqn:Hf; cbn.
  - apply list_find_Some in Hf as (Hi & He & _). exists e. split_and!; [done| |done].
    by eapply list_elem_of_lookup_2.
  - apply list_find_None in Hf.
    assert (∀ e, e ∈ filter (λ entry, sd_base_address (e_destination entry)
      = cd_base_address d) entries ↔ e ∈ entries ∧
      sd_base_address (e_destination e) = cd_base_address d) as Hin.
    { intros e. rewrite list_elem_of_filter. tauto. }
    destruct (filter _ entries) as [|e1 [|e2 l]] eqn:Hl; cbn; split_and!; try done.
    lia.
Qed.

Lemma extends_refl s : extends s s.
Proof. split; auto. Qed.
Lemma extends_trans s1 s2 s3 : extends s1 s2 → extends s2 s3 → extends s1 s3.
Proof.
  intros [Ha1 Hb1] [Ha2 Hb2]. split; [by eauto|]. intros t k Ht. by rewrite Hb2, Hb1.
Qed.

Section StorageTheorems.
Context `{!StorageLaws}.

(** Writing a record where there was none. *)
Lemma set_fresh k v s r s' :
  stored s ADDRESS_BOOK_V2_TREE k = None →
  set_custom_data ADDRESS_BOOK_V2_TREE k v s = (r, s') →
  extends s s' ∧
  (stored s' ADDRESS_BOOK_V2_TREE k = Some v ∨ r ≠ Ok tt ∧ stored s' ADDRESS_BOOK_V2_TREE k = None) ∧
  ∀ k', k' ≠ k → stored s' ADDRESS_BOOK_V2_TREE k' = stored s ADDRESS_BOOK_V2_TREE k'.
Proof.
  intros Hn [Ho Hk]%set_stored. rewrite Hn in Hk. split_and!; [split|done|].
  - intros k' v' Hk'. rewrite Ho; [done|]. naive_solver.
  - intros t k' Ht. apply Ho. naive_solver.
  - intros k' Hk'. apply Ho. naive_solver.
Qed.

Lemma entry_key_marker id : entry_key id ≠ DString MIGRATION_MARKER_KEY.
Proof. intros [=]. Qed.

Lemma recorded_extends mainnet s s' e :
  extends s s' → recorded mainnet s e → recorded mainnet s' e.
Proof. intros [Hx _] (v & Hv & ?). exists v. eauto. Qed.

Lemma write_migrated_outcome mainnet e s r s' :
  write_migrated mainnet e s = (r, s') →
  extends s s' ∧
  stored s' ADDRESS_BOOK_V2_TREE (DString MIGRATION_MARKER_KEY)
    = stored s ADDRESS_BOOK_V2_TREE (DString MIGRATION_MARKER_KEY) ∧
  (r = Ok tt → recorded mainnet s' e).
Proof.
  unfold write_migrated, mbind, action_bind, stored_read, lift, throw, mret, action_ret.
  destruct (has_custom_data _ _ s) as [present|e0] eqn:Hh; cbn [map_err];
    [|intros [= <- <-]; split_and!; [apply extends_refl|done|done]].
  apply has_stored in Hh as ->. case_bool_decide as Hs; cbn.
  - destruct (get_custom_data _ _ s) as [v|e0] eqn:Hg; cbn [map_err];
      [|intros [= <- <-]; split_and!; [apply extends_refl|done|done]].
    apply get_stored in Hg as Hv.
    destruct (decode_entry (e_id e) v mainnet) as [e'|err] eqn:Hd; cbn.
    + destruct (decide (e' = e)) as [->|Hne].
      * rewrite bool_decide_false by auto. intros [= <- <-].
        split_and!; [apply extends_refl|done|]. intros _. exists v. auto.
      * rewrite bool_decide_true by done. intros [= <- <-].
        split_and!; [apply extends_refl|done|done].
    + intros [= <- <-]. split_and!; [apply extends_refl|done|done].
  - assert (stored s ADDRESS_BOOK_V2_TREE (entry_key (e_id e)) = None) as Hn.
    { by apply eq_None_not_Some. }
    unfold stored_write, map_err_action. destruct (set_custom_data _ _ _ s) as [r1 s1] eqn:Hw.
    destruct (set_fresh _ _ _ _ _ Hn Hw) as (Hx & Hk & Ho). intros [= <- <-].
    split_and!; [done| |].
    + apply Ho. intros Heq. by eapply entry_key_marker.
    + intros Hr. destruct r1 as [[]|]; [|done]. destruct Hk as [Hk|[? _]]; [|done].
      exists (encode_entry e). auto.
Qed.

Lemma write_all_outcome mainnet es : ∀ s r s',
  write_all mainnet es s = (r, s') →
  extends s s' ∧
  stored s' ADDRESS_BOOK_V2_TREE (DString MIGRATION_MARKER_KEY)
    = stored s ADDRESS_BOOK_V2_TREE (DString MIGRATION_MARKER_KEY) ∧
  (r = Ok tt → Forall (recorded mainnet s') es).
Proof.
  induction es as [|e es IH]; intros s r s'; cbn.
  { intros [= <- <-]. split_and!; [apply extends_refl|done|constructor]. }
  unfold mbind, action_bind. destruct (write_migrated mainnet e s) as [r1 s1] eqn:Hw.
  apply write_migrated_outcome in Hw as (Hx & Hm & Hr). destruct r1 as [[]|err].
  - intros (Hx' & Hm' & Hr')%IH. split_and!; [by eapply extends_trans|congruence|].
    intros Hok. constructor; [|by auto]. eapply recorded_extends; [done|]. by apply Hr.
  - intros [= <- <-]. split_and!; done.
Qed.

Lemma migrate_complete mainnet s v n r s' :
  stored s ADDRESS_BOOK_V2_TREE (DString MIGRATION_MARKER_KEY) = Some v →
  decode_marker v = Ok n → migrate_address_book_v2 mainnet s = (r, s') →
  s' = s ∧ (r = Ok (mkMigration n true) ∨
            ∃ e, r = Err (storage_error "ADDRESS_BOOK_MIGRATION_MARKER_READ_FAILED" e)).
Proof.
  intros Hv Hn. unfold migrate_address_book_v2, mbind, action_bind, stored_read, lift.
  destruct (has_custom_data _ _ s) as [present|e] eqn:Hh; cbn [map_err]; [|intros [= <- <-]; eauto].
  apply has_stored in Hh as ->. rewrite Hv, bool_decide_true by done; cbn.
  destruct (get_custom_data _ _ s) as [w|e] eqn:Hg; cbn [map_err]; [|intros [= <- <-]; eauto].
  apply get_stored in Hg. rewrite Hv in Hg. injection Hg as <-. rewrite Hn. intros [= <- <-]. eauto.
Qed.

Lemma collect_legacy_Ok mainnet records : ∀ acc out,
  collect_legacy mainnet records acc = Ok out →
  (∀ e, e ∈ acc → e ∈ out) ∧
  ∀ record, record ∈ records → ∃ e, migrate_record mainnet record = Ok e ∧ e ∈ out.
Proof.
  induction records as [|record records IH]; intros acc out; cbn.
  { intros [= <-]. split; [done|]. set_solver. }
  intros (e & He & Hc)%bind_Ok. apply bind_Ok in Hc as (acc' & Hi & Hc).
  apply IH in Hc as [Hacc Hrec].
  assert (e ∈ acc' ∧ ∀ x, x ∈ acc → x ∈ acc') as [Hin Hsub].
  { unfold migrated_insert in Hi. destruct (list_find _ acc) as [[i p]|] eqn:Hf.
    - apply list_find_Some in Hf as (Hl & _ & _). revert Hi. case_bool_decide as Hp; [done|].
      intros [= <-]. subst p. split; [|done].
      by eapply list_elem_of_lookup_2.
    - simplify_eq. set_solver. }
  split; [by auto|]. intros x [->|Hx]%elem_of_cons; eauto.
Qed.

(** Every legacy record is in the book. *)
Definition all_migrated (mainnet : bool) (s s' : Storage) : Prop :=
  ∀ k v, stored s LEGACY_TREE k = Some v →
    ∃ e, migrate_record mainnet (k, v) = Ok e ∧ recorded mainnet s' e.

Lemma migrate_outcome mainnet s r s' :
  migrate_address_book_v2 mainnet s = (r, s') →
  extends s s' ∧
  (stored s' ADDRESS_BOOK_V2_TREE (DString MIGRATION_MARKER_KEY)
     = stored s ADDRESS_BOOK_V2_TREE (DString MIGRATION_MARKER_KEY) ∨ all_migrated mainnet s s') ∧
  ∀ x, r = Ok x →
    (∃ v, stored s' ADDRESS_BOOK_V2_TREE (DString MIGRATION_MARKER_KEY) = Some v ∧
          decode_marker v = Ok (migrated_entries x)) ∧
    (already_complete x = false → all_migrated mainnet s s').
Proof.
  unfold migrate_address_book_v2, mbind, action_bind, stored_read, lift.
  destruct (has_custom_data _ _ s) as [present|e] eqn:Hh; cbn [map_err];
    [|intros [= <- <-]; split_and!; [apply extends_refl|by left|done]].
  apply has_stored in Hh as ->. case_bool_decide as Hs; cbn [map_err].
  - destruct (get_custom_data _ _ s) as [v|e] eqn:Hg; cbn [map_err];
      [|intros [= <- <-]; split_and!; [apply extends_refl|by left|done]].
    apply get_stored in Hg as Hv.
    destruct (decode_marker v) eqn:Hd; intros [= <- <-]; (split_and!; [apply extends_refl|by left|]);
      [|done]. intros x [= <-]. split; [by eauto|done].
  - destruct (query_db LEGACY_TREE s) as [l|e] eqn:Hq; cbn [map_err];
      [|intros [= <- <-]; split_and!; [apply extends_refl|by left|done]].
    apply query_stored in Hq as [_ Hl].
    destruct (collect_legacy mainnet l []) as [es|e] eqn:Hc;
      [|intros [= <- <-]; split_and!; [apply extends_refl|by left|done]].
    destruct (write_all mainnet es s) as [r1 s1] eqn:Hw.
    apply write_all_outcome in Hw as (Hx & Hm & Hr). destruct r1 as [[]|e];
      [|intros [= <- <-]; split_and!; [done|by left|done]].
    destruct (try_from u32_max (zlen es)) as [n|] eqn:Hn; cbn [ok_or];
      [|intros [= <- <-]; split_and!; [done|by left|done]].
    assert (stored s1 ADDRESS_BOOK_V2_TREE (DString MIGRATION_MARKER_KEY) = None) as Hnone.
    { rewrite Hm. by apply eq_None_not_Some. }
    unfold stored_write, map_err_action. destruct (set_custom_data _ _ _ s1) as [r2 s2] eqn:Hw2.
    destruct (set_fresh _ _ _ _ _ Hnone Hw2) as (Hx2 & Hk & _).
    assert (all_migrated mainnet s s2) as Hall.
    { intros k v Hkv. apply Hl in Hkv.
      destruct (proj2 (collect_legacy_Ok _ _ _ _ Hc) _ Hkv) as (e & He & Hin).
      exists e. split; [done|]. eapply recorded_extends; [done|].
      by apply (proj1 (Forall_forall _ _) (Hr eq_refl)). }
    intros Hres. assert (s' = s2) as -> by (destruct r2 as [[]|]; by injection Hres).
    split_and!; [by eapply extends_trans|by right|]. intros x ->.
    destruct r2 as [[]|]; [injection Hres as <-|done]. split; [|done].
    destruct Hk as [Hk|[? _]]; [|done]. eauto using decode_encode_marker.
Qed.

End StorageTheorems.

(** Claim C33 (safety): the migration is non-destructive and runs once, whichever
    reads and writes of the storage fail.  It never changes an existing
    address-book record nor any other tree, even when it fails half way.  The
    mark of completion appears only when every legacy record is in the book
    under its canonical destination, so a failure before that leaves the migration
    to be run again.  Once it succeeded, every further call writes nothing, and
    reports completion unless the mark cannot be read. *)
Theorem migration_safe `{!StorageLaws} mainnet s r s' :
  migrate_address_book_v2 mainnet s = (r, s') →
  extends s s' ∧
  (stored s' ADDRESS_BOOK_V2_TREE (DString MIGRATION_MARKER_KEY)
     = stored s ADDRESS_BOOK_V2_TREE (DString MIGRATION_MARKER_KEY) ∨ all_migrated mainnet s s') ∧
  ∀ x, r = Ok x →
    (already_complete x = false → all_migrated mainnet s s') ∧
    ∀ r2 s2, migrate_address_book_v2 mainnet s' = (r2, s2) →
      s2 = s' ∧ (r2 = Ok (mkMigration (migrated_entries x) true) ∨
                 ∃ e, r2 = Err (storage_error "ADDRESS_BOOK_MIGRATION_MARKER_READ_FAILED" e)).
Proof.
  intros (Hx & Hm & Hr)%migrate_outcome. split_and!; [done..|]. intros x ->.
  destruct (Hr x eq_refl) as [(v & Hv & Hd) Hl]. split; [done|]. intros r2 s2. by apply migrate_complete with v.
Qed.

Section WorkingStorage.
Context `{!StorageLaws, !StorageWorks}.

Lemma has_spec t k s : has_custom_data t k s = Ok (bool_decide (is_Some (stored s t k))).
Proof.
  pose proof (has_works t k s) as Hw. destruct (has_custom_data t k s) eqn:Hh; [|done].
  by apply has_stored in Hh as ->.
Qed.
Lemma get_spec t k s v : stored s t k = Some v → get_custom_data t k s = Ok v.
Proof.
  intros Hv. pose proof (get_works t k s ltac:(by eexists)) as Hw.
  destruct (get_custom_data t k s) eqn:Hg; [|done]. apply get_stored in Hg. congruence.
Qed.
Lemma set_spec t k v s : ∃ s', set_custom_data t k v s = (Ok tt, s') ∧
  ∀ t' k', stored s' t' k' = if bool_decide (t' = t ∧ k' = k) then Some v else stored s t' k'.
Proof.
  pose proof (set_works t k v s) as Hw. destruct (set_custom_data t k v s) as [[[]|] s'] eqn:Hx; [|done].
  exists s'. split; [done|]. apply set_stored in Hx as [Ho [Hk|[? _]]]; [|done].
  intros t' k'. case_bool_decide; [by destruct_and!; subst|by apply Ho].
Qed.
Lemma delete_spec t k s : ∃ s', delete_custom_data t k s = (Ok tt, s') ∧
  ∀ t' k', stored s' t' k' = if bool_decide (t' = t ∧ k' = k) then None else stored s t' k'.
Proof.
  pose proof (delete_works t k s) as Hw. destruct (delete_custom_data t k s) as [[[]|] s'] eqn:Hx; [|done].
  exists s'. split; [done|]. apply delete_stored in Hx as [Ho [Hk|[? _]]]; [|done].
  intros t' k'. case_bool_decide; [by destruct_and!; subst|by apply Ho].
Qed.
Lemma migrated_twice mainnet s v n :
  stored s ADDRESS_BOOK_V2_TREE (DString MIGRATION_MARKER_KEY) = Some v →
  decode_marker v = Ok n →
  migrate_address_book_v2 mainnet s = (Ok (mkMigration n true), s).
Proof.
  intros Hv Hn. unfold migrate_address_book_v2, mbind, action_bind, stored_read, lift.
  rewrite has_spec, Hv; cbn [map_err]. rewrite bool_decide_true by done; cbn.
  rewrite (get_spec _ _ _ _ Hv); cbn. by rewrite Hn.
Qed.
End WorkingStorage.

(** What was saved is found again: after an upsert,
    on a storage that works looking up the id it returned gives the very entry it returned, and
    removing that id makes it unknown. *)
Theorem upsert_find_remove `{!StorageLaws, !StorageWorks} mainnet address name label note s e s' :
  upsert_address_book_entry_v2 mainnet address name label note s = (Ok e, s') →
  validate_entry_id (e_id e) = Ok tt →
  (∀ a, address_from_string (trim address) = Ok a → prints_canonically a) →
  find_address_book_entry_v2 mainnet (e_id e) s' = (Ok e, s') ∧
  ∃ s'', remove_address_book_entry_v2 mainnet (e_id e) s' = (Ok tt, s'') ∧
    find_address_book_entry_v2 mainnet (e_id e) s'' = (Err entry_not_found, s'').
Proof.
  unfold upsert_address_book_entry_v2, mbind, action_bind, lift. intros Hu Hid Hp.
  destruct (migrate_address_book_v2 mainnet s) as [[x|] s1] eqn:Hm; [|done].
  apply migrate_outcome in Hm as (_ & _ & Hm). destruct (Hm x eq_refl) as [(v & Hv & Hd) _].
  destruct (normalize_entry address name label note mainnet) as [e'|] eqn:He; [|done].
  unfold stored_write, map_err_action in Hu.
  destruct (set_spec ADDRESS_BOOK_V2_TREE (entry_key (e_id e')) (encode_entry e') s1)
    as (s2 & Hset & Hs2). rewrite Hset in Hu; cbn in Hu. injection Hu as <- <-.
  assert (∀ s3, stored s3 ADDRESS_BOOK_V2_TREE (DString MIGRATION_MARKER_KEY) = Some v →
    migrate_address_book_v2 mainnet s3 = (Ok (mkMigration (migrated_entries x) true), s3))
    as Hmig by (intros; by eapply migrated_twice).
  assert (stored s2 ADDRESS_BOOK_V2_TREE (DString MIGRATION_MARKER_KEY) = Some v) as Hv2.
  { rewrite Hs2, bool_decide_false; [done|]. intros [_ Heq]. by eapply entry_key_marker. }
  assert (stored s2 ADDRESS_BOOK_V2_TREE (entry_key (e_id e')) = Some (encode_entry e')) as Hk.
  { by rewrite Hs2, bool_decide_true by done. }
  split.
  - unfold find_address_book_entry_v2, mbind, action_bind, lift, stored_read.
    rewrite Hmig by done. rewrite Hid, has_spec, Hk; cbn [map_err].
    rewrite bool_decide_true by done; cbn [negb]. rewrite (get_spec _ _ _ _ Hk);
      cbn [map_err]. erewrite decode_encode; [done|]. by eapply normalize_entry_idem.
  - destruct (delete_spec ADDRESS_BOOK_V2_TREE (entry_key (e_id e')) s2) as (s3 & Hdel & Hs3).
    exists s3. split.
    + unfold remove_address_book_entry_v2, mbind, action_bind, lift, stored_read.
      rewrite Hmig by done. rewrite Hid, has_spec, Hk; cbn [map_err].
      rewrite bool_decide_true by done; cbn [negb]. unfold stored_write, map_err_action.
      by rewrite Hdel.
    + unfold find_address_book_entry_v2, mbind, action_bind, lift, stored_read.
      rewrite Hmig. 2:{ rewrite Hs3, bool_decide_false; [done|].
        intros [_ Heq]. by eapply entry_key_marker. }
      assert (stored s3 ADDRESS_BOOK_V2_TREE (entry_key (e_id e')) = None) as Hgone
        by (by rewrite Hs3, bool_decide_true by done).
      rewrite Hid, has_spec, Hgone; cbn [map_err].
      by rewrite bool_decide_false by (intros [? [=]]).
Qed.

Lemma paginate_page entries s n :
  (zlen entries ≤ u32_max)%Z → (Z.of_nat s ≤ u32_max)%Z →
  paginate entries (Z.of_nat s) (Some (Z.of_nat n))
  = Ok (mkPage (take n (drop s entries)) (zlen entries)
          (bool_decide (s + n < length entries)%nat)).
Proof.
  unfold paginate, zlen, skip_take. intros Hl Hs.
  assert (u32_max < usize_max)%Z by (unfold u32_max, usize_max, u64_max; lia).
  rewrite (proj2 (try_from_Some u32_max (Z.of_nat (length entries)) (Z.of_nat (length entries))))
    by lia. cbn [ok_or mbind result_bind].
  rewrite (proj2 (try_from_Some usize_max (Z.of_nat s) (Z.of_nat s))) by lia.
  cbn [ok_or mbind result_bind]. rewrite !Nat2Z.id.
  set (page := take n (drop s entries)).
  assert (length page = n `min` (length entries - s))%nat as Hp.
  { unfold page. by rewrite length_take, length_drop. }
  rewrite (proj2 (try_from_Some u32_max (Z.of_nat (length page)) (Z.of_nat (length page)))) by lia.
  cbn [from_option id]. rewrite (proj2 (checked_add_Some usize_max (Z.of_nat s)
    (Z.of_nat (length page)) (Z.of_nat s + Z.of_nat (length page)))%Z)
    by (unfold u32_max, usize_max, u64_max in *; lia).
  repeat f_equal. apply bool_decide_ext. lia.
Qed.

Lemma pages_concat {A} (l : list A) n k :
  concat ((λ i, take n (drop (i * n) l)) <$> seq 0 k) = take (k * n) l.
Proof.
  induction k as [|k IH]; [done|].
  rewrite seq_S, fmap_app, concat_app, IH; cbn. rewrite app_nil_r.
  rewrite (Nat.add_comm n), <-take_take_drop. done.
Qed.

(** Reading the book page by page is reading it: the
    consecutive pages of any size put together are the listed entries, in
    order, without loss or repetition, every page reports the total, and
    [has_more] is true exactly as long as entries remain. *)
Theorem pages_cover entries n k :
  (zlen entries ≤ u32_max)%Z → (Z.of_nat (k * n) ≤ u32_max)%Z →
  ∃ pages,
    mapM (λ i, paginate entries (Z.of_nat (i * n)) (Some (Z.of_nat n))) (seq 0 k) = Ok pages ∧
    concat (page_entries <$> pages) = take (k * n) entries ∧
    ∀ i p, pages !! i = Some p →
      page_total p = zlen entries ∧
      (page_has_more p = true ↔ (i * n + n < length entries)%nat).
Proof.
  intros Hl Hk.
  exists ((λ i, mkPage (take n (drop (i * n) entries)) (zlen entries)
           (bool_decide (i * n + n < length entries)%nat)) <$> seq 0 k).
  split_and!.
  - apply mapM_Ok, Forall2_fmap_r, Forall_Forall2_diag, Forall_forall.
    intros i [_ Hi]%elem_of_seq. apply paginate_page; [done|].
    assert (i * n ≤ k * n)%nat by (apply Nat.mul_le_mono_r; lia). lia.
  - rewrite <-list_fmap_compose. apply pages_concat.
  - intros i p. rewrite list_lookup_fmap. destruct (seq 0 k !! i) eqn:Hi; [|done].
    apply lookup_seq in Hi as [-> _]. intros [= <-]; cbn. by rewrite bool_decide_eq_true.
Qed.

End Book.

(** ** A concrete store *)

(** A list of records (tree, key, value) with one record per tree and key. *)
Definition record `{!HashLib} : Type := (string * DataValue) * DataElement.

Fixpoint record_get `{!HashLib} (s : list record) (t : string) (k : DataValue) :
    option DataElement :=
  match s with
  | [] => None
  | (tk, v) :: s' => if bool_decide (tk = (t, k)) then Some v else record_get s' t k
  end.
Fixpoint record_delete `{!HashLib} (t : string) (k : DataValue) (s : list record) :
    list record :=
  match s with
  | [] => []
  | r :: s' => if bool_decide (r.1 = (t, k)) then record_delete t k s'
               else r :: record_delete t k s'
  end.
Fixpoint record_query `{!HashLib} (t : string) (s : list record) (seen : list DataValue) :
    list (DataValue * DataElement) :=
  match s with
  | [] => []
  | ((t', k), v) :: s' =>
      if bool_decide (t' = t ∧ k ∉ seen) then (k, v) :: record_query t s' (k :: seen)
      else record_query t s' seen
  end.

(** The storage of such lists on which the records of [bad] cannot be written. *)
Definition faulty_storage `{!HashLib} (bad : string → DataValue → bool) : CustomStorage := {|
  Storage := list record;
  stored := record_get;
  has_custom_data t k s := Ok (bool_decide (is_Some (record_get s t k)));
  get_custom_data t k s := ok_or (bail "not found") (record_get s t k);
  set_custom_data t k v s := if bad t k then (Err (bail "disk full"), s) else (Ok tt, ((t, k), v) :: s);
  delete_custom_data t k s :=
    if bad t k then (Err (bail "disk full"), s) else (Ok tt, record_delete t k s);
  query_db t s := Ok (record_query t s [])
|}.
Definition demo_storage `{!HashLib} : CustomStorage := faulty_storage (λ _ _, false).

Lemma record_get_delete `{!HashLib} s t k t' k' :
  record_get (record_delete t k s) t' k'
  = if bool_decide (t' = t ∧ k' = k) then None else record_get s t' k'.
Proof.
  induction s as [|[tk v] s IH]; [by cbn; case_bool_decide|].
  cbn [record_delete fst]. destruct (bool_decide_reflect (tk = (t, k))) as [->|Hd];
    cbn [record_get]; rewrite IH; repeat case_bool_decide; naive_solver.
Qed.

Lemma record_query_spec `{!HashLib} t s : ∀ seen,
  NoDup (record_query t s seen).*1 ∧
  ∀ k v, (k, v) ∈ record_query t s seen ↔ k ∉ seen ∧ record_get s t k = Some v.
Proof.
  induction s as [|[[t' k'] v'] s IH]; intros seen; cbn.
  { split; [constructor|]. set_solver. }
  case_bool_decide as Hb.
  - destruct Hb as [-> Hk]. destruct (IH (k' :: seen)) as [Hn Hin]. split.
    + cbn. constructor; [|done]. rewrite list_elem_of_fmap. intros ([k v] & -> & Hkv).
      apply Hin in Hkv as [Hs _]. set_solver.
    + intros k v. rewrite elem_of_cons, Hin. case_bool_decide; naive_solver set_solver.
  - destruct (IH seen) as [Hn Hin]. split; [done|]. intros k v. rewrite Hin.
    case_bool_decide; naive_solver.
Qed.

Lemma faulty_storage_laws `{!HashLib} bad : @StorageLaws _ (faulty_storage bad).
Proof.
  split; cbn.
  - by intros t k s b [= <-].
  - intros t k s v. by destruct (record_get s t k); intros [= ->].
  - intros t k v s r s'. destruct (bad t k); intros [= <- <-]; [by auto|]. split.
    + intros t' k' Hne. cbn. rewrite bool_decide_false; [done|]. naive_solver.
    + left. cbn. by rewrite bool_decide_true.
  - intros t k s r s'. destruct (bad t k); intros [= <- <-]; [by auto|]. split.
    + intros t' k' Hne. by rewrite record_get_delete, bool_decide_false.
    + left. by rewrite record_get_delete, bool_decide_true.
  - intros t s l [= <-]. destruct (record_query_spec t s []) as [Hn Hin].
    split; [done|]. intros k v. rewrite Hin. set_solver.
Qed.
Lemma demo_storage_laws `{!HashLib} : @StorageLaws _ demo_storage.
Proof. apply faulty_storage_laws. Qed.
Lemma demo_storage_works `{!HashLib} : @StorageWorks _ demo_storage.
Proof. split; cbn; [done| |done|done]. intros t k s [v Hv]. by rewrite Hv. Qed.

(** ** Concrete runs *)

#[local] Existing Instances plain_text demo_hash demo_address demo_storage.

(** Lowercasing does nothing; every destination hashes to the same valid id. *)
Definition demo_id : string :=
  "00000000000000000000000000000000000000000000000000000000000000a"%string.
Definition demo_text : TextLib := {|
  to_lowercase s := s;
  hash_multiple _ := demo_id
|}.
#[local] Existing Instance demo_text.

(** A store with one legacy record. *)
Definition demo_book : list record :=
  [((LEGACY_TREE, DString "xelbob"),
    DFields [field "name" (DString "Bob"); field "address" (DString "xelbob")])]%string.

Definition demo_migrated : list record := (migrate_address_book_v2 true demo_book).2.

Lemma bob_prints a :
  address_from_string (trim "xelbob") = Ok a → prints_canonically a.
Proof. intros [= <-]. vm_compute. repeat split; discriminate. Qed.

Definition bob_entry : NativeAddressBookEntry :=
  mkEntry ("f" +:+ demo_id) "Bob" (Some "office"%string) None
    (mkSavedDestination "xelbob" "xelbob" Standard None).

Lemma entry_codec_roundtrip_witness :
  decode_entry (e_id bob_entry) (encode_entry bob_entry) true = Ok bob_entry.
Proof.
  apply (entry_codec_roundtrip "xelbob" " Bob" (Some "office") None true bob_entry)%string.
  - reflexivity.
  - apply bob_prints.
Defined.

(** The storage on which the mark of completion cannot be written, and what the
    migration leaves there: Bob is in the book, and it will be run again. *)
Definition unmarkable : CustomStorage :=
  faulty_storage (λ _ k, bool_decide (k = DString MIGRATION_MARKER_KEY)).
Definition half_migrated : list record :=
  (@migrate_address_book_v2 _ _ _ unmarkable _ true demo_book).2.

Lemma migration_safe_witness :
  (∀ k v, stored demo_book LEGACY_TREE k = Some v →
    ∃ e, migrate_record true (k, v) = Ok e ∧ recorded true demo_migrated e) ∧
  (∀ r2 s2, migrate_address_book_v2 true demo_migrated = (r2, s2) → s2 = demo_migrated) ∧
  @extends _ unmarkable demo_book half_migrated ∧ length half_migrated = 2.
Proof.
  destruct (@migration_safe _ _ _ _ _ demo_storage_laws true demo_book
              (Ok (mkMigration 1 false)) demo_migrated) as (He & _ & Hx).
  { reflexivity. }
  destruct (Hx _ eq_refl) as [Hm Hr]. split; [apply Hm; reflexivity|]. split; [apply Hr|].
  split; [|reflexivity].
  eapply (@migration_safe _ _ _ unmarkable _ (faulty_storage_laws _) true demo_book _ half_migrated).
  reflexivity.
Defined.

(** The book after saving Bob. *)
Definition demo_saved : list record :=
  (upsert_address_book_entry_v2 true "xelbob" "Bob" (Some "office") None demo_migrated).2%string.

Lemma upsert_find_remove_witness :
  find_address_book_entry_v2 true (e_id bob_entry) demo_saved = (Ok bob_entry, demo_saved).
Proof.
  apply (@upsert_find_remove _ _ _ _ _ demo_storage_laws demo_storage_works true "xelbob" "Bob"
           (Some "office") None demo_migrated bob_entry demo_saved)%string.
  - reflexivity.
  - reflexivity.
  - apply bob_prints.
Defined.

Lemma pages_cover_witness : ∃ pages,
  mapM (λ i, paginate [bob_entry] (Z.of_nat (i * 1)) (Some 1%Z)) (seq 0 1) = Ok pages ∧
  concat (page_entries <$> pages) = [bob_entry].
Proof.
  destruct (pages_cover [bob_entry] 1 1) as (pages & Hm & Hc & _).
  - cbn. done.
  - cbn. done.
  - exists pages. split; [exact Hm|exact Hc].
Defined.

End AddressBook.
