(* ===== verification/Payload.v ===== *)
(** * Payload projection (rust/src/api/models/xswd_dtos.rs)

    A request of an XSWD application reaches Dart as a flat stream of tokens,
    projected from its JSON value under the limits that the caller chose.  JSON
    numbers belong to serde_json: the three views the code takes of them are the
    class [JsonNumber]. *)

From Stdlib Require Import SpecFloat DecimalString.
From S2P Require Import Prelude Text.

Module Payload.

Definition i64_min : Z := -9223372036854775808.
Definition i64_max : Z := 9223372036854775807.

(** [serde_json::Number]. *)
Class JsonNumber := {
  Number : Type;
  as_i64 : Number → option Z;
  as_u64 : Number → option Z;
  as_f64 : Number → option spec_float
}.

(** A number is an integer of [u64], a negative integer of [i64], or a float. *)
Class JsonNumberLaws `{!JsonNumber} : Prop := {
  as_i64_inj n m z : as_i64 n = Some z → as_i64 m = Some z → n = m;
  as_u64_inj n m z : as_u64 n = Some z → as_u64 m = Some z → n = m;
  as_u64_range n z : as_u64 n = Some z → (0 ≤ z)%Z;
  as_i64_first n m z : as_u64 n = Some z → as_i64 m = Some z → n = m;
  as_f64_inj n m x : as_i64 n = None → as_u64 n = None → as_i64 m = None → as_u64 m = None →
    as_f64 n = Some x → as_f64 m = Some x → n = m
}.

Section Projection.
Context `{!JsonNumber}.

(** [serde_json::Value]; an object is the list of its fields in iteration order. *)
Inductive Value : Type :=
  | Null
  | Bool (value : bool)
  | Num (value : Number)
  | Str (value : string)
  | Array (values : list Value)
  | Object (fields : list (string * Value)).

Record NativeXswdProjectionLimits : Type := mkLimits {
  max_depth : Z;
  max_tokens : Z;
  max_container_members : Z;
  max_text_bytes : Z;
  max_total_text_bytes : Z
}.

Definition DEFAULT_XSWD_PAYLOAD_DEPTH : Z := 64.
Definition DEFAULT_XSWD_PAYLOAD_TOKENS : Z := 65536.
Definition DEFAULT_XSWD_CONTAINER_MEMBERS : Z := 4096.
Definition DEFAULT_XSWD_TEXT_BYTES : Z := 4 * 1024 * 1024.
Definition DEFAULT_XSWD_TOTAL_TEXT_BYTES : Z := 8 * 1024 * 1024.
Definition TECHNICAL_MAX_XSWD_PAYLOAD_DEPTH : Z := 128.
Definition TECHNICAL_MAX_XSWD_PAYLOAD_TOKENS : Z := 262144.
Definition TECHNICAL_MAX_XSWD_CONTAINER_MEMBERS : Z := 65536.
Definition TECHNICAL_MAX_XSWD_TEXT_BYTES : Z := 8 * 1024 * 1024.
Definition TECHNICAL_MAX_XSWD_TOTAL_TEXT_BYTES : Z := 16 * 1024 * 1024.

Definition limits_default : NativeXswdProjectionLimits := {|
  max_depth := DEFAULT_XSWD_PAYLOAD_DEPTH;
  max_tokens := DEFAULT_XSWD_PAYLOAD_TOKENS;
  max_container_members := DEFAULT_XSWD_CONTAINER_MEMBERS;
  max_text_bytes := DEFAULT_XSWD_TEXT_BYTES;
  max_total_text_bytes := DEFAULT_XSWD_TOTAL_TEXT_BYTES
|}.

Inductive XswdProjectionLimitsError : Type :=
  | LimDepth | LimTokens | LimContainerMembers | LimTextBytes | LimTotalTextBytes.

Definition limits_error_code (e : XswdProjectionLimitsError) : string :=
  match e with
  | LimDepth => "XSWD_LIMIT_MAX_DEPTH_INVALID"
  | LimTokens => "XSWD_LIMIT_MAX_TOKENS_INVALID"
  | LimContainerMembers => "XSWD_LIMIT_MAX_CONTAINER_MEMBERS_INVALID"
  | LimTextBytes => "XSWD_LIMIT_MAX_TEXT_BYTES_INVALID"
  | LimTotalTextBytes => "XSWD_LIMIT_MAX_TOTAL_TEXT_BYTES_INVALID"
  end.

(** The limits are [u32]s. *)
Definition validate (l : NativeXswdProjectionLimits) :
    result XswdProjectionLimitsError NativeXswdProjectionLimits :=
  let outside x max := bool_decide (x = 0 ∨ max < x)%Z in
  if outside (max_depth l) TECHNICAL_MAX_XSWD_PAYLOAD_DEPTH then Err LimDepth
  else if outside (max_tokens l) TECHNICAL_MAX_XSWD_PAYLOAD_TOKENS then Err LimTokens
  else if outside (max_container_members l) TECHNICAL_MAX_XSWD_CONTAINER_MEMBERS
  then Err LimContainerMembers
  else if outside (max_text_bytes l) TECHNICAL_MAX_XSWD_TEXT_BYTES then Err LimTextBytes
  else if outside (max_total_text_bytes l) TECHNICAL_MAX_XSWD_TOTAL_TEXT_BYTES
          || bool_decide (max_total_text_bytes l < max_text_bytes l)%Z
  then Err LimTotalTextBytes
  else Ok l.

Inductive NativeXswdPayloadTokenKind : Type :=
  | KNull | KBool | KStringValue | KInteger | KFloat | KArrayStart | KObjectStart | KObjectKey.

Record NativeXswdPayloadToken : Type := mkToken {
  kind : NativeXswdPayloadTokenKind;
  bool_value : option bool;
  text_value : option string;
  float_value : option spec_float;
  length_value : option Z
}.

Definition with_kind (k : NativeXswdPayloadTokenKind) : NativeXswdPayloadToken :=
  mkToken k None None None None.
Definition token_null : NativeXswdPayloadToken := with_kind KNull.
Definition token_bool (b : bool) : NativeXswdPayloadToken :=
  mkToken KBool (Some b) None None None.
Definition token_string (s : string) : NativeXswdPayloadToken :=
  mkToken KStringValue None (Some s) None None.
Definition token_integer (s : string) : NativeXswdPayloadToken :=
  mkToken KInteger None (Some s) None None.
Definition token_float (x : spec_float) : NativeXswdPayloadToken :=
  mkToken KFloat None None (Some x) None.
Definition array_start (n : Z) : NativeXswdPayloadToken :=
  mkToken KArrayStart None None None (Some n).
Definition object_start (n : Z) : NativeXswdPayloadToken :=
  mkToken KObjectStart None None None (Some n).
Definition object_key (s : string) : NativeXswdPayloadToken :=
  mkToken KObjectKey None (Some s) None None.

Inductive XswdPayloadProjectionError : Type :=
  | Serialization | RootNotObject | DepthLimit | TokenLimit | ContainerLimit | TextLimit
  | TotalTextLimit | UnsupportedNumber.

Definition projection_error_code (e : XswdPayloadProjectionError) : string :=
  match e with
  | Serialization => "serialization"
  | RootNotObject => "root_not_object"
  | DepthLimit => "depth_limit"
  | TokenLimit => "token_limit"
  | ContainerLimit => "container_limit"
  | TextLimit => "text_limit"
  | TotalTextLimit => "total_text_limit"
  | UnsupportedNumber => "unsupported_number"
  end.

Record PayloadProjection : Type := mkProjection {
  limits : NativeXswdProjectionLimits;
  tokens : list NativeXswdPayloadToken;
  total_text_bytes : Z
}.

Abbreviation projection := (action PayloadProjection XswdPayloadProjectionError).

Definition projection_new (l : NativeXswdProjectionLimits) : PayloadProjection :=
  {| limits := l; tokens := []; total_text_bytes := 0 |}.

Definition push (token : NativeXswdPayloadToken) : projection unit :=
  s ← get_state;
  if bool_decide (max_tokens (limits s) ≤ zlen (tokens s))%Z then throw TokenLimit
  else put_state {| limits := limits s; tokens := tokens s ++ [token];
                    total_text_bytes := total_text_bytes s |}.

Definition validate_container_length (length : Z) : projection unit :=
  s ← get_state;
  if bool_decide (max_container_members (limits s) < length)%Z then throw ContainerLimit
  else mret tt.

Definition add_text (value : string) : projection unit :=
  s ← get_state;
  let length := str_len value in
  if bool_decide (max_text_bytes (limits s) < length)%Z then throw TextLimit
  else
    total ← lift (ok_or TotalTextLimit
                    (checked_add usize_max (total_text_bytes s) length));
    put_state {| limits := limits s; tokens := tokens s; total_text_bytes := total |};;
    if bool_decide (max_total_text_bytes (limits s) < total)%Z then throw TotalTextLimit
    else mret tt.

(** The [as u32] cast. *)
Definition as_u32 (z : Z) : Z := (z `mod` 4294967296)%Z.

(** [i64::to_string]. *)
Definition int_to_string (z : Z) : string :=
  if bool_decide (z < 0)%Z then "-" +:+ uint_to_string (- z) else uint_to_string z.

(** The token of a number: an integer keeps its decimal text. *)
Definition number_token (value : Number) : option NativeXswdPayloadToken :=
  match as_i64 value with
  | Some value => Some (token_integer (int_to_string value))
  | None =>
      match as_u64 value with
      | Some value => Some (token_integer (uint_to_string value))
      | None => token_float <$> as_f64 value
      end
  end.

(** A [for] loop whose body may fail. *)
Definition for_each {A} (body : A → projection unit) : list A → projection unit :=
  fix go l := match l with [] => mret tt | x :: l' => body x;; go l' end.

Fixpoint project_value (value : Value) (depth : Z) : projection unit :=
  s ← get_state;
  if bool_decide (max_depth (limits s) < depth)%Z then throw DepthLimit
  else
    match value with
    | Null => push token_null
    | Bool value => push (token_bool value)
    | Str value => add_text value;; push (token_string value)
    | Num value =>
        match number_token value with
        | Some token => push token
        | None => throw UnsupportedNumber
        end
    | Array values =>
        validate_container_length (zlen values);;
        push (array_start (as_u32 (zlen values)));;
        for_each (λ value, project_value value (depth + 1)) values
    | Object fields =>
        validate_container_length (zlen fields);;
        push (object_start (as_u32 (zlen fields)));;
        for_each (λ '(key, value),
          add_text key;;
          push (object_key key);;
          project_value value (depth + 1)) fields
    end.

Definition is_object (value : Value) : bool :=
  match value with Object _ => true | _ => false end.

(** [NativeXswdPayload::project] of a value that serializes as [to_value]. *)
Definition project {T} (to_value : T → option Value) (value : T)
    (l : NativeXswdProjectionLimits) :
    result XswdPayloadProjectionError (list NativeXswdPayloadToken) :=
  value ← ok_or Serialization (to_value value);
  if negb (is_object value) then Err RootNotObject
  else
    match project_value value 1 (projection_new l) with
    | (Ok _, projection) => Ok (tokens projection)
    | (Err e, _) => Err e
    end.

(** ** Reference definitions for the theorems *)

(** What a value costs: its nesting depth, the tokens of its stream, the sizes
    of its containers, its texts, and whether all its numbers have a view. *)
Record measure : Type := mkMeasure {
  m_depth : Z;
  m_tokens : list NativeXswdPayloadToken;
  m_containers : list Z;
  m_texts : list string;
  m_supported : bool
}.

Definition m_nil : measure := mkMeasure 0 [] [] [] true.
Definition m_app (m1 m2 : measure) : measure := {|
  m_depth := m_depth m1 `max` m_depth m2;
  m_tokens := m_tokens m1 ++ m_tokens m2;
  m_containers := m_containers m1 ++ m_containers m2;
  m_texts := m_texts m1 ++ m_texts m2;
  m_supported := m_supported m1 && m_supported m2
|}.
Definition m_concat {A} (f : A → measure) (l : list A) : measure :=
  foldr (λ x m, m_app (f x) m) m_nil l.
(** One level deeper. *)
Definition m_nest (m : measure) : measure :=
  mkMeasure (1 + m_depth m) (m_tokens m) (m_containers m) (m_texts m) (m_supported m).
Definition m_token (t : NativeXswdPayloadToken) : measure := mkMeasure 0 [t] [] [] true.
Definition m_text (s : string) : measure := mkMeasure 0 [] [] [s] true.
Definition m_container (n : Z) : measure := mkMeasure 0 [] [n] [] true.

Fixpoint measure_of (value : Value) : measure :=
  m_nest match value with
  | Null => m_token token_null
  | Bool b => m_token (token_bool b)
  | Str s => m_app (m_text s) (m_token (token_string s))
  | Num n =>
      match number_token n with
      | Some t => m_token t
      | None => mkMeasure 0 [] [] [] false
      end
  | Array values =>
      m_app (m_container (zlen values)) (m_app (m_token (array_start (zlen values)))
        (m_concat measure_of values))
  | Object fields =>
      m_app (m_container (zlen fields)) (m_app (m_token (object_start (zlen fields)))
        (m_concat (λ '(key, value),
           m_app (m_text key) (m_app (m_token (object_key key)) (measure_of value))) fields))
  end.

Definition text_total (texts : list string) : Z := foldr (λ t n, str_len t + n)%Z 0%Z texts.

(** A cost that fits on top of what a projection already holds at a depth. *)
Definition room (s : PayloadProjection) (depth : Z) (m : measure) : Prop :=
  (depth + m_depth m ≤ max_depth (limits s) ∧
   zlen (tokens s) + zlen (m_tokens m) ≤ max_tokens (limits s) ∧
   Forall (λ n, n ≤ max_container_members (limits s)) (m_containers m) ∧
   Forall (λ t, str_len t ≤ max_text_bytes (limits s)) (m_texts m) ∧
   total_text_bytes s + text_total (m_texts m) ≤ max_total_text_bytes (limits s))%Z ∧
  m_supported m = true.

#[export] Instance room_dec s depth m : Decision (room s depth m).
Proof. unfold room. apply _. Defined.

Definition advance (s : PayloadProjection) (m : measure) : PayloadProjection :=
  mkProjection (limits s) (tokens s ++ m_tokens m)
    (total_text_bytes s + text_total (m_texts m)).

(** A projection that has kept its limits, whose limits were validated. *)
Definition within (s : PayloadProjection) (depth : Z) : Prop :=
  (0 ≤ max_container_members (limits s) ≤ u32_max ∧
   max_total_text_bytes (limits s) ≤ u32_max ∧
   depth ≤ max_depth (limits s) ∧ zlen (tokens s) ≤ max_tokens (limits s) ∧
   total_text_bytes s ≤ max_total_text_bytes (limits s))%Z.

(** A projection step that costs [m]. *)
Definition costs {A} (p : projection A) (depth : Z) (m : measure) : Prop :=
  ∀ s, within s depth →
    (room s depth m → ∃ a, p s = (Ok a, advance s m)) ∧
    (¬ room s depth m → ∃ e s', p s = (Err e, s')).

(** ** The projection has exactly the cost of the value *)

Lemma zlen_app {A} (l k : list A) : zlen (l ++ k) = (zlen l + zlen k)%Z.
Proof. unfold zlen. rewrite length_app. lia. Qed.
Lemma zlen_nonneg {A} (l : list A) : (0 ≤ zlen l)%Z.
Proof. unfold zlen. lia. Qed.
Lemma str_len_nonneg s : (0 ≤ str_len s)%Z.
Proof. apply zlen_nonneg. Qed.
Lemma text_total_app l k : text_total (l ++ k) = (text_total l + text_total k)%Z.
Proof. unfold text_total. induction l as [|t l IH]; cbn; [done|]. lia. Qed.
Lemma text_total_nonneg l : (0 ≤ text_total l)%Z.
Proof.
  induction l as [|s l IH]; cbn; [done|]. pose proof (str_len_nonneg s).
  unfold text_total in *. lia.
Qed.

Lemma measure_ext m1 m2 :
  m_depth m1 = m_depth m2 → m_tokens m1 = m_tokens m2 → m_containers m1 = m_containers m2 →
  m_texts m1 = m_texts m2 → m_supported m1 = m_supported m2 → m1 = m2.
Proof. destruct m1, m2; cbn; congruence. Qed.

Lemma advance_app s m1 m2 : advance (advance s m1) m2 = advance s (m_app m1 m2).
Proof.
  unfold advance; cbn. rewrite text_total_app, (assoc_L (++)). f_equal. lia.
Qed.

Lemma room_app s depth m1 m2 :
  (0 ≤ m_depth m1)%Z → (0 ≤ m_depth m2)%Z →
  room s depth (m_app m1 m2) ↔ room s depth m1 ∧ room (advance s m1) depth m2.
Proof.
  intros H1 H2. unfold room; cbn. rewrite !zlen_app, !Forall_app, text_total_app, andb_true_iff.
  pose proof (zlen_nonneg (m_tokens m2)). pose proof (text_total_nonneg (m_texts m2)).
  split; [intros ((?&?&[]&[]&?)&[])|intros [((?&?&?&?&?)&?) ((?&?&?&?&?)&?)]];
    repeat split; try done; lia.
Qed.

Lemma within_advance s depth m : within s depth → room s depth m → within (advance s m) depth.
Proof.
  intros (?&?&?&?&?) ((?&?&?&?&?)&?). unfold within; cbn. rewrite zlen_app. repeat split; lia.
Qed.

Lemma costs_bind {A B} (p : projection A) (f : A → projection B) depth m1 m2 :
  (0 ≤ m_depth m1)%Z → (0 ≤ m_depth m2)%Z →
  costs p depth m1 → (∀ a, costs (f a) depth m2) → costs (a ← p; f a) depth (m_app m1 m2).
Proof.
  intros H1 H2 Hp Hf s Hs. unfold mbind, action_bind. rewrite room_app by done.
  destruct (Hp s Hs) as [Hok Herr]. split.
  - intros [Hr1 Hr2]. destruct (Hok Hr1) as [a ->].
    destruct (Hf a _ (within_advance s depth m1 Hs Hr1)) as [Hok2 _].
    rewrite <-advance_app. by apply Hok2.
  - intros Hn. destruct (p s) as [[a|e] s1] eqn:Hps; [|eauto].
    assert (room s depth m1) as Hr1.
    { destruct (decide (room s depth m1)) as [|Hr]; [done|].
      by destruct (Herr Hr) as (e & s' & [=]). }
    destruct (Hok Hr1) as [a' [= <- ->]].
    destruct (Hf a _ (within_advance s depth m1 Hs Hr1)) as [_ Herr2]. naive_solver.
Qed.

Lemma costs_nest (p : projection unit) depth m :
  (0 ≤ m_depth m)%Z → costs p (depth + 1) m →
  costs (s ← get_state;
         if bool_decide (max_depth (limits s) < depth + 1)%Z then throw DepthLimit else p)
    depth (m_nest m).
Proof.
  intros Hm Hp s (?&?&?&?&?). unfold mbind, action_bind, get_state.
  assert (room s depth (m_nest m) ↔ room s (depth + 1) m) as Hr.
  { unfold room; cbn. by rewrite Z.add_assoc. }
  rewrite Hr. case_bool_decide as Hd.
  - split; [|unfold throw; eauto]. intros ((?&_)&_). lia.
  - apply Hp. repeat split; lia.
Qed.

Lemma costs_ret depth : costs (mret tt) depth m_nil.
Proof.
  intros s Hs. destruct Hs as (?&?&?&?&?). split.
  - intros _. exists tt. unfold advance; cbn. rewrite (right_id_L [] (++)), Z.add_0_r.
    by destruct s.
  - intros []. unfold room, zlen in *; cbn in *. repeat split; done || lia.
Qed.

Lemma costs_push t depth : costs (push t) depth (m_token t).
Proof.
  intros s (?&?&?&?&?). unfold push. run.
  - split; [|eauto]. intros ((?&Ht&_)&_). unfold zlen in *; cbn in *. lia.
  - split; [|intros []; unfold room, zlen in *; cbn in *; repeat split; done || lia].
    intros _. exists tt. unfold advance; cbn. by rewrite Z.add_0_r.
Qed.

Lemma costs_add_text t depth : costs (add_text t) depth (m_text t).
Proof.
  intros s (?&?&?&?&?). pose proof (str_len_nonneg t).
  assert (room s depth (m_text t) ↔ (str_len t ≤ max_text_bytes (limits s) ∧
    total_text_bytes s + str_len t ≤ max_total_text_bytes (limits s))%Z) as Hr.
  { unfold room, zlen in *; cbn in *. rewrite Forall_singleton, !Z.add_0_r.
    split; [intros ((?&?&?&?&?)&?)|intros [??]]; repeat split; done || lia. }
  rewrite Hr. unfold add_text. run; try (split; [|by eauto]; lia).
  - match goal with H : checked_add _ _ _ = Some _ |- _ => apply checked_add_Some in H as [-> ?] end.
    split; [lia|eauto].
  - match goal with H : checked_add _ _ _ = Some _ |- _ => apply checked_add_Some in H as [-> ?] end.
    split; [|lia]. intros _. exists tt. unfold advance; cbn.
    by rewrite Z.add_0_r, (right_id_L [] (++)).
  - match goal with H : checked_add _ _ _ = None |- _ => apply checked_add_None in H end.
    split; [|eauto]. unfold usize_max, u64_max, u32_max in *. lia.
Qed.

Lemma costs_container {A} n (p : projection A) depth m :
  (0 ≤ m_depth m)%Z → ((n ≤ u32_max)%Z → costs p depth m) →
  costs (validate_container_length n;; p) depth (m_app (m_container n) m).
Proof.
  intros Hm Hp s Hs. pose proof Hs as (?&?&?&?&?).
  unfold validate_container_length. unfold_monad. case_bool_decide.
  - split; [|eauto]. rewrite room_app by done. intros [((_&_&Hc&_)&_) _].
    apply Forall_inv in Hc. cbn in Hc. lia.
  - destruct (Hp ltac:(lia) s Hs) as [Hok Herr].
    assert (m_app (m_container n) m = mkMeasure (m_depth m) (m_tokens m)
      (n :: m_containers m) (m_texts m) (m_supported m)) as ->.
    { apply measure_ext; cbn; try done. lia. }
    assert (room s depth (mkMeasure (m_depth m) (m_tokens m) (n :: m_containers m)
      (m_texts m) (m_supported m)) ↔ room s depth m) as Hr.
    { unfold room; cbn. rewrite Forall_cons.
      split; [intros ((?&?&[]&?&?)&?)|intros ((?&?&?&?&?)&?)]; repeat split; done || lia. }
    rewrite Hr. split; [exact Hok|exact Herr].
Qed.

Lemma costs_for_each {A} (body : A → projection unit) f l depth :
  (∀ x, x ∈ l → (0 ≤ m_depth (f x))%Z ∧ costs (body x) depth (f x)) →
  (0 ≤ m_depth (m_concat f l))%Z ∧ costs (for_each body l) depth (m_concat f l).
Proof.
  induction l as [|x l IH]; intros Hl; [split; [done|apply costs_ret]|].
  destruct (Hl x) as [Hd Hx]; [left|].
  destruct IH as [Hds Hxs]; [intros y Hy; apply Hl; by right|].
  split; [cbn; lia|]. cbn. by apply costs_bind.
Qed.

Lemma Value_ind_nested (P : Value → Prop) :
  P Null → (∀ b, P (Bool b)) → (∀ n, P (Num n)) → (∀ s, P (Str s)) →
  (∀ vs, (∀ v, v ∈ vs → P v) → P (Array vs)) →
  (∀ fs, (∀ k v, (k, v) ∈ fs → P v) → P (Object fs)) → ∀ v, P v.
Proof.
  intros Hn Hb Hnum Hs Ha Ho. fix go 1. intros [|b|n|s|vs|fs]; try (clear go; by auto).
  - apply Ha. induction vs as [|x vs IH]; intros v.
    + intros []%elem_of_nil.
    + intros [->|Hv]%elem_of_cons; [apply go|by apply IH].
  - apply Ho. induction fs as [|[k' x] fs IH]; intros k v.
    + intros []%elem_of_nil.
    + intros [[= -> ->]|Hv]%elem_of_cons; [apply go|by eapply IH].
Qed.

(** The projection of a value costs exactly its measure. *)
Lemma project_value_costs v : ∀ depth,
  (1 ≤ m_depth (measure_of v))%Z ∧ costs (project_value v (depth + 1)) depth (measure_of v).
Proof.
  induction v as [|b|n|t|vs IH|fs IH] using Value_ind_nested; intros depth.
  1, 2: split; [done|]; apply costs_nest; [done|apply costs_push].
  - split; cbn; destruct (number_token n) as [t|] eqn:Ht; try done;
      apply costs_nest; try done; rewrite Ht || idtac; try apply costs_push.
    intros s Hs. split; [intros [_ [=]]|unfold throw; eauto].
  - split; [done|]. apply costs_nest; [done|].
    apply costs_bind; [done..|apply costs_add_text|intros _; apply costs_push].
  - destruct (costs_for_each (λ v, project_value v (depth + 1 + 1)) measure_of vs (depth + 1))
      as [Hd Hc].
    { intros v Hv. destruct (IH v Hv (depth + 1)%Z). split; [lia|done]. }
    split; [cbn; lia|]. apply costs_nest; [cbn; lia|].
    apply costs_container; [cbn; lia|]. intros Hl.
    assert (as_u32 (zlen vs) = zlen vs) as ->.
    { apply Z.mod_small. pose proof (zlen_nonneg vs). unfold u32_max in *. lia. }
    apply costs_bind; [done..|apply costs_push|intros _; exact Hc].
  - destruct (costs_for_each (λ '(key, v),
        add_text key;; push (object_key key);; project_value v (depth + 1 + 1))
      (λ '(key, v), m_app (m_text key) (m_app (m_token (object_key key)) (measure_of v)))
      fs (depth + 1)) as [Hd Hc].
    { intros [k v] Hv. destruct (IH k v Hv (depth + 1)%Z). split; [cbn; lia|].
      apply costs_bind; [done|cbn; lia|apply costs_add_text|intros _].
      apply costs_bind; [done|lia|apply costs_push|done]. }
    split; [cbn; lia|]. apply costs_nest; [cbn; lia|].
    apply costs_container; [cbn; lia|]. intros Hl.
    assert (as_u32 (zlen fs) = zlen fs) as ->.
    { apply Z.mod_small. pose proof (zlen_nonneg fs). unfold u32_max in *. lia. }
    apply costs_bind; [done..|apply costs_push|intros _; exact Hc].
Qed.

(** The cost of a whole request is within the limits. *)
Definition within_limits (l : NativeXswdProjectionLimits) (m : measure) : Prop :=
  room (projection_new l) 0 m.

Lemma validate_Ok l l' :
  (0 ≤ max_depth l ∧ 0 ≤ max_tokens l ∧ 0 ≤ max_container_members l ∧
   0 ≤ max_text_bytes l ∧ 0 ≤ max_total_text_bytes l)%Z →
  validate l = Ok l' → l' = l ∧ within (projection_new l) 0.
Proof.
  intros Hl. unfold validate. repeat case_bool_decide; cbn; try done. intros [= <-].
  split; [done|]. unfold within, zlen, u32_max, TECHNICAL_MAX_XSWD_PAYLOAD_DEPTH,
    TECHNICAL_MAX_XSWD_PAYLOAD_TOKENS, TECHNICAL_MAX_XSWD_CONTAINER_MEMBERS,
    TECHNICAL_MAX_XSWD_TEXT_BYTES, TECHNICAL_MAX_XSWD_TOTAL_TEXT_BYTES in *; cbn. lia.
Qed.

Lemma project_Ok {T} (to_value : T → option Value) x l ts :
  within (projection_new l) 0 →
  project to_value x l = Ok ts ↔
  ∃ v, to_value x = Some v ∧ is_object v = true ∧ within_limits l (measure_of v) ∧
    ts = m_tokens (measure_of v).
Proof.
  intros Hw. unfold project. rewrite bind_Ok. setoid_rewrite ok_or_Ok.
  split.
  - intros (v & Hv & Hp). exists v. destruct (is_object v) eqn:Ho; [|done]. cbn in Hp.
    destruct (project_value_costs v 0) as [_ Hc].
    destruct (Hc _ Hw) as [Hok Herr]. destruct (decide (room (projection_new l) 0 (measure_of v)))
      as [Hr|Hr].
    + destruct (Hok Hr) as [a Ha]. rewrite Z.add_0_l in Ha. rewrite Ha in Hp.
      injection Hp as <-. done.
    + destruct (Herr Hr) as (e & s' & He). rewrite Z.add_0_l in He. by rewrite He in Hp.
  - intros (v & Hv & Ho & Hr & ->). exists v. split; [done|]. rewrite Ho. cbn.
    destruct (project_value_costs v 0) as [_ Hc].
    destruct (Hc _ Hw) as [Hok _]. destruct (Hok Hr) as [a Ha].
    rewrite Z.add_0_l in Ha. by rewrite Ha.
Qed.

(** ** The stream determines the value *)

Lemma uint_to_string_inj a b :
  (0 ≤ a)%Z → (0 ≤ b)%Z → uint_to_string a = uint_to_string b → a = b.
Proof.
  intros Ha Hb Hab. pose proof (parse_uint_to_string (a `max` b) a) as Hpa.
  rewrite Hab, (parse_uint_to_string (a `max` b) b) in Hpa by lia.
  injection (Hpa ltac:(lia)); congruence.
Qed.

Lemma uint_to_string_no_minus z s : uint_to_string z ≠ "-" +:+ s.
Proof.
  unfold uint_to_string, NilZero.string_of_uint. by destruct (N.to_uint (Z.to_N z)).
Qed.

Lemma int_to_string_inj a b : int_to_string a = int_to_string b → a = b.
Proof.
  unfold int_to_string. repeat case_bool_decide; intros Hab.
  - apply (inj (String.append "-")) in Hab. apply uint_to_string_inj in Hab; lia.
  - by destruct (uint_to_string_no_minus b (uint_to_string (- a))).
  - by destruct (uint_to_string_no_minus a (uint_to_string (- b))).
  - apply uint_to_string_inj in Hab; lia.
Qed.

Section Lossless.
Context `{!JsonNumberLaws}.

Lemma number_token_inj n m t : number_token n = Some t → number_token m = Some t → n = m.
Proof.
  unfold number_token.
  assert (∀ z, (0 ≤ z)%Z → uint_to_string z = int_to_string z) as Hu.
  { intros z Hz. unfold int_to_string. case_bool_decide; [lia|done]. }
  destruct (as_i64 n) as [a|] eqn:Ha, (as_i64 m) as [b|] eqn:Hb.
  - intros [= <-] [= Hab%int_to_string_inj]. subst. by eapply as_i64_inj.
  - destruct (as_u64 m) as [c|] eqn:Hc; [|by destruct (as_f64 m); intros [= <-] [=]].
    intros [= <-] [= Hac]. rewrite Hu in Hac by by eapply as_u64_range.
    apply int_to_string_inj in Hac. subst. symmetry. by eapply as_i64_first.
  - destruct (as_u64 n) as [c|] eqn:Hc; [|by destruct (as_f64 n); intros [= <-] [=]].
    intros [= <-] [= Hac]. rewrite Hu in Hac by by eapply as_u64_range.
    apply int_to_string_inj in Hac. subst. by eapply as_i64_first.
  - destruct (as_u64 n) as [c|] eqn:Hc, (as_u64 m) as [d|] eqn:Hd.
    + intros [= <-] [= Hcd]. apply uint_to_string_inj in Hcd; [|by eapply as_u64_range..].
      subst. by eapply as_u64_inj.
    + by destruct (as_f64 m); intros [= <-] [=].
    + by destruct (as_f64 n); intros [= <-] [=].
    + destruct (as_f64 n) eqn:Hn, (as_f64 m) eqn:Hm; cbn; intros [= <-] [=]; subst.
      by eapply as_f64_inj.
Qed.

(** A measure of list items whose streams can be told apart. *)
Lemma m_concat_inj {A} (f : A → measure) l : ∀ k r1 r2,
  (∀ x, x ∈ l → ∀ y q1 q2, m_supported (f x) = true → m_supported (f y) = true →
     m_tokens (f x) ++ q1 = m_tokens (f y) ++ q2 → x = y ∧ q1 = q2) →
  length l = length k →
  m_supported (m_concat f l) = true → m_supported (m_concat f k) = true →
  m_tokens (m_concat f l) ++ r1 = m_tokens (m_concat f k) ++ r2 → l = k ∧ r1 = r2.
Proof.
  induction l as [|x l IH]; intros [|y k] r1 r2 Hf Hlen; try done.
  cbn. intros [Hx Hl]%andb_true_iff [Hy Hk]%andb_true_iff. rewrite <-!(assoc_L (++)).
  intros [-> He]%Hf; [|left|done..]. injection Hlen as Hlen.
  apply IH in He as [-> ->]; [done| |done..]. intros z Hz. apply Hf. by right.
Qed.

Lemma number_token_kind n t :
  number_token n = Some t → kind t = KInteger ∨ kind t = KFloat.
Proof.
  unfold number_token. destruct (as_i64 n), (as_u64 n), (as_f64 n); cbn; naive_solver.
Qed.

(** The first token of a stream tells the shape of its value. *)
Lemma number_stream n r :
  m_supported (measure_of (Num n)) = true → ∃ t, number_token n = Some t ∧
    m_tokens (measure_of (Num n)) ++ r = t :: r ∧ (kind t = KInteger ∨ kind t = KFloat).
Proof.
  cbn. destruct (number_token n) as [t|] eqn:Ht; [|done]. intros _. exists t.
  split_and!; [done..|by eapply number_token_kind].
Qed.

Lemma number_stream_inv n w r1 r2 :
  m_supported (measure_of (Num n)) = true → m_supported (measure_of w) = true →
  m_tokens (measure_of (Num n)) ++ r1 = m_tokens (measure_of w) ++ r2 →
  Num n = w ∧ r1 = r2.
Proof.
  intros Hn Hw. destruct (number_stream n r1 Hn) as (t & Ht & -> & Hk).
  destruct w as [|b|m|s|vs|fs]; cbn; try (intros [= -> _]; cbn in Hk; naive_solver).
  destruct (number_stream m r2 Hw) as (t' & Ht' & He & _). cbn in He. rewrite He.
  intros [= <- ->]. split; [|done]. f_equal. by eapply number_token_inj.
Qed.

Lemma stream_inj v : ∀ w r1 r2,
  m_supported (measure_of v) = true → m_supported (measure_of w) = true →
  m_tokens (measure_of v) ++ r1 = m_tokens (measure_of w) ++ r2 → v = w ∧ r1 = r2.
Proof.
  induction v as [|b|n|t|vs IH|fs IH] using Value_ind_nested; intros w r1 r2 Hv Hw He;
    try by apply number_stream_inv.
  all: destruct w as [|b'|n'|t'|vs'|fs'];
    try by (symmetry in He; apply number_stream_inv in He as [? ->]; [split|..]).
  all: cbn in He; try discriminate He; cbn in Hv, Hw.
  - by injection He.
  - by injection He as -> ->.
  - by injection He as -> ->.
  - injection He as Hlen He. apply m_concat_inj in He as [-> ->]; try done.
    unfold zlen in Hlen. lia.
  - injection He as Hlen He. apply m_concat_inj in He as [-> ->]; try done.
    + intros [k x] Hx [k' y] q1 q2. cbn. intros Hsx Hsy [= -> Hxy].
      apply (IH k' x Hx) in Hxy as [-> ->]; [done|exact Hsx|exact Hsy].
    + unfold zlen in Hlen. lia.
Qed.

(** Nothing is lost on the way to the user: two requests
    that are shown by the same stream of tokens serialize to the same JSON
    value, field order and exact integers included. *)
Theorem payload_lossless {T} (to_value : T → option Value) x y l ts :
  within (projection_new l) 0 →
  project to_value x l = Ok ts → project to_value y l = Ok ts →
  to_value x = to_value y.
Proof.
  intros Hw (v & Hv & _ & (_ & Hsv) & Hts)%project_Ok (w & Hy & _ & (_ & Hsw) & Hts')%project_Ok;
    [|done..].
  rewrite Hv, Hy. f_equal. destruct (stream_inj v w [] [] Hsv Hsw); [congruence|done].
Qed.

End Lossless.

(** Claim C23 (bounds): under validated limits, a request is shown to the user
    exactly when it serializes to a JSON object whose depth, number of tokens,
    container sizes, texts and total of text bytes are all within the limits and
    whose numbers are representable; what is shown is then the complete stream
    of the value. *)
Theorem payload_exact {T} (to_value : T → option Value) x l l' ts :
  (0 ≤ max_depth l ∧ 0 ≤ max_tokens l ∧ 0 ≤ max_container_members l ∧
   0 ≤ max_text_bytes l ∧ 0 ≤ max_total_text_bytes l)%Z →
  validate l = Ok l' →
  project to_value x l' = Ok ts ↔
  ∃ v, to_value x = Some v ∧ is_object v = true ∧ within_limits l (measure_of v) ∧
    ts = m_tokens (measure_of v).
Proof. intros Hl [-> Hw]%validate_Ok; [|done]. by apply project_Ok. Qed.

End Projection.

(** ** A concrete instance *)

Inductive demo_number : Type := DemoInt (z : Z) | DemoFloat (x : spec_float).
Definition demo_json : JsonNumber := {|
  Number := demo_number;
  as_i64 n := match n with
              | DemoInt z => if bool_decide (i64_min ≤ z ≤ i64_max)%Z then Some z else None
              | DemoFloat _ => None
              end;
  as_u64 n := match n with DemoInt z => try_from u64_max z | DemoFloat _ => None end;
  as_f64 n := match n with DemoInt _ => None | DemoFloat x => Some x end
|}.

Lemma demo_json_laws : @JsonNumberLaws demo_json.
Proof.
  split; cbn.
  - intros [a|x] [b|y] z; try done. repeat case_bool_decide; naive_solver.
  - intros [a|x] [b|y] z; try done. rewrite !try_from_Some. naive_solver.
  - intros [a|x] z; [|done]. rewrite try_from_Some. lia.
  - intros [a|x] [b|y] z; try done. rewrite try_from_Some.
    case_bool_decide; naive_solver.
  - intros [a|x] [b|y] z; naive_solver.
Qed.

#[local] Existing Instance demo_json.

(** A transfer request as an application would send it. *)
Definition demo_request : Value :=
  Object [("amount", Num (DemoInt 18446744073709551615));
          ("assets", Array [Str "xelis"; Null; Bool true])]%string.

Definition demo_stream : list NativeXswdPayloadToken :=
  [object_start 2; object_key "amount"; token_integer "18446744073709551615";
   object_key "assets"; array_start 3; token_string "xelis"; token_null; token_bool true]%string.

Example demo_projected : project Some demo_request limits_default = Ok demo_stream.
Proof. reflexivity. Qed.

Example demo_too_deep :
  project Some demo_request (mkLimits 2 100 100 100 100) = Err DepthLimit.
Proof. reflexivity. Qed.

Lemma payload_exact_witness :
  ∃ v, Some demo_request = Some v ∧ is_object v = true ∧
    within_limits limits_default (measure_of v) ∧ demo_stream = m_tokens (measure_of v).
Proof.
  apply (payload_exact Some demo_request limits_default limits_default demo_stream).
  - repeat split; discriminate.
  - reflexivity.
  - reflexivity.
Defined.

Lemma payload_lossless_witness :
  project Some demo_request limits_default = Ok demo_stream ∧
  Some demo_request = Some demo_request.
Proof.
  split; [reflexivity|].
  apply (@payload_lossless demo_json demo_json_laws Value Some demo_request demo_request
           limits_default demo_stream).
  - unfold within, zlen; cbn. unfold u32_max. repeat split; discriminate.
  - reflexivity.
  - reflexivity.
Defined.

End Payload.
