(* ===== verification/Redaction.v ===== *)
(** * What the diagnostics show (the [Debug] implementations of
    rust/src/api/error.rs and rust/src/api/models)

    The values that hold destinations, contact names, payloads or messages of
    dependencies write their own [Debug] text.  Here are these texts, character
    by character, with the formatter of the standard library that they use, and
    the proof that each of them shows its public part, all of it, and nothing
    else. *)

From Stdlib Require Import Ascii DecimalString DecimalZ.
From S2P Require Import Prelude Errors External Builders Transactions AddressBook Payload.

Module Redaction.
Import Transactions.

(** ** The formatter *)

Definition quote : ascii := ascii_of_nat 34.
Definition backslash : ascii := ascii_of_nat 92.

Definition hex_digit (n : nat) : ascii :=
  ascii_of_nat (if n <? 10 then 48 + n else 87 + n).

(** [char::escape_debug_ext] as [str] uses it.  Of the characters beyond ASCII,
    the printable ones are copied, which is every one that a native kind or a
    literal of the code has. *)
Definition escape_char (c : ascii) : string :=
  let n := nat_of_ascii c in
  let escaped k := String backslash (String k EmptyString) in
  if n =? 0 then escaped "0"%char
  else if n =? 9 then escaped "t"%char
  else if n =? 10 then escaped "n"%char
  else if n =? 13 then escaped "r"%char
  else if (n =? 34) || (n =? 92) then escaped c
  else if n <? 16 then String backslash ("u{" +:+ String (hex_digit n) "}")
  else if (n <? 32) || (n =? 127)
  then String backslash ("u{" +:+ String (hex_digit (n / 16)) (String (hex_digit (n mod 16)) "}"))
  else String c EmptyString.

Fixpoint escape (s : string) : string :=
  match s with EmptyString => EmptyString | String c s => escape_char c +:+ escape s end.

Definition str_debug (s : string) : string := String quote (escape s +:+ String quote EmptyString).
Definition bool_debug (b : bool) : string := if b then "true" else "false".
Definition int_debug (z : Z) : string := NilZero.string_of_int (Z.to_int z).
Definition option_debug {A} (d : A → string) (o : option A) : string :=
  match o with Some x => "Some(" +:+ d x +:+ ")" | None => "None" end.

(** [Formatter::debug_struct], its fields and its [finish]. *)
Fixpoint fields_debug (fields : list (string * string)) : string :=
  match fields with
  | [] => EmptyString
  | (name, text) :: rest =>
      name +:+ ": " +:+ text +:+ match rest with [] => " }" | _ => ", " +:+ fields_debug rest end
  end.
Definition debug_struct (name : string) (fields : list (string * string)) : string :=
  match fields with [] => name | _ => name +:+ " { " +:+ fields_debug fields end.

(** ** The implementations *)

Definition native_error_debug (self : NativeXelisError) : string :=
  debug_struct "NativeXelisError"
    [("version", int_debug (version self)); ("source", source_debug (source self));
     ("code", code_debug (code self)); ("native_kind", option_debug str_debug (native_kind_of self));
     ("native_code", option_debug int_debug (native_code self));
     ("diagnostic_message", str_debug "<privileged>")].

Definition broadcast_outcome_debug (self : NativePreparedTransactionBroadcastOutcome) : string :=
  match self with
  | BSubmitted => "Submitted"
  | BRetryable failure => debug_struct "Retryable" [("failure", native_error_debug failure)]
  | BRejected failure => debug_struct "Rejected" [("failure", native_error_debug failure)]
  | BLocalFailure failure => debug_struct "LocalFailure" [("failure", native_error_debug failure)]
  | BSubmittedNeedsResync failure =>
      debug_struct "SubmittedNeedsResync" [("failure", native_error_debug failure)]
  end.

(** models/wallet_dtos.rs. *)
Definition extra_data_source_debug (s : Builders.NativePreparedExtraDataSource) : string :=
  match s with
  | Builders.IntegratedAddress => "IntegratedAddress"
  | Builders.Explicit => "Explicit"
  end.
Definition extra_data_debug (self : Builders.NativePreparedTransferExtraData) : string :=
  debug_struct "NativePreparedTransferExtraData"
    [("data", str_debug "<redacted>");
     ("source", extra_data_source_debug (Builders.ed_source self));
     ("encrypted", bool_debug (Builders.ed_encrypted self))].

(** models/address_book_v2.rs. *)
Definition destination_kind_debug (self : AddressBook.NativeSavedDestinationKind) : string :=
  match self with AddressBook.Standard => "Standard" | AddressBook.Integrated => "Integrated" end.
Definition integrated_data_kind_debug (self : AddressBook.NativeIntegratedDataKind) : string :=
  match self with
  | AddressBook.KBoolValue => "BoolValue" | AddressBook.KString => "String"
  | AddressBook.KU8 => "U8" | AddressBook.KU16 => "U16" | AddressBook.KU32 => "U32"
  | AddressBook.KU64 => "U64" | AddressBook.KU128 => "U128" | AddressBook.KHash => "Hash"
  | AddressBook.KBlob => "Blob" | AddressBook.KArray => "Array" | AddressBook.KFields => "Fields"
  end.
Definition destination_debug (self : AddressBook.NativeSavedDestination) : string :=
  debug_struct "NativeSavedDestination"
    [("address", str_debug "<redacted>"); ("base_address", str_debug "<redacted>");
     ("kind", destination_kind_debug (AddressBook.sd_kind self));
     ("integrated_data_kind",
      option_debug integrated_data_kind_debug (AddressBook.sd_integrated_data_kind self))].
Definition entry_debug (self : AddressBook.NativeAddressBookEntry) : string :=
  debug_struct "NativeAddressBookEntry"
    [("id", str_debug "<opaque>"); ("display_name", str_debug "<redacted>");
     ("destination_label", str_debug "<redacted>"); ("note", str_debug "<redacted>");
     ("destination", destination_debug (AddressBook.e_destination self))].
Definition entries_debug (entries : list AddressBook.NativeAddressBookEntry) : string :=
  "<" +:+ int_debug (zlen entries) +:+ " entries>".
Definition page_debug (self : AddressBook.NativeAddressBookPage) : string :=
  debug_struct "NativeAddressBookPage"
    [("entries", entries_debug (AddressBook.page_entries self));
     ("total", int_debug (AddressBook.page_total self));
     ("has_more", bool_debug (AddressBook.page_has_more self))].
Definition match_kind_debug (self : AddressBook.NativeAddressBookMatchKind) : string :=
  match self with
  | AddressBook.Exact => "Exact" | AddressBook.BaseOnly => "BaseOnly"
  | AddressBook.Ambiguous => "Ambiguous" | AddressBook.NoMatch => "None"
  end.
Definition match_debug (self : AddressBook.NativeAddressBookMatch) : string :=
  debug_struct "NativeAddressBookMatch"
    [("kind", match_kind_debug (AddressBook.m_kind self));
     ("entries", entries_debug (AddressBook.m_entries self))].
Definition migration_debug (self : AddressBook.NativeAddressBookMigrationResult) : string :=
  debug_struct "NativeAddressBookMigrationResult"
    [("migrated_entries", int_debug (AddressBook.migrated_entries self));
     ("already_complete", bool_debug (AddressBook.already_complete self))].

(** models/xswd_dtos.rs. *)
Definition token_kind_debug (k : Payload.NativeXswdPayloadTokenKind) : string :=
  match k with
  | Payload.KNull => "Null" | Payload.KBool => "Bool" | Payload.KStringValue => "StringValue"
  | Payload.KInteger => "Integer" | Payload.KFloat => "Float" | Payload.KArrayStart => "ArrayStart"
  | Payload.KObjectStart => "ObjectStart" | Payload.KObjectKey => "ObjectKey"
  end.
Definition token_debug (self : Payload.NativeXswdPayloadToken) : string :=
  debug_struct "NativeXswdPayloadToken" [("kind", token_kind_debug (Payload.kind self))].
Definition payload_debug (tokens : list Payload.NativeXswdPayloadToken) : string :=
  debug_struct "NativeXswdPayload" [("token_count", int_debug (zlen tokens))].

(** ** Texts that can be read back *)

(** What may follow a value in these texts. *)
Definition closing (c : ascii) : bool :=
  bool_decide (c ∈ [","; " "; ")"; "}"]%char).
Definition ended (s : string) : Prop :=
  match s with EmptyString => True | String c _ => closing c = true end.
Fixpoint word (s : string) : bool :=
  match s with EmptyString => true | String c s => negb (closing c) && word s end.

(** Where a value ends, its text determines it up to [R], and [R] determines the
    text. *)
Class Shows {A} (d : A → string) (R : A → A → Prop) : Prop :=
  shows x y r s : ended r → ended s → d x +:+ r = d y +:+ s ↔ R x y ∧ r = s.

Lemma cons_app c s t : String c s +:+ t = String c (s +:+ t).
Proof. reflexivity. Qed.
Lemma text_app_assoc (a b c : string) : (a +:+ b) +:+ c = a +:+ b +:+ c.
Proof. induction a as [|x a IH]; [done|]. rewrite !cons_app. by f_equal. Qed.
Lemma text_app_nil (a : string) : a +:+ EmptyString = a.
Proof. induction a as [|x a IH]; [done|]. rewrite cons_app. by f_equal. Qed.
Lemma text_prefix (p a b : string) : p +:+ a = p +:+ b ↔ a = b.
Proof. split; [apply (inj (String.app p))|by intros ->]. Qed.

Lemma words_meet a b r s :
  word a → word b → ended r → ended s → a +:+ r = b +:+ s → a = b ∧ r = s.
Proof.
  revert b. induction a as [|x a IH]; intros [|y b] Ha Hb Hr Hs; rewrite ?cons_app; cbn in *.
  - done.
  - intros H. change (r = String y (b +:+ s)) in H. subst r. cbn in Hr. by rewrite Hr in Hb.
  - intros H. change (String x (a +:+ r) = s) in H. subst s. cbn in Hs. by rewrite Hs in Ha.
  - intros [= -> He]. apply andb_prop_elim in Ha as [_ Ha]. apply andb_prop_elim in Hb as [_ Hb].
    destruct (IH b) as [-> ->]; done.
Qed.

Lemma shows_words {A} (name : A → string) :
  (∀ x, word (name x)) → Inj (=) (=) name → Shows name (=).
Proof.
  intros Hw Hi x y r s Hr Hs. split; [|by intros [-> ->]].
  intros [H ->]%words_meet; [|done..]. by apply (inj name) in H.
Qed.

(** The names of an enumeration. *)
Ltac by_names := apply shows_words; [by intros []|by intros [] []].

#[export] Instance shows_bool : Shows bool_debug (=).
Proof. by_names. Qed.
#[export] Instance shows_source : Shows source_debug (=).
Proof. by_names. Qed.
#[export] Instance shows_code : Shows code_debug (=).
Proof. by_names. Qed.
#[export] Instance shows_extra_data_source : Shows extra_data_source_debug (=).
Proof. by_names. Qed.
#[export] Instance shows_destination_kind : Shows destination_kind_debug (=).
Proof. by_names. Qed.
#[export] Instance shows_integrated_data_kind : Shows integrated_data_kind_debug (=).
Proof. by_names. Qed.
#[export] Instance shows_match_kind : Shows match_kind_debug (=).
Proof. by_names. Qed.
#[export] Instance shows_token_kind : Shows token_kind_debug (=).
Proof. by_names. Qed.

(** Integers. *)
Lemma digits_word d : word (NilEmpty.string_of_uint d).
Proof. by induction d. Qed.
Lemma to_int_nonnil z : Z.to_int z ≠ Decimal.Pos Decimal.Nil ∧ Z.to_int z ≠ Decimal.Neg Decimal.Nil.
Proof.
  destruct z as [|p|p]; cbn; split; try done; intros [= H]; by apply DecimalPos.Unsigned.to_uint_nonnil in H.
Qed.
#[export] Instance shows_int : Shows int_debug (=).
Proof.
  apply shows_words.
  - intros z. unfold int_debug. destruct (Z.to_int z) as [d|d]; cbn; destruct d; try done; apply digits_word.
  - intros x y H. unfold int_debug in H. apply (f_equal NilZero.int_of_string) in H.
    rewrite !NilZero.isi in H by apply to_int_nonnil. simplify_eq.
    by rewrite <- (DecimalZ.of_to x), <- (DecimalZ.of_to y), H.
Qed.

(** Strings: a text is unescaped one character at a time. *)
Definition unhex (c : ascii) : nat :=
  let n := nat_of_ascii c in if n <? 58 then n - 48 else n - 87.
Definition unescape_char (s : string) : option (ascii * string) :=
  match s with
  | EmptyString => None
  | String c s =>
      if bool_decide (c = quote) then None
      else if negb (bool_decide (c = backslash)) then Some (c, s)
      else match s with
           | String "0" s => Some (ascii_of_nat 0, s)
           | String "t" s => Some (ascii_of_nat 9, s)
           | String "n" s => Some (ascii_of_nat 10, s)
           | String "r" s => Some (ascii_of_nat 13, s)
           | String "u" (String "{" (String h (String "}" s))) => Some (ascii_of_nat (unhex h), s)
           | String "u" (String "{" (String h (String l (String "}" s)))) =>
               Some (ascii_of_nat (16 * unhex h + unhex l), s)
           | String c s => Some (c, s)
           | EmptyString => None
           end
  end%char.

Lemma unescape_escape c s : unescape_char (escape_char c +:+ s) = Some (c, s).
Proof. destruct c as [[] [] [] [] [] [] [] []]; reflexivity. Qed.

Lemma escape_meet a b r s :
  escape a +:+ String quote r = escape b +:+ String quote s → a = b ∧ r = s.
Proof.
  revert b. induction a as [|x a IH]; intros [|y b] H; cbn in H; rewrite ?text_app_assoc in H.
  - by injection H.
  - apply (f_equal unescape_char) in H. by rewrite unescape_escape in H.
  - apply (f_equal unescape_char) in H. by rewrite unescape_escape in H.
  - apply (f_equal unescape_char) in H. rewrite !unescape_escape in H. injection H as -> H.
    by destruct (IH _ H) as [-> ->].
Qed.
#[export] Instance shows_str : Shows str_debug (=).
Proof.
  intros x y r s _ _. split; [|by intros [-> ->]]. unfold str_debug. rewrite !cons_app, !text_app_assoc.
  intros [= H]. by apply escape_meet in H.
Qed.

(** A literal shows nothing of the value. *)
#[export] Instance shows_literal {A} (t : string) : Shows (λ _ : A, t) (λ _ _, True).
Proof. intros x y r s _ _. rewrite text_prefix. naive_solver. Qed.
#[export] Instance shows_of {A B} (f : A → B) d R : Shows d R → Shows (λ x, d (f x)) (λ x y, R (f x) (f y)).
Proof. intros Hd x y. apply Hd. Qed.

Lemma shows_closed {A} (d : A → string) R q : Shows d R → ended q → q ≠ EmptyString → ∀ x y r s,
  d x +:+ q +:+ r = d y +:+ q +:+ s ↔ R x y ∧ r = s.
Proof.
  intros Hd Hq Hn x y r s. destruct q as [|c q]; [done|]. rewrite (Hd x y); [|done..].
  by rewrite text_prefix.
Qed.

#[export] Instance shows_option {A} (d : A → string) R : Shows d R → Shows (option_debug d) (option_Forall2 R).
Proof.
  intros Hd [x|] [y|] r s Hr Hs; cbn; rewrite ?text_app_assoc.
  - rewrite text_prefix, (shows_closed d R ")") by done. split; intros [H ->]; (split; [|done]).
    + by constructor.
    + by inversion H.
  - split; [done|]. by intros [H _]; inversion H.
  - split; [done|]. by intros [H _]; inversion H.
  - rewrite text_prefix. split; [intros ->; split; [constructor|done]|naive_solver].
Qed.

(** The fields of a struct, with what each of them shows. *)
Record field (A : Type) : Type := mkField {
  f_name : string;
  f_text : A → string;
  f_same : A → A → Prop
}.
Arguments mkField {A} _ _ _.
Arguments f_name {A} _.
Arguments f_text {A} _ _.
Arguments f_same {A} _ _ _.

Fixpoint all_same {A} (l : list (field A)) (x y : A) : Prop :=
  match l with [] => True | f :: l => f_same f x y ∧ all_same l x y end.
Definition texts {A} (l : list (field A)) (x : A) : list (string * string) :=
  map (λ f, (f_name f, f_text f x)) l.

Lemma fields_debug_cons {A} (f g : field A) l x :
  fields_debug (texts (f :: g :: l) x) =
  f_name f +:+ ": " +:+ f_text f x +:+ ", " +:+ fields_debug (texts (g :: l) x).
Proof. reflexivity. Qed.

Lemma fields_show {A} (f : field A) l x y r s :
  Forall (λ f, Shows (f_text f) (f_same f)) (f :: l) →
  fields_debug (texts (f :: l) x) +:+ r = fields_debug (texts (f :: l) y) +:+ s ↔
  all_same (f :: l) x y ∧ r = s.
Proof.
  revert f. induction l as [|g l IH]; intros f Hl; inversion_clear Hl as [|? ? Hf Hg].
  - cbn. rewrite !text_app_assoc, !text_prefix, (shows_closed _ _ " }" Hf) by done. naive_solver.
  - specialize (IH g Hg). rewrite !fields_debug_cons.
    rewrite !text_app_assoc, !text_prefix, (shows_closed _ _ ", " Hf), IH by done.
    cbn [all_same]. naive_solver.
Qed.

Lemma struct_shows {A} name (l : list (field A)) :
  Forall (λ f, Shows (f_text f) (f_same f)) l → Shows (λ x, debug_struct name (texts l x)) (all_same l).
Proof.
  intros Hl x y r s _ _. destruct l as [|f l].
  - cbn. rewrite text_prefix. naive_solver.
  - cbn [debug_struct texts map]. rewrite !text_app_assoc, !text_prefix. by apply fields_show.
Qed.

Lemma shows_iff {A} (d : A → string) (R R' : A → A → Prop) :
  Shows d R → (∀ x y, R x y ↔ R' x y) → Shows d R'.
Proof. intros Hd HR x y r s Hr Hs. by rewrite (Hd x y r s Hr Hs), HR. Qed.

(** ** What each of them shows *)

(** The public part of a value: the rest of it is replaced or left out. *)
Definition public_error (e : NativeXelisError) : NativeXelisError :=
  mkNativeXelisError (version e) (source e) (code e) (native_kind_of e) (native_code e) EmptyString.
Definition public_outcome (o : NativePreparedTransactionBroadcastOutcome) :
    NativePreparedTransactionBroadcastOutcome :=
  match o with
  | BSubmitted => BSubmitted
  | BRetryable failure => BRetryable (public_error failure)
  | BRejected failure => BRejected (public_error failure)
  | BLocalFailure failure => BLocalFailure (public_error failure)
  | BSubmittedNeedsResync failure => BSubmittedNeedsResync (public_error failure)
  end.
Definition public_extra_data (x : Builders.NativePreparedTransferExtraData) :=
  (Builders.ed_source x, Builders.ed_encrypted x).
Definition public_destination (d : AddressBook.NativeSavedDestination) :=
  (AddressBook.sd_kind d, AddressBook.sd_integrated_data_kind d).
Definition public_entry (e : AddressBook.NativeAddressBookEntry) :=
  public_destination (AddressBook.e_destination e).
Definition public_page (p : AddressBook.NativeAddressBookPage) :=
  (length (AddressBook.page_entries p), AddressBook.page_total p, AddressBook.page_has_more p).
Definition public_match (m : AddressBook.NativeAddressBookMatch) :=
  (AddressBook.m_kind m, length (AddressBook.m_entries m)).

(** A type's text shows exactly the public part. *)
Abbreviation Reveals d public := (Shows d (λ x y, public x = public y)).

Lemma option_same {A} (o o' : option A) : option_Forall2 (=) o o' ↔ o = o'.
Proof. split; [by destruct 1; subst|intros ->; by destruct o'; constructor]. Qed.

#[export] Instance shows_length {A} : Reveals (λ l : list A, int_debug (zlen l)) length.
Proof. apply (shows_iff _ _ _ (shows_of zlen int_debug (=) _)). unfold zlen. intros x y. lia. Qed.
#[export] Instance shows_entries : Reveals entries_debug length.
Proof.
  intros x y r s _ _. unfold entries_debug. rewrite !text_app_assoc, text_prefix.
  by apply (shows_closed _ _ " entries>" shows_length).
Qed.

(** The [Debug] of a struct is that of its fields. *)
Lemma shows_part {A B V} (f : A → B) d (public : B → V) :
  Reveals d public → Reveals (λ x, d (f x)) (λ x, public (f x)).
Proof. intros Hd x y. apply Hd. Qed.
Ltac by_field := cbn [f_text f_same]; first [apply _|apply shows_part; apply _].
Ltac by_fields name l :=
  apply (shows_iff _ _ _ (struct_shows name l
    ltac:(repeat (apply List.Forall_cons; [by_field|]); apply Forall_nil_2)));
  intros x y; cbn [all_same f_same]; rewrite ?option_same;
  first [unfold public_entry; tauto|unfold public_page, public_match; split;
    [intros; destruct_and?; congruence|by intros [= ]]|destruct x, y; cbn; naive_solver].

#[export] Instance shows_error : Reveals native_error_debug public_error.
Proof.
  by_fields "NativeXelisError"
   [mkField "version" (λ e, int_debug (version e)) (λ x y, version x = version y);
    mkField "source" (λ e, source_debug (source e)) (λ x y, source x = source y);
    mkField "code" (λ e, code_debug (code e)) (λ x y, code x = code y);
    mkField "native_kind" (λ e, option_debug str_debug (native_kind_of e))
      (λ x y, option_Forall2 (=) (native_kind_of x) (native_kind_of y));
    mkField "native_code" (λ e, option_debug int_debug (native_code e))
      (λ x y, option_Forall2 (=) (native_code x) (native_code y));
    mkField "diagnostic_message" (λ _, str_debug "<privileged>") (λ _ _, True)].
Qed.

Lemma variant_shows name x y r s :
  debug_struct name [("failure", native_error_debug x)] +:+ r =
  debug_struct name [("failure", native_error_debug y)] +:+ s ↔
  public_error x = public_error y ∧ r = s.
Proof.
  cbn [debug_struct fields_debug]. rewrite !text_app_assoc, !text_prefix.
  by rewrite (shows_closed _ _ " }" shows_error).
Qed.

#[export] Instance shows_outcome : Reveals broadcast_outcome_debug public_outcome.
Proof.
  intros x y r s Hr Hs. split.
  - destruct x, y; cbn [broadcast_outcome_debug public_outcome]; rewrite ?variant_shows; intros H;
      try discriminate H; try (by apply text_prefix in H);
      try (destruct H as [H ->]; split; [congruence|done]).
    + change (String.app "Submitted" r = String.app "Submitted" ("NeedsResync { failure: " +:+
        (native_error_debug failure +:+ " }") +:+ s)) in H. apply text_prefix in H as ->. discriminate Hr.
    + change (String.app "Submitted" ("NeedsResync { failure: " +:+
        (native_error_debug failure +:+ " }") +:+ r) = String.app "Submitted" s) in H.
      apply text_prefix in H as <-. discriminate Hs.
  - intros [H ->]. destruct x, y; cbn [broadcast_outcome_debug public_outcome] in *; try done;
      apply variant_shows; (split; [congruence|done]).
Qed.

#[export] Instance shows_extra_data : Reveals extra_data_debug public_extra_data.
Proof.
  by_fields "NativePreparedTransferExtraData"
   [mkField "data" (λ _, str_debug "<redacted>") (λ _ _, True);
    mkField "source" (λ x, extra_data_source_debug (Builders.ed_source x))
      (λ x y, Builders.ed_source x = Builders.ed_source y);
    mkField "encrypted" (λ x, bool_debug (Builders.ed_encrypted x))
      (λ x y, Builders.ed_encrypted x = Builders.ed_encrypted y)].
Qed.
#[export] Instance shows_destination : Reveals destination_debug public_destination.
Proof.
  by_fields "NativeSavedDestination"
   [mkField "address" (λ _, str_debug "<redacted>") (λ _ _, True);
    mkField "base_address" (λ _, str_debug "<redacted>") (λ _ _, True);
    mkField "kind" (λ d, destination_kind_debug (AddressBook.sd_kind d))
      (λ x y, AddressBook.sd_kind x = AddressBook.sd_kind y);
    mkField "integrated_data_kind"
      (λ d, option_debug integrated_data_kind_debug (AddressBook.sd_integrated_data_kind d))
      (λ x y, option_Forall2 (=) (AddressBook.sd_integrated_data_kind x)
                (AddressBook.sd_integrated_data_kind y))].
Qed.
#[export] Instance shows_entry : Reveals entry_debug public_entry.
Proof.
  by_fields "NativeAddressBookEntry"
   [mkField "id" (λ _, str_debug "<opaque>") (λ _ _, True);
    mkField "display_name" (λ _, str_debug "<redacted>") (λ _ _, True);
    mkField "destination_label" (λ _, str_debug "<redacted>") (λ _ _, True);
    mkField "note" (λ _, str_debug "<redacted>") (λ _ _, True);
    mkField "destination" (λ e, destination_debug (AddressBook.e_destination e))
      (λ x y, public_destination (AddressBook.e_destination x) =
              public_destination (AddressBook.e_destination y))].
Qed.
#[export] Instance shows_page : Reveals page_debug public_page.
Proof.
  by_fields "NativeAddressBookPage"
   [mkField "entries" (λ p, entries_debug (AddressBook.page_entries p))
      (λ x y, length (AddressBook.page_entries x) = length (AddressBook.page_entries y));
    mkField "total" (λ p, int_debug (AddressBook.page_total p))
      (λ x y, AddressBook.page_total x = AddressBook.page_total y);
    mkField "has_more" (λ p, bool_debug (AddressBook.page_has_more p))
      (λ x y, AddressBook.page_has_more x = AddressBook.page_has_more y)].
Qed.
#[export] Instance shows_match : Reveals match_debug public_match.
Proof.
  by_fields "NativeAddressBookMatch"
   [mkField "kind" (λ m, match_kind_debug (AddressBook.m_kind m))
      (λ x y, AddressBook.m_kind x = AddressBook.m_kind y);
    mkField "entries" (λ m, entries_debug (AddressBook.m_entries m))
      (λ x y, length (AddressBook.m_entries x) = length (AddressBook.m_entries y))].
Qed.
#[export] Instance shows_migration : Shows migration_debug (=).
Proof.
  by_fields "NativeAddressBookMigrationResult"
   [mkField "migrated_entries" (λ r, int_debug (AddressBook.migrated_entries r))
      (λ x y, AddressBook.migrated_entries x = AddressBook.migrated_entries y);
    mkField "already_complete" (λ r, bool_debug (AddressBook.already_complete r))
      (λ x y, AddressBook.already_complete x = AddressBook.already_complete y)].
Qed.
#[export] Instance shows_token : Reveals token_debug Payload.kind.
Proof.
  by_fields "NativeXswdPayloadToken"
   [mkField "kind" (λ t, token_kind_debug (Payload.kind t)) (λ x y, Payload.kind x = Payload.kind y)].
Qed.
#[export] Instance shows_payload : Reveals payload_debug length.
Proof.
  intros x y r s _ _. unfold payload_debug. cbn [debug_struct fields_debug]. rewrite !text_app_assoc, !text_prefix.
  by rewrite (shows_closed _ _ " }" shows_length).
Qed.

Lemma shows_whole {A} (d : A → string) R x y : Shows d R → d x = d y ↔ R x y.
Proof.
  intros Hd. rewrite <- (text_app_nil (d x)), <- (text_app_nil (d y)), (Hd x y) by done. naive_solver.
Qed.

(** Claim C39 (safety): the diagnostic text of a value shows its public part and
    nothing else: two values have the same text exactly if their public parts are
    equal.  So no message of a dependency, no address, name, label, note or
    identifier of a contact, and no datum of a payload or of a transfer can be
    found in a log of these values or changes one character of it. *)
Theorem diagnostics_show_public_part :
  (∀ x y, native_error_debug x = native_error_debug y ↔ public_error x = public_error y) ∧
  (∀ x y, broadcast_outcome_debug x = broadcast_outcome_debug y ↔
          public_outcome x = public_outcome y) ∧
  (∀ x y, extra_data_debug x = extra_data_debug y ↔ public_extra_data x = public_extra_data y) ∧
  (∀ x y, destination_debug x = destination_debug y ↔ public_destination x = public_destination y) ∧
  (∀ x y, entry_debug x = entry_debug y ↔ public_entry x = public_entry y) ∧
  (∀ x y, page_debug x = page_debug y ↔ public_page x = public_page y) ∧
  (∀ x y, match_debug x = match_debug y ↔ public_match x = public_match y) ∧
  (∀ x y, token_debug x = token_debug y ↔ Payload.kind x = Payload.kind y) ∧
  (∀ x y, payload_debug x = payload_debug y ↔ length x = length y).
Proof. split_and!; intros x y; exact (shows_whole _ _ x y _). Qed.

Example page_text entry :
  page_debug (AddressBook.mkPage [entry; entry] 12 true) =
  "NativeAddressBookPage { entries: <2 entries>, total: 12, has_more: true }".
Proof. reflexivity. Qed.
Example error_text message :
  native_error_debug (mkNativeXelisError 1 SrcXelisCommon CodeNetwork None (Some (-32001)%Z) message) =
  "NativeXelisError { version: 1, source: XelisCommon, code: Network, native_kind: None, native_code: Some(-32001), diagnostic_message: "
  +:+ String quote ("<privileged>" +:+ String quote " }").
Proof. reflexivity. Qed.

End Redaction.
