(* ===== verification/Registry.v ===== *)
(** * XSWD session references (rust/src/api/xswd/impl/registry.rs)

    Dart names an application session by a number.  The registry of a wallet
    maps such numbers to weak references on the session's [AppState]; the
    numbers come from one counter of the process.  Which states are still alive
    is an argument of each operation: [live s] says that some strong reference
    to [s] exists when the operation runs. *)

From stdpp Require Import functions.
From S2P Require Import Prelude.

Module Registry.

Section Registry.
(** [Arc<AppState>] up to [Arc::ptr_eq]. *)
Context {AppState : Type} `{!EqDecision AppState}.

Inductive XswdSessionReferenceError : Type := Exhausted | Invalid.

Definition reference_error_code (e : XswdSessionReferenceError) : string :=
  match e with
  | Exhausted => "XSWD_SESSION_REFERENCE_EXHAUSTED"
  | Invalid => "XSWD_SESSION_REFERENCE_INVALID"
  end.

Record XswdSessionEntry : Type := mkSession {
  se_state : AppState;
  se_active : bool
}.

(** An [XswdSessionRegistry] together with [NEXT_XSWD_SESSION_REFERENCE]. *)
Record Sessions : Type := mkSessions {
  sessions : gmap Z XswdSessionEntry;
  next_reference : Z
}.

Abbreviation registry_action := (action Sessions XswdSessionReferenceError).
Implicit Types (live : AppState → bool) (state : AppState) (r : Sessions).

Definition set_sessions (m : gmap Z XswdSessionEntry) r : Sessions :=
  mkSessions m (next_reference r).

(** The caller's [&Arc<AppState>] keeps the state alive. *)
Definition holding state live : AppState → bool := λ s, bool_decide (s = state) || live s.

Definition remove_dead live r : Sessions :=
  set_sessions (filter (λ '(_, entry), live (se_state entry) = true) (sessions r)) r.

(** [fetch_update] with [checked_add(1)]: the value before the update. *)
Definition allocate_reference : registry_action Z :=
  r ← get_state;
  next ← lift (ok_or Exhausted (checked_add u64_max (next_reference r) 1));
  put_state (mkSessions (sessions r) next);;
  mret (next_reference r).

(** The entry registered for a state. *)
Definition find_state state r : option (Z * XswdSessionEntry) :=
  snd <$> list_find (λ p, se_state p.2 = state) (map_to_list (sessions r)).

Definition project live state : registry_action Z :=
  modify (remove_dead (holding state live));;
  r ← get_state;
  match find_state state r with
  | Some (session_ref, _) => mret session_ref
  | None =>
      session_ref ← allocate_reference;
      modify (λ r, set_sessions (<[session_ref := mkSession state true]> (sessions r)) r);;
      mret session_ref
  end.

(** [self.sessions[&session_ref]] has just been found or inserted. *)
Definition register live state : registry_action Z :=
  session_ref ← project live state;
  r ← get_state;
  lift (ok_or Invalid
    (if default false (se_active <$> sessions r !! session_ref)
     then Some session_ref else None)).

Definition resolve live (session_ref : Z) : Sessions → option AppState * Sessions := λ r,
  let r := remove_dead live r in
  (entry ← sessions r !! session_ref;
   if se_active entry && live (se_state entry) then Some (se_state entry) else None, r).

Definition deactivate (P : AppState → bool) (m : gmap Z XswdSessionEntry) : gmap Z XswdSessionEntry :=
  (λ entry, if P (se_state entry) then mkSession (se_state entry) false else entry) <$> m.

Definition invalidate_state live state : Sessions → Sessions := λ r,
  let r := remove_dead (holding state live) r in
  match find_state state r with
  | Some _ => set_sessions (deactivate (λ s, bool_decide (s = state)) (sessions r)) r
  | None =>
      match allocate_reference r with
      | (Ok session_ref, r) =>
          set_sessions (<[session_ref := mkSession state false]> (sessions r)) r
      | (Err _, r) => r
      end
  end.

Definition clear live : Sessions → Sessions := λ r,
  let r := remove_dead live r in
  set_sessions (deactivate (λ _, true) (sessions r)) r.

End Registry.
Arguments Sessions : clear implicits.
Arguments XswdSessionEntry : clear implicits.

Section Process.
Context {AppState : Type} `{!EqDecision AppState}.
Implicit Types (live : AppState → bool) (state : AppState) (r : Sessions AppState).

(** ** All the registries of a process *)

(** One registry per wallet, numbered, over the one counter. *)
Record Process : Type := mkProcess {
  registries : nat → gmap Z (XswdSessionEntry AppState);
  counter : Z
}.

Inductive op : Type :=
  | OpProject (state : AppState)
  | OpRegister (state : AppState)
  | OpResolve (session_ref : Z)
  | OpInvalidate (state : AppState)
  | OpClear.

Inductive op_result : Type :=
  | ResRef (reference : result XswdSessionReferenceError Z)
  | ResState (state : option AppState)
  | ResDone.

Definition exec_op live (o : op) : Sessions AppState → op_result * Sessions AppState := λ r,
  match o with
  | OpProject s => let '(x, r) := project live s r in (ResRef x, r)
  | OpRegister s => let '(x, r) := register live s r in (ResRef x, r)
  | OpResolve ref => let '(x, r) := resolve live ref r in (ResState x, r)
  | OpInvalidate s => (ResDone, invalidate_state live s r)
  | OpClear => (ResDone, clear live r)
  end.

(** An operation on the registry of wallet [w]. *)
Record label : Type := mkLabel {
  l_wallet : nat;
  l_live : AppState → bool;
  l_op : op;
  l_result : op_result
}.

Definition view (p : Process) (w : nat) : Sessions AppState :=
  mkSessions (registries p w) (counter p).
Definition update (p : Process) (w : nat) r : Process :=
  mkProcess (<[w := sessions r]> (registries p)) (next_reference r).

Definition process_step (p : Process) (l : label) (p' : Process) : Prop :=
  ∃ r, exec_op (l_live l) (l_op l) (view p (l_wallet l)) = (l_result l, r) ∧
       p' = update p (l_wallet l) r.

(** No registry has an entry; the counter starts at 1. *)
Definition process_init (p : Process) : Prop := p = mkProcess (λ _, ∅) 1.

Definition op_state (o : op) : option AppState :=
  match o with
  | OpProject s | OpRegister s | OpInvalidate s => Some s
  | OpResolve _ | OpClear => None
  end.

(** The references handed out in a history: wallet, state, reference. *)
Definition issued_by (l : label) : list (nat * AppState * Z) :=
  match op_state (l_op l), l_result l with
  | Some s, ResRef (Ok ref) => [(l_wallet l, s, ref)]
  | _, _ => []
  end.
Definition issued (tr : list label) : list (nat * AppState * Z) := tr ≫= issued_by.

(** ** What an operation does *)

Lemma find_state_Some state r ref e :
  find_state state r = Some (ref, e) → sessions r !! ref = Some e ∧ se_state e = state.
Proof.
  unfold find_state. rewrite fmap_Some. intros ([i p] & Hf & Hp). cbn in Hp. subst p.
  apply list_find_Some in Hf as (Hl & Hs & _). split; [|done].
  by apply list_elem_of_lookup_2, (elem_of_map_to_list (M := gmap Z)) in Hl.
Qed.

Lemma find_state_None state r ref e :
  find_state state r = None → sessions r !! ref = Some e → se_state e ≠ state.
Proof.
  unfold find_state. rewrite fmap_None, list_find_None, Forall_forall. intros Hf He.
  apply (Hf (ref, e)). by apply (elem_of_map_to_list (M := gmap Z)).
Qed.

Lemma remove_dead_lookup live r ref e :
  sessions (remove_dead live r) !! ref = Some e ↔
  sessions r !! ref = Some e ∧ live (se_state e) = true.
Proof. cbn. by rewrite map_lookup_filter_Some. Qed.

Lemma holding_self state live : holding state live state = true.
Proof. unfold holding. by rewrite bool_decide_eq_true_2. Qed.

Lemma allocate_Ok r x r' :
  allocate_reference r = (Ok x, r') →
  x = next_reference r ∧ r' = mkSessions (sessions r) (next_reference r + 1) ∧
  (next_reference r < u64_max)%Z.
Proof.
  unfold allocate_reference. unfold_monad.
  destruct (checked_add _ _ _) as [n|] eqn:Hn; [|done].
  apply checked_add_Some in Hn as [-> ?]. intros [= <- <-]. split_and!; [done..|lia].
Qed.
Lemma allocate_Err r e r' :
  allocate_reference r = (Err e, r') → e = Exhausted ∧ r' = r ∧ (u64_max ≤ next_reference r)%Z.
Proof.
  unfold allocate_reference. unfold_monad.
  destruct (checked_add _ _ _) as [n|] eqn:Hn; [done|].
  apply checked_add_None in Hn. intros [= <- <-]. split_and!; [done..|lia].
Qed.

(** An entry after an operation: an older entry, at most deactivated, or the
    one new entry, for the operation's state, which had none. *)
Definition inherited r (ref : Z) (e : XswdSessionEntry AppState) : Prop :=
  ∃ e0, sessions r !! ref = Some e0 ∧ se_state e = se_state e0 ∧
    (se_active e = true → se_active e0 = true).
Definition created (o : op) r (res : op_result) r' (ref : Z) (e : XswdSessionEntry AppState) :
    Prop :=
  ref = next_reference r ∧ next_reference r' = (next_reference r + 1)%Z ∧
  op_state o = Some (se_state e) ∧
  (∀ ref0 e0, sessions r !! ref0 = Some e0 → se_state e0 ≠ se_state e) ∧
  (se_active e = true → res = ResRef (Ok ref)).

Record outcome (live : AppState → bool) (o : op) r (res : op_result) r' : Prop := mkOutcome {
  out_entries ref e :
    sessions r' !! ref = Some e → inherited r ref e ∨ created o r res r' ref e;
  out_next : (next_reference r' = next_reference r ∨
              next_reference r < u64_max ∧ next_reference r' = next_reference r + 1)%Z;
  out_issued s ref : op_state o = Some s → res = ResRef (Ok ref) →
    ∃ e, sessions r' !! ref = Some e ∧ se_state e = s;
  out_kept ref e : sessions r !! ref = Some e → live (se_state e) = true →
    (ref < next_reference r)%Z →
    ∃ e', sessions r' !! ref = Some e' ∧ se_state e' = se_state e
}.

Lemma inherited_dead live r ref e :
  sessions (remove_dead live r) !! ref = Some e → inherited r ref e.
Proof. intros [He _]%remove_dead_lookup. by exists e. Qed.

(** No entry for a state that the caller holds. *)
Lemma not_found live s r ref e :
  find_state s (remove_dead (holding s live) r) = None →
  sessions r !! ref = Some e → se_state e ≠ s.
Proof.
  intros Hf He Hs. eapply find_state_None; [exact Hf| |exact Hs].
  apply remove_dead_lookup. rewrite Hs, holding_self. done.
Qed.

(** Adding the allocated entry. *)
Lemma insert_outcome live0 live o r res a s :
  op_state o = Some s →
  (∀ ref e, sessions r !! ref = Some e → se_state e ≠ s) →
  (next_reference r < u64_max)%Z →
  (a = true → res = ResRef (Ok (next_reference r))) →
  (∀ ref, res = ResRef (Ok ref) → ref = next_reference r) →
  (∀ x, live x = true → live0 x = true) →
  outcome live o r res
    (mkSessions (<[next_reference r := mkSession s a]> (sessions (remove_dead live0 r)))
       (next_reference r + 1)).
Proof.
  intros Ho Hn Hlt Ha Hres Hlive. split; cbn [sessions next_reference].
  - intros ref e. rewrite lookup_insert_Some. intros [[<- <-]|[_ He]].
    + right. unfold created; cbn [se_state se_active next_reference]. split_and!; try done.
    + left. by eapply inherited_dead.
  - right. lia.
  - rewrite Ho. intros ? ref [= <-] ->. rewrite (Hres ref eq_refl), lookup_insert_eq.
    by eexists.
  - intros ref e He Hl Hr. exists e. split; [|done].
    rewrite lookup_insert_ne by lia. apply remove_dead_lookup. auto.
Qed.

(** Entries of live states are kept. *)
Lemma kept_dead live live0 r ref e :
  (∀ x, live x = true → live0 x = true) →
  sessions r !! ref = Some e → live (se_state e) = true →
  ∃ e', sessions (remove_dead live0 r) !! ref = Some e' ∧ se_state e' = se_state e.
Proof. intros Hl He Ha. exists e. split; [|done]. apply remove_dead_lookup. auto. Qed.

Lemma kept_deactivate live live0 P r ref e :
  (∀ x, live x = true → live0 x = true) →
  sessions r !! ref = Some e → live (se_state e) = true →
  ∃ e', deactivate P (sessions (remove_dead live0 r)) !! ref = Some e' ∧
    se_state e' = se_state e.
Proof.
  intros Hl He Ha. destruct (kept_dead live live0 r ref e Hl He Ha) as (e' & He' & Hs).
  unfold deactivate. rewrite lookup_fmap, He'. cbn.
  eexists. split; [done|]. by destruct (P (se_state e')).
Qed.

Lemma holding_live s live x : live x = true → holding s live x = true.
Proof. unfold holding. intros ->. apply orb_true_r. Qed.

Lemma project_outcome live s r x r' :
  project live s r = (x, r') →
  outcome live (OpProject s) r (ResRef x) r' ∧
  (∀ e, x = Err e → e = Exhausted ∧ (u64_max ≤ next_reference r)%Z ∧
     ∀ ref e, sessions r !! ref = Some e → se_state e ≠ s).
Proof.
  unfold project. unfold_monad. set (r0 := remove_dead _ r).
  destruct (find_state s r0) as [[ref e]|] eqn:Hf.
  - intros [= <- <-]. apply find_state_Some in Hf as [Hl Hs]. split; [|done]. split.
    + intros ref' e' He'. left. by eapply inherited_dead.
    + by left.
    + intros ? ? [= <-] [= <-]. by exists e.
    + intros ref' e' He' Hl' _. eapply kept_dead; [|done..]. apply holding_live.
  - destruct (allocate_reference r0) as [[ref|e] r1] eqn:Ha; intros [= <- <-].
    + apply allocate_Ok in Ha as (-> & -> & Hlt). split; [|done].
      apply (insert_outcome (holding s live) live (OpProject s) r
               (ResRef (Ok (next_reference r))) true s); try done; [|naive_solver|apply holding_live].
      intros ref e He. by eapply not_found.
    + apply allocate_Err in Ha as (-> & -> & Hlt). split; [split|].
      * intros ref e' He'. left. by eapply inherited_dead.
      * by left.
      * done.
      * intros ref' e' He' Hl' _. eapply kept_dead; [|done..]. apply holding_live.
      * intros ? [= <-]. split_and!; [done..|]. intros ref e He. by eapply not_found.
Qed.

Lemma register_project live s r :
  ∃ x r', project live s r = (x, r') ∧
  register live s r = (match x with
    | Ok ref => if default false (se_active <$> sessions r' !! ref)
                then Ok ref else Err Invalid
    | Err e => Err e
    end, r').
Proof.
  unfold register. unfold_monad. destruct (project live s r) as [[ref|e] r'] eqn:Hp.
  - eexists _, _; split; [done|]. cbn. by destruct (default false _).
  - by eexists _, _.
Qed.

Lemma exec_outcome live o r res r' :
  exec_op live o r = (res, r') → outcome live o r res r'.
Proof.
  destruct o as [s|s|ref|s|]; cbn.
  - destruct (project live s r) as [x r1] eqn:Hp. intros [= <- <-].
    by apply project_outcome in Hp as [? _].
  - destruct (register_project live s r) as (x & r1 & Hp & ->). intros [= <- <-].
    apply project_outcome in Hp as [[He Hn Hi Hk] _]. split.
    + intros ref e Hre. destruct (He ref e Hre) as [|(?&?&?&?&Ha)]; [by left|right].
      split_and!; try done. intros Hact. specialize (Ha Hact) as [= ->]. rewrite Hre. cbn. by rewrite Hact.
    + done.
    + intros ? ref [= <-]. destruct x as [ref'|e]; [|done].
      destruct (default false _); [|done]. intros [= <-]. by apply Hi.
    + done.
  - intros [= <- <-]. split; [|by left|done|].
    + intros ref' e He. left. by eapply inherited_dead.
    + intros ref' e He Hl _. by eapply kept_dead.
  - intros [= <- <-]. unfold invalidate_state. set (r0 := remove_dead _ r).
    destruct (find_state s r0) as [[ref e]|] eqn:Hf.
    + split; cbn [sessions set_sessions next_reference]; [|by left|done|].
      2:{ intros ref' e' He' Hl' _. eapply kept_deactivate; [|done..]. apply holding_live. }
      unfold deactivate. intros ref' e'. rewrite lookup_fmap_Some. intros (e0 & <- & He0). left.
      apply inherited_dead in He0 as (e1 & He1 & Hs & Hact). exists e1.
      case_bool_decide; naive_solver.
    + destruct (allocate_reference r0) as [[ref|e] r1] eqn:Ha.
      * apply allocate_Ok in Ha as (-> & -> & Hlt).
        apply (insert_outcome (holding s live) live (OpInvalidate s) r ResDone false s);
          try done; [|apply holding_live]. intros ref e He. by eapply not_found.
      * apply allocate_Err in Ha as (_ & -> & _). split; [|by left|done|].
        -- intros ref e' He'. left. by eapply inherited_dead.
        -- intros ref e' He' Hl' _. eapply kept_dead; [|done..]. apply holding_live.
  - intros [= <- <-]. unfold clear. split; cbn [sessions set_sessions next_reference]; [|by left|done|].
    2:{ intros ref' e' He' Hl' _. by eapply kept_deactivate. }
    unfold deactivate. intros ref' e'. rewrite lookup_fmap_Some. intros (e0 & <- & He0). left.
    apply inherited_dead in He0 as (e1 & He1 & Hs & Hact). by exists e1.
Qed.

(** ** The history of a process *)

Record process_wf (tr : list label) (p : Process) : Prop := mkProcessWf {
  wf_counter : (counter p ≤ u64_max)%Z;
  wf_entries w ref e : registries p w !! ref = Some e → (ref < counter p)%Z;
  wf_wallet w w' ref e e' :
    registries p w !! ref = Some e → registries p w' !! ref = Some e' → w = w';
  wf_state w ref ref' e e' :
    registries p w !! ref = Some e → registries p w !! ref' = Some e' →
    se_state e = se_state e' → ref = ref';
  wf_active w ref e :
    registries p w !! ref = Some e → se_active e = true → (w, se_state e, ref) ∈ issued tr;
  wf_issued w s ref : (w, s, ref) ∈ issued tr →
    (ref < counter p)%Z ∧
    ∀ w' e, registries p w' !! ref = Some e → w' = w ∧ se_state e = s;
  wf_unique w w' s s' ref :
    (w, s, ref) ∈ issued tr → (w', s', ref) ∈ issued tr → w = w' ∧ s = s'
}.

Lemma issued_snoc tr l : issued (tr ++ [l]) = issued tr ++ issued_by l.
Proof. unfold issued. rewrite bind_app. cbn. by rewrite (right_id_L [] (++)). Qed.

Lemma issued_by_inv l w s ref :
  (w, s, ref) ∈ issued_by l ↔
  w = l_wallet l ∧ op_state (l_op l) = Some s ∧ l_result l = ResRef (Ok ref).
Proof.
  unfold issued_by. destruct (op_state (l_op l)) as [s'|]; [|set_solver].
  destruct (l_result l) as [[x|x]|x|]; try (rewrite elem_of_nil; naive_solver).
  rewrite list_elem_of_singleton. naive_solver.
Qed.

(** The entries of a process after a step: those of the other registries, the
    inherited ones, and at most a new one under a fresh reference. *)
Lemma step_entries p l p' w ref e :
  process_step p l p' → registries p' w !! ref = Some e →
  (∃ e0, registries p w !! ref = Some e0 ∧ se_state e = se_state e0 ∧
     (se_active e = true → se_active e0 = true)) ∨
  (w = l_wallet l ∧ ref = counter p ∧ counter p' = (counter p + 1)%Z ∧
   op_state (l_op l) = Some (se_state e) ∧
   (∀ ref0 e0, registries p w !! ref0 = Some e0 → se_state e0 ≠ se_state e) ∧
   (se_active e = true → l_result l = ResRef (Ok ref))).
Proof.
  intros (r & Hex & ->) He. cbn in He.
  destruct (decide (w = l_wallet l)) as [->|Hw].
  - rewrite fn_lookup_insert in He.
    destruct (out_entries _ _ _ _ _ (exec_outcome _ _ _ _ _ Hex) ref e He)
      as [Hi|(?&?&?&?&?)]; [by left|by right].
  - rewrite fn_lookup_insert_ne in He by done. left. by exists e.
Qed.

Lemma step_counter p l p' :
  process_step p l p' → (counter p ≤ u64_max)%Z →
  (counter p ≤ counter p' ≤ u64_max)%Z.
Proof.
  intros (r & Hex & ->) Hc. cbn.
  destruct (out_next _ _ _ _ _ (exec_outcome _ _ _ _ _ Hex)) as [Hn|[? Hn]];
    cbn in *; lia.
Qed.

Lemma step_issued p l p' w s ref :
  process_step p l p' → (w, s, ref) ∈ issued_by l →
  ∃ e, registries p' w !! ref = Some e ∧ se_state e = s.
Proof.
  intros (r & Hex & ->) (-> & Ho & Hr)%issued_by_inv. cbn. rewrite fn_lookup_insert.
  by eapply (out_issued _ _ _ _ _ (exec_outcome _ _ _ _ _ Hex)).
Qed.

Lemma process_step_wf tr p l p' :
  process_wf tr p → process_step p l p' → process_wf (tr ++ [l]) p'.
Proof.
  intros Hwf Hs. pose proof (step_counter p l p' Hs (wf_counter _ _ Hwf)) as Hc.
  assert (∀ w w' s s' ref, (w, s, ref) ∈ issued tr → (w', s', ref) ∈ issued_by l →
    w = w' ∧ s = s') as Hnew.
  { intros w w' s s' ref Hi Hb. destruct (step_issued _ _ _ _ _ _ Hs Hb) as (e & He & <-).
    destruct (wf_issued _ _ Hwf w s ref Hi) as [Hlt Hw].
    destruct (step_entries _ _ _ _ _ _ Hs He) as [(e0 & He0 & -> & _)|(_&->&_)]; [|lia].
    destruct (Hw w' e0 He0) as [-> ->]. done. }
  assert (∀ w w' ref e e', registries p' w !! ref = Some e →
    registries p' w' !! ref = Some e' → w = w') as Hwallet.
  { intros w w' ref e e' He He'.
    destruct (step_entries _ _ _ _ _ _ Hs He) as [(e0&He0&_)|(->&->&_)],
      (step_entries _ _ _ _ _ _ Hs He') as [(e1&He1&_)|(->&?&_)]; try done.
    - by eapply (wf_wallet _ _ Hwf).
    - subst. pose proof (wf_entries _ _ Hwf _ _ _ He0). lia.
    - pose proof (wf_entries _ _ Hwf _ _ _ He1). lia. }
  assert (∀ w ref e, registries p' w !! ref = Some e → ref < counter p')%Z as Hentry.
  { intros w ref e He. destruct (step_entries _ _ _ _ _ _ Hs He) as [(e0&He0&_)|(_&->&->&_)];
      [|lia]. pose proof (wf_entries _ _ Hwf _ _ _ He0). lia. }
  split; try setoid_rewrite issued_snoc; [lia|done|done|..].
  - intros w ref ref' e e' He He' Hst.
    destruct (step_entries _ _ _ _ _ _ Hs He) as [(e0&He0&Hs0&_)|(_&->&_&_&Hf&_)],
      (step_entries _ _ _ _ _ _ Hs He') as [(e1&He1&Hs1&_)|(_&->&_&_&Hf'&_)]; try done.
    + eapply (wf_state _ _ Hwf); [done..|]. congruence.
    + destruct (Hf' _ _ He0). congruence.
    + destruct (Hf _ _ He1). congruence.
  - intros w ref e He Ha. apply elem_of_app.
    destruct (step_entries _ _ _ _ _ _ Hs He) as [(e0&He0&->&Ha0)|(->&->&_&Ho&_&Hr)].
    + left. eapply (wf_active _ _ Hwf); [done|by apply Ha0].
    + right. apply issued_by_inv. auto.
  - intros w s ref [Hi|Hb]%elem_of_app.
    + destruct (wf_issued _ _ Hwf w s ref Hi) as [Hlt Hw]. split; [lia|].
      intros w' e He. destruct (step_entries _ _ _ _ _ _ Hs He) as [(e0&He0&->&_)|(_&->&_)];
        [|lia]. by apply Hw.
    + destruct (step_issued _ _ _ _ _ _ Hs Hb) as (e & He & <-). split; [by eapply Hentry|].
      intros w' e' He'. assert (w' = w) as -> by by eapply Hwallet. naive_solver.
  - intros w w' s s' ref [Hi|Hb]%elem_of_app [Hi'|Hb']%elem_of_app.
    + by eapply (wf_unique _ _ Hwf).
    + by eapply Hnew.
    + destruct (Hnew _ _ _ _ _ Hi' Hb). done.
    + apply issued_by_inv in Hb as (->&?&?), Hb' as (->&?&?). naive_solver.
Qed.

Lemma reachable_wf tr p : reachable process_init process_step tr p → process_wf tr p.
Proof.
  induction 1 as [p ->|p l p' tr _ IH Hs]; [|by eapply process_step_wf].
  split; cbn; try done; try (intros *; rewrite lookup_empty; done); set_solver.
Qed.

(** Resolution needs an active entry. *)
Lemma resolve_active live ref p w s :
  (resolve live ref (view p w)).1 = Some s →
  ∃ e, registries p w !! ref = Some e ∧ se_active e = true ∧ se_state e = s ∧
       live s = true.
Proof.
  unfold resolve. cbn. intros (e & He & Ha)%bind_Some.
  apply map_lookup_filter_Some in He as [He _].
  destruct (se_active e) eqn:Hact, (live (se_state e)) eqn:Hl; try done.
  injection Ha as <-. eauto.
Qed.

(** Claim C21 (safety): a session reference means one session of one wallet,
    for ever.  No number is handed out for two different sessions or by two
    different wallets, and when a wallet resolves a number it obtains the live
    session that this very number was handed out for by this very wallet. *)
Theorem references_identify tr p :
  reachable process_init process_step tr p →
  (∀ w w' s s' ref, (w, s, ref) ∈ issued tr → (w', s', ref) ∈ issued tr → w = w' ∧ s = s') ∧
  (∀ live w ref s, (resolve live ref (view p w)).1 = Some s →
     (w, s, ref) ∈ issued tr ∧ live s = true).
Proof.
  intros Hwf%reachable_wf. split; [apply (wf_unique _ _ Hwf)|].
  intros live w ref s (e & He & Ha & <- & Hl)%resolve_active.
  split; [by eapply (wf_active _ _ Hwf)|done].
Qed.

(** ** Revocation *)

(** The wallet has no authority under the reference. *)
Definition inactive (w : nat) (ref : Z) (p : Process) : Prop :=
  (ref < counter p)%Z ∧ ∀ e, registries p w !! ref = Some e → se_active e = false.

(** No new authority can be registered for a session that stays alive: its
    entry is inactive, or there is none and references are exhausted. *)
Definition revoked (w : nat) (s : AppState) (p : Process) : Prop :=
  (∃ ref e, registries p w !! ref = Some e ∧ se_state e = s ∧ se_active e = false) ∨
  (counter p = u64_max ∧ ∀ ref e, registries p w !! ref = Some e → se_state e ≠ s).

Lemma inactive_step w ref p l p' :
  (counter p ≤ u64_max)%Z → inactive w ref p → process_step p l p' → inactive w ref p'.
Proof.
  intros Hc [Hlt Hi] Hs. pose proof (step_counter _ _ _ Hs Hc). split; [lia|].
  intros e He. destruct (step_entries _ _ _ _ _ _ Hs He) as [(e0&He0&_&Ha)|(_&->&_)]; [|lia].
  specialize (Hi e0 He0). destruct (se_active e); [|done]. rewrite Ha in Hi; done.
Qed.

Lemma step_kept p l p' w ref e :
  process_step p l p' → registries p w !! ref = Some e → (ref < counter p)%Z →
  l_live l (se_state e) = true →
  ∃ e', registries p' w !! ref = Some e' ∧ se_state e' = se_state e.
Proof.
  intros (r & Hex & ->) He Hlt Hl. cbn.
  destruct (decide (w = l_wallet l)) as [->|Hw].
  - rewrite fn_lookup_insert.
    by apply (out_kept _ _ _ _ _ (exec_outcome _ _ _ _ _ Hex) ref e).
  - rewrite fn_lookup_insert_ne by done. by exists e.
Qed.

Lemma revoked_step tr w s p l p' :
  process_wf tr p → revoked w s p → process_step p l p' → l_live l s = true → revoked w s p'.
Proof.
  intros Hwf Hr Hs Hl. pose proof (wf_counter _ _ Hwf) as Hc.
  pose proof (step_counter _ _ _ Hs Hc).
  destruct Hr as [(ref & e & He & <- & Ha)|[Hn Hf]].
  - left. pose proof (wf_entries _ _ Hwf _ _ _ He) as Hlt.
    destruct (step_kept _ _ _ _ _ _ Hs He Hlt Hl) as (e' & He' & Hst).
    exists ref, e'. split_and!; [done..|].
    assert (inactive w ref p') as [_ Hi]; [|by apply Hi].
    apply (inactive_step w ref p l p' Hc); [|done]. split; [done|]. intros e2. congruence.
  - right. split; [lia|]. intros ref e He.
    destruct (step_entries _ _ _ _ _ _ Hs He) as [(e0&He0&->&_)|(_&_&?&_)]; [|lia].
    by eapply Hf.
Qed.

Lemma invalidate_revokes tr live w s p r res :
  process_wf tr p → exec_op live (OpInvalidate s) (view p w) = (res, r) →
  revoked w s (update p w r).
Proof.
  intros Hwf [= _ <-]. pose proof (wf_counter _ _ Hwf) as Hc.
  unfold invalidate_state. set (r0 := remove_dead _ _). unfold revoked.
  cbn [registries update counter]. setoid_rewrite fn_lookup_insert.
  destruct (find_state s r0) as [[ref e]|] eqn:Hf.
  - left. apply find_state_Some in Hf as [He Hs]. exists ref, (mkSession s false).
    cbn [sessions set_sessions]. unfold deactivate. rewrite lookup_fmap, He. cbn.
    by rewrite bool_decide_eq_true_2, Hs by done.
  - destruct (allocate_reference r0) as [[ref|e] r1] eqn:Ha.
    + apply allocate_Ok in Ha as (-> & -> & _). left. eexists _, (mkSession s false).
      cbn [sessions set_sessions]. by rewrite lookup_insert_eq.
    + apply allocate_Err in Ha as (_ & -> & Hge). right. cbn [next_reference sessions].
      split; [subst r0; cbn in *; lia|].
      intros ref e' He'. by eapply find_state_None.
Qed.

Lemma revoked_register tr live w s p :
  process_wf tr p → revoked w s p → ∃ e, (register live s (view p w)).1 = Err e.
Proof.
  intros Hwf Hr. destruct (register_project live s (view p w)) as (x & r & Hp & ->). cbn.
  destruct x as [ref|e]; [|eauto].
  assert (process_step p (mkLabel w live (OpProject s) (ResRef (Ok ref))) (update p w r)) as Hs.
  { exists r. split; [|done]. cbn. by rewrite Hp. }
  destruct (step_issued _ _ _ w s ref Hs) as (e & He & Hst); [by apply issued_by_inv|].
  cbn in He. rewrite fn_lookup_insert in He. rewrite He. cbn.
  destruct (se_active e) eqn:Hact; [exfalso|eauto].
  destruct (step_entries _ _ (update p w r) w ref e Hs) as [(e0&He0&Hs0&Ha0)|(_&->&Hc&_&Hf&_)].
  { cbn. by rewrite fn_lookup_insert. }
  - destruct Hr as [(ref' & e' & He' & Hs' & Ha')|[_ Hf]]; [|by destruct (Hf _ _ He0); congruence].
    assert (ref = ref') as -> by (eapply (wf_state _ _ Hwf); [done..|congruence]).
    rewrite He0 in He'. injection He' as ->. rewrite Ha0 in Ha'; done.
  - destruct Hr as [(ref' & e' & He' & Hs' & Ha')|[Hmax _]].
    + by destruct (Hf _ _ He'); congruence.
    + pose proof (step_counter _ _ _ Hs (wf_counter _ _ Hwf)). lia.
Qed.

(** ** A single registry *)

(** References in use were allocated. *)
Definition registry_ok r : Prop :=
  ∀ ref e, sessions r !! ref = Some e → (ref < next_reference r)%Z.

(** The registry gives no authority for a state and will not while it is alive. *)
Definition sealed (s : AppState) r : Prop :=
  registry_ok r ∧
  (∀ ref e, sessions r !! ref = Some e → se_state e = s → se_active e = false) ∧
  ((∃ ref e, sessions r !! ref = Some e ∧ se_state e = s) ∨ (u64_max ≤ next_reference r)%Z).

Lemma exec_registry_ok live o r res r' :
  registry_ok r → exec_op live o r = (res, r') → registry_ok r'.
Proof.
  intros Hok Hex ref e He. apply exec_outcome in Hex as [Hent Hn _ _].
  destruct (Hent ref e He) as [(e0 & He0 & _)|(-> & -> & _)]; [|lia].
  specialize (Hok _ _ He0). lia.
Qed.

Lemma exec_sealed live o r res r' s :
  live s = true → sealed s r → exec_op live o r = (res, r') → sealed s r'.
Proof.
  intros Hl (Hok & Ha & Hs) Hex. split; [by eapply exec_registry_ok|].
  apply exec_outcome in Hex as [Hent Hn _ Hk]. split.
  - intros ref e He Hst. destruct (Hent ref e He) as [(e0&He0&Hs0&Hact)|(_&Hn'&_&Hf&_)].
    + specialize (Ha ref e0 He0 ltac:(congruence)). destruct (se_active e); [|done].
      by rewrite Hact in Ha.
    + destruct Hs as [(ref0 & e0 & He0 & Hs0)|Hmax]; [|lia].
      destruct (Hf _ _ He0). congruence.
  - destruct Hs as [(ref0 & e0 & He0 & <-)|Hmax]; [left|right; lia].
    destruct (Hk ref0 e0 He0 Hl (Hok _ _ He0)) as (e' & He' & Hs'). eauto.
Qed.

Lemma invalidate_sealed live s r : registry_ok r → sealed s (invalidate_state live s r).
Proof.
  intros Hok.
  assert (exec_op live (OpInvalidate s) r = (ResDone, invalidate_state live s r)) as Hex by done.
  split; [by eapply exec_registry_ok|]. unfold invalidate_state. set (r0 := remove_dead _ _).
  destruct (find_state s r0) as [[ref e]|] eqn:Hf.
  - apply find_state_Some in Hf as [He Hs]. cbn [sessions set_sessions]. unfold deactivate. split.
    + intros ref' e'. rewrite lookup_fmap_Some. intros (e0 & <- & _) Hst.
      case_bool_decide as Hb; [done|]. by destruct Hb.
    + left. exists ref, (mkSession s false). rewrite lookup_fmap, He. cbn.
      by rewrite bool_decide_eq_true_2, Hs by done.
  - destruct (allocate_reference r0) as [[ref|e] r1] eqn:Ha.
    + apply allocate_Ok in Ha as (-> & -> & _). cbn [sessions set_sessions]. split.
      * intros ref' e'. rewrite lookup_insert_Some. intros [[_ <-]|[_ He']]; [done|].
        intros Hst. destruct (find_state_None _ _ _ _ Hf He' Hst).
      * left. eexists _, (mkSession s false). by rewrite lookup_insert_eq.
    + apply allocate_Err in Ha as (_ & -> & Hge). split; [|by right].
      intros ref e' He' Hst. destruct (find_state_None _ _ _ _ Hf He' Hst).
Qed.

Lemma sealed_resolve live s r ref : sealed s r → (resolve live ref r).1 ≠ Some s.
Proof.
  intros (_ & Ha & _) Hr. destruct (resolve_active live ref (mkProcess (λ _, sessions r)
    (next_reference r)) 0 s) as (e & He & Hact & Hs & _); [by destruct r|].
  rewrite (Ha ref e He Hs) in Hact. done.
Qed.

Lemma sealed_project live t s r :
  live s = true → sealed s r → sealed s (project live t r).2.
Proof.
  intros Hl Hs. destruct (project live t r) as [x r'] eqn:Hp. cbn.
  apply (exec_sealed live (OpProject t) r (ResRef x) r' s Hl Hs). cbn. by rewrite Hp.
Qed.

Lemma sealed_invalidate live t s r :
  live s = true → sealed s r → sealed s (invalidate_state live t r).
Proof. intros Hl Hs. by apply (exec_sealed live (OpInvalidate t) r ResDone _ s Hl Hs). Qed.

(** Both facts along any continuation of a history. *)
Lemma continue_inactive tr p tr' p' w ref :
  process_wf tr p → reachable (eq p) process_step tr' p' → inactive w ref p →
  process_wf (tr ++ tr') p' ∧ inactive w ref p'.
Proof.
  intros Hwf. induction 1 as [p' <-|p1 l p2 tr' _ IH Hs]; intros Hi.
  { by rewrite (right_id_L [] (++)). }
  destruct (IH Hi) as [Hwf1 Hi1]. rewrite (assoc_L (++)).
  split; [by eapply process_step_wf|].
  eapply inactive_step; [|done..]. apply (wf_counter _ _ Hwf1).
Qed.

Lemma continue_revoked tr p tr' p' w s :
  process_wf tr p → reachable (eq p) process_step tr' p' →
  Forall (λ l, l_live l s = true) tr' → revoked w s p →
  process_wf (tr ++ tr') p' ∧ revoked w s p'.
Proof.
  intros Hwf. induction 1 as [p' <-|p1 l p2 tr' _ IH Hs]; intros Hl Hr.
  { by rewrite (right_id_L [] (++)). }
  apply Forall_app in Hl as [Hl1 Hl2%Forall_inv]. cbn in Hl2.
  destruct (IH Hl1 Hr) as [Hwf1 Hr1]. rewrite (assoc_L (++)).
  split; [by eapply process_step_wf|]. by eapply revoked_step.
Qed.

(** Claim C22 (safety): revoked authority never comes back.  A reference
    that has no active entry in a wallet never resolves there again.  After a
    session was invalidated, no registration of it succeeds as long as the
    session is alive, whatever else happens to any registry: not even a
    disconnect seen before the first request lets a later request mint a fresh
    reference. *)
Theorem revocation_final tr p w :
  reachable process_init process_step tr p →
  (∀ ref tr' p' live, inactive w ref p → reachable (eq p) process_step tr' p' →
     (resolve live ref (view p' w)).1 = None) ∧
  (∀ s live r res tr' p' live', exec_op live (OpInvalidate s) (view p w) = (res, r) →
     reachable (eq (update p w r)) process_step tr' p' →
     Forall (λ l, l_live l s = true) tr' →
     ∃ e, (register live' s (view p' w)).1 = Err e).
Proof.
  intros Hwf%reachable_wf. split.
  - intros ref tr' p' live Hi Hr.
    destruct (continue_inactive tr p tr' p' w ref Hwf Hr Hi) as [_ [_ Hi']].
    destruct (resolve live ref (view p' w)).1 as [s|] eqn:Hres; [|done].
    apply resolve_active in Hres as (e & He & Ha & _). rewrite Hi' in Ha; done.
  - intros s live r res tr' p' live' Hex Hr Hl.
    assert (process_wf (tr ++ [mkLabel w live (OpInvalidate s) res]) (update p w r)) as Hwf1.
    { eapply process_step_wf; [done|]. by exists r. }
    edestruct (continue_revoked _ _ tr' p' w s Hwf1 Hr Hl) as [Hwf' Hrev];
      [by eapply invalidate_revokes|]. by eapply revoked_register.
Qed.

End Process.

(** ** A concrete history *)

(** Wallet 0 registers session 7 and loses it; then wallet 1 registers it. *)
Definition demo_op (w : nat) (o : op) (p : Process (AppState := nat)) :
    label (AppState := nat) * Process (AppState := nat) :=
  let '(res, r) := exec_op (λ _, true) o (view p w) in
  (mkLabel w (λ _, true) o res, update p w r).
Definition demo_run (ops : list (nat * op)) :
    list (label (AppState := nat)) * Process (AppState := nat) :=
  foldl (λ '(tr, p) '(w, o), let '(l, p') := demo_op w o p in (tr ++ [l], p'))
    ([], mkProcess (λ _, ∅) 1) ops.

Definition demo_ops : list (nat * op (AppState := nat)) :=
  [(0, OpRegister 7); (0, OpInvalidate 7); (1, OpRegister 7)].

Lemma demo_step w o p l p' : demo_op w o p = (l, p') → process_step p l p'.
Proof.
  unfold demo_op. destruct (exec_op _ o (view p w)) as [res r] eqn:He.
  intros [= <- <-]. by exists r.
Qed.

Lemma demo_run_reachable ops :
  reachable process_init process_step (demo_run ops).1 (demo_run ops).2.
Proof.
  induction ops as [|[w o] ops IH] using rev_ind; [by constructor|].
  unfold demo_run in *. rewrite foldl_app. cbn.
  destruct (foldl _ _ ops) as [tr p]. destruct (demo_op w o p) as [l p'] eqn:Hop.
  eapply reachable_step; [exact IH|]. by eapply demo_step.
Qed.

Lemma references_identify_witness :
  (resolve (λ _, true) 2 (view (demo_run demo_ops).2 1)).1 = Some 7 ∧
  (1, 7, 2%Z) ∈ issued (demo_run demo_ops).1.
Proof.
  split; [reflexivity|].
  destruct (references_identify _ _ (demo_run_reachable demo_ops)) as [_ Hr].
  apply (Hr (λ _, true) 1 2%Z 7). reflexivity.
Defined.

Lemma revocation_final_witness :
  (resolve (λ _, true) 1 (view (demo_run demo_ops).2 0)).1 = None.
Proof.
  destruct (revocation_final _ _ 0 (demo_run_reachable demo_ops)) as [Hr _].
  apply (Hr 1%Z [] (demo_run demo_ops).2).
  - split; [reflexivity|]. intros e [= <-]. reflexivity.
  - by constructor.
Defined.

End Registry.
