(* ===== verification/Xswd.v ===== *)
(** * XSWD applications (rust/src/api/xswd/impl.rs and the application types of
    rust/src/api/models/xswd_dtos.rs)

    The sessions of connected applications as the wallet sees them: their
    projection to Dart, the permissions that the user edits, and the operations
    of the [XSWD] trait on the local server and on the relayer.  The handler of
    their requests is in [Dispatcher].

    The build modelled is the native one with the [api_server] feature. *)

From S2P Require Import Prelude Errors External Payload Registry.

Module Xswd.
Import Payload Registry.

(** What the code uses of the wallet crate: sessions' [AppState], up to
    [Arc::ptr_eq], with its immutable fields; the requests it carries. *)
Class XswdLib `{!JsonNumber} := {
  AppState : Type;
  AppState_eq_dec :: EqDecision AppState;
  get_id : AppState → string;
  get_name : AppState → string;
  get_description : AppState → string;
  get_url : AppState → option string;
  RpcRequest : Type;
  request_to_value : RpcRequest → option Value;
  XSWDPrefetchPermissions : Type;
  prefetch_to_value : XSWDPrefetchPermissions → option Value;
  prefetch_names : XSWDPrefetchPermissions → list string
}.

(** [xelis_wallet::api::Permission] and [PermissionResult]. *)
Inductive Permission : Type := Allow | Reject | Ask.
Inductive PermissionResult : Type :=
  | ResAccept | ResReject | ResAlwaysAccept | ResAlwaysReject.

Inductive PermissionPolicy : Type := PolicyAsk | PolicyAccept | PolicyReject.

#[export] Instance Permission_eq_dec : EqDecision Permission.
Proof. solve_decision. Defined.
#[export] Instance PermissionResult_eq_dec : EqDecision PermissionResult.
Proof. solve_decision. Defined.

(** An [IndexMap<String, Permission>] is the list of its entries, in order and
    with distinct names; a [HashMap<String, _>] is a [gmap]. *)
Abbreviation permission_map := (list (string * Permission)).
Abbreviation policy_map := (gmap string PermissionPolicy).

Section Xswd.
Context `{!JsonNumber, !XswdLib}.

Record AppInfo : Type := mkAppInfo {
  ai_session_ref : Z;
  ai_id : string;
  ai_name : string;
  ai_description : string;
  ai_url : option string;
  ai_permissions : policy_map;
  ai_is_relayer : bool
}.

Inductive XswdRequestType : Type :=
  | TypeApplication
  | TypePermission (payload : list NativeXswdPayloadToken)
  | TypePrefetchPermissions (payload : list NativeXswdPayloadToken)
  | TypeCancelRequest
  | TypeAppDisconnect.

Record XswdRequestSummary : Type := mkSummary {
  event_type : XswdRequestType;
  application_info : AppInfo
}.

(** What the operations read while they run: which sessions are alive and the
    current content of their permission locks. *)
Record XswdEnv : Type := mkXswdEnv {
  live : AppState → bool;
  get_permissions : AppState → permission_map
}.

Definition policy_of_permission (permission : Permission) : PermissionPolicy :=
  match permission with
  | Ask => PolicyAsk
  | Allow => PolicyAccept
  | Reject => PolicyReject
  end.

Definition create_app_info_with_session_ref (permissions : permission_map) (state : AppState)
    (is_relayer : bool) (session_ref : Z) : AppInfo := {|
  ai_session_ref := session_ref;
  ai_id := get_id state;
  ai_name := get_name state;
  ai_description := get_description state;
  ai_url := get_url state;
  ai_permissions := foldl (λ m '(key, permission),
                       <[key := policy_of_permission permission]> m) ∅ permissions;
  ai_is_relayer := is_relayer
|}.

Abbreviation registry_action := (action (Sessions AppState) XswdSessionReferenceError).

Definition create_event_summary (env : XswdEnv) (state : AppState)
    (event_type : XswdRequestType) : registry_action XswdRequestSummary :=
  session_ref ← register (live env) state;
  mret (mkSummary event_type
          (create_app_info_with_session_ref (get_permissions env state) state false session_ref)).

Definition create_lifecycle_event_summary (env : XswdEnv) (state : AppState)
    (event_type : XswdRequestType) : registry_action XswdRequestSummary :=
  session_ref ← project (live env) state;
  mret (mkSummary event_type
          (create_app_info_with_session_ref (get_permissions env state) state false session_ref)).

Definition create_app_info (env : XswdEnv) (state : AppState) (is_relayer : bool) :
    action (Sessions AppState) anyhow_error AppInfo :=
  session_ref ← map_err_action (λ error, bail (reference_error_code error))
    (project (live env) state);
  mret (create_app_info_with_session_ref (get_permissions env state) state is_relayer
          session_ref).

(** ** Permissions *)

Definition permission_from_policy (policy : PermissionPolicy) : Permission :=
  match policy with
  | PolicyAccept => Allow
  | PolicyReject => Reject
  | PolicyAsk => Ask
  end.

(** [current.get_mut(key)] and the assignment through it. *)
Definition set_permission (key : string) (permission : Permission) (current : permission_map) :
    permission_map :=
  (λ '(name, old), if bool_decide (name = key) then (name, permission) else (name, old))
  <$> current.

Definition apply_permission_updates (updates : policy_map) : action permission_map anyhow_error unit :=
  current ← get_state;
  let keys := (map_to_list updates).*1 in
  if existsb (String.prefix "wallet.") keys
  then throw (bail "Prefixed XSWD permission names are unsupported")
  else if existsb (λ key, bool_decide (key ∉ current.*1)) keys
  then throw (bail "XSWD permission not found")
  else
    put_state (foldl (λ current '(key, policy),
      set_permission key (permission_from_policy policy) current) current (map_to_list updates)).

(** ** The wallet's XSWD endpoints *)

Context {Session Client : Type}.

(** [xelis_wallet::api::APIServer], of which XSWD is one kind. *)
Inductive APIServer : Type :=
  | ServerXSWD (applications : list (Session * AppState))
  | ServerOther.

Inductive xswd_effect : Type :=
  | StopServer (server : APIServer)
  | CloseRelayer
  | CloseSession (session : Session)
  | CloseClientAndNotify (client : Client) (app : AppState).

(** The state the operations share; [permission_locks] is the content of every
    application's permission lock. *)
Record XswdWallet : Type := mkXswdWallet {
  xswd_sessions : Sessions AppState;
  api_server : option APIServer;
  xswd_relayer : option (list (AppState * Client));
  permission_locks : AppState → permission_map;
  xswd_effects : list xswd_effect
}.

Abbreviation handler E := (action XswdWallet E).

Definition env_of (live : AppState → bool) (w : XswdWallet) : XswdEnv :=
  mkXswdEnv live (permission_locks w).

Definition set_registry (r : Sessions AppState) (w : XswdWallet) : XswdWallet :=
  mkXswdWallet r (api_server w) (xswd_relayer w) (permission_locks w) (xswd_effects w).
Definition set_lock (app : AppState) (m : permission_map) (w : XswdWallet) : XswdWallet :=
  mkXswdWallet (xswd_sessions w) (api_server w) (xswd_relayer w)
    (λ s, if bool_decide (s = app) then m else permission_locks w s) (xswd_effects w).
Definition emit_xswd {E} (eff : xswd_effect) : handler E unit :=
  modify (λ w, mkXswdWallet (xswd_sessions w) (api_server w) (xswd_relayer w)
                 (permission_locks w) (xswd_effects w ++ [eff])).

(** One acquisition of the registry's lock. *)
Definition on_registry {E A} (m : action (Sessions AppState) E A) : handler E A := λ w,
  let '(x, r) := m (xswd_sessions w) in (x, set_registry r w).

(** One acquisition of an application's permission lock. *)
Definition on_permissions {E A} (app : AppState) (m : action permission_map E A) :
    handler E A := λ w,
  let '(x, m) := m (permission_locks w app) in (x, set_lock app m w).

Definition invalid_xswd_session_reference : NativeXelisError :=
  xelis_wallet_flutter CodeConflict "XSWD_SESSION_REFERENCE_INVALID"
    "The XSWD session reference is stale, detached, or belongs to another wallet".

(** [format!("{error:#}")]. *)
Definition alternate_display (error : anyhow_error) : string :=
  let 'AnyhowError alternate _ := error in alternate.

Definition xswd_permission_update_failed (error : anyhow_error) : NativeXelisError :=
  xelis_wallet CodeOperationFailed "XSWD_PERMISSION_UPDATE_FAILED" (alternate_display error).
Definition xswd_session_close_failed (error : anyhow_error) : NativeXelisError :=
  xelis_wallet CodeOperationFailed "XSWD_SESSION_CLOSE_FAILED" (alternate_display error).

Definition resolve_target (live : AppState → bool) (session_ref : Z) :
    handler NativeXelisError AppState :=
  on_registry (λ r, let '(target, r) := resolve live session_ref r in
                    (ok_or invalid_xswd_session_reference target, r)).

(** The session of the local XSWD server that is this application. *)
Definition find_on_server (target : AppState) (server : option APIServer) :
    option (Session * AppState) :=
  match server with
  | Some (ServerXSWD applications) =>
      snd <$> list_find (λ p, p.2 = target) applications
  | _ => None
  end.
Definition find_on_relayer (target : AppState) (relayer : option (list (AppState * Client))) :
    option (AppState * Client) :=
  relayer_apps ← relayer; snd <$> list_find (λ p, p.1 = target) relayer_apps.

Definition modify_app_permissions (app : AppState) (permissions : policy_map) :
    handler anyhow_error unit :=
  on_permissions app (apply_permission_updates permissions).

Definition modify_application_permissions (live : AppState → bool) (session_ref : Z)
    (permissions : policy_map) : handler NativeXelisError unit :=
  target ← resolve_target live session_ref;
  w ← get_state;
  match find_on_server target (api_server w) with
  | Some (_, app) =>
      map_err_action xswd_permission_update_failed (modify_app_permissions app permissions)
  | None =>
      match find_on_relayer target (xswd_relayer w) with
      | Some (app, _) =>
          map_err_action xswd_permission_update_failed (modify_app_permissions app permissions)
      | None => throw invalid_xswd_session_reference
      end
  end.

(** [close_session] is what closing a session of the server answers. *)
Definition close_application_session (live : AppState → bool)
    (close_session : Session → result anyhow_error unit) (session_ref : Z) :
    handler NativeXelisError unit :=
  target ← resolve_target live session_ref;
  w ← get_state;
  match find_on_server target (api_server w) with
  | Some (session, _) =>
      emit_xswd (CloseSession session);;
      lift (map_err xswd_session_close_failed (close_session session))
  | None =>
      match find_on_relayer target (xswd_relayer w) with
      | Some (app, client) => emit_xswd (CloseClientAndNotify client app)
      | None => throw invalid_xswd_session_reference
      end
  end.

(** The loops over the applications, in the iteration order of the maps. *)
Definition project_apps (live : AppState → bool) (is_relayer : bool) :
    list AppState → handler anyhow_error (list AppInfo) :=
  fix go apps :=
    match apps with
    | [] => mret []
    | app :: apps' =>
        w ← get_state;
        info ← on_registry (create_app_info (env_of live w) app is_relayer);
        infos ← go apps';
        mret (info :: infos)
    end.

Definition get_application_permissions (live : AppState → bool) :
    handler anyhow_error (list AppInfo) :=
  w ← get_state;
  local ← match api_server w with
          | Some (ServerXSWD applications) => project_apps live false applications.*2
          | _ => mret []
          end;
  w ← get_state;
  remote ← match xswd_relayer w with
           | Some relayer_apps => project_apps live true relayer_apps.*1
           | None => mret []
           end;
  mret (local ++ remote).

Definition stop_xswd (live : AppState → bool) : handler anyhow_error unit :=
  w ← get_state;
  modify (λ w, mkXswdWallet (xswd_sessions w) None (xswd_relayer w) (permission_locks w)
                 (xswd_effects w));;
  match api_server w with Some server => emit_xswd (StopServer server) | None => mret tt end;;
  w ← get_state;
  modify (λ w, mkXswdWallet (xswd_sessions w) (api_server w) None (permission_locks w)
                 (xswd_effects w));;
  match xswd_relayer w with Some _ => emit_xswd CloseRelayer | None => mret tt end;;
  modify (λ w, set_registry (clear live (xswd_sessions w)) w).

Definition is_xswd_running (w : XswdWallet) : bool :=
  match api_server w with
  | Some _ => true
  | None =>
      match xswd_relayer w with
      | Some apps => negb (bool_decide (apps = []))
      | None => false
      end
  end.

(** ** Relayed applications *)

Inductive EncryptionMode : Type :=
  | Aes (key : bytes)
  | Chacha20Poly1305 (key : bytes).

(** The key of [CoreEncryptionMode] is an array of 32 bytes. *)
Definition encryption_key (key : bytes) : result anyhow_error bytes :=
  let length := zlen key in
  if bool_decide (length = 32)%Z then Ok key
  else Err (bail ("Invalid XSWD relayer encryption key length: expected 32 bytes, got "
                  +:+ uint_to_string length)).

Definition convert_encryption_mode (mode : option EncryptionMode) :
    result anyhow_error (option EncryptionMode) :=
  match mode with
  | None => Ok None
  | Some (Aes key) => key ← encryption_key key; Ok (Some (Aes key))
  | Some (Chacha20Poly1305 key) =>
      key ← encryption_key key; Ok (Some (Chacha20Poly1305 key))
  end.

(** The checks of [start_xswd] and [add_xswd_relayer] before they touch the
    wallet. *)
Definition validated_limits (l : NativeXswdProjectionLimits) :
    result anyhow_error NativeXswdProjectionLimits :=
  map_err (λ error, bail (limits_error_code error)) (validate l).
(** ** Permissions are set exactly as asked *)

(** The permissions after the updates. *)
Definition updated (updates : policy_map) (current : permission_map) : permission_map :=
  (λ '(name, old), (name, from_option permission_from_policy old (updates !! name))) <$> current.

(** The permissions that Dart is shown. *)
Definition shown (current : permission_map) : policy_map :=
  foldl (λ m '(key, permission), <[key := policy_of_permission permission]> m) ∅ current.

Lemma set_permissions_updated (l : list (string * PermissionPolicy)) current :
  NoDup l.*1 →
  foldl (λ current '(key, policy), set_permission key (permission_from_policy policy) current)
    current l = updated (list_to_map l) current.
Proof.
  revert current; induction l as [|[k p] l IH]; intros current; cbn [foldl fmap list_fmap fst].
  { intros _. unfold updated. symmetry. rewrite <-(list_fmap_id current) at 2.
    apply list_fmap_ext. by intros ? []. }
  intros [Hk Hnd]%NoDup_cons. rewrite IH by done. unfold updated, set_permission.
  rewrite <-list_fmap_compose. apply list_fmap_ext. intros i [name old] _. cbn.
  case_bool_decide as Hn; cbn; simplify_eq.
  - rewrite lookup_insert_eq, (not_elem_of_list_to_map_1 _ _ Hk). done.
  - by rewrite lookup_insert_ne.
Qed.

Lemma existsb_keys (P : string → bool) (m : policy_map) :
  existsb P (map_to_list m).*1 = true ↔ ∃ key, is_Some (m !! key) ∧ P key = true.
Proof.
  rewrite existsb_exists. setoid_rewrite <-list_elem_of_In.
  setoid_rewrite list_elem_of_fmap. split.
  - intros (key & ([? p] & -> & Hp%elem_of_map_to_list) & HP). eauto.
  - intros (key & [p Hp] & HP). exists key. split; [|done]. exists (key, p).
    by rewrite elem_of_map_to_list.
Qed.

Lemma existsb_keys_false (P : string → bool) (m : policy_map) :
  existsb P (map_to_list m).*1 = false → ∀ key, is_Some (m !! key) → P key = false.
Proof.
  intros Hf key Hk. destruct (P key) eqn:HP; [|done].
  assert (existsb P (map_to_list m).*1 = true) by (apply existsb_keys; eauto). congruence.
Qed.

(** Permission updates are all or nothing.  They succeed
    exactly when every name is a permission of the application and none has the
    wallet prefix; then each named permission has the policy asked for, every
    other keeps its own, in the same order.  Otherwise nothing changes. *)
Theorem permission_updates_exact updates current :
  (apply_permission_updates updates current = (Ok tt, updated updates current) ∧
   ∀ key, is_Some (updates !! key) → key ∈ current.*1 ∧ String.prefix "wallet." key = false) ∨
  ∃ error key, apply_permission_updates updates current = (Err error, current) ∧
    is_Some (updates !! key) ∧ (key ∉ current.*1 ∨ String.prefix "wallet." key = true).
Proof.
  unfold apply_permission_updates. unfold_monad.
  destruct (existsb (String.prefix "wallet.") _) eqn:Hp.
  { right. apply existsb_keys in Hp as (key & Hk & Hp). eauto 10. }
  destruct (existsb (λ key, _) _) eqn:Hm.
  { right. apply existsb_keys in Hm as (key & Hk & Hm%bool_decide_eq_true). eauto 10. }
  left. split.
  - by rewrite set_permissions_updated, list_to_map_to_list by apply NoDup_fst_map_to_list.
  - intros key Hk. pose proof (existsb_keys_false _ _ Hp key Hk).
    pose proof (existsb_keys_false _ _ Hm key Hk) as Hin%bool_decide_eq_false%dec_stable. done.
Qed.

Lemma policy_roundtrip permission :
  permission_from_policy (policy_of_permission permission) = permission.
Proof. by destruct permission. Qed.

Lemma shown_lookup_aux current (m : policy_map) key :
  NoDup current.*1 →
  foldl (λ (m : policy_map) '(key, permission),
    <[key := policy_of_permission permission]> m) m current !! key =
  match (list_to_map current : gmap string Permission) !! key with
  | Some permission => Some (policy_of_permission permission)
  | None => m !! key
  end.
Proof.
  revert m; induction current as [|[k p] current IH]; intros m; cbn [foldl fmap list_fmap fst].
  { by rewrite list_to_map_nil, lookup_empty. }
  intros [Hk Hnd]%NoDup_cons. rewrite IH by done. rewrite list_to_map_cons.
  destruct (decide (k = key)) as [->|Hn].
  - by rewrite (not_elem_of_list_to_map_1 _ _ Hk), !lookup_insert_eq.
  - by rewrite !lookup_insert_ne.
Qed.

Lemma shown_lookup current key :
  NoDup current.*1 →
  shown current !! key =
  policy_of_permission <$> (list_to_map current : gmap string Permission) !! key.
Proof.
  intros Hnd. unfold shown. rewrite shown_lookup_aux by done. rewrite lookup_empty.
  by destruct (list_to_map current !! key).
Qed.

(** Sending back the permissions that were shown changes
    nothing.  The application information of a session has one policy per
    permission, and updating the session with them succeeds and restores every
    permission. *)
Theorem shown_permissions_restore current state is_relayer session_ref :
  NoDup current.*1 → Forall (λ name, String.prefix "wallet." name = false) current.*1 →
  let info := create_app_info_with_session_ref current state is_relayer session_ref in
  dom (ai_permissions info) = list_to_set current.*1 ∧
  apply_permission_updates (ai_permissions info) current = (Ok tt, current).
Proof.
  intros Hnd Hp info. change (ai_permissions info) with (shown current).
  assert (∀ key, is_Some (shown current !! key) ↔ key ∈ current.*1) as Hkeys.
  { intros key. rewrite shown_lookup, fmap_is_Some by done.
    rewrite <-elem_of_dom, dom_list_to_map_L, elem_of_list_to_set. done. }
  split.
  { apply set_eq. intros key. by rewrite elem_of_dom, Hkeys, elem_of_list_to_set. }
  pose proof (set_permissions_updated (map_to_list (shown current)) current
    (NoDup_fst_map_to_list _)) as Hu. rewrite list_to_map_to_list in Hu.
  unfold apply_permission_updates. unfold_monad.
  destruct (existsb (String.prefix "wallet.") _) eqn:Hw.
  { apply existsb_keys in Hw as (key & Hk%Hkeys & Hw). rewrite Forall_forall in Hp.
    rewrite Hp in Hw; done. }
  destruct (existsb (λ key, _) _) eqn:Hm.
  { apply existsb_keys in Hm as (key & Hk%Hkeys & Hm%bool_decide_eq_true). done. }
  rewrite Hu. f_equal. unfold updated. rewrite <-(list_fmap_id current) at 2.
  apply list_fmap_ext. intros i [name old] Hi. cbn.
  apply list_elem_of_lookup_2 in Hi. rewrite shown_lookup by done.
  rewrite (elem_of_list_to_map_1 current name old) by done. cbn. by rewrite policy_roundtrip.
Qed.

(** ** Authority over sessions *)

(** The application is connected to the local server or to the relayer. *)
Definition connected (app : AppState) (w : XswdWallet) : Prop :=
  is_Some (find_on_server app (api_server w)) ∨ is_Some (find_on_relayer app (xswd_relayer w)).

Lemma find_on_server_Some target server session app :
  find_on_server target server = Some (session, app) → app = target.
Proof.
  destruct server as [[apps|]|]; [|done..]. cbn. rewrite fmap_Some.
  intros ([i p] & Hf & Hp). apply list_find_Some in Hf as (_ & Hs & _).
  cbn in Hp. by subst p.
Qed.
Lemma find_on_relayer_Some target relayer app client :
  find_on_relayer target relayer = Some (app, client) → app = target.
Proof.
  destruct relayer as [apps|]; [|done]. cbn. rewrite fmap_Some.
  intros ([i p] & Hf & Hp). apply list_find_Some in Hf as (_ & Hs & _).
  cbn in Hp. by subst p.
Qed.

Lemma resolve_target_eq live ref w :
  resolve_target live ref w =
  (ok_or invalid_xswd_session_reference (resolve live ref (xswd_sessions w)).1,
   set_registry (resolve live ref (xswd_sessions w)).2 w).
Proof. unfold resolve_target, on_registry. by destruct (resolve live ref _). Qed.

(** What an operation may change besides the permission locks: the registry
    loses dead entries. *)
Definition same_endpoints (w w' : XswdWallet) : Prop :=
  api_server w' = api_server w ∧ xswd_relayer w' = xswd_relayer w ∧
  xswd_effects w' = xswd_effects w.

Lemma modify_app_permissions_eq app permissions w :
  (modify_app_permissions app permissions w =
     (Ok tt, set_lock app (updated permissions (permission_locks w app)) w)) ∨
  ∃ error, modify_app_permissions app permissions w =
     (Err error, set_lock app (permission_locks w app) w).
Proof.
  unfold modify_app_permissions, on_permissions, apply_permission_updates.
  unfold_monad. destruct (existsb _ _); [eauto|]. destruct (existsb _ _); [eauto|].
  left. by rewrite set_permissions_updated, list_to_map_to_list by apply NoDup_fst_map_to_list.
Qed.

(** What an edit does, case by case. *)
Lemma modify_application_cases live ref permissions w :
  let target := (resolve live ref (xswd_sessions w)).1 in
  let w1 := set_registry (resolve live ref (xswd_sessions w)).2 w in
  ((∀ app, target = Some app → ¬ connected app w) ∧
   modify_application_permissions live ref permissions w =
     (Err invalid_xswd_session_reference, w1)) ∨
  ∃ app, target = Some app ∧ connected app w ∧
    (modify_application_permissions live ref permissions w =
       (Ok tt, set_lock app (updated permissions (permission_locks w app)) w1) ∨
     ∃ error, modify_application_permissions live ref permissions w =
       (Err error, set_lock app (permission_locks w app) w1)).
Proof.
  cbn zeta. pose proof (resolve_target_eq live ref w) as Ht.
  destruct (resolve live ref (xswd_sessions w)) as [target r]; cbn [fst snd] in *.
  unfold modify_application_permissions, mbind, action_bind. rewrite Ht. clear Ht.
  destruct target as [app|]; [|by left]. unfold connected. cbn [ok_or get_state set_registry].
  change (api_server (set_registry r w)) with (api_server w).
  change (xswd_relayer (set_registry r w)) with (xswd_relayer w).
  assert (∀ app', map_err_action xswd_permission_update_failed
      (modify_app_permissions app' permissions) (set_registry r w) =
      (Ok tt, set_lock app' (updated permissions (permission_locks w app')) (set_registry r w)) ∨
    ∃ error, map_err_action xswd_permission_update_failed
      (modify_app_permissions app' permissions) (set_registry r w) =
      (Err error, set_lock app' (permission_locks w app') (set_registry r w))) as Hm.
  { intros app'. unfold map_err_action.
    destruct (modify_app_permissions_eq app' permissions (set_registry r w))
      as [->|[error ->]]; cbn; eauto. }
  destruct (find_on_server app (api_server w)) as [[session app']|] eqn:Hs.
  { apply find_on_server_Some in Hs as Heq. subst app'. right. exists app.
    split_and!; [done|by left|]. apply Hm. }
  destruct (find_on_relayer app (xswd_relayer w)) as [[app' client]|] eqn:Hr.
  { apply find_on_relayer_Some in Hr as Heq. subst app'. right. exists app.
    split_and!; [done|by right|]. apply Hm. }
  left. split; [|done]. intros ? [= <-] [[? ?]|[? ?]]; congruence.
Qed.

(** Editing permissions reaches one session only.  A
    reference that resolves to no connected application is refused.  When the
    edit succeeds, the permissions of the application that the reference names
    are the updated ones; no other application's change, no connection is
    touched, and a refused edit changes no permission at all. *)
Theorem edits_confined live ref permissions w :
  let '(res, w') := modify_application_permissions live ref permissions w in
  let target := (resolve live ref (xswd_sessions w)).1 in
  same_endpoints w w' ∧
  (∀ app, permission_locks w' app =
     if is_ok res && bool_decide (target = Some app)
     then updated permissions (permission_locks w app) else permission_locks w app) ∧
  (res = Ok tt → ∃ app, target = Some app ∧ connected app w) ∧
  ((∀ app, target = Some app → ¬ connected app w) → res = Err invalid_xswd_session_reference).
Proof.
  pose proof (modify_application_cases live ref permissions w) as Hc. cbn zeta in Hc.
  destruct (resolve live ref (xswd_sessions w)) as [target r]. cbn [fst snd] in *.
  destruct (modify_application_permissions live ref permissions w) as [res w'].
  destruct Hc as [[Hn [= -> ->]]|(app & -> & Hconn & [[= -> ->]|[error [= -> ->]]])].
  - by split_and!.
  - split_and!; try done; [|eauto|naive_solver]. intros app'. cbn.
    repeat case_bool_decide; congruence.
  - split_and!; try done; [|naive_solver]. intros app'. cbn. case_bool_decide; congruence.
Qed.

Lemma cleared_resolve live live' ref (r : Sessions AppState) :
  (resolve live' ref (clear live r)).1 = None.
Proof.
  destruct (resolve live' ref (clear live r)).1 as [s|] eqn:Hr; [|done].
  apply (resolve_active live' ref (mkProcess (λ _, sessions (clear live r))
    (next_reference r)) 0 s) in Hr as (e & He & Ha & _).
  cbn in He. unfold deactivate in He. by apply lookup_fmap_Some in He as (e0 & <- & _).
Qed.

(** Stopping XSWD ends every authority.  It always succeeds;
    afterwards XSWD does not run, the server and the relayer that were there
    were told to stop, once each, no application is connected, no session
    reference resolves, and the permissions that users set are as they were. *)
Theorem stop_ends_authority live w :
  let '(res, w') := stop_xswd live w in
  res = Ok tt ∧ is_xswd_running w' = false ∧
  xswd_effects w' = xswd_effects w ++
    from_option (λ server, [StopServer server]) [] (api_server w) ++
    from_option (λ _, [CloseRelayer]) [] (xswd_relayer w) ∧
  (∀ app, ¬ connected app w' ∧ permission_locks w' app = permission_locks w app) ∧
  ∀ live' ref, (resolve live' ref (xswd_sessions w')).1 = None.
Proof.
  pose proof (λ live' ref, cleared_resolve live live' ref (xswd_sessions w)) as Hres.
  unfold stop_xswd, emit_xswd, mbind, action_bind, get_state, modify, mret, action_ret.
  destruct (api_server w) as [server|] eqn:Hs, (xswd_relayer w) as [apps|] eqn:Hr;
    cbn -[resolve]; rewrite ?Hr; cbn -[resolve];
    (split_and!; [done|done|by rewrite <-?(assoc_L (++)), ?(right_id_L [] (++))| |exact Hres]);
    intros app; (split; [|done]); by intros [[? ?]|[? ?]].
Qed.
End Xswd.

(** ** A concrete application *)

Definition demo_xswd : @XswdLib demo_json := {|
  AppState := nat;
  get_id _ := "app"%string;
  get_name _ := "App"%string;
  get_description _ := EmptyString;
  get_url _ := None;
  RpcRequest := string;
  request_to_value method := Some (@Object demo_json [("method"%string, @Str demo_json method)]);
  XSWDPrefetchPermissions := list string;
  prefetch_to_value names :=
    Some (@Object demo_json [("permissions"%string, @Array demo_json (@Str demo_json <$> names))]);
  prefetch_names names := names
|}.

#[local] Existing Instances demo_json demo_xswd.

Lemma shown_permissions_restore_witness :
  let current := [("get_balance"%string, Allow); ("sign_data"%string, Ask)] in
  apply_permission_updates
    (ai_permissions (create_app_info_with_session_ref current 7 false 1)) current =
  (Ok tt, current).
Proof.
  refine (proj2 (shown_permissions_restore
    [("get_balance"%string, Allow); ("sign_data"%string, Ask)] 7 false 1 _ _)).
  - apply (bool_decide_unpack _). reflexivity.
  - repeat constructor.
Defined.

End Xswd.
