(* ===== verification/Dispatcher.v ===== *)
(** * The XSWD request dispatcher (rust/src/api/xswd/impl/dispatcher.rs and the
    event preparation of rust/src/api/xswd/impl.rs)

    One task receives the events of the connected applications, shows one
    request at a time to Dart, and answers each through its one-shot channel.
    While a Dart callback runs, further events are deferred in a bounded queue;
    cancellations and disconnections overtake them.

    [iterate] is one iteration of the loop of [run]: its argument [Poll] says
    what the receiver and the running callback are ready with.  Channels are
    numbered; what is sent on them, the Dart callbacks invoked and the events
    received make up the trace. *)

From S2P Require Import Prelude Errors External Payload Registry Xswd.

Module Dispatcher.
Import Payload Registry Xswd.

Definition MAX_DEFERRED_XSWD_EVENTS : nat := 64.
Definition MAX_XSWD_RECEIVE_BURST : nat := 16.
Definition XSWD_HANDLER_CLOSED : string := "XSWD_HANDLER_CLOSED".
Definition XSWD_HANDLER_OVERLOADED : string := "XSWD_HANDLER_OVERLOADED".
Definition XSWD_REQUEST_CANCELLED : string := "XSWD_REQUEST_CANCELLED".
Definition XSWD_REQUEST_QUEUE_FULL : string := "XSWD_REQUEST_QUEUE_FULL".

Inductive XswdDecisionCallbackOutcome : Type :=
  | OutAccept | OutReject | OutAlwaysAccept | OutAlwaysReject
  | OutInvalidPayload | OutTimeout | OutException.
Inductive XswdNotificationCallbackOutcome : Type :=
  | NotCompleted | NotInvalidPayload | NotTimeout | NotException.

Inductive UserPermissionDecision : Type :=
  | DecAccept | DecReject | DecAlwaysAccept | DecAlwaysReject.

(** A [oneshot::Sender], by its identity. *)
Abbreviation Sender := nat.

Inductive XswdNotificationKind : Type := CancelRequest | AppDisconnect.

(** The output of an active callback's future, and which output it has. *)
Inductive XswdActiveCallbackOutcome : Type :=
  | OutcomeDecision (outcome : XswdDecisionCallbackOutcome)
  | OutcomeNotification (outcome : XswdNotificationCallbackOutcome).
Inductive future_kind : Type := FutureDecision | FutureNotification.

(** What a channel carries. *)
Inductive response : Type :=
  | RespPermission (r : result anyhow_error PermissionResult)
  | RespPrefetch (r : result anyhow_error permission_map)
  | RespCancelled.

Section Dispatcher.
Context `{!JsonNumber, !XswdLib}.

(** [xelis_wallet::wallet::XSWDEvent]. *)
Inductive XSWDEvent : Type :=
  | RequestApplication (state : AppState) (callback : Sender)
  | RequestPermission (state : AppState) (request : RpcRequest) (callback : Sender)
  | PrefetchPermissions (state : AppState) (permissions : XSWDPrefetchPermissions)
      (callback : Sender)
  | EvCancelRequest (state : AppState) (callback : Sender)
  | EvAppDisconnect (state : AppState).

Inductive effect : Type :=
  | Received (event : XSWDEvent)
  | Send (callback : Sender) (r : response)
  | CallApplication (summary : XswdRequestSummary)
  | CallPermission (summary : XswdRequestSummary)
  | CallPrefetch (summary : XswdRequestSummary)
  | CallCancelRequest (summary : XswdRequestSummary) (cancelled_admission : bool)
  | CallAppDisconnect (summary : XswdRequestSummary).

Inductive PendingXswdResponse : Type :=
  | PendPermission (callback : Sender)
  | PendPrefetch (permissions : XSWDPrefetchPermissions) (callback : Sender).

Record PendingXswdDecision : Type := mkPendingDecision {
  pd_state : AppState;
  pd_response : PendingXswdResponse;
  pd_is_application_admission : bool
}.

Record PreparedXswdNotification : Type := mkNotification {
  pn_state : AppState;
  pn_summary : XswdRequestSummary;
  pn_kind : XswdNotificationKind;
  pn_cancelled_application_admission : bool
}.

Inductive DeferredXswdEvent : Type :=
  | DeferredRaw (event : XSWDEvent)
  | DeferredNotification (notification : PreparedXswdNotification).

Inductive XswdLifecycleEvent : Type :=
  | LifecycleCancelRequest (state : AppState) (callback : Sender)
  | LifecycleAppDisconnect (state : AppState).

Inductive PreparedXswdEvent : Type :=
  | PreparedDecision (decision : PendingXswdDecision)
  | PreparedLifecycle (event : XswdLifecycleEvent)
  | PreparedHandled.

Inductive ActiveXswdCallbackKind : Type :=
  | ActiveDecision (resp : PendingXswdResponse) (is_application_admission : bool)
  | ActiveNotification (kind : XswdNotificationKind).

Record ActiveXswdCallback : Type := mkActive {
  ac_state : AppState;
  ac_kind : ActiveXswdCallbackKind;
  ac_future : future_kind
}.

(** The local variables of [run], the registry it shares and its trace. *)
Record Handler : Type := mkHandler {
  deferred : list DeferredXswdEvent;
  active : option ActiveXswdCallback;
  receive_burst : nat;
  observed_states : list AppState;
  handler_sessions : Sessions AppState;
  trace : list effect
}.

Abbreviation run_proc := (proc Handler).

Definition get_handler : run_proc Handler := λ h, (h, h).
Definition set_deferred (q : list DeferredXswdEvent) : run_proc unit := λ h,
  (tt, mkHandler q (active h) (receive_burst h) (observed_states h) (handler_sessions h)
         (trace h)).
Definition set_active (a : option ActiveXswdCallback) : run_proc unit := λ h,
  (tt, mkHandler (deferred h) a (receive_burst h) (observed_states h) (handler_sessions h)
         (trace h)).
Definition set_burst (n : nat) : run_proc unit := λ h,
  (tt, mkHandler (deferred h) (active h) n (observed_states h) (handler_sessions h) (trace h)).
Definition set_observed (l : list AppState) : run_proc unit := λ h,
  (tt, mkHandler (deferred h) (active h) (receive_burst h) l (handler_sessions h) (trace h)).
Definition set_handler_sessions (r : Sessions AppState) : run_proc unit := λ h,
  (tt, mkHandler (deferred h) (active h) (receive_burst h) (observed_states h) r (trace h)).
Definition emit (effs : list effect) : run_proc unit := λ h,
  (tt, mkHandler (deferred h) (active h) (receive_burst h) (observed_states h)
         (handler_sessions h) (trace h ++ effs)).

(** One acquisition of the registry's lock. *)
Definition with_registry {E A} (m : action (Sessions AppState) E A) : run_proc (result E A) :=
  h ← get_handler;
  let '(x, r) := m (handler_sessions h) in
  set_handler_sessions r;;
  mret x.
Definition invalidate (env : XswdEnv) (state : AppState) : run_proc unit :=
  h ← get_handler;
  set_handler_sessions (invalidate_state (live env) state (handler_sessions h)).

(** ** Answers (a failed [send] is only logged) *)

Definition send_permission_failure (callback : Sender) (code : string) : list effect :=
  [Send callback (RespPermission (Err (bail code)))].
Definition send_prefetch_failure (callback : Sender) (code : string) : list effect :=
  [Send callback (RespPrefetch (Err (bail code)))].
Definition acknowledge_cancelled_request (callback : Sender) : list effect :=
  [Send callback RespCancelled].

Definition decision_failure_code (outcome : XswdDecisionCallbackOutcome) : string :=
  match outcome with
  | OutInvalidPayload => "XSWD_CALLBACK_PAYLOAD_INVALID"
  | OutTimeout => "XSWD_CALLBACK_TIMEOUT"
  | OutException => "XSWD_CALLBACK_EXCEPTION"
  | _ => "XSWD_CALLBACK_OUTCOME_INVALID"
  end.

Definition permission_result_from_outcome (outcome : XswdDecisionCallbackOutcome) :
    result anyhow_error PermissionResult :=
  match outcome with
  | OutAccept => Ok ResAccept
  | OutReject => Ok ResReject
  | OutAlwaysAccept => Ok ResAlwaysAccept
  | OutAlwaysReject => Ok ResAlwaysReject
  | failure => Err (bail (decision_failure_code failure))
  end.

Definition handle_permission_outcome (outcome : XswdDecisionCallbackOutcome)
    (callback : Sender) : list effect :=
  [Send callback (RespPermission (permission_result_from_outcome outcome))].

(** [IndexMap::insert]. *)
Fixpoint index_insert (name : string) (permission : Permission) (m : permission_map) :
    permission_map :=
  match m with
  | [] => [(name, permission)]
  | (name', old) :: m' =>
      if bool_decide (name' = name) then (name', permission) :: m'
      else (name', old) :: index_insert name permission m'
  end.

Definition prefetch_permissions_from_decision (decision : UserPermissionDecision)
    (permissions : XSWDPrefetchPermissions) : permission_map :=
  match decision with
  | DecAccept | DecAlwaysAccept =>
      foldl (λ results p, index_insert p Allow results) [] (prefetch_names permissions)
  | DecReject | DecAlwaysReject => []
  end.

Definition handle_prefetch_permissions_outcome (outcome : XswdDecisionCallbackOutcome)
    (permissions : XSWDPrefetchPermissions) (callback : Sender) : list effect :=
  [Send callback (RespPrefetch
    match outcome with
    | OutAccept | OutAlwaysAccept => Ok (prefetch_permissions_from_decision DecAccept permissions)
    | OutReject | OutAlwaysReject => Ok []
    | failure => Err (bail (decision_failure_code failure))
    end)].

Definition pending_complete (r : PendingXswdResponse) (outcome : XswdDecisionCallbackOutcome) :
    list effect :=
  match r with
  | PendPermission callback => handle_permission_outcome outcome callback
  | PendPrefetch permissions callback =>
      handle_prefetch_permissions_outcome outcome permissions callback
  end.

Definition pending_fail (r : PendingXswdResponse) (code : string) : list effect :=
  match r with
  | PendPermission callback => send_permission_failure callback code
  | PendPrefetch _ callback => send_prefetch_failure callback code
  end.

(** ** Active callbacks *)

Definition into_active (d : PendingXswdDecision) : ActiveXswdCallback :=
  mkActive (pd_state d) (ActiveDecision (pd_response d) (pd_is_application_admission d))
    FutureDecision.

(** [PreparedXswdNotification::start], with the Dart callback it invokes. *)
Definition start (n : PreparedXswdNotification) : run_proc ActiveXswdCallback :=
  emit [match pn_kind n with
        | CancelRequest =>
            CallCancelRequest (pn_summary n) (pn_cancelled_application_admission n)
        | AppDisconnect => CallAppDisconnect (pn_summary n)
        end];;
  mret (mkActive (pn_state n) (ActiveNotification (pn_kind n)) FutureNotification).

Definition is_decision_for (state : AppState) (a : ActiveXswdCallback) : bool :=
  match ac_kind a with
  | ActiveDecision _ _ => bool_decide (ac_state a = state)
  | _ => false
  end.
Definition is_application_admission (a : ActiveXswdCallback) : bool :=
  match ac_kind a with ActiveDecision _ admission => admission | _ => false end.
Definition is_disconnect_for (state : AppState) (a : ActiveXswdCallback) : bool :=
  match ac_kind a with
  | ActiveNotification AppDisconnect => bool_decide (ac_state a = state)
  | _ => false
  end.

(** A mismatch of the kinds, and the outcome of a notification, are logged. *)
Definition complete_kind (kind : ActiveXswdCallbackKind) (outcome : XswdActiveCallbackOutcome) :
    list effect :=
  match kind, outcome with
  | ActiveDecision resp _, OutcomeDecision outcome => pending_complete resp outcome
  | _, _ => []
  end.
Definition active_complete (a : ActiveXswdCallback) (outcome : XswdActiveCallbackOutcome) :
    list effect := complete_kind (ac_kind a) outcome.
Definition active_fail (code : string) (a : ActiveXswdCallback) : list effect :=
  match ac_kind a with
  | ActiveDecision resp _ => pending_fail resp code
  | ActiveNotification _ => []
  end.
Definition active_cancel : ActiveXswdCallback → list effect :=
  active_fail XSWD_REQUEST_CANCELLED.

(** [if let Some(callback) = active.take() { f(callback) }]. *)
Definition take_active (f : ActiveXswdCallback → list effect) : run_proc unit :=
  h ← get_handler;
  match active h with
  | Some callback => set_active None;; emit (f callback)
  | None => mret tt
  end.

(** ** The queue of deferred events *)

(** The first three arms of the loop of [cancel_deferred_xswd_decisions]: an
    event that is cancelled, whether it was an admission, and its answer. *)
Definition cancel_event (state : AppState) (event : DeferredXswdEvent) :
    option (bool * list effect) :=
  match event with
  | DeferredRaw (RequestApplication event_state callback) =>
      if bool_decide (event_state = state)
      then Some (true, send_permission_failure callback XSWD_REQUEST_CANCELLED) else None
  | DeferredRaw (RequestPermission event_state _ callback) =>
      if bool_decide (event_state = state)
      then Some (false, send_permission_failure callback XSWD_REQUEST_CANCELLED) else None
  | DeferredRaw (PrefetchPermissions event_state _ callback) =>
      if bool_decide (event_state = state)
      then Some (false, send_prefetch_failure callback XSWD_REQUEST_CANCELLED) else None
  | _ => None
  end.

(** The whole loop: the events retained, whether an admission was cancelled, and
    the answers in order. *)
Fixpoint cancel_loop (state : AppState) (events : list DeferredXswdEvent) :
    list DeferredXswdEvent * bool * list effect :=
  match events with
  | [] => ([], false, [])
  | event :: events' =>
      let '(retained, admission, effs) := cancel_loop state events' in
      match cancel_event state event with
      | Some (is_admission, answer) => (retained, is_admission || admission, answer ++ effs)
      | None => (event :: retained, admission, effs)
      end
  end.

Definition cancel_deferred_xswd_decisions (state : AppState) : run_proc bool :=
  h ← get_handler;
  let '(retained, admission, effs) := cancel_loop state (deferred h) in
  set_deferred retained;;
  emit effs;;
  mret admission.

(** Answers to an event that is dropped with a code. *)
Definition fail_raw_event (event : XSWDEvent) (code : string) : list effect :=
  match event with
  | RequestApplication _ callback | RequestPermission _ _ callback =>
      send_permission_failure callback code
  | PrefetchPermissions _ _ callback => send_prefetch_failure callback code
  | EvCancelRequest _ callback => acknowledge_cancelled_request callback
  | EvAppDisconnect _ => []
  end.

Definition defer_xswd_decision (event : XSWDEvent) : run_proc unit :=
  h ← get_handler;
  if bool_decide (length (deferred h) < MAX_DEFERRED_XSWD_EVENTS)
  then set_deferred (deferred h ++ [DeferredRaw event])
  else emit (fail_raw_event event XSWD_REQUEST_QUEUE_FULL).

Definition fail_deferred_xswd_event (code : string) (event : DeferredXswdEvent) :
    list effect :=
  match event with
  | DeferredRaw event => fail_raw_event event code
  | DeferredNotification _ => []
  end.

Definition fail_deferred_xswd_events (code : string) : run_proc unit :=
  h ← get_handler;
  set_deferred [];;
  emit (deferred h ≫= fail_deferred_xswd_event code).

Definition is_xswd_decision_event (event : DeferredXswdEvent) : bool :=
  match event with
  | DeferredRaw (RequestApplication _ _ | RequestPermission _ _ _
                | PrefetchPermissions _ _ _) => true
  | _ => false
  end.

Definition is_deferred_disconnect (state : AppState) (event : DeferredXswdEvent) : bool :=
  match event with
  | DeferredNotification n =>
      match pn_kind n with
      | AppDisconnect => bool_decide (pn_state n = state)
      | CancelRequest => false
      end
  | DeferredRaw _ => false
  end.

(** The notification to start at once when the queue is full of notifications. *)
Definition defer_xswd_disconnect (notification : PreparedXswdNotification) :
    run_proc (option PreparedXswdNotification) :=
  h ← get_handler;
  let already_deferred :=
    from_option (is_disconnect_for (pn_state notification)) false (active h) ||
    existsb (is_deferred_disconnect (pn_state notification)) (deferred h) in
  if already_deferred then mret None
  else if bool_decide (MAX_DEFERRED_XSWD_EVENTS ≤ length (deferred h)) then
    match list_find (λ event, is_xswd_decision_event event = true) (deferred h) with
    | Some (index, event) =>
        set_deferred (delete index (deferred h));;
        emit (fail_deferred_xswd_event XSWD_REQUEST_QUEUE_FULL event);;
        h ← get_handler;
        (if bool_decide (length (deferred h) < MAX_DEFERRED_XSWD_EVENTS)
         then set_deferred (deferred h ++ [DeferredNotification notification])
         else mret tt);;
        mret None
    | None =>
        let next := match head (deferred h) with
                    | Some (DeferredNotification next) => Some next
                    | _ => None
                    end in
        set_deferred (tail (deferred h) ++ [DeferredNotification notification]);;
        mret next
    end
  else
    set_deferred (deferred h ++ [DeferredNotification notification]);;
    mret None.

(** ** Preparing events *)

Definition prepare_decision (env : XswdEnv) (state : AppState) (type : XswdRequestType)
    (call : XswdRequestSummary → effect) (resp : PendingXswdResponse)
    (is_application_admission : bool) : run_proc PreparedXswdEvent :=
  event_summary ← with_registry (create_event_summary env state type);
  match event_summary with
  | Ok event_summary =>
      emit [call event_summary];;
      mret (PreparedDecision (mkPendingDecision state resp is_application_admission))
  | Err error =>
      emit (pending_fail resp (reference_error_code error));;
      mret PreparedHandled
  end.

Definition prepare_xswd_event (env : XswdEnv) (limits : NativeXswdProjectionLimits)
    (event : XSWDEvent) : run_proc PreparedXswdEvent :=
  match event with
  | RequestApplication state callback =>
      prepare_decision env state TypeApplication CallApplication (PendPermission callback) true
  | RequestPermission state request callback =>
      match Payload.project request_to_value request limits with
      | Ok payload =>
          prepare_decision env state (TypePermission payload) CallPermission
            (PendPermission callback) false
      | Err error =>
          emit (send_permission_failure callback "XSWD_PAYLOAD_PROJECTION_FAILED");;
          mret PreparedHandled
      end
  | PrefetchPermissions state permissions callback =>
      match Payload.project prefetch_to_value permissions limits with
      | Ok payload =>
          prepare_decision env state (TypePrefetchPermissions payload) CallPrefetch
            (PendPrefetch permissions callback) false
      | Err error =>
          emit (send_prefetch_failure callback "XSWD_PAYLOAD_PROJECTION_FAILED");;
          mret PreparedHandled
      end
  | EvCancelRequest state callback =>
      mret (PreparedLifecycle (LifecycleCancelRequest state callback))
  | EvAppDisconnect state => mret (PreparedLifecycle (LifecycleAppDisconnect state))
  end.

(** A failed projection is logged. *)
Definition prepare_xswd_lifecycle_notification (env : XswdEnv) (state : AppState)
    (kind : XswdNotificationKind) (cancelled_application_admission : bool) :
    run_proc (option PreparedXswdNotification) :=
  let '(type, cancelled) :=
    match kind with
    | CancelRequest => (TypeCancelRequest, cancelled_application_admission)
    | AppDisconnect => (TypeAppDisconnect, false)
    end in
  summary ← with_registry (create_lifecycle_event_summary env state type);
  mret match summary with
       | Ok summary => Some (mkNotification state summary kind cancelled)
       | Err _ => None
       end.

Definition acknowledge (event : XswdLifecycleEvent) :
    run_proc (AppState * XswdNotificationKind) :=
  match event with
  | LifecycleCancelRequest state callback =>
      emit (acknowledge_cancelled_request callback);; mret (state, CancelRequest)
  | LifecycleAppDisconnect state => mret (state, AppDisconnect)
  end.

(** ** States seen *)

Definition event_state (event : XSWDEvent) : AppState :=
  match event with
  | RequestApplication state _ | RequestPermission state _ _
  | PrefetchPermissions state _ _ | EvCancelRequest state _ | EvAppDisconnect state => state
  end.

Definition track_xswd_state (env : XswdEnv) (state : AppState) : run_proc unit :=
  h ← get_handler;
  let observed := filter (λ s, holding state (live env) s = true) (observed_states h) in
  set_observed (if bool_decide (state ∈ observed) then observed else observed ++ [state]).

(** The states are upgraded to strong references first. *)
Definition invalidate_observed_xswd_states (env : XswdEnv) : run_proc unit :=
  h ← get_handler;
  let states := filter (λ s, live env s = true) (observed_states h) in
  set_handler_sessions (foldl (λ r s, invalidate_state (live env) s r)
                          (handler_sessions h) states).

(** ** The loop of [run] *)

(** What an iteration finds: the answers of the environment, the receiver
    ([None]: pending; [Some None]: closed), the active callback's future by the
    kind of its output ([None]: pending), and what other tasks did to the
    registry since the last iteration. *)
Record Poll : Type := mkPoll {
  p_env : XswdEnv;
  p_event : option (option XSWDEvent);
  p_decision : option XswdDecisionCallbackOutcome;
  p_notification : option XswdNotificationCallbackOutcome;
  p_others : Sessions AppState → Sessions AppState
}.

Inductive Progress : Type := Continue | Break | Waiting.

Inductive XswdHandlerInput : Type :=
  | InputCallback (outcome : XswdActiveCallbackOutcome)
  | InputEvent (event : option XSWDEvent).

Definition poll_future (p : Poll) (k : future_kind) : option XswdActiveCallbackOutcome :=
  match k with
  | FutureDecision => OutcomeDecision <$> p_decision p
  | FutureNotification => OutcomeNotification <$> p_notification p
  end.

Section Run.
Variable limits : NativeXswdProjectionLimits.

Definition activate (a : ActiveXswdCallback) : run_proc unit :=
  set_active (Some a);; set_burst 0.

Definition start_notification (n : option PreparedXswdNotification) : run_proc unit :=
  match n with
  | Some n => a ← start n; activate a
  | None => mret tt
  end.

(** The match on the next event when nothing is active. *)
Definition dispatch (env : XswdEnv) (event : DeferredXswdEvent) : run_proc unit :=
  match event with
  | DeferredRaw event =>
      prepared ← prepare_xswd_event env limits event;
      match prepared with
      | PreparedDecision decision => activate (into_active decision)
      | PreparedLifecycle event =>
          '(state, kind) ← acknowledge event;
          match kind with
          | AppDisconnect => invalidate env state
          | CancelRequest => mret tt
          end;;
          n ← prepare_xswd_lifecycle_notification env state kind false;
          start_notification n
      | PreparedHandled => mret tt
      end
  | DeferredNotification notification => start_notification (Some notification)
  end.

Definition receive (env : XswdEnv) (event : XSWDEvent) : run_proc unit :=
  emit [Received event];; track_xswd_state env (event_state event).

Definition on_cancel_request (env : XswdEnv) (state : AppState) (callback : Sender) :
    run_proc unit :=
  cancelled_deferred_admission ← cancel_deferred_xswd_decisions state;
  h ← get_handler;
  let cancels_active := from_option (is_decision_for state) false (active h) in
  let cancelled_admission :=
    cancelled_deferred_admission ||
    (cancels_active && from_option is_application_admission false (active h)) in
  (if cancelled_admission then invalidate env state else mret tt);;
  (if cancels_active then take_active active_cancel else mret tt);;
  emit (acknowledge_cancelled_request callback);;
  notification ← prepare_xswd_lifecycle_notification env state CancelRequest
    cancelled_admission;
  match notification with
  | Some notification =>
      if cancels_active then start_notification (Some notification)
      else
        h ← get_handler;
        if bool_decide (length (deferred h) < MAX_DEFERRED_XSWD_EVENTS)
        then set_deferred (deferred h ++ [DeferredNotification notification])
        else mret tt
  | None => mret tt
  end.

Definition on_app_disconnect (env : XswdEnv) (state : AppState) : run_proc unit :=
  cancel_deferred_xswd_decisions state;;
  h ← get_handler;
  let disconnects_active := from_option (is_decision_for state) false (active h) in
  invalidate env state;;
  (if disconnects_active then take_active active_cancel else mret tt);;
  notification ← prepare_xswd_lifecycle_notification env state AppDisconnect false;
  if (disconnects_active : bool) then start_notification notification
  else
    match notification with
    | None => mret tt
    | Some notification =>
        next ← defer_xswd_disconnect notification;
        match next with
        | None => mret tt
        | Some next =>
            h ← get_handler;
            match active h with
            | Some active_admission =>
                if is_application_admission active_admission
                then invalidate env (ac_state active_admission) else mret tt
            | None => mret tt
            end;;
            take_active (active_fail XSWD_HANDLER_OVERLOADED);;
            start_notification (Some next)
        end
    end.

Definition on_event (env : XswdEnv) (event : XSWDEvent) : run_proc unit :=
  h ← get_handler;
  set_burst (S (receive_burst h));;
  receive env event;;
  match event with
  | EvCancelRequest state callback => on_cancel_request env state callback
  | EvAppDisconnect state => on_app_disconnect env state
  | event => defer_xswd_decision event
  end.

(** The biased [select!], after the counter was reset when a burst is over: the
    callback first once every burst.  It waits while nothing is ready. *)
Definition select (p : Poll) (callback : ActiveXswdCallback) (burst : nat) :
    nat * option XswdHandlerInput :=
  let event := InputEvent <$> p_event p in
  let outcome := InputCallback <$> poll_future p (ac_future callback) in
  if bool_decide (MAX_XSWD_RECEIVE_BURST ≤ burst)
  then (0, match outcome with Some i => Some i | None => event end)
  else (burst, match event with Some i => Some i | None => outcome end).

Definition iterate_idle (p : Poll) : run_proc Progress :=
  h ← get_handler;
  match deferred h with
  | event :: rest => set_deferred rest;; dispatch (p_env p) event;; mret Continue
  | [] =>
      match p_event p with
      | None => mret Waiting
      | Some None => invalidate_observed_xswd_states (p_env p);; mret Break
      | Some (Some event) =>
          receive (p_env p) event;; dispatch (p_env p) (DeferredRaw event);; mret Continue
      end
  end.

Definition iterate_active (p : Poll) (callback : ActiveXswdCallback) : run_proc Progress :=
  h ← get_handler;
  let '(burst, input) := select p callback (receive_burst h) in
  match input with
  | None => mret Waiting
  | Some (InputCallback outcome) =>
      set_burst 0;; take_active (λ a, active_complete a outcome);; mret Continue
  | Some (InputEvent None) =>
      set_burst burst;;
      invalidate_observed_xswd_states (p_env p);;
      take_active (active_fail XSWD_HANDLER_CLOSED);;
      fail_deferred_xswd_events XSWD_HANDLER_CLOSED;;
      mret Break
  | Some (InputEvent (Some event)) =>
      set_burst burst;; on_event (p_env p) event;; mret Continue
  end.

Definition iterate (p : Poll) : run_proc Progress :=
  h ← get_handler;
  set_handler_sessions (p_others p (handler_sessions h));;
  match active h with
  | None => iterate_idle p
  | Some callback => iterate_active p callback
  end.

Definition handler_init (r : Sessions AppState) : Handler := mkHandler [] None 0 [] r [].

(** The handler after the polls, unless the loop breaks before. *)
Fixpoint run (polls : list Poll) (h : Handler) : Progress * Handler :=
  match polls with
  | [] => (Continue, h)
  | p :: polls' =>
      match iterate p h with
      | (Break, h') => (Break, h')
      | (_, h') => run polls' h'
      end
  end.

End Run.

(** ** Reference definitions for the theorems *)

(** The channel that an event wants an answer on. *)
Definition event_sender (event : XSWDEvent) : list Sender :=
  match event with
  | RequestApplication _ c | RequestPermission _ _ c | PrefetchPermissions _ _ c
  | EvCancelRequest _ c => [c]
  | EvAppDisconnect _ => []
  end.
Definition pending_sender (r : PendingXswdResponse) : Sender :=
  match r with PendPermission c | PendPrefetch _ c => c end.
Definition active_senders (a : ActiveXswdCallback) : list Sender :=
  match ac_kind a with ActiveDecision resp _ => [pending_sender resp] | _ => [] end.
Definition deferred_senders (event : DeferredXswdEvent) : list Sender :=
  match event with DeferredRaw event => event_sender event | _ => [] end.

(** The channels of the received events, of the answers sent, and those that
    the handler still has to answer. *)
Definition received (tr : list effect) : list Sender :=
  tr ≫= λ e, match e with Received event => event_sender event | _ => [] end.
Definition answered (tr : list effect) : list Sender :=
  tr ≫= λ e, match e with Send c _ => [c] | _ => [] end.
Definition pending (h : Handler) : list Sender :=
  from_option active_senders [] (active h) ++ (deferred h ≫= deferred_senders).

(** An answer that gives an application a permission. *)
Definition grants (r : response) : bool :=
  match r with
  | RespPermission (Ok (ResAccept | ResAlwaysAccept)) => true
  | RespPrefetch (Ok (_ :: _)) => true
  | _ => false
  end.
Definition quiet (e : effect) : Prop :=
  match e with Send _ r => grants r = false | _ => True end.

(** Only requests for a decision wait in the queue as raw events, in a bounded
    number, and a callback's future has the output of its kind. *)
Definition decision_only (event : DeferredXswdEvent) : Prop :=
  match event with DeferredRaw _ => is_xswd_decision_event event = true | _ => True end.
Definition future_matches (a : ActiveXswdCallback) : Prop :=
  match ac_kind a with
  | ActiveDecision _ _ => ac_future a = FutureDecision
  | ActiveNotification _ => ac_future a = FutureNotification
  end.
Definition handler_wf (h : Handler) : Prop :=
  Forall decision_only (deferred h) ∧ from_option future_matches True (active h) ∧
  length (deferred h) ≤ MAX_DEFERRED_XSWD_EVENTS ∧
  receive_burst h ≤ MAX_XSWD_RECEIVE_BURST.

(** How often a channel is owed an answer that it has not. *)
Abbreviation occurrences := (count_occ Nat.eq_dec).
Definition owed (h : Handler) (c : Sender) : Z :=
  (Z.of_nat (occurrences (received (trace h)) c)
   - Z.of_nat (occurrences (answered (trace h)) c)
   - Z.of_nat (occurrences (pending h) c))%Z.

Definition debt (l : list Sender) (c : Sender) : Z := Z.of_nat (occurrences l c).

(** A part of an iteration that keeps the invariant, grants nothing, and changes
    what is owed by [d]. *)
Definition moves (h h' : Handler) (d : Sender → Z) : Prop :=
  handler_wf h → handler_wf h' ∧
  (∀ c, owed h' c = owed h c + d c)%Z ∧
  ∃ new, trace h' = trace h ++ new ∧ Forall quiet new.

Arguments active_senders : simpl never.
Arguments future_matches : simpl never.
Arguments decision_only : simpl never.
Arguments debt : simpl never.
Arguments received : simpl never.
Arguments answered : simpl never.

(** ** The parts of an iteration *)

Lemma received_app l k : received (l ++ k) = received l ++ received k.
Proof. apply bind_app. Qed.
Lemma answered_app l k : answered (l ++ k) = answered l ++ answered k.
Proof. apply bind_app. Qed.
Lemma debt_app l k c : debt (l ++ k) c = (debt l c + debt k c)%Z.
Proof. unfold debt. rewrite count_occ_app. lia. Qed.

Lemma debt_nil c : debt [] c = 0%Z.
Proof. done. Qed.

Lemma owed_eq h c :
  owed h c = (debt (received (trace h)) c - debt (answered (trace h)) c
    - debt (from_option active_senders [] (active h)) c
    - debt (deferred h ≫= deferred_senders) c)%Z.
Proof. unfold owed, pending. rewrite count_occ_app. unfold debt. lia. Qed.

Lemma moves_trans h1 h2 h3 d1 d2 d :
  moves h1 h2 d1 → moves h2 h3 d2 → (∀ c, d c = d1 c + d2 c)%Z → moves h1 h3 d.
Proof.
  intros H1 H2 Hd Hwf. destruct (H1 Hwf) as (Hwf2 & Ho1 & n1 & Ht1 & Hq1).
  destruct (H2 Hwf2) as (Hwf3 & Ho2 & n2 & Ht2 & Hq2). split_and!; [done| |].
  - intros c. rewrite Ho2, Ho1, Hd. lia.
  - exists (n1 ++ n2). by rewrite Ht2, Ht1, (assoc_L (++)), Forall_app.
Qed.

Lemma moves_then h1 h2 h3 d :
  moves h1 h2 (λ _, 0%Z) → moves h2 h3 d → moves h1 h3 d.
Proof. intros H1 H2. eapply moves_trans; [done..|]. done. Qed.

(** Changes of the registry, of the states seen and of the counter. *)
Lemma moves_frame h h' :
  deferred h' = deferred h → active h' = active h → trace h' = trace h →
  receive_burst h' ≤ MAX_XSWD_RECEIVE_BURST → moves h h' (λ _, 0%Z).
Proof.
  intros Hq Ha Ht Hb (?&?&?&?). split_and!.
  - unfold handler_wf. by rewrite Hq, Ha.
  - intros c. rewrite !owed_eq, Hq, Ha, Ht. lia.
  - exists []. by rewrite Ht, (right_id_L [] (++)).
Qed.

Lemma moves_refl h : moves h h (λ _, 0%Z).
Proof. intros Hwf. apply moves_frame; try done. by destruct Hwf as (?&?&?&?). Qed.

Lemma moves_ext h h' d d' : moves h h' d → (∀ c, d' c = d c)%Z → moves h h' d'.
Proof.
  intros Hm Hd Hwf. destruct (Hm Hwf) as (?&Ho&?). split_and!; [done| |done].
  intros c. by rewrite Ho, Hd.
Qed.

(** Effects that the handler records. *)
Lemma moves_emit effs h :
  Forall quiet effs →
  moves h (emit effs h).2 (λ c, debt (received effs) c - debt (answered effs) c)%Z.
Proof.
  intros Hq Hwf. split_and!; [done| |by exists effs].
  intros c. rewrite !owed_eq; cbn. rewrite received_app, answered_app, !debt_app. lia.
Qed.

(** Starting and ending the active callback. *)
Lemma activate_eq a h :
  activate a h = (tt, mkHandler (deferred h) (Some a) 0 (observed_states h)
                        (handler_sessions h) (trace h)).
Proof. done. Qed.

Lemma moves_activate a h :
  active h = None → future_matches a →
  moves h (activate a h).2 (λ c, - debt (active_senders a) c)%Z.
Proof.
  rewrite activate_eq; cbn.
  intros Ha Hf (?&?&?&?). split_and!.
  - unfold handler_wf. split_and!; try done. apply Nat.le_0_l.
  - intros c. rewrite !owed_eq; cbn. rewrite Ha. cbn. rewrite debt_nil. lia.
  - exists []. by rewrite (right_id_L [] (++)).
Qed.

Lemma moves_start n h :
  active h = None → moves h (start_notification n h).2 (λ _, 0%Z).
Proof.
  intros Ha. destruct n as [n|]; [|intros Hwf; by apply moves_frame; destruct Hwf as (?&?&?&?)].
  cbn. eapply moves_trans.
  - apply (moves_emit [match pn_kind n with
        | CancelRequest => CallCancelRequest (pn_summary n) (pn_cancelled_application_admission n)
        | AppDisconnect => CallAppDisconnect (pn_summary n)
        end]). by destruct (pn_kind n); repeat constructor.
  - by apply (moves_activate (mkActive (pn_state n) (ActiveNotification (pn_kind n))
                                FutureNotification)).
  - intros c. by destruct (pn_kind n).
Qed.

(** An active callback that is answered with a failure. *)
Lemma active_fail_answers code a :
  answered (active_fail code a) = active_senders a ∧ received (active_fail code a) = [] ∧
  Forall quiet (active_fail code a).
Proof.
  unfold active_fail, active_senders.
  destruct (ac_kind a) as [[c|p c] ad|k]; cbn; split_and!; repeat constructor.
Qed.

Lemma moves_take_fail code h :
  moves h (take_active (active_fail code) h).2 (λ _, 0%Z) ∧
  active (take_active (active_fail code) h).2 = None.
Proof.
  unfold take_active, mbind, proc_bind; cbn. destruct (active h) as [a|] eqn:Ha; cbn; [|].
  - split; [|done]. destruct (active_fail_answers code a) as (Hs & Hr & Hq).
    intros (?&?&?&?). split_and!; [done| |by eexists].
    intros c. rewrite !owed_eq; cbn. rewrite Ha, received_app, answered_app, Hs, Hr. cbn.
    rewrite (right_id_L [] (++)), debt_app, debt_nil. lia.
  - split; [|done]. intros Hwf. by apply moves_frame; destruct Hwf as (?&?&?&?).
Qed.

(** Looking at the registry changes nothing else. *)
Lemma with_registry_eq {E A} (m : action (Sessions AppState) E A) h :
  with_registry m h
  = ((m (handler_sessions h)).1, (set_handler_sessions (m (handler_sessions h)).2 h).2).
Proof.
  unfold with_registry, mbind, proc_bind; cbn. by destruct (m (handler_sessions h)).
Qed.

Lemma invalidate_eq env state h :
  invalidate env state h
  = (tt, (set_handler_sessions (invalidate_state (live env) state (handler_sessions h)) h).2).
Proof. done. Qed.

Lemma moves_sessions r h : moves h (set_handler_sessions r h).2 (λ _, 0%Z).
Proof. intros Hwf. apply moves_frame; try done. by destruct Hwf as (?&?&?&?). Qed.

Lemma lifecycle_summary_sessions env state type r :
  (create_lifecycle_event_summary env state type r).2 = (project (live env) state r).2.
Proof.
  unfold create_lifecycle_event_summary, mbind, action_bind.
  by destruct (project (live env) state r) as [[]].
Qed.

Lemma prepare_lifecycle_eq env state kind cancelled h :
  ∃ o, prepare_xswd_lifecycle_notification env state kind cancelled h
       = (o, (set_handler_sessions (project (live env) state (handler_sessions h)).2 h).2) ∧
  ∀ n, o = Some n → pn_state n = state ∧ pn_kind n = kind.
Proof.
  unfold prepare_xswd_lifecycle_notification.
  destruct kind; unfold mbind, proc_bind; rewrite with_registry_eq, lifecycle_summary_sessions;
    eexists _; (split; [reflexivity|]);
    destruct (create_lifecycle_event_summary _ _ _ _).1; naive_solver.
Qed.

Lemma pending_fail_answers code r :
  answered (pending_fail r code) = [pending_sender r] ∧ received (pending_fail r code) = [] ∧
  Forall quiet (pending_fail r code).
Proof. destruct r; split_and!; repeat constructor. Qed.

Lemma prepare_decision_cases env state type call resp admission h :
  ∃ r, (∃ s, prepare_decision env state type call resp admission h
             = (PreparedDecision (mkPendingDecision state resp admission),
                (emit [call s] (set_handler_sessions r h).2).2)) ∨
       (∃ code, prepare_decision env state type call resp admission h
             = (PreparedHandled, (emit (pending_fail resp code) (set_handler_sessions r h).2).2)).
Proof.
  unfold prepare_decision, mbind, proc_bind.
  rewrite with_registry_eq. eexists.
  destruct (create_event_summary env state type (handler_sessions h)).1; cbn; eauto.
Qed.

(** A request whose summary could not be made is answered with a failure. *)
Lemma moves_fail resp code h :
  moves h (emit (pending_fail resp code) h).2 (λ c, - debt [pending_sender resp] c)%Z.
Proof.
  destruct (pending_fail_answers code resp) as (Ha & Hr & Hq).
  eapply moves_ext; [by apply moves_emit|]. intros c. cbn beta. rewrite Ha, Hr, debt_nil. lia.
Qed.

(** A prepared decision becomes the active callback. *)
Lemma moves_decide env state type call resp admission h (next : PreparedXswdEvent → run_proc unit) :
  (∀ d, next (PreparedDecision d) = activate (into_active d)) →
  next PreparedHandled = mret tt →
  (∀ s, received [call s] = [] ∧ answered [call s] = [] ∧ quiet (call s)) →
  active h = None →
  moves h ((prepare_decision env state type call resp admission ≫= next) h).2
    (λ c, - debt [pending_sender resp] c)%Z.
Proof.
  intros Hd Hh Hc Ha. unfold mbind, proc_bind.
  destruct (prepare_decision_cases env state type call resp admission h)
    as [r [(s & ->)|(code & ->)]].
  - rewrite Hd. destruct (Hc s) as (Hr & Hans & Hq).
    eapply moves_then; [apply moves_sessions|].
    eapply moves_trans; [apply (moves_emit [call s]); by repeat constructor| |].
    + by apply moves_activate.
    + intros c. cbn beta. rewrite Hr, Hans, debt_nil. unfold active_senders.
      cbn [into_active ac_kind pd_response]. lia.
  - rewrite Hh. eapply moves_then; [apply moves_sessions|apply moves_fail].
Qed.

Lemma moves_acknowledge callback h :
  moves h (emit (acknowledge_cancelled_request callback) h).2 (λ c, - debt [callback] c)%Z.
Proof.
  eapply moves_ext; [apply moves_emit; by repeat constructor|]. intros c. cbn beta.
  change (answered _) with [callback]. change (received _) with (@nil Sender).
  rewrite debt_nil. lia.
Qed.

Lemma moves_dispatch limits env event h :
  active h = None →
  moves h (dispatch limits env event h).2 (λ c, - debt (deferred_senders event) c)%Z.
Proof.
  intros Ha. destruct event as [[state c|state request c|state permissions c|state c|state]|n];
    cbn [dispatch prepare_xswd_event deferred_senders event_sender].
  - by apply (moves_decide _ _ _ _ (PendPermission c)).
  - destruct (Payload.project _ _ _) as [payload|error].
    + by apply (moves_decide _ _ _ _ (PendPermission c)).
    + apply (moves_fail (PendPermission c)).
  - destruct (Payload.project _ _ _) as [payload|error].
    + by apply (moves_decide _ _ _ _ (PendPrefetch permissions c)).
    + apply (moves_fail (PendPrefetch permissions c)).
  - unfold mbind, proc_bind; cbn [mret proc_ret acknowledge].
    unfold mbind, proc_bind; cbn [mret proc_ret emit].
    edestruct prepare_lifecycle_eq as (o & -> & _).
    eapply moves_trans; [apply (moves_acknowledge c)| |].
    + eapply moves_then; [apply moves_sessions|by apply moves_start].
    + intros c'. cbn beta. lia.
  - unfold mbind, proc_bind; cbn [mret proc_ret acknowledge].
    rewrite invalidate_eq. edestruct prepare_lifecycle_eq as (o & -> & _).
    eapply moves_then; [apply moves_sessions|].
    eapply moves_then; [apply moves_sessions|].
    eapply moves_ext; [by apply moves_start|done].
  - eapply moves_ext; [by apply moves_start|]. intros c. rewrite debt_nil. lia.
Qed.

(** ** The queue *)

(** A deferred request for a decision of an application. *)
Definition deferred_decision_for (state : AppState) (event : DeferredXswdEvent) : bool :=
  match event with
  | DeferredRaw (RequestApplication s _ | RequestPermission s _ _ | PrefetchPermissions s _ _) =>
      bool_decide (s = state)
  | _ => false
  end.

Lemma cancel_event_Some state event admission effs :
  cancel_event state event = Some (admission, effs) →
  answered effs = deferred_senders event ∧ received effs = [] ∧ Forall quiet effs.
Proof.
  destruct event as [[s c|s p c|s p c|s c|s]|n]; cbn; try done; case_bool_decide; try done;
    intros [= <- <-]; split_and!; repeat constructor.
Qed.
Lemma cancel_event_None state event :
  cancel_event state event = None → deferred_decision_for state event = false.
Proof.
  destruct event as [[s c|s p c|s p c|s c|s]|n]; cbn; try done; by case_bool_decide.
Qed.

Lemma cancel_loop_spec state q : ∀ q' admission effs,
  cancel_loop state q = (q', admission, effs) →
  (∀ c, debt (q ≫= deferred_senders) c
        = debt (q' ≫= deferred_senders) c + debt (answered effs) c)%Z ∧
  received effs = [] ∧ Forall quiet effs ∧ length q' ≤ length q ∧
  (Forall decision_only q → Forall decision_only q') ∧
  Forall (λ e, deferred_decision_for state e = false) q'.
Proof.
  induction q as [|event q IH]; cbn [cancel_loop]; intros q' admission effs.
  { intros [= <- <- <-]. split_and!; done. }
  destruct (cancel_loop state q) as [[q1 adm1] effs1].
  destruct (IH _ _ _ eq_refl) as (Hc & Hr & Hquiet & Hl & Hd & Hf).
  destruct (cancel_event state event) as [[adm answer]|] eqn:He; intros [= <- <- <-].
  - apply cancel_event_Some in He as (Ha & Hra & Hqa). rewrite bind_cons. split_and!.
    + intros c. rewrite answered_app, !debt_app, Hc, Ha. lia.
    + by rewrite received_app, Hra, Hr.
    + by apply Forall_app.
    + cbn. lia.
    + intros [??]%Forall_cons. auto.
    + done.
  - apply cancel_event_None in He. rewrite !bind_cons. split_and!; try done.
    + intros c. rewrite !debt_app, Hc. lia.
    + cbn. lia.
    + intros [??]%Forall_cons. auto.
    + by constructor.
Qed.

(** Cancelling answers every deferred request of the application. *)
Lemma moves_cancel_deferred state h :
  let h' := (cancel_deferred_xswd_decisions state h).2 in
  moves h h' (λ _, 0%Z) ∧ active h' = active h ∧
  handler_sessions h' = handler_sessions h ∧
  Forall (λ e, deferred_decision_for state e = false) (deferred h').
Proof.
  unfold cancel_deferred_xswd_decisions, mbind, proc_bind; cbn [get_handler].
  destruct (cancel_loop state (deferred h)) as [[q admission] effs] eqn:Hq.
  apply cancel_loop_spec in Hq as (Hc & Hr & Hquiet & Hl & Hd & Hf).
  split_and!; try done. intros (Hdo & Hact & Hlen & Hb). split_and!.
  - unfold handler_wf; cbn. split_and!; try done; [auto|lia].
  - intros c. rewrite !owed_eq; cbn.
    rewrite received_app, answered_app, Hr, !debt_app, Hc, debt_nil. lia.
  - by exists effs.
Qed.

(** Adding to a queue that has room. *)
Lemma moves_enqueue event h :
  length (deferred h) < MAX_DEFERRED_XSWD_EVENTS → decision_only event →
  moves h (set_deferred (deferred h ++ [event]) h).2 (λ c, - debt (deferred_senders event) c)%Z.
Proof.
  intros Hlt Hd (Hdo & Hact & Hlen & Hb). split_and!.
  - unfold handler_wf; cbn. split_and!; try done.
    + apply Forall_app. split; [done|by constructor].
    + rewrite length_app. cbn. lia.
  - intros c. rewrite !owed_eq; cbn. rewrite bind_app, debt_app. cbn.
    rewrite (right_id_L [] (++)). lia.
  - exists []. by rewrite (right_id_L [] (++)).
Qed.

Lemma fail_deferred_answers code event :
  answered (fail_deferred_xswd_event code event) = deferred_senders event ∧
  received (fail_deferred_xswd_event code event) = [] ∧
  Forall quiet (fail_deferred_xswd_event code event).
Proof.
  destruct event as [[s c|s p c|s p c|s c|s]|n]; cbn; split_and!; repeat constructor.
Qed.

Lemma moves_fail_event code event h :
  moves h (emit (fail_deferred_xswd_event code event) h).2
    (λ c, - debt (deferred_senders event) c)%Z.
Proof.
  destruct (fail_deferred_answers code event) as (Ha & Hr & Hq).
  eapply moves_ext; [by apply moves_emit|]. intros c. cbn beta.
  rewrite Ha, Hr, debt_nil. lia.
Qed.

Lemma moves_defer event h :
  decision_only (DeferredRaw event) →
  moves h (defer_xswd_decision event h).2 (λ c, - debt (event_sender event) c)%Z.
Proof.
  intros Hd. unfold defer_xswd_decision, mbind, proc_bind; cbn [get_handler].
  case_bool_decide.
  - by apply (moves_enqueue (DeferredRaw event)).
  - apply (moves_fail_event XSWD_REQUEST_QUEUE_FULL (DeferredRaw event)).
Qed.

(** Removing an event that the caller answers. *)
Lemma moves_dequeue i event h :
  deferred h !! i = Some event →
  moves h (set_deferred (delete i (deferred h)) h).2 (λ c, debt (deferred_senders event) c).
Proof.
  intros Hi (Hdo & Hact & Hlen & Hb).
  assert (deferred h ≡ₚ event :: delete i (deferred h)) as Hp by by apply delete_Permutation.
  split_and!.
  - unfold handler_wf; cbn. rewrite Hp in Hdo. apply Forall_cons in Hdo as [??].
    rewrite Hp in Hlen. cbn in Hlen. split_and!; try done. lia.
  - intros c. rewrite !owed_eq; cbn.
    assert (debt (deferred h ≫= deferred_senders) c
            = debt (deferred_senders event) c
              + debt (delete i (deferred h) ≫= deferred_senders) c)%Z as ->; [|lia].
    rewrite <-debt_app, <-bind_cons. unfold debt. f_equal.
    by apply (Permutation_count_occ Nat.eq_dec), bind_Permutation.
  - exists []. by rewrite (right_id_L [] (++)).
Qed.

(** Deferring a disconnection makes room for it if it must. *)
Lemma no_decisions_no_senders q :
  Forall decision_only q → list_find (λ e, is_xswd_decision_event e = true) q = None →
  ∀ e, e ∈ q → deferred_senders e = [].
Proof.
  rewrite list_find_None, !Forall_forall. intros Hd Hn e He.
  specialize (Hd e He). specialize (Hn e He). destruct e as [ev|n]; [|done].
  by destruct Hn.
Qed.

Lemma moves_saturated notification h :
  list_find (λ e, is_xswd_decision_event e = true) (deferred h) = None →
  MAX_DEFERRED_XSWD_EVENTS ≤ length (deferred h) →
  moves h (set_deferred (tail (deferred h) ++ [DeferredNotification notification]) h).2
    (λ _, 0%Z).
Proof.
  intros Hn Hl (Hdo & Hact & Hlen & Hb).
  pose proof (no_decisions_no_senders _ Hdo Hn) as Hs. clear Hn.
  assert (0 < MAX_DEFERRED_XSWD_EVENTS) by (unfold MAX_DEFERRED_XSWD_EVENTS; lia).
  destruct h as [[|e q] a b o r tr]; cbn [deferred tail length] in *; [lia|]. split_and!.
  - unfold handler_wf; cbn. apply Forall_cons in Hdo as [_ Hdo]. split_and!; try done.
    + apply Forall_app. split; [done|by constructor].
    + rewrite length_app. cbn. lia.
  - intros c. rewrite !owed_eq; cbn [deferred active trace set_deferred snd].
    rewrite bind_app, !bind_cons, (Hs e) by left. cbn. rewrite (right_id_L [] (++)). lia.
  - exists []. by rewrite (right_id_L [] (++)).
Qed.

Lemma moves_defer_disconnect n h :
  let h' := (defer_xswd_disconnect n h).2 in
  moves h h' (λ _, 0%Z) ∧ active h' = active h ∧ handler_sessions h' = handler_sessions h ∧
  ∀ P : DeferredXswdEvent → Prop, P (DeferredNotification n) →
    Forall P (deferred h) → Forall P (deferred h').
Proof.
  unfold defer_xswd_disconnect, mbind, proc_bind; cbn [get_handler].
  destruct (_ || _); [split_and!; try done; apply moves_refl|].
  case_bool_decide as Hfull.
  - destruct (list_find _ _) as [[i e]|] eqn:Hf.
    + apply list_find_Some in Hf as (Hi & He & _).
      set (h1 := (emit (fail_deferred_xswd_event XSWD_REQUEST_QUEUE_FULL e)
                    (set_deferred (delete i (deferred h)) h).2).2).
      assert (moves h h1 (λ _, 0%Z)) as H1.
      { eapply moves_trans; [by apply moves_dequeue|apply moves_fail_event|]. intros c. lia. }
      cbn [set_deferred emit]. fold h1. case_bool_decide as Hlt; cbn.
      * split_and!; try done.
        -- eapply moves_then; [exact H1|]. cbn in Hlt.
           eapply moves_ext; [by apply (moves_enqueue (DeferredNotification n) h1)|done].
        -- intros P Pn HP. apply Forall_app. split; [by apply Forall_delete|by constructor].
      * split_and!; try done. intros P Pn HP. by apply Forall_delete.
    + split_and!; try done; [by apply moves_saturated|].
      intros P Pn HP. apply Forall_app. split; [by apply Forall_tail|by constructor].
  - split_and!; try done.
    + eapply moves_ext; [apply (moves_enqueue (DeferredNotification n)); [lia|done]|done].
    + intros P Pn HP. apply Forall_app. split; [done|by constructor].
Qed.

(** ** The handling of an event while a callback is active *)

Lemma proc_bind_eq {S A B} (m : proc S A) (f : A → proc S B) s :
  (m ≫= f) s = f (m s).1 (m s).2.
Proof. unfold mbind, proc_bind. by destruct (m s). Qed.

(** Either branch of an optional invalidation. *)
Lemma moves_invalidate_if (b : bool) env state h :
  let h' := ((if b then invalidate env state else mret tt) h).2 in
  moves h h' (λ _, 0%Z) ∧ active h' = active h ∧ deferred h' = deferred h.
Proof.
  destruct b; [|split_and!; try done; apply moves_refl].
  rewrite invalidate_eq. split_and!; try done. apply moves_sessions.
Qed.

Lemma moves_take_if (b : bool) code h :
  let h' := ((if b then take_active (active_fail code) else mret tt) h).2 in
  moves h h' (λ _, 0%Z) ∧ active h' = (if b then None else active h) ∧
  deferred h' = deferred h ∧ handler_sessions h' = handler_sessions h.
Proof.
  destruct b; [|split_and!; try done; apply moves_refl].
  destruct (moves_take_fail code h) as [Hm Ha]. split_and!; try done.
  all: unfold take_active; rewrite proc_bind_eq; cbn; by destruct (active h).
Qed.

Lemma moves_on_cancel env state callback h :
  moves h (on_cancel_request env state callback h).2 (λ c, - debt [callback] c)%Z.
Proof.
  unfold on_cancel_request, active_cancel. rewrite proc_bind_eq.
  destruct (moves_cancel_deferred state h) as (H1 & _ & _ & _).
  set (h1 := (cancel_deferred_xswd_decisions state h).2) in *.
  eapply moves_then; [exact H1|]. clear H1.
  rewrite proc_bind_eq; cbn [get_handler fst snd].
  set (cancels := from_option _ _ _). set (admission := _ || _).
  rewrite proc_bind_eq. destruct (moves_invalidate_if admission env state h1) as (H2 & Ha2 & _).
  set (h2 := ((if admission then invalidate env state else mret tt) h1).2) in *.
  eapply moves_then; [exact H2|]. clear H2.
  rewrite proc_bind_eq. destruct (moves_take_if cancels XSWD_REQUEST_CANCELLED h2)
    as (H3 & Ha3 & _ & _).
  set (h3 := ((if cancels then take_active (active_fail XSWD_REQUEST_CANCELLED)
              else mret tt) h2).2) in *.
  eapply moves_then; [exact H3|]. clear H3.
  rewrite proc_bind_eq. eapply moves_trans with (d2 := λ _, 0%Z);
    [apply (moves_acknowledge callback)| |intros c; cbn beta; lia].
  set (h4 := (emit _ h3).2). assert (active h4 = active h3) as Ha4 by done.
  rewrite proc_bind_eq.
  destruct (prepare_lifecycle_eq env state CancelRequest admission h4) as (o & -> & _).
  cbn [fst snd]. eapply moves_then; [apply moves_sessions|].
  set (h5 := (set_handler_sessions (project (live env) state (handler_sessions h4)).2 h4).2).
  assert (active h5 = active h4) as Ha5 by done.
  destruct o as [n|]; [|apply moves_refl]. destruct cancels.
  - apply moves_start. congruence.
  - rewrite proc_bind_eq; cbn [get_handler fst snd]. case_bool_decide; [|apply moves_refl].
    eapply moves_ext; [by apply (moves_enqueue (DeferredNotification n))|done].
Qed.

Lemma moves_on_disconnect env state h :
  moves h (on_app_disconnect env state h).2 (λ _, 0%Z).
Proof.
  unfold on_app_disconnect, active_cancel. rewrite proc_bind_eq.
  destruct (moves_cancel_deferred state h) as (H1 & _ & _ & _).
  set (h1 := (cancel_deferred_xswd_decisions state h).2) in *.
  eapply moves_then; [exact H1|]. clear H1.
  rewrite proc_bind_eq; cbn [get_handler fst snd].
  set (disconnects := from_option _ _ _).
  rewrite proc_bind_eq, invalidate_eq; cbn [fst snd].
  set (h2 := (set_handler_sessions (invalidate_state (live env) state (handler_sessions h1))
                h1).2).
  eapply (moves_then _ h2); [apply moves_sessions|].
  rewrite proc_bind_eq.
  destruct (moves_take_if disconnects XSWD_REQUEST_CANCELLED h2) as (H3 & Ha3 & _ & _).
  set (h3 := ((if disconnects then take_active (active_fail XSWD_REQUEST_CANCELLED)
              else mret tt) h2).2) in *.
  eapply moves_then; [exact H3|]. clear H3.
  rewrite proc_bind_eq.
  destruct (prepare_lifecycle_eq env state AppDisconnect false h3) as (o & -> & _).
  cbn [fst snd]. eapply moves_then; [apply moves_sessions|].
  set (h4 := (set_handler_sessions (project (live env) state (handler_sessions h3)).2 h3).2).
  assert (active h4 = active h3) as Ha4 by done.
  destruct disconnects; [apply moves_start; congruence|].
  destruct o as [n|]; [|apply moves_refl].
  rewrite proc_bind_eq. destruct (moves_defer_disconnect n h4) as (H5 & Ha5 & _ & _).
  set (h5 := (defer_xswd_disconnect n h4).2) in *.
  eapply moves_then; [exact H5|]. clear H5.
  destruct (defer_xswd_disconnect n h4).1 as [next|]; [|apply moves_refl].
  rewrite proc_bind_eq; cbn [get_handler fst snd]. rewrite proc_bind_eq.
  set (overtaken := match active h5 with Some a => _ | None => _ end).
  assert (moves h5 (overtaken h5).2 (λ _, 0%Z)) as H6.
  { subst overtaken. destruct (active h5) as [a|]; [|apply moves_refl].
    apply (moves_invalidate_if (is_application_admission a)). }
  eapply moves_then; [exact H6|].
  rewrite proc_bind_eq.
  destruct (moves_take_fail XSWD_HANDLER_OVERLOADED (overtaken h5).2) as [H7 Ha7].
  eapply moves_then; [exact H7|]. by apply moves_start.
Qed.

Lemma moves_receive env event h :
  moves h (receive env event h).2 (debt (event_sender event)) ∧
  active (receive env event h).2 = active h ∧
  deferred (receive env event h).2 = deferred h ∧
  handler_sessions (receive env event h).2 = handler_sessions h.
Proof.
  split_and!; try done. unfold receive. rewrite proc_bind_eq.
  eapply moves_trans with (d2 := λ _, 0%Z); [by apply (moves_emit [Received event]); repeat constructor| |].
  - intros Hwf. apply moves_frame; try done. by destruct Hwf as (?&?&?&?).
  - intros c. cbn beta. change (received _) with (event_sender event ++ []).
    change (answered _) with (@nil Sender). rewrite (right_id_L [] (++)), debt_nil. lia.
Qed.

Lemma moves_set_burst n h :
  n ≤ MAX_XSWD_RECEIVE_BURST → moves h (set_burst n h).2 (λ _, 0%Z).
Proof. intros Hn. by apply moves_frame. Qed.

Lemma moves_on_event env event h :
  receive_burst h < MAX_XSWD_RECEIVE_BURST → moves h (on_event env event h).2 (λ _, 0%Z).
Proof.
  intros Hb. unfold on_event. rewrite proc_bind_eq; cbn [get_handler fst snd].
  rewrite proc_bind_eq. eapply moves_then; [apply moves_set_burst; exact Hb|].
  set (h1 := (set_burst _ h).2). rewrite proc_bind_eq.
  destruct (moves_receive env event h1) as [H1 _].
  eapply (moves_trans _ _ _ _ (λ c, - debt (event_sender event) c)%Z);
    [exact H1| |intros c; cbn beta; lia].
  destruct event as [s c|s q c|s q c|s c|s]; [by apply moves_defer..| |].
  - apply moves_on_cancel.
  - eapply moves_ext; [apply moves_on_disconnect|done].
Qed.

(** ** Iterations *)

Definition conserved (h : Handler) : Prop := ∀ c, owed h c = 0%Z.

(** An answer that the user's decision stands behind. *)
Definition decided (p : Poll) (h : Handler) (c : Sender) (r : response) : Prop :=
  ∃ a resp admission outcome,
    active h = Some a ∧ ac_kind a = ActiveDecision resp admission ∧
    p_decision p = Some outcome ∧ pending_complete resp outcome = [Send c r].

Lemma pending_complete_eq resp outcome :
  ∃ r, pending_complete resp outcome = [Send (pending_sender resp) r].
Proof. destruct resp; eexists; reflexivity. Qed.

(** What one iteration guarantees. *)
Record iterated (p : Poll) (h : Handler) (prog : Progress) (h' : Handler) : Prop := mkIterated {
  it_wf : prog ≠ Break → handler_wf h';
  it_conserved : conserved h';
  it_closed : prog = Break → pending h' = [];
  it_granted : ∃ new, trace h' = trace h ++ new ∧
    ∀ c r, Send c r ∈ new → grants r = true → decided p h c r
}.

Lemma moves_iterated p h prog h' :
  handler_wf h → conserved h → prog ≠ Break → moves h h' (λ _, 0%Z) → iterated p h prog h'.
Proof.
  intros Hwf Hc Hp Hm. destruct (Hm Hwf) as (Hwf' & Ho & new & Ht & Hq). split; [done| |done|].
  - intros c. rewrite Ho, Hc. done.
  - exists new. split; [done|]. intros c r Hs Hg. rewrite Forall_forall in Hq.
    specialize (Hq _ Hs). cbn in Hq. congruence.
Qed.

(** Only the registry changes before an iteration. *)
Lemma iterated_sessions p h r prog h' :
  iterated p (set_handler_sessions r h).2 prog h' → iterated p h prog h'.
Proof. intros [? ? ? ?]. by split. Qed.

Lemma iterate_idle_spec limits p h :
  handler_wf h → conserved h → active h = None →
  iterated p h (iterate_idle limits p h).1 (iterate_idle limits p h).2.
Proof.
  intros Hwf Hc Ha. unfold iterate_idle. rewrite proc_bind_eq; cbn [get_handler fst snd].
  destruct (deferred h) as [|e q] eqn:Hq.
  - destruct (p_event p) as [[event|]|].
    + rewrite 2!proc_bind_eq. apply moves_iterated; [done..|].
      destruct (moves_receive (p_env p) event h) as (H1 & Ha1 & _).
      eapply moves_trans; [exact H1|apply moves_dispatch; congruence|].
      intros c. cbn beta. cbn [deferred_senders]. lia.
    + rewrite proc_bind_eq. split; [done| | |].
      * exact Hc.
      * intros _. change (pending h = []). unfold pending. by rewrite Ha, Hq.
      * exists []. split; [by rewrite (right_id_L [] (++))|]. intros c r []%elem_of_nil.
    + apply moves_iterated; [done..|]. apply moves_refl.
  - rewrite 2!proc_bind_eq. apply moves_iterated; [done..|].
    assert (q = delete 0 (deferred h)) as -> by by rewrite Hq.
    eapply moves_trans; [apply (moves_dequeue 0 e); by rewrite Hq|by apply moves_dispatch|].
    intros c. cbn beta. lia.
Qed.

(** Completing the active callback with the outcome of its future. *)
Lemma iterate_complete p h a outcome :
  handler_wf h → conserved h → active h = Some a → poll_future p (ac_future a) = Some outcome →
  iterated p h Continue
    (take_active (λ a, active_complete a outcome) (set_burst 0 h).2).2.
Proof.
  intros (Hdo & Hf & Hlen & Hb) Hc Ha Ho. unfold take_active.
  rewrite proc_bind_eq; cbn [get_handler fst snd].
  change (active (set_burst 0 h).2) with (active h). rewrite Ha in *. cbn in Hf.
  rewrite proc_bind_eq. split.
  - intros _. unfold handler_wf; cbn. split_and!; try done. apply Nat.le_0_l.
  - intros c. rewrite <-(Hc c), !owed_eq; cbn. rewrite Ha, received_app, answered_app, !debt_app.
    unfold future_matches in Hf. unfold active_complete, active_senders in *. cbn.
    destruct (ac_kind a) as [resp admission|k]; rewrite Hf in Ho; cbn in Ho;
      [|cbn; rewrite !debt_nil; lia].
    apply fmap_Some in Ho as (o & Ho & ->). cbn [complete_kind].
    destruct (pending_complete_eq resp o) as [r ->].
    change (answered [_]) with [pending_sender resp]. change (received [_]) with (@nil Sender).
    rewrite !debt_nil. lia.
  - done.
  - eexists. split; [done|]. intros c r Hs Hg. unfold future_matches in Hf.
    unfold active_complete in Hs.
    destruct (ac_kind a) as [resp admission|k] eqn:Hk; rewrite Hf in Ho; cbn in Ho;
      [|by apply elem_of_nil in Hs].
    apply fmap_Some in Ho as (o & Ho & ->). cbn [complete_kind] in Hs.
    destruct (pending_complete_eq resp o) as [r' Hr]. rewrite Hr in Hs.
    apply list_elem_of_singleton in Hs as [= -> ->]. by exists a, resp, admission, o.
Qed.

(** Closing answers everything. *)
Lemma iterate_close p h :
  handler_wf h → conserved h →
  let h' := (fail_deferred_xswd_events XSWD_HANDLER_CLOSED
               (take_active (active_fail XSWD_HANDLER_CLOSED)
                  (invalidate_observed_xswd_states (p_env p) h).2).2).2 in
  iterated p h Break h'.
Proof.
  intros Hwf Hc. set (h1 := (invalidate_observed_xswd_states (p_env p) h).2).
  assert (moves h h1 (λ _, 0%Z)) as H1.
  { apply moves_frame; try done. by destruct Hwf as (?&?&?&?). }
  destruct (moves_take_fail XSWD_HANDLER_CLOSED h1) as [H2 Ha].
  set (h2 := (take_active (active_fail XSWD_HANDLER_CLOSED) h1).2) in *.
  destruct (moves_then _ _ _ _ H1 H2 Hwf) as (Hwf2 & Ho & new & Ht & Hq).
  set (effs := deferred h2 ≫= fail_deferred_xswd_event XSWD_HANDLER_CLOSED).
  assert (received effs = [] ∧ answered effs = (deferred h2 ≫= deferred_senders) ∧
    Forall quiet effs) as (Hr & Hans & Hqe).
  { subst effs. induction (deferred h2) as [|e q (IHr & IHa & IHq)]; [by repeat constructor|].
    destruct (fail_deferred_answers XSWD_HANDLER_CLOSED e) as (Hae & Hre & Hqe).
    rewrite !bind_cons. rewrite received_app, answered_app, Hre, Hae, IHr, IHa.
    split_and!; [done..|]. by apply Forall_app. }
  unfold fail_deferred_xswd_events. rewrite proc_bind_eq; cbn [get_handler fst snd].
  rewrite proc_bind_eq. split; [done| | |].
  - intros c. specialize (Ho c). rewrite Hc, owed_eq, Ha in Ho.
    rewrite owed_eq; cbn. fold effs.
    rewrite received_app, answered_app, Hr, Hans, !debt_app, Ha. cbn in *.
    rewrite !debt_nil in *. lia.
  - intros _. unfold pending. cbn. by rewrite Ha.
  - exists (new ++ effs). cbn. fold effs. rewrite Ht, (assoc_L (++)). split; [done|].
    intros c r Hs Hg. assert (Forall quiet (new ++ effs)) as Hall by by apply Forall_app.
    rewrite Forall_forall in Hall. specialize (Hall _ Hs). cbn in Hall. congruence.
Qed.

Lemma select_spec p a burst n input :
  select p a burst = (n, Some input) →
  match input with
  | InputCallback outcome => poll_future p (ac_future a) = Some outcome
  | InputEvent event => p_event p = Some event ∧ n < MAX_XSWD_RECEIVE_BURST
  end.
Proof.
  assert (0 < MAX_XSWD_RECEIVE_BURST) by (unfold MAX_XSWD_RECEIVE_BURST; lia).
  unfold select. case_bool_decide; destruct (p_event p), (poll_future p (ac_future a));
    cbn; intros [= <- <-]; try done; split; (done || lia).
Qed.

Lemma iterate_active_spec p h a :
  handler_wf h → conserved h → active h = Some a →
  iterated p h (iterate_active p a h).1 (iterate_active p a h).2.
Proof.
  intros Hwf Hc Ha. unfold iterate_active. rewrite proc_bind_eq; cbn [get_handler fst snd].
  destruct (select p a (receive_burst h)) as [n [input|]] eqn:Hs; cbn beta iota;
    [apply select_spec in Hs|apply moves_iterated; [done..|]; apply moves_refl].
  destruct input as [outcome|[event|]].
  - rewrite 2!proc_bind_eq. by apply (iterate_complete p h a).
  - destruct Hs as [_ Hn]. rewrite 2!proc_bind_eq. apply moves_iterated; [done..|].
    eapply moves_then; [apply (moves_set_burst n); lia|]. by apply moves_on_event.
  - destruct Hs as [_ Hn]. rewrite 4!proc_bind_eq.
    pose proof (moves_set_burst n h ltac:(lia) Hwf) as (Hwf' & Ho & _).
    destruct (iterate_close p (set_burst n h).2) as [????]; [done| |by split].
    intros c. by rewrite Ho, Hc.
Qed.

Lemma iterate_spec limits p h :
  handler_wf h → conserved h → iterated p h (iterate limits p h).1 (iterate limits p h).2.
Proof.
  intros Hwf Hc. unfold iterate. rewrite proc_bind_eq; cbn [get_handler fst snd].
  rewrite proc_bind_eq. set (h1 := (set_handler_sessions _ h).2).
  apply (iterated_sessions p h (p_others p (handler_sessions h))). fold h1.
  change (active h) with (active h1).
  destruct (active h1) as [a|] eqn:Ha.
  - by apply iterate_active_spec.
  - by apply iterate_idle_spec.
Qed.

(** ** Runs *)

Lemma init_wf r : handler_wf (handler_init r) ∧ conserved (handler_init r).
Proof.
  split; [|done]. unfold handler_wf; cbn. split_and!; try done; apply Nat.le_0_l.
Qed.

(** The invariant along a run; a run that broke has nothing pending. *)
Definition run_ok (prog : Progress) (h : Handler) : Prop :=
  conserved h ∧ (prog ≠ Break → handler_wf h) ∧ (prog = Break → pending h = []).

Lemma run_cons limits p polls h :
  run limits (p :: polls) h
  = match (iterate limits p h).1 with
    | Break => (Break, (iterate limits p h).2)
    | _ => run limits polls (iterate limits p h).2
    end.
Proof. cbn. by destruct (iterate limits p h) as [[] h']. Qed.

Lemma run_invariant limits polls : ∀ h,
  handler_wf h → conserved h → run_ok (run limits polls h).1 (run limits polls h).2.
Proof.
  induction polls as [|p polls IH]; intros h Hwf Hc; [by split_and!|].
  rewrite run_cons. destruct (iterate_spec limits p h Hwf Hc) as [Hwf' Hc' Hcl _].
  destruct (iterate limits p h).1; [by apply IH, Hc'; apply Hwf'| |by apply IH, Hc'; apply Hwf'].
  split_and!; [done..|]. intros _. by apply Hcl.
Qed.

Lemma conserved_permutation h :
  conserved h ↔ received (trace h) ≡ₚ answered (trace h) ++ pending h.
Proof.
  rewrite (Permutation_count_occ Nat.eq_dec). unfold conserved, owed.
  split; intros Hc c; specialize (Hc c); rewrite (count_occ_app Nat.eq_dec) in *; lia.
Qed.

(** Claim C17 (safety): no request is lost and none is answered twice.  After
    any sequence of iterations, whatever the applications send, the user decides
    and the registry answers, the channels of the events received are exactly
    those answered together with those of the active and the deferred requests;
    when the handler ends, all of them are answered. *)
Theorem every_request_answered_once limits polls r :
  let '(prog, h) := run limits polls (handler_init r) in
  received (trace h) ≡ₚ answered (trace h) ++ pending h ∧
  (prog = Break → received (trace h) ≡ₚ answered (trace h)) ∧
  (NoDup (received (trace h)) → NoDup (answered (trace h))).
Proof.
  destruct (init_wf r) as [Hwf Hc].
  pose proof (run_invariant limits polls _ Hwf Hc) as (Hcon & _ & Hcl).
  destruct (run limits polls (handler_init r)) as [prog h]; cbn in *.
  apply conserved_permutation in Hcon. split_and!; [done| |].
  - intros Hb. rewrite Hcon, (Hcl Hb), (right_id_L [] (++)). done.
  - rewrite Hcon. by intros [? _]%NoDup_app.
Qed.

(** What waits is bounded whatever the applications send:
    never more than 64 deferred events, all of them requests for a decision or
    prepared notifications, and never more than 65 unanswered channels; the
    count of events received in a row stays within its limit of 16. *)
Theorem deferral_bounded limits polls r prog h :
  run limits polls (handler_init r) = (prog, h) → prog ≠ Break →
  length (deferred h) ≤ 64 ∧ receive_burst h ≤ 16 ∧ length (pending h) ≤ 65 ∧
  Forall decision_only (deferred h).
Proof.
  intros Hrun Hp. destruct (init_wf r) as [Hwf Hc].
  pose proof (run_invariant limits polls _ Hwf Hc) as (_ & Hw & _). rewrite Hrun in Hw.
  destruct (Hw Hp) as (Hd & _ & Hl & Hb). cbn in *. split_and!; try done.
  unfold pending. rewrite length_app.
  assert (length (from_option active_senders [] (active h)) ≤ 1) as Ha.
  { destruct (active h) as [a|]; cbn; [|lia]. unfold active_senders.
    destruct (ac_kind a); cbn; lia. }
  assert (∀ q, length (q ≫= deferred_senders) ≤ length q) as Hq.
  { assert (∀ e, length (deferred_senders e) ≤ 1) as He by (intros [[]|]; cbn; lia).
    intros q. induction q as [|e q IH]; [done|].
    rewrite bind_cons, length_app. specialize (He e). cbn [length]. lia. }
  specialize (Hq (deferred h)). unfold MAX_DEFERRED_XSWD_EVENTS in *. lia.
Qed.

(** ** Closing *)

Lemma with_registry_frame {E A} (m : action (Sessions AppState) E A) h :
  deferred (with_registry m h).2 = deferred h.
Proof. by rewrite with_registry_eq. Qed.

Lemma start_deferred n h : deferred (start_notification n h).2 = deferred h.
Proof. by destruct n. Qed.

Lemma decide_deferred env state type call resp admission h
    (next : PreparedXswdEvent → run_proc unit) :
  (∀ d, next (PreparedDecision d) = activate (into_active d)) →
  next PreparedHandled = mret tt →
  deferred ((prepare_decision env state type call resp admission ≫= next) h).2 = deferred h.
Proof.
  intros Hd Hh. rewrite proc_bind_eq.
  destruct (prepare_decision_cases env state type call resp admission h)
    as [r [(s & ->)|(code & ->)]]; cbn; by rewrite ?Hd, ?Hh.
Qed.

(** Dispatching an event does not touch the queue. *)
Lemma dispatch_deferred limits env event h :
  deferred (dispatch limits env event h).2 = deferred h.
Proof.
  destruct event as [[state c|state request c|state permissions c|state c|state]|n];
    cbn [dispatch prepare_xswd_event].
  - by apply decide_deferred.
  - destruct (Payload.project _ _ _); [by apply decide_deferred|done].
  - destruct (Payload.project _ _ _); [by apply decide_deferred|done].
  - unfold mbind, proc_bind; cbn [mret proc_ret acknowledge].
    unfold mbind, proc_bind; cbn [mret proc_ret emit].
    edestruct prepare_lifecycle_eq as (o & -> & _). by rewrite start_deferred.
  - unfold mbind, proc_bind; cbn [mret proc_ret acknowledge]. rewrite invalidate_eq.
    edestruct prepare_lifecycle_eq as (o & -> & _). by rewrite start_deferred.
  - apply start_deferred.
Qed.

(** The work left before the loop finds the channel closed. *)
Definition work (h : Handler) : nat :=
  2 * length (deferred h) + match active h with Some _ => 1 | None => 0 end.

Lemma iterate_closed limits p h :
  p_event p = Some None →
  (iterate limits p h).1 = Break ∨ work (iterate limits p h).2 < work h.
Proof.
  intros Hp. unfold iterate. rewrite 2!proc_bind_eq; cbn [get_handler fst snd].
  set (h1 := (set_handler_sessions _ h).2). change (work h) with (work h1).
  change (active h) with (active h1). clearbody h1. clear h.
  destruct (active h1) as [a|] eqn:Ha.
  - unfold iterate_active. rewrite proc_bind_eq; cbn [get_handler fst snd].
    unfold select. rewrite Hp. cbn [fmap option_fmap option_map].
    case_bool_decide; [|left; by rewrite 4!proc_bind_eq].
    destruct (poll_future p (ac_future a)) as [o|];
      [|left; cbn; by rewrite 4!proc_bind_eq].
    right. cbn [fmap option_fmap option_map].
    rewrite 2!proc_bind_eq. unfold take_active. rewrite proc_bind_eq; cbn [get_handler fst snd].
    change (active (set_burst 0 h1).2) with (active h1). rewrite Ha, proc_bind_eq.
    unfold work; cbn. rewrite Ha. lia.
  - unfold iterate_idle. rewrite proc_bind_eq; cbn [get_handler fst snd].
    destruct (deferred h1) as [|e q] eqn:Hq; [rewrite Hp; by left|right].
    rewrite 2!proc_bind_eq. unfold work. cbn [mret proc_ret snd].
    rewrite dispatch_deferred, Hq, Ha. cbn [set_deferred snd deferred length].
    destruct (active (dispatch limits (p_env p) e _).2); lia.
Qed.

Lemma run_closed limits polls : ∀ h,
  Forall (λ p, p_event p = Some None) polls → work h < length polls →
  (run limits polls h).1 = Break.
Proof.
  induction polls as [|p polls IH]; intros h Hp Hl; [cbn [length] in Hl; lia|].
  apply Forall_cons in Hp as [Hp Hps]. rewrite run_cons.
  destruct (iterate_closed limits p h Hp) as [->|Hw]; [done|].
  cbn [length] in Hl. destruct (iterate limits p h).1; [|done|]; apply IH; (done || lia).
Qed.

(** Claim C19 (liveness): the handler ends.  Once the channel of events is
    closed, at most 130 further iterations, whatever the callbacks do, bring the
    loop to its end, with every request ever received answered. *)
Theorem closing_answers_all limits polls r prog h closing :
  run limits polls (handler_init r) = (prog, h) → prog ≠ Break →
  Forall (λ p, p_event p = Some None) closing → 130 ≤ length closing →
  (run limits closing h).1 = Break ∧
  received (trace (run limits closing h).2) ≡ₚ answered (trace (run limits closing h).2).
Proof.
  intros Hrun Hp Hcl Hl. destruct (init_wf r) as [Hwf Hc].
  pose proof (run_invariant limits polls _ Hwf Hc) as (Hcon & Hw & _). rewrite Hrun in *.
  cbn in Hcon, Hw. specialize (Hw Hp). pose proof Hw as (_ & _ & Hlen & _).
  assert ((run limits closing h).1 = Break) as Hb.
  { apply run_closed; [done|]. unfold work, MAX_DEFERRED_XSWD_EVENTS in *.
    destruct (active h); lia. }
  split; [done|].
  pose proof (run_invariant limits closing h Hw Hcon) as (Hcon' & _ & Hend).
  apply conserved_permutation in Hcon'. by rewrite Hcon', (Hend Hb), (right_id_L [] (++)).
Qed.

(** ** Consent *)

Lemma run_granted limits polls : ∀ h c r,
  handler_wf h → conserved h → Send c r ∈ trace (run limits polls h).2 → grants r = true →
  Send c r ∈ trace h ∨
  ∃ polls1 p polls2, polls = polls1 ++ p :: polls2 ∧ (run limits polls1 h).1 ≠ Break ∧
    decided p (run limits polls1 h).2 c r.
Proof.
  induction polls as [|p polls IH]; intros h c r Hwf Hc Hs Hg; [by left|].
  rewrite run_cons in Hs.
  destruct (iterate_spec limits p h Hwf Hc) as [Hwf' Hc' _ (new & Ht & Hd)].
  assert (Send c r ∈ trace (iterate limits p h).2 → Send c r ∈ trace h ∨ decided p h c r) as Hone.
  { rewrite Ht. intros [?|?]%elem_of_app; auto. }
  assert (decided p h c r → ∃ polls1 p' polls2, p :: polls = polls1 ++ p' :: polls2 ∧
    (run limits polls1 h).1 ≠ Break ∧ decided p' (run limits polls1 h).2 c r) as Hhere.
  { intros Hdec. by exists [], p, polls. }
  destruct (iterate limits p h).1 eqn:Hprog; [|naive_solver|].
  1, 2: destruct (IH _ c r (Hwf' ltac:(done)) Hc' Hs Hg) as [?|(l & p' & k & -> & Hp & Hdec)];
    [naive_solver|]; right; exists (p :: l), p', k; rewrite run_cons, Hprog; done.
Qed.

Lemma grants_accepting resp outcome c r :
  pending_complete resp outcome = [Send c r] → grants r = true →
  pending_sender resp = c ∧ (outcome = OutAccept ∨ outcome = OutAlwaysAccept).
Proof. destruct resp, outcome; intros [= <- <-]; naive_solver. Qed.

(** Claim C16 (safety): only the user grants.  Whenever an application is
    answered with an accepted permission or with prefetched permissions, there
    was an iteration in which this very request was the active one and the Dart
    callback showing it came back with an acceptance; the answer is the
    translation of that outcome for that request.  Failures, timeouts, full
    queues, cancellations and the end of the handler never grant anything. *)
Theorem grants_are_decisions limits polls r c resp :
  Send c resp ∈ trace (run limits polls (handler_init r)).2 → grants resp = true →
  ∃ polls1 p polls2 a request admission outcome,
    polls = polls1 ++ p :: polls2 ∧
    active (run limits polls1 (handler_init r)).2 = Some a ∧
    ac_kind a = ActiveDecision request admission ∧ pending_sender request = c ∧
    p_decision p = Some outcome ∧ (outcome = OutAccept ∨ outcome = OutAlwaysAccept) ∧
    pending_complete request outcome = [Send c resp].
Proof.
  intros Hs Hg. destruct (init_wf r) as [Hwf Hc].
  destruct (run_granted limits polls _ c resp Hwf Hc Hs Hg)
    as [Hnil|(l & p & k & -> & _ & a & request & admission & outcome & Ha & Hk & Ho & He)].
  { by apply elem_of_nil in Hnil. }
  destruct (grants_accepting _ _ _ _ He Hg) as [Hsender Hacc].
  exists l, p, k, a, request, admission, outcome. done.
Qed.

(** ** Fairness *)

(** A part of an iteration after which the active request is still active with
    the same count, or its channel [c] has been answered. *)
Definition settles (c : Sender) (a : ActiveXswdCallback) (h h' : Handler) : Prop :=
  handler_wf h → handler_wf h' ∧
  (c ∈ answered (trace h) → c ∈ answered (trace h')) ∧
  (active h = Some a → c ∈ answered (trace h') ∨
     active h' = Some a ∧ receive_burst h' = receive_burst h).

Lemma settles_trans c a h1 h2 h3 :
  settles c a h1 h2 → settles c a h2 h3 → settles c a h1 h3.
Proof.
  intros H1 H2 Hwf. destruct (H1 Hwf) as (Hwf2 & Hm1 & Ha1).
  destruct (H2 Hwf2) as (Hwf3 & Hm2 & Ha2). split_and!; [done|auto|].
  intros Ha. destruct (Ha1 Ha) as [?|[Hact Hb]]; [auto|].
  destruct (Ha2 Hact) as [?|[? ?]]; [auto|right]. split; congruence.
Qed.

Lemma moves_mono c h h' d :
  moves h h' d → handler_wf h → c ∈ answered (trace h) → c ∈ answered (trace h').
Proof.
  intros Hm Hwf Hc. destruct (Hm Hwf) as (_ & _ & new & -> & _).
  rewrite answered_app. apply elem_of_app. by left.
Qed.

Lemma settles_keep c a h h' d :
  moves h h' d → active h' = active h → receive_burst h' = receive_burst h →
  settles c a h h'.
Proof.
  intros Hm Ha Hb Hwf. split_and!; [by apply Hm|by eapply moves_mono|].
  intros Hact. right. split; congruence.
Qed.

Lemma settles_idle c a h h' d :
  moves h h' d → active h = None → settles c a h h'.
Proof.
  intros Hm Ha Hwf. split_and!; [by apply Hm|by eapply moves_mono|]. intros. congruence.
Qed.

(** Failing the active request answers it. *)
Lemma settles_take c a code h resp admission :
  ac_kind a = ActiveDecision resp admission → c = pending_sender resp →
  settles c a h (take_active (active_fail code) h).2.
Proof.
  intros Hk -> Hwf. destruct (moves_take_fail code h) as [Hm _].
  split_and!; [by apply Hm|by eapply moves_mono|].
  intros Ha. left. unfold take_active. rewrite proc_bind_eq; cbn [get_handler fst snd].
  rewrite Ha, proc_bind_eq. cbn. rewrite answered_app. apply elem_of_app. right.
  destruct (active_fail_answers code a) as [-> _]. unfold active_senders. rewrite Hk. by left.
Qed.

Lemma cancel_deferred_burst state h :
  receive_burst (cancel_deferred_xswd_decisions state h).2 = receive_burst h.
Proof.
  unfold cancel_deferred_xswd_decisions. rewrite proc_bind_eq; cbn [get_handler fst snd].
  by destruct (cancel_loop state (deferred h)) as [[q adm] effs].
Qed.

Lemma defer_disconnect_burst n h :
  receive_burst (defer_xswd_disconnect n h).2 = receive_burst h.
Proof.
  unfold defer_xswd_disconnect. rewrite proc_bind_eq; cbn [get_handler fst snd].
  destruct (_ || _); [done|]. case_bool_decide; [|done].
  destruct (list_find _ _) as [[i e]|]; [|done].
  rewrite 3!proc_bind_eq; cbn [get_handler fst snd]. rewrite proc_bind_eq.
  by case_bool_decide.
Qed.

Section Settles.
Variables (a : ActiveXswdCallback) (resp : PendingXswdResponse) (admission : bool).
Hypothesis Hkind : ac_kind a = ActiveDecision resp admission.
Let c : Sender := pending_sender resp.

Lemma settles_take_if (b : bool) code h :
  settles c a h ((if b then take_active (active_fail code) else mret tt) h).2.
Proof.
  destruct b; [by eapply settles_take|]. eapply settles_keep; [apply moves_refl|done..].
Qed.

Lemma settles_invalidate_if (b : bool) env state h :
  settles c a h ((if b then invalidate env state else mret tt) h).2.
Proof.
  destruct (moves_invalidate_if b env state h) as (Hm & Ha & _).
  eapply settles_keep; [exact Hm|exact Ha|by destruct b].
Qed.

Lemma settles_cancel_deferred state h :
  settles c a h (cancel_deferred_xswd_decisions state h).2.
Proof.
  destruct (moves_cancel_deferred state h) as (Hm & Ha & _).
  eapply settles_keep; [exact Hm|exact Ha|apply cancel_deferred_burst].
Qed.

Lemma settles_on_cancel env state callback h :
  settles c a h (on_cancel_request env state callback h).2.
Proof.
  unfold on_cancel_request, active_cancel. rewrite proc_bind_eq.
  eapply settles_trans; [apply settles_cancel_deferred|].
  set (h1 := (cancel_deferred_xswd_decisions state h).2).
  rewrite proc_bind_eq; cbn [get_handler fst snd].
  set (cancels := from_option _ _ _). set (adm := _ || _).
  rewrite proc_bind_eq. eapply settles_trans; [apply (settles_invalidate_if adm env state)|].
  set (h2 := ((if adm then invalidate env state else mret tt) h1).2).
  rewrite proc_bind_eq.
  eapply settles_trans; [apply (settles_take_if cancels XSWD_REQUEST_CANCELLED)|].
  destruct (moves_invalidate_if adm env state h1) as (_ & Ha2 & _). fold h2 in Ha2.
  destruct (moves_take_if cancels XSWD_REQUEST_CANCELLED h2) as (_ & Ha3 & _).
  set (h3 := ((if cancels then take_active (active_fail XSWD_REQUEST_CANCELLED)
              else mret tt) h2).2) in *.
  rewrite proc_bind_eq.
  eapply settles_trans; [eapply settles_keep; [apply (moves_acknowledge callback)|done..]|].
  rewrite proc_bind_eq. set (h4 := (emit (acknowledge_cancelled_request callback) h3).2).
  destruct (prepare_lifecycle_eq env state CancelRequest adm h4) as (o & -> & _). cbn [fst snd].
  set (h5 := (set_handler_sessions (project (live env) state (handler_sessions h4)).2 h4).2).
  eapply (settles_trans _ _ _ h5); [eapply settles_keep; [apply moves_sessions|done..]|].
  destruct o as [n|]; [|eapply settles_keep; [apply moves_refl|done..]].
  destruct cancels.
  - eapply settles_idle; [apply moves_start|]; exact Ha3.
  - rewrite proc_bind_eq; cbn [get_handler fst snd].
    case_bool_decide; [|eapply settles_keep; [apply moves_refl|done..]].
    eapply settles_keep; [by apply (moves_enqueue (DeferredNotification n))|done..].
Qed.

Lemma settles_on_disconnect env state h :
  settles c a h (on_app_disconnect env state h).2.
Proof.
  unfold on_app_disconnect, active_cancel. rewrite proc_bind_eq.
  eapply settles_trans; [apply settles_cancel_deferred|].
  set (h1 := (cancel_deferred_xswd_decisions state h).2).
  rewrite proc_bind_eq; cbn [get_handler fst snd].
  set (disconnects := from_option _ _ _).
  rewrite proc_bind_eq. eapply settles_trans; [apply (settles_invalidate_if true)|].
  set (h2 := (invalidate env state h1).2).
  rewrite proc_bind_eq.
  eapply settles_trans; [apply (settles_take_if disconnects XSWD_REQUEST_CANCELLED)|].
  destruct (moves_take_if disconnects XSWD_REQUEST_CANCELLED h2) as (_ & Ha3 & _).
  set (h3 := ((if disconnects then take_active (active_fail XSWD_REQUEST_CANCELLED)
              else mret tt) h2).2) in *.
  rewrite proc_bind_eq.
  destruct (prepare_lifecycle_eq env state AppDisconnect false h3) as (o & -> & _).
  cbn [fst snd].
  set (h4 := (set_handler_sessions (project (live env) state (handler_sessions h3)).2 h3).2).
  eapply (settles_trans _ _ _ h4); [eapply settles_keep; [apply moves_sessions|done..]|].
  destruct disconnects; [eapply settles_idle; [by apply moves_start|exact Ha3]|].
  destruct o as [n|]; [|eapply settles_keep; [apply moves_refl|done..]].
  rewrite proc_bind_eq. destruct (moves_defer_disconnect n h4) as (H5 & Ha5 & _ & _).
  eapply settles_trans.
  { eapply settles_keep; [exact H5|exact Ha5|apply defer_disconnect_burst]. }
  destruct (defer_xswd_disconnect n h4).1 as [next|];
    [|eapply settles_keep; [apply moves_refl|done..]].
  set (h5 := (defer_xswd_disconnect n h4).2).
  rewrite proc_bind_eq; cbn [get_handler fst snd]. rewrite proc_bind_eq.
  set (overtaken := match active h5 with Some b => _ | None => _ end).
  eapply (settles_trans _ _ _ (overtaken h5).2).
  { subst overtaken. destruct (active h5) as [b|];
      [apply (settles_invalidate_if (is_application_admission b))|].
    eapply settles_keep; [apply moves_refl|done..]. }
  rewrite proc_bind_eq. eapply settles_trans; [by eapply settles_take|].
  eapply settles_idle; [apply moves_start|]; apply moves_take_fail.
Qed.

Lemma complete_answers o h :
  active h = Some a →
  c ∈ answered (trace (take_active (λ a, active_complete a (OutcomeDecision o)) h).2).
Proof.
  intros Ha. unfold take_active. rewrite proc_bind_eq; cbn [get_handler fst snd].
  rewrite Ha, proc_bind_eq. cbn. rewrite answered_app. apply elem_of_app. right.
  unfold active_complete. rewrite Hkind. cbn [complete_kind].
  destruct (pending_complete_eq resp o) as [r ->]. by left.
Qed.

Lemma close_answers h :
  active h = Some a →
  c ∈ answered (trace (fail_deferred_xswd_events XSWD_HANDLER_CLOSED
                         (take_active (active_fail XSWD_HANDLER_CLOSED) h).2).2).
Proof.
  intros Ha. unfold fail_deferred_xswd_events. rewrite proc_bind_eq; cbn [get_handler fst snd].
  rewrite proc_bind_eq. cbn. rewrite answered_app. apply elem_of_app. left.
  unfold take_active. rewrite proc_bind_eq; cbn [get_handler fst snd].
  rewrite Ha, proc_bind_eq. cbn. rewrite answered_app. apply elem_of_app. right.
  destruct (active_fail_answers XSWD_HANDLER_CLOSED a) as [-> _].
  unfold active_senders. rewrite Hkind. by left.
Qed.

Lemma on_event_settles env event h :
  handler_wf h → receive_burst h < MAX_XSWD_RECEIVE_BURST → active h = Some a →
  let h' := (on_event env event h).2 in
  c ∈ answered (trace h') ∨ active h' = Some a ∧ receive_burst h' = S (receive_burst h).
Proof.
  intros Hwf Hb Ha. unfold on_event. rewrite proc_bind_eq; cbn [get_handler fst snd].
  rewrite proc_bind_eq. set (h1 := (set_burst (S (receive_burst h)) h).2).
  rewrite proc_bind_eq.
  pose proof (moves_set_burst (S (receive_burst h)) h Hb) as H1. fold h1 in H1.
  destruct (moves_receive env event h1) as (H2 & Ha2 & _).
  set (h2 := (receive env event h1).2) in *.
  assert (handler_wf h2) as Hwf2 by by apply H2, H1.
  assert (∀ h', settles c a h2 h' →
    c ∈ answered (trace h') ∨ active h' = Some a ∧ receive_burst h' = S (receive_burst h)) as Hs.
  { intros h' Hs. destruct (Hs Hwf2) as (_ & _ & Hact). apply Hact. by rewrite Ha2. }
  apply Hs. destruct event as [s c'|s q c'|s q c'|s c'|s].
  1, 2, 3: eapply settles_keep; [by apply moves_defer|..];
    unfold defer_xswd_decision; rewrite proc_bind_eq; cbn [get_handler fst snd];
    by case_bool_decide.
  - apply settles_on_cancel.
  - apply settles_on_disconnect.
Qed.

(** One iteration while the request is active and its callback is ready. *)
Lemma iterate_settles limits p h :
  handler_wf h → active h = Some a → p_decision p ≠ None →
  let h' := (iterate limits p h).2 in
  c ∈ answered (trace h') ∨
  (active h' = Some a ∧ receive_burst h' = S (receive_burst h) ∧
   receive_burst h < MAX_XSWD_RECEIVE_BURST).
Proof.
  intros Hwf Ha Hp. unfold iterate. rewrite 2!proc_bind_eq; cbn [get_handler fst snd].
  set (h1 := (set_handler_sessions _ h).2). assert (handler_wf h1) as Hwf1 by exact Hwf.
  rewrite Ha. change (active h) with (active h1) in Ha.
  change (receive_burst h) with (receive_burst h1). clearbody h1. clear h Hwf.
  assert (ac_future a = FutureDecision) as Hf.
  { destruct Hwf1 as (_ & Hf & _). rewrite Ha in Hf. cbn in Hf.
    unfold future_matches in Hf. by rewrite Hkind in Hf. }
  destruct (p_decision p) as [o|] eqn:Ho; [|done].
  unfold iterate_active. rewrite proc_bind_eq; cbn [get_handler fst snd].
  unfold select. rewrite Hf. cbn [poll_future]. rewrite Ho. cbn [fmap option_fmap option_map].
  case_bool_decide as Hb; cbn beta iota.
  - left. rewrite 2!proc_bind_eq. by apply complete_answers.
  - destruct (p_event p) as [[event|]|]; cbn [fmap option_fmap option_map]; rewrite 2!proc_bind_eq.
    + assert (receive_burst h1 < MAX_XSWD_RECEIVE_BURST) as Hlt by lia.
      destruct (on_event_settles (p_env p) event (set_burst (receive_burst h1) h1).2)
        as [?|[? ?]]; [by destruct Hwf1 as (?&?&?&?)|done..|by left|by right].
    + left. rewrite 2!proc_bind_eq. by apply close_answers.
    + left. by apply complete_answers.
Qed.

Lemma run_mono limits polls : ∀ h,
  handler_wf h → conserved h → c ∈ answered (trace h) →
  c ∈ answered (trace (run limits polls h).2).
Proof.
  induction polls as [|p polls IH]; intros h Hwf Hc Ha; [done|]. rewrite run_cons.
  destruct (iterate_spec limits p h Hwf Hc) as [Hwf' Hc' _ (new & Ht & _)].
  assert (c ∈ answered (trace (iterate limits p h).2)) as Ha'.
  { rewrite Ht, answered_app. apply elem_of_app. by left. }
  destruct (iterate limits p h).1; [|done|]; apply IH; auto.
Qed.

Lemma run_settles limits polls : ∀ h,
  handler_wf h → conserved h → active h = Some a →
  Forall (λ p, p_decision p ≠ None) polls →
  MAX_XSWD_RECEIVE_BURST < length polls + receive_burst h →
  c ∈ answered (trace (run limits polls h).2).
Proof.
  induction polls as [|p polls IH]; intros h Hwf Hc Ha Hp Hl.
  { destruct Hwf as (_ & _ & _ & Hb). cbn [length] in Hl. lia. }
  apply Forall_cons in Hp as [Hp Hps]. cbn [length] in Hl. rewrite run_cons.
  destruct (iterate_spec limits p h Hwf Hc) as [Hwf' Hc' Hcl _].
  destruct (iterate_settles limits p h Hwf Ha Hp) as [Hans|(Ha' & Hb' & _)].
  - destruct (iterate limits p h).1; [|done|]; apply run_mono; auto.
  - assert ((iterate limits p h).1 ≠ Break) as Hnb.
    { intros Hb. specialize (Hcl Hb). unfold pending in Hcl. rewrite Ha' in Hcl. cbn in Hcl.
      unfold active_senders in Hcl. by rewrite Hkind in Hcl. }
    destruct (iterate limits p h).1; [|done|]; apply IH; auto; lia.
Qed.
End Settles.

(** ** Delivery *)

(** What ends the wait of the active request without its user's decision: its
    application cancels it or disconnects, another one disconnects while the queue
    is full, or the wallet closes the channel. *)
Definition withdraws_event (a : ActiveXswdCallback) (event : XSWDEvent) (h : Handler) : Prop :=
  match event with
  | EvCancelRequest state _ => state = ac_state a
  | EvAppDisconnect state => state = ac_state a ∨ length (deferred h) = MAX_DEFERRED_XSWD_EVENTS
  | _ => False
  end.
Definition withdraws (a : ActiveXswdCallback) (p : Poll) (h : Handler) : Prop :=
  match p_event p with
  | Some (Some event) => withdraws_event a event h
  | Some None => True
  | None => False
  end.
#[local] Instance withdraws_event_dec a event h : Decision (withdraws_event a event h).
Proof. destruct event; cbn; apply _. Defined.

(** A part of an iteration that leaves the active callback and the count alone. *)
Definition keeps (h h' : Handler) : Prop :=
  active h' = active h ∧ receive_burst h' = receive_burst h.

Lemma keeps_trans h1 h2 h3 : keeps h1 h2 → keeps h2 h3 → keeps h1 h3.
Proof. unfold keeps. intros [-> ->] [-> ->]. done. Qed.

Lemma keeps_invalidate_if (b : bool) env state h :
  keeps h ((if b then invalidate env state else mret tt) h).2.
Proof. by destruct b. Qed.

Lemma keeps_cancel_deferred state h :
  keeps h (cancel_deferred_xswd_decisions state h).2 ∧
  length (deferred (cancel_deferred_xswd_decisions state h).2) ≤ length (deferred h).
Proof.
  unfold keeps. split; [split; [apply moves_cancel_deferred|apply cancel_deferred_burst]|].
  unfold cancel_deferred_xswd_decisions. rewrite proc_bind_eq; cbn [get_handler fst snd].
  assert (length (cancel_loop state (deferred h)).1.1 ≤ length (deferred h)) as Hl.
  { induction (deferred h) as [|e q IH]; [done|]. cbn [cancel_loop].
    destruct (cancel_loop state q) as [[q' adm] effs]. cbn in *.
    destruct (cancel_event state e) as [[]|]; cbn; lia. }
  by destruct (cancel_loop state (deferred h)) as [[q adm] effs].
Qed.

Lemma keeps_on_cancel env state callback h :
  from_option (is_decision_for state) false (active h) = false →
  keeps h (on_cancel_request env state callback h).2.
Proof.
  intros Hc. unfold on_cancel_request. rewrite proc_bind_eq.
  destruct (keeps_cancel_deferred state h) as [H1 _]. eapply keeps_trans; [exact H1|].
  set (h1 := (cancel_deferred_xswd_decisions state h).2) in *.
  rewrite proc_bind_eq; cbn [get_handler fst snd]. destruct H1 as [Ha1 _]. rewrite Ha1, Hc.
  set (adm := _ || _). rewrite proc_bind_eq.
  eapply keeps_trans; [apply (keeps_invalidate_if adm env state)|].
  set (h2 := ((if adm then invalidate env state else mret tt) h1).2).
  rewrite proc_bind_eq. change ((mret tt : run_proc unit) h2) with (tt, h2). cbn [fst snd].
  rewrite proc_bind_eq. set (h4 := (emit (acknowledge_cancelled_request callback) h2).2).
  rewrite proc_bind_eq.
  destruct (prepare_lifecycle_eq env state CancelRequest adm h4) as (o & -> & _). cbn [fst snd].
  destruct o as [n|]; [|done]. rewrite proc_bind_eq; cbn [get_handler fst snd].
  by case_bool_decide.
Qed.

Lemma defer_disconnect_room n h :
  length (deferred h) < MAX_DEFERRED_XSWD_EVENTS → (defer_xswd_disconnect n h).1 = None.
Proof.
  intros Hl. unfold defer_xswd_disconnect. rewrite proc_bind_eq; cbn [get_handler fst snd].
  destruct (_ || _); [done|]. rewrite bool_decide_false by lia. done.
Qed.

Lemma keeps_on_disconnect env state h :
  from_option (is_decision_for state) false (active h) = false →
  length (deferred h) < MAX_DEFERRED_XSWD_EVENTS →
  keeps h (on_app_disconnect env state h).2.
Proof.
  intros Hc Hl. unfold on_app_disconnect. rewrite proc_bind_eq.
  destruct (keeps_cancel_deferred state h) as [H1 Hl1]. eapply keeps_trans; [exact H1|].
  set (h1 := (cancel_deferred_xswd_decisions state h).2) in *.
  rewrite proc_bind_eq; cbn [get_handler fst snd]. destruct H1 as [Ha1 _]. rewrite Ha1, Hc.
  rewrite proc_bind_eq. eapply keeps_trans; [apply (keeps_invalidate_if true env state h1)|].
  set (h2 := (invalidate env state h1).2). rewrite proc_bind_eq; cbn [mret proc_ret fst snd].
  rewrite proc_bind_eq.
  destruct (prepare_lifecycle_eq env state AppDisconnect false h2) as (o & -> & _). cbn [fst snd].
  destruct o as [n|]; [|done]. rewrite proc_bind_eq.
  set (h4 := (set_handler_sessions _ h2).2).
  rewrite (defer_disconnect_room n h4) by (change (deferred h4) with (deferred h1); lia). cbn [mret proc_ret snd].
  destruct (moves_defer_disconnect n h4) as (_ & Ha & _).
  split; [exact Ha|exact (defer_disconnect_burst n h4)].
Qed.

Lemma on_event_keeps env event h :
  (∀ state c, event = EvCancelRequest state c → from_option (is_decision_for state) false (active h) = false) →
  (∀ state, event = EvAppDisconnect state →
     from_option (is_decision_for state) false (active h) = false ∧
     length (deferred h) < MAX_DEFERRED_XSWD_EVENTS) →
  let h' := (on_event env event h).2 in
  active h' = active h ∧ receive_burst h' = S (receive_burst h).
Proof.
  intros Hc Hd. unfold on_event. rewrite 2!proc_bind_eq; cbn [get_handler fst snd].
  set (h1 := (set_burst (S (receive_burst h)) h).2). rewrite proc_bind_eq.
  set (h2 := (receive env event h1).2).
  change (active h) with (active h2) in *. change (deferred h) with (deferred h2) in Hd.
  change (S (receive_burst h)) with (receive_burst h2).
  destruct event as [s c|s q c|s q c|s c|s].
  1, 2, 3: unfold defer_xswd_decision; rewrite proc_bind_eq; cbn [get_handler fst snd];
    by case_bool_decide.
  - by apply keeps_on_cancel, (Hc s c).
  - by apply keeps_on_disconnect; apply (Hd s).
Qed.

(** The decision [o] of the user has been sent on the channel of the request. *)
Definition delivered (request : PendingXswdResponse) (o : XswdDecisionCallbackOutcome)
    (h : Handler) : Prop := Forall (λ e, e ∈ trace h) (pending_complete request o).

Section Delivers.
Variables (a : ActiveXswdCallback) (request : PendingXswdResponse) (admission : bool).
Hypothesis Hkind : ac_kind a = ActiveDecision request admission.

Lemma decision_for_own state : is_decision_for state a = true → state = ac_state a.
Proof. unfold is_decision_for. rewrite Hkind. by intros ->%bool_decide_eq_true. Qed.

Lemma complete_delivers o h :
  active h = Some a →
  delivered request o (take_active (λ a, active_complete a (OutcomeDecision o)) h).2.
Proof.
  intros Ha. unfold take_active. rewrite proc_bind_eq; cbn [get_handler fst snd].
  rewrite Ha, proc_bind_eq. apply Forall_forall. intros e He. cbn. apply elem_of_app. right.
  unfold active_complete. by rewrite Hkind.
Qed.

(** One iteration while the request is active and its callback is ready. *)
Lemma iterate_delivers limits p o h :
  handler_wf h → active h = Some a → p_decision p = Some o →
  let h' := (iterate limits p h).2 in
  delivered request o h' ∨ withdraws a p h ∨
  ((iterate limits p h).1 ≠ Break ∧ active h' = Some a ∧ receive_burst h' = S (receive_burst h) ∧
   receive_burst h < MAX_XSWD_RECEIVE_BURST).
Proof.
  intros Hwf Ha Ho. unfold iterate. rewrite 2!proc_bind_eq; cbn [get_handler fst snd].
  set (h1 := (set_handler_sessions _ h).2). change (deferred h) with (deferred h1).
  assert (ac_future a = FutureDecision) as Hf.
  { destruct Hwf as (_ & Hf & _). rewrite Ha in Hf. cbn in Hf.
    unfold future_matches in Hf. by rewrite Hkind in Hf. }
  assert (length (deferred h) ≤ MAX_DEFERRED_XSWD_EVENTS) as Hl by by destruct Hwf as (_ & _ & Hl & _).
  change (withdraws a p h) with (withdraws a p h1). change (deferred h) with (deferred h1) in Hl.
  rewrite Ha. change (active h) with (active h1) in Ha.
  change (receive_burst h) with (receive_burst h1). clearbody h1. clear h Hwf.
  unfold iterate_active. rewrite proc_bind_eq; cbn [get_handler fst snd].
  unfold select. rewrite Hf. cbn [poll_future]. rewrite Ho. cbn [fmap option_fmap option_map].
  case_bool_decide as Hb; cbn beta iota.
  - left. rewrite 2!proc_bind_eq. by apply complete_delivers.
  - unfold withdraws. destruct (p_event p) as [[event|]|]; cbn [fmap option_fmap option_map].
    + rewrite 2!proc_bind_eq; cbn [mret proc_ret fst snd]. right.
      assert (∀ state, state ≠ ac_state a →
        from_option (is_decision_for state) false (active (set_burst (receive_burst h1) h1).2) = false) as Hother.
      { intros state Hs. cbn. rewrite Ha. cbn. destruct (is_decision_for state a) eqn:Hd; [|done].
        by apply decision_for_own in Hd. }
      destruct (decide (withdraws_event a event h1)) as [Hw|Hw]; [by left|right].
      destruct (on_event_keeps (p_env p) event (set_burst (receive_burst h1) h1).2) as [Ha' Hb'].
      * intros state c ->. by apply Hother.
      * intros state ->. cbn in Hw. split; [apply Hother; naive_solver|]. cbn. lia.
      * split_and!; [done|by rewrite Ha'|done|lia].
    + by right; left.
    + left. rewrite 2!proc_bind_eq. by apply complete_delivers.
Qed.

Lemma run_delivered limits o polls : ∀ h,
  handler_wf h → conserved h → delivered request o h → delivered request o (run limits polls h).2.
Proof.
  induction polls as [|p polls IH]; intros h Hwf Hc Hd; [done|]. rewrite run_cons.
  destruct (iterate_spec limits p h Hwf Hc) as [Hwf' Hc' _ (new & Ht & _)].
  assert (delivered request o (iterate limits p h).2) as Hd'.
  { eapply Forall_impl; [exact Hd|]. intros e He. rewrite Ht. apply elem_of_app. by left. }
  destruct (iterate limits p h).1; [|done|]; apply IH; auto.
Qed.

Lemma run_delivers limits polls : ∀ h,
  handler_wf h → conserved h → active h = Some a →
  Forall (λ p, p_decision p ≠ None) polls →
  MAX_XSWD_RECEIVE_BURST < length polls + receive_burst h →
  (∃ p o, p ∈ polls ∧ p_decision p = Some o ∧ delivered request o (run limits polls h).2) ∨
  ∃ polls1 p polls2, polls = polls1 ++ p :: polls2 ∧ (run limits polls1 h).1 ≠ Break ∧
    active (run limits polls1 h).2 = Some a ∧ withdraws a p (run limits polls1 h).2.
Proof.
  induction polls as [|p polls IH]; intros h Hwf Hc Ha Hp Hl.
  { destruct Hwf as (_ & _ & _ & Hb). cbn [length] in Hl. lia. }
  apply Forall_cons in Hp as [Hp Hps]. cbn [length] in Hl.
  destruct (p_decision p) as [o|] eqn:Ho; [|done]. rewrite run_cons.
  destruct (iterate_spec limits p h Hwf Hc) as [Hwf' Hc' _ _].
  destruct (iterate_delivers limits p o h Hwf Ha Ho) as [Hd|[Hw|(Hnb & Ha' & Hb' & _)]].
  - left. exists p, o. split; [by left|]. split; [done|].
    destruct (iterate limits p h).1; [|done|]; apply run_delivered; auto.
  - right. by exists [], p, polls.
  - assert ((∃ q o, q ∈ polls ∧ p_decision q = Some o ∧
              delivered request o (run limits polls (iterate limits p h).2).2) ∨
      ∃ polls1 q polls2, polls = polls1 ++ q :: polls2 ∧
        (run limits polls1 (iterate limits p h).2).1 ≠ Break ∧
        active (run limits polls1 (iterate limits p h).2).2 = Some a ∧
        withdraws a q (run limits polls1 (iterate limits p h).2).2) as Hih
      by (apply IH; auto; lia).
    destruct Hih as [(q & o' & Hq & Hd)|(polls1 & q & polls2 & -> & Hih)].
    + left. exists q, o'. split; [by right|]. by destruct (iterate limits p h).1.
    + right. exists (p :: polls1), q, polls2. split; [done|]. rewrite run_cons.
      by destruct (iterate limits p h).1.
Qed.
End Delivers.

(** Claim C20 (liveness): a decision is not starved.  Once the callback of the
    active request is ready, its application is answered within 17 iterations,
    however many events keep arriving: it is sent the decision of its user, unless
    it cancelled or disconnected itself while it waited, another application
    disconnected while the queue was full, or the wallet closed the channel. *)
Theorem decision_not_starved limits polls0 r prog h a request admission polls :
  run limits polls0 (handler_init r) = (prog, h) → prog ≠ Break →
  active h = Some a → ac_kind a = ActiveDecision request admission →
  Forall (λ p, p_decision p ≠ None) polls → 17 ≤ length polls →
  pending_sender request ∈ answered (trace (run limits polls h).2) ∧
  ((∃ p o, p ∈ polls ∧ p_decision p = Some o ∧ delivered request o (run limits polls h).2) ∨
   ∃ polls1 p polls2, polls = polls1 ++ p :: polls2 ∧ (run limits polls1 h).1 ≠ Break ∧
     active (run limits polls1 h).2 = Some a ∧ withdraws a p (run limits polls1 h).2).
Proof.
  intros Hrun Hp Ha Hk Hps Hl. destruct (init_wf r) as [Hwf Hc].
  pose proof (run_invariant limits polls0 _ Hwf Hc) as (Hcon & Hw & _). rewrite Hrun in *.
  cbn in Hcon, Hw. specialize (Hw Hp). split.
  - eapply run_settles; [exact Hk|done..|]. unfold MAX_XSWD_RECEIVE_BURST. lia.
  - eapply run_delivers; [exact Hk|done..|]. unfold MAX_XSWD_RECEIVE_BURST. lia.
Qed.

(** ** Disconnection *)

(** The iteration takes this event from the channel. *)
Definition receives (p : Poll) (h : Handler) (event : XSWDEvent) : Prop :=
  match active h with
  | None => deferred h = [] ∧ p_event p = Some (Some event)
  | Some a => (select p a (receive_burst h)).2 = Some (InputEvent (Some event))
  end.

(** The application has no request left and no authority. *)
Definition detached (state : AppState) (h : Handler) : Prop :=
  Forall (λ e, deferred_decision_for state e = false) (deferred h) ∧
  from_option (is_decision_for state) false (active h) = false ∧
  sealed state (handler_sessions h).

Lemma start_detached state n h :
  active h = None → detached state h → detached state (start_notification n h).2.
Proof. intros Ha Hd. destruct n as [n|]; [|exact Hd]. by destruct Hd as (Hq & _ & Hs). Qed.

Lemma disconnect_detaches env state h :
  live env state = true → registry_ok (handler_sessions h) →
  detached state (on_app_disconnect env state h).2.
Proof.
  intros Hl Hok. unfold on_app_disconnect, active_cancel. rewrite proc_bind_eq.
  destruct (moves_cancel_deferred state h) as (_ & Ha1 & Hs1 & Hq1).
  set (h1 := (cancel_deferred_xswd_decisions state h).2) in *.
  rewrite proc_bind_eq; cbn [get_handler fst snd].
  set (disconnects := from_option _ _ _).
  rewrite proc_bind_eq. set (h2 := (invalidate env state h1).2).
  assert (sealed state (handler_sessions h2)) as Hs2.
  { apply invalidate_sealed. by rewrite Hs1. }
  rewrite proc_bind_eq.
  destruct (moves_take_if disconnects XSWD_REQUEST_CANCELLED h2) as (_ & Ha3 & Hq3 & Hs3).
  set (h3 := ((if disconnects then take_active (active_fail XSWD_REQUEST_CANCELLED)
              else mret tt) h2).2) in *.
  rewrite proc_bind_eq.
  destruct (prepare_lifecycle_eq env state AppDisconnect false h3) as (o & -> & Hn).
  cbn [fst snd].
  set (h4 := (set_handler_sessions (project (live env) state (handler_sessions h3)).2 h3).2).
  assert (detached state h4) as H4.
  { split_and!; cbn.
    - by rewrite Hq3.
    - rewrite Ha3. subst disconnects. by destruct (from_option _ _ (active h1)) eqn:Hd.
    - apply sealed_project; [done|]. by rewrite Hs3. }
  destruct disconnects; [by apply start_detached|].
  destruct o as [n|]; [|done].
  rewrite proc_bind_eq. destruct (moves_defer_disconnect n h4) as (_ & Ha5 & Hs5 & HP5).
  set (h5 := (defer_xswd_disconnect n h4).2) in *.
  assert (detached state h5) as H5.
  { destruct H4 as (Hq4 & Hd4 & Hse4). split_and!; [by apply HP5|by rewrite Ha5|by rewrite Hs5]. }
  destruct (defer_xswd_disconnect n h4).1 as [next|]; [|done].
  rewrite proc_bind_eq; cbn [get_handler fst snd]. rewrite proc_bind_eq.
  set (overtaken := match active h5 with Some b => _ | None => _ end).
  assert (detached state (overtaken h5).2) as H6.
  { subst overtaken. destruct (active h5) as [b|] eqn:Hb; [|done].
    destruct (is_application_admission b); [|done]. destruct H5 as (Hq5 & Hd5 & Hse5).
    split_and!; [done|done|by apply sealed_invalidate]. }
  rewrite proc_bind_eq.
  apply start_detached; [apply moves_take_fail|].
  destruct H6 as (Hq6 & Hd6 & Hse6).
  destruct (moves_take_if true XSWD_HANDLER_OVERLOADED (overtaken h5).2) as (_ & Ha7 & Hq7 & Hs7).
  split_and!; [by rewrite Hq7|by rewrite Ha7|by rewrite Hs7].
Qed.

(** Claim C18 (safety): a disconnected application is out at once.  The very
    iteration that receives its disconnection leaves none of its requests
    deferred or active, and from then on no session reference resolves to it. *)
Theorem disconnect_revokes limits p h state :
  receives p h (EvAppDisconnect state) → live (p_env p) state = true →
  registry_ok (p_others p (handler_sessions h)) →
  let h' := (iterate limits p h).2 in
  Forall (λ e, deferred_decision_for state e = false) (deferred h') ∧
  from_option (is_decision_for state) false (active h') = false ∧
  ∀ live' ref, (resolve live' ref (handler_sessions h')).1 ≠ Some state.
Proof.
  intros Hrec Hl Hok.
  assert (detached state (iterate limits p h).2) as (Hq & Ha & Hs).
  2:{ cbn. split_and!; [done..|]. intros live' ref. by apply sealed_resolve. }
  unfold iterate. rewrite 2!proc_bind_eq; cbn [get_handler fst snd].
  set (h1 := (set_handler_sessions _ h).2). change (active h) with (active h1).
  change (receives p h1 (EvAppDisconnect state)) in Hrec.
  change (registry_ok (handler_sessions h1)) in Hok. clearbody h1. clear h.
  unfold receives in Hrec. destruct (active h1) as [a|] eqn:Ha.
  - unfold iterate_active. rewrite proc_bind_eq; cbn [get_handler fst snd].
    destruct (select p a (receive_burst h1)) as [n input]. cbn in Hrec. subst input.
    rewrite 2!proc_bind_eq. unfold on_event. rewrite 3!proc_bind_eq.
    by apply disconnect_detaches.
  - destruct Hrec as [Hq Hp]. unfold iterate_idle.
    rewrite proc_bind_eq; cbn [get_handler fst snd]. rewrite Hq, Hp, 2!proc_bind_eq.
    set (h2 := (receive _ _ h1).2). cbn [dispatch prepare_xswd_event].
    unfold mbind, proc_bind; cbn [mret proc_ret acknowledge]. rewrite invalidate_eq.
    edestruct prepare_lifecycle_eq as (o & -> & _).
    apply start_detached; [exact Ha|]. split_and!.
    + change (Forall (λ e, deferred_decision_for state e = false) (deferred h1)). by rewrite Hq.
    + change (from_option (is_decision_for state) false (active h1) = false). by rewrite Ha.
    + apply sealed_project; [done|]. by apply invalidate_sealed.
Qed.
End Dispatcher.

(** ** A concrete run *)

#[local] Existing Instances demo_json demo_xswd.

Definition demo_registry : Sessions nat := mkSessions ∅ 1.
Definition demo_poll (event : option (option XSWDEvent))
    (decision : option XswdDecisionCallbackOutcome) : Poll :=
  mkPoll (mkXswdEnv (λ _, true) (λ _, [])) event decision None (λ r, r).

(** Application 7 asks for admission on channel 0 and for a balance on channel
    1; the user accepts the admission. *)
Definition demo_polls : list Poll :=
  [demo_poll (Some (Some (RequestApplication 7 0))) None;
   demo_poll (Some (Some (RequestPermission 7 "get_balance"%string 1))) None;
   demo_poll None (Some OutAccept)].

Definition demo_handler : Handler :=
  (run limits_default demo_polls (handler_init demo_registry)).2.
Definition demo_closing : list Poll := replicate 130 (demo_poll (Some None) None).

Example demo_trace : answered (trace demo_handler) = [0] ∧ pending demo_handler = [1].
Proof. vm_compute. split; reflexivity. Qed.

(** Equations between runs, by evaluation of both sides. *)
Ltac vm_decide_eq :=
  match goal with |- ?x = ?y => exact (eq_refl y <: x = y) end.

Lemma surjective_pairing_of {A B} (p : A * B) a : p.1 = a → p = (a, p.2).
Proof. destruct p. by intros <-. Qed.

Lemma demo_runs :
  run limits_default demo_polls (handler_init demo_registry) = (Continue, demo_handler).
Proof. unfold demo_handler. apply surjective_pairing_of. vm_decide_eq. Qed.

Lemma deferral_bounded_witness : length (pending demo_handler) ≤ 65.
Proof.
  apply (deferral_bounded limits_default demo_polls demo_registry Continue demo_handler).
  - exact demo_runs.
  - discriminate.
Defined.

Lemma closing_answers_all_witness :
  (run limits_default demo_closing demo_handler).1 = Break.
Proof.
  apply (closing_answers_all limits_default demo_polls demo_registry Continue demo_handler).
  - exact demo_runs.
  - discriminate.
  - apply Forall_replicate. reflexivity.
  - unfold demo_closing. rewrite length_replicate. constructor.
Defined.

Lemma grants_are_decisions_witness :
  ∃ polls1 p polls2 outcome, demo_polls = polls1 ++ p :: polls2 ∧
    p_decision p = Some outcome ∧ (outcome = OutAccept ∨ outcome = OutAlwaysAccept).
Proof.
  destruct (grants_are_decisions limits_default demo_polls demo_registry 0
              (RespPermission (Ok ResAccept)))
    as (l & p & k & a & request & admission & outcome & Hl & _ & _ & _ & Ho & Hacc & _).
  - apply (list_elem_of_lookup_2 _ 3). vm_decide_eq.
  - reflexivity.
  - exists l, p, k, outcome. split; [exact Hl|split; [exact Ho|exact Hacc]].
Defined.

(** The handler showing the permission request to the user. *)
Definition demo_asking : Handler :=
  (run limits_default (demo_polls ++ [demo_poll None None]) (handler_init demo_registry)).2.
Definition demo_app : @AppState demo_json demo_xswd := 7.
Definition demo_active : ActiveXswdCallback :=
  mkActive 7 (ActiveDecision (PendPermission 1) false) FutureDecision.

Lemma demo_asking_active : active demo_asking = Some demo_active.
Proof. vm_decide_eq. Qed.

Lemma decision_not_starved_witness :
  1 ∈ answered (trace (run limits_default
        (replicate 17 (demo_poll (Some (Some (EvAppDisconnect 8))) (Some OutReject)))
        demo_asking).2).
Proof.
  apply (decision_not_starved limits_default (demo_polls ++ [demo_poll None None]) demo_registry
           Continue demo_asking demo_active (PendPermission 1) false).
  - unfold demo_asking. apply surjective_pairing_of. vm_decide_eq.
  - discriminate.
  - exact demo_asking_active.
  - reflexivity.
  - apply Forall_replicate. discriminate.
  - rewrite length_replicate. constructor.
Defined.

Lemma demo_asking_registry : registry_ok (handler_sessions demo_asking).
Proof.
  change (map_Forall (λ ref _, (ref < next_reference (handler_sessions demo_asking))%Z)
    (sessions (handler_sessions demo_asking))).
  apply (bool_decide_unpack _). vm_compute. exact I.
Qed.

Lemma disconnect_revokes_witness :
  let h' := (iterate limits_default
    (demo_poll (Some (Some (EvAppDisconnect demo_app))) None) demo_asking).2 in
  from_option (is_decision_for demo_app) false (active h') = false ∧
  ∀ live' ref, (resolve live' ref (handler_sessions h')).1 ≠ Some demo_app.
Proof.
  destruct (disconnect_revokes limits_default
    (demo_poll (Some (Some (EvAppDisconnect demo_app))) None) demo_asking demo_app) as (_ & Ha & Hr).
  - unfold receives. rewrite demo_asking_active. vm_decide_eq.
  - reflexivity.
  - exact demo_asking_registry.
  - split; [exact Ha|exact Hr].
Defined.

End Dispatcher.
