(* ===== verification/Daemon.v ===== *)
(** * Reaching a daemon (the pure functions of rust/src/api/wallet/runtime.rs)

    The endpoint of a daemon address, the check of its network, the outcome of
    going offline, the errors of a connection attempt, and the options of
    models/runtime_dtos.rs.  The attempt itself is in [Connection]. *)

From S2P Require Import Prelude Errors External.

Module Daemon.

(** What the code uses of the url crate, and xelis_common's
    [sanitize_ws_address]. *)
Class UrlLib := {
  Url : Type;
  sanitize_ws_address : string → string;
  url_parse : string → option Url;
  scheme : Url → string;
  host : Url → option string;
  username : Url → string;
  password : Url → option string;
  path : Url → string;
  query : Url → option string;
  fragment : Url → option string
}.

Inductive NativeWalletReconnectPolicy : Type :=
  | ApplicationManaged | UpstreamManagedExperimental.

Record NativeWalletConnectionOptions : Type := mkOptions {
  timeout_millis : Z;
  reconnect_policy : NativeWalletReconnectPolicy
}.

Definition DAEMON_EVENT_CAPACITY : Z := 64.

Definition invalid_daemon_address : NativeXelisError :=
  xelis_wallet_flutter CodeInvalidInput "DAEMON_ADDRESS_INVALID"
    "Daemon address must be an HTTP or WebSocket origin, or host[:port], without credentials, path, query, or fragment".

Definition daemon_rpc_endpoint `{!UrlLib} (daemon_address : string) :
    result NativeXelisError string :=
  let normalized_address := sanitize_ws_address daemon_address in
  url ← ok_or invalid_daemon_address (url_parse normalized_address);
  let supported_scheme := bool_decide (scheme url = "ws" ∨ scheme url = "wss") in
  let is_origin :=
    bool_decide (host url ≠ None) && bool_decide (username url = "") &&
    bool_decide (password url = None) &&
    bool_decide (path url = "" ∨ path url = "/") &&
    bool_decide (query url = None) && bool_decide (fragment url = None) in
  if negb supported_scheme || negb is_origin then Err invalid_daemon_address
  else Ok (normalized_address +:+ "/json_rpc").

Definition ensure_daemon_network `{ErrorText} (wallet_network daemon_network : Network) :
    result NativeXelisError unit :=
  if bool_decide (wallet_network = daemon_network) then Ok tt
  else Err (from_wallet_error (WNetworkError NetNetworkMismatch)).

Definition normalize_offline_mode_result `{ErrorText} (result : result WalletError unit) :
    Prelude.result NativeXelisError unit :=
  match result with
  | Ok _ | Err WNotOnlineMode | Err (WNetworkError NetNotRunning)
  | Err (WNetworkError (NetDaemonAPIError _)) => Ok tt
  | Err error => Err (from_wallet_error error)
  end.

Definition network_connect_timeout : NativeXelisError :=
  xelis_wallet_flutter CodeNetwork "NETWORK_CONNECT_TIMEOUT"
    "Native wallet connection exceeded its configured caller limit".
Definition network_connect_worker_failed : NativeXelisError :=
  xelis_wallet_flutter CodeInternal "NETWORK_CONNECT_WORKER_FAILED"
    "Native wallet connection worker stopped before acknowledgement".
Definition network_connect_cancelled : NativeXelisError :=
  xelis_wallet_flutter CodeCancelled "NETWORK_CONNECT_CANCELLED"
    "Native wallet connection was cancelled before activation".
Definition network_connect_in_progress : NativeXelisError :=
  xelis_wallet_flutter CodeOperationInProgress "NETWORK_CONNECT_IN_PROGRESS"
    "A native wallet connection attempt is already in progress".
Definition network_timeout_invalid : NativeXelisError :=
  xelis_wallet_flutter CodeInvalidInput "NETWORK_TIMEOUT_INVALID"
    "Connection timeout must be positive".

(** ** What an endpoint reveals *)

(** An accepted address is an origin over WebSocket: it carries no credentials,
    path, query or fragment to the daemon, and the endpoint only appends the
    RPC path to the normalized address.  Otherwise the one error is reported,
    which does not depend on the address. *)
Lemma daemon_rpc_endpoint_exact `{!UrlLib} daemon_address :
  match daemon_rpc_endpoint daemon_address with
  | Ok endpoint =>
      endpoint = sanitize_ws_address daemon_address +:+ "/json_rpc" ∧
      ∃ url, url_parse (sanitize_ws_address daemon_address) = Some url ∧
        (scheme url = "ws" ∨ scheme url = "wss") ∧ is_Some (host url) ∧
        username url = "" ∧ password url = None ∧ (path url = "" ∨ path url = "/") ∧
        query url = None ∧ fragment url = None
  | Err error => error = invalid_daemon_address
  end.
Proof.
  unfold daemon_rpc_endpoint. destruct (url_parse _) as [url|]; cbn; [|done].
  repeat case_bool_decide; cbn; try done.
  split; [done|]. exists url. split_and!; try done. by apply not_eq_None_Some.
Qed.

End Daemon.
