(* ===== verification/Connection.v ===== *)
(** * Connection attempts (rust/src/api/wallet.rs and wallet/runtime.rs)

    [online_mode] starts a connection in a worker task and waits for it under
    the caller's time limit; [offline_mode], [close] and the drop of the wallet
    cancel an attempt at any moment.  They share atomics, locks and one-shot
    channels.  This file models the tasks as programs whose steps are the
    accesses to that state and the calls outside, and lets them interleave in
    every way.

    The primitives behave as documented by tokio: a mutex has one owner, a
    oneshot channel carries one value until its receiver is dropped, and
    [notify_waiters] wakes the [Notified] futures created before it.  The
    atomics are sequentially consistent.  Attempts, and the daemon API that the
    worker of an attempt creates, are numbered in the order of creation.  A task
    is not dropped before it ends and does not panic. *)

From stdpp Require Import functions list_numbers.
From S2P Require Import Prelude Errors External Daemon.

Module Connection.
Import Daemon.

(** A [oneshot::channel::<()>] seen from its receiver. *)
Inductive channel : Type := ChNone | ChEmpty | ChSent | ChClosed.

(** ** The shared state *)

(** wallet.rs: [WalletConnectionAttempt], with its options and, once the worker
    is spawned, the channels between it and its caller: [result], [accepted]
    and [finalized].  [notifications] counts the calls of
    [completion.notify_waiters]; [activation] and [api_lock] tell whether the
    mutexes are held; [api] whether the slot is filled. *)
Record Attempt : Type := mkAttempt {
  at_address : string;
  at_options : NativeWalletConnectionOptions;
  cancelled : bool;
  completed : bool;
  notifications : nat;
  activation : bool;
  api_lock : bool;
  api : bool;
  result_tx : bool;
  result_rx : bool;
  result_value : option (result NativeXelisError unit);
  accepted : channel;
  accepted_rx : bool;
  finalized : channel;
  finalized_rx : bool
}.

Definition set_cancelled (v : bool) (x : Attempt) : Attempt :=
  mkAttempt (at_address x) (at_options x) v (completed x) (notifications x) (activation x)
    (api_lock x) (api x) (result_tx x) (result_rx x) (result_value x) (accepted x)
    (accepted_rx x) (finalized x) (finalized_rx x).
Definition set_completed (v : bool) (x : Attempt) : Attempt :=
  mkAttempt (at_address x) (at_options x) (cancelled x) v (notifications x) (activation x)
    (api_lock x) (api x) (result_tx x) (result_rx x) (result_value x) (accepted x)
    (accepted_rx x) (finalized x) (finalized_rx x).
Definition set_notifications (v : nat) (x : Attempt) : Attempt :=
  mkAttempt (at_address x) (at_options x) (cancelled x) (completed x) v (activation x)
    (api_lock x) (api x) (result_tx x) (result_rx x) (result_value x) (accepted x)
    (accepted_rx x) (finalized x) (finalized_rx x).
Definition set_activation (v : bool) (x : Attempt) : Attempt :=
  mkAttempt (at_address x) (at_options x) (cancelled x) (completed x) (notifications x) v
    (api_lock x) (api x) (result_tx x) (result_rx x) (result_value x) (accepted x)
    (accepted_rx x) (finalized x) (finalized_rx x).
Definition set_api_lock (v : bool) (x : Attempt) : Attempt :=
  mkAttempt (at_address x) (at_options x) (cancelled x) (completed x) (notifications x)
    (activation x) v (api x) (result_tx x) (result_rx x) (result_value x) (accepted x)
    (accepted_rx x) (finalized x) (finalized_rx x).
Definition set_api (v : bool) (x : Attempt) : Attempt :=
  mkAttempt (at_address x) (at_options x) (cancelled x) (completed x) (notifications x)
    (activation x) (api_lock x) v (result_tx x) (result_rx x) (result_value x) (accepted x)
    (accepted_rx x) (finalized x) (finalized_rx x).
Definition set_result_tx (v : bool) (x : Attempt) : Attempt :=
  mkAttempt (at_address x) (at_options x) (cancelled x) (completed x) (notifications x)
    (activation x) (api_lock x) (api x) v (result_rx x) (result_value x) (accepted x)
    (accepted_rx x) (finalized x) (finalized_rx x).
Definition set_result_rx (v : bool) (x : Attempt) : Attempt :=
  mkAttempt (at_address x) (at_options x) (cancelled x) (completed x) (notifications x)
    (activation x) (api_lock x) (api x) (result_tx x) v (result_value x) (accepted x)
    (accepted_rx x) (finalized x) (finalized_rx x).
Definition set_result_value (v : option (result NativeXelisError unit)) (x : Attempt) : Attempt :=
  mkAttempt (at_address x) (at_options x) (cancelled x) (completed x) (notifications x)
    (activation x) (api_lock x) (api x) (result_tx x) (result_rx x) v (accepted x)
    (accepted_rx x) (finalized x) (finalized_rx x).
Definition set_accepted (v : channel) (x : Attempt) : Attempt :=
  mkAttempt (at_address x) (at_options x) (cancelled x) (completed x) (notifications x)
    (activation x) (api_lock x) (api x) (result_tx x) (result_rx x) (result_value x) v
    (accepted_rx x) (finalized x) (finalized_rx x).
Definition set_accepted_rx (v : bool) (x : Attempt) : Attempt :=
  mkAttempt (at_address x) (at_options x) (cancelled x) (completed x) (notifications x)
    (activation x) (api_lock x) (api x) (result_tx x) (result_rx x) (result_value x)
    (accepted x) v (finalized x) (finalized_rx x).
Definition set_finalized (v : channel) (x : Attempt) : Attempt :=
  mkAttempt (at_address x) (at_options x) (cancelled x) (completed x) (notifications x)
    (activation x) (api_lock x) (api x) (result_tx x) (result_rx x) (result_value x)
    (accepted x) (accepted_rx x) v (finalized_rx x).
Definition set_finalized_rx (v : bool) (x : Attempt) : Attempt :=
  mkAttempt (at_address x) (at_options x) (cancelled x) (completed x) (notifications x)
    (activation x) (api_lock x) (api x) (result_tx x) (result_rx x) (result_value x)
    (accepted x) (accepted_rx x) (finalized x) v.

(** [WalletConnectionAttempt::new]. *)
Definition attempt_new (address : string) (options : NativeWalletConnectionOptions) : Attempt :=
  mkAttempt address options false false 0 false false false false false None
    ChNone false ChNone false.

(** What happens outside: the daemon API of an attempt is told not to reconnect
    or to disconnect, and the wallet's network handler is installed, rolled
    back, stopped, or the wallet closed.  [Barrier] marks the end of
    [cancel_connection_attempt]. *)
Inductive event : Type :=
  | ReconnectDisabled (a : nat)
  | Disconnected (a : nat)
  | Installed (a : nat)
  | RolledBack (a : nat)
  | WentOffline
  | WalletClosed
  | Barrier (a : nat).

(** [WalletConnectionAttempts] and the wallet's [active_connection].  Attempts
    that were not created yet have the value of a new one. *)
Record Shared : Type := mkShared {
  attempts : nat → Attempt;
  next_attempt : nat;
  current : option nat;
  closed : bool;
  active_connection : option nat;
  active_lock : bool;
  trace : list event
}.

Definition set_attempts f (s : Shared) : Shared :=
  mkShared f (next_attempt s) (current s) (closed s) (active_connection s) (active_lock s)
    (trace s).
Definition upd (a : nat) (f : Attempt → Attempt) (s : Shared) : Shared :=
  set_attempts (<[a := f (attempts s a)]> (attempts s)) s.
Definition set_current c (s : Shared) : Shared :=
  mkShared (attempts s) (next_attempt s) c (closed s) (active_connection s) (active_lock s)
    (trace s).
Definition set_closed c (s : Shared) : Shared :=
  mkShared (attempts s) (next_attempt s) (current s) c (active_connection s) (active_lock s)
    (trace s).
Definition set_active c (s : Shared) : Shared :=
  mkShared (attempts s) (next_attempt s) (current s) (closed s) c (active_lock s) (trace s).
Definition set_active_lock b (s : Shared) : Shared :=
  mkShared (attempts s) (next_attempt s) (current s) (closed s) (active_connection s) b
    (trace s).
Definition emit (e : event) (s : Shared) : Shared :=
  mkShared (attempts s) (next_attempt s) (current s) (closed s) (active_connection s)
    (active_lock s) (trace s ++ [e]).

(** ** The tasks *)

(** Where [online_mode] stands; the argument is its attempt. *)
Inductive online_pc : Type :=
  | OnlineStart (address : string) (options : NativeWalletConnectionOptions)
  | OnlineCheck (a : nat)
  | OnlineTakeStale (a : nat)
  | StaleReconnect (a stale : nat)
  | StaleDisconnect (a stale : nat)
  | StaleOffline (a : nat)
  | OnlineCheckCancelled (a : nat)
  | OnlineSpawn (a : nat)
  | AwaitResult (a : nat)
  | AwaitElapsed (a : nat)
  | SendAccepted (a : nat)
  | CheckAccepted (a : nat)
  | LockActive (a : nat)
  | CheckActive (a : nat)
  | UnlockCancelled (a : nat)
  | StoreActive (a : nat)
  | SendFinalized (a : nat)
  | UnlockActive (a : nat)
  | DropFinalized (a : nat)
  | CheckFinal (a : nat)
  | TimeoutDropAccepted (a : nat)
  | TimeoutDropFinalized (a : nat).

(** The worker of an attempt: [connect_wallet], the delivery of its result, and
    [rollback_connection]. *)
Inductive rollback_next : Type := RollbackActivation | RollbackWorker.
Inductive work_pc : Type :=
  | WorkEndpoint
  | WorkConnect (endpoint : string)
  | WorkStoreApi
  | WorkReconnect
  | WorkCheckConnected
  | WorkInfo
  | WorkCheckReady
  | WorkLockActivation
  | WorkCheckActivation
  | WorkInstall
  | WorkCheckInstalled
  | WorkDisconnect (e : NativeXelisError) (locked : bool)
  | WorkDeliver
  | WorkAccepted
  | WorkFinalized
  | WorkCheckFinal
  | RollbackReconnect (k : rollback_next)
  | RollbackDisconnect (k : rollback_next)
  | RollbackOffline (k : rollback_next)
  | WorkSendError (e : NativeXelisError).

(** [cancel_connection_attempt] and what its caller does next. *)
Inductive cancel_next : Type :=
  | ThenTimeout (a : nat) | ThenOffline | ThenClose | ThenDrop.
Inductive cancel_pc : Type :=
  | CancelTake
  | CancelStore (b : nat)
  | CancelApi (b : nat)
  | CancelReconnect (b : nat)
  | CancelDisconnect (b : nat)
  | CancelActivation (b : nat)
  | CancelRelease (b : nat).

(** [wait_completed] and what its caller does next. *)
Inductive wait_next : Type := WaitCancelled | WaitFinal | WaitBarrier (k : cancel_next).
Inductive wait_pc : Type :=
  | WaitLoad | WaitNotified | WaitReload (n : nat) | WaitAwait (n : nat).

(** The drop of a [ConnectionAttemptGuard] and what comes next. *)
Inductive guard_next : Type :=
  | GuardReturn (e : NativeXelisError) | GuardWorkerDone | GuardWorkerFail (e : NativeXelisError).
Inductive guard_pc : Type := GuardStore | GuardNotify | GuardClear.

(** The rest of [offline_mode] and [close]. *)
Inductive end_pc : Type :=
  | TakeActive | ActiveReconnect (b : nat) | ActiveDisconnect (b : nat) | FinishEnd.

Inductive task : Type :=
  | Online (p : online_pc)
  | Worker (a : nat) (p : work_pc)
  | Guard (a : nat) (p : guard_pc) (k : guard_next)
  | Cancel (p : cancel_pc) (k : cancel_next)
  | Wait (a : nat) (p : wait_pc) (k : wait_next)
  | End (terminal : bool) (p : end_pc)
  | Returned (a : option nat) (r : result NativeXelisError unit)
  | Ended.

Definition go_online (address : string) (options : NativeWalletConnectionOptions) : task :=
  Online (OnlineStart address options).
Definition offline_mode : task := Cancel CancelTake ThenOffline.
Definition close : task := Cancel CancelTake ThenClose.
Definition drop_wallet : task := Cancel CancelTake ThenDrop.

(** ** Their steps *)

Section Steps.
Context `{ErrorText, !UrlLib}.
Variable wallet_network : Network.

(** What a step finds outside: the wallet crate's answers, those of the daemon,
    and whether the caller's time limit has passed. *)
Record Env : Type := mkEnv {
  is_online : bool;
  set_offline_mode : result WalletError unit;
  daemon_with : string → Z → result anyhow_error unit;
  get_info : result anyhow_error Network;
  set_online_mode_with_api : bool → result WalletError unit;
  timed_out : bool
}.

(** A step that cannot be taken yet is [None]; a step may spawn a task. *)
Definition outcome : Type := option (Shared * task * list task).
Definition goto (s : Shared) (t : task) : outcome := Some (s, t, []).

Definition fail_attempt (a : nat) (e : NativeXelisError) (s : Shared) : outcome :=
  goto s (Guard a GuardStore (GuardReturn e)).

(** The caller's senders are dropped when it returns. *)
Definition return_dropping (a : nat) (r : result NativeXelisError unit) (s : Shared) : outcome :=
  goto (upd a (λ x, set_finalized ChClosed (set_accepted ChClosed x)) s) (Returned (Some a) r).

(** [ConnectionAttemptGuard::acquire], under the lock of the attempts. *)
Definition acquire (address : string) (options : NativeWalletConnectionOptions) (s : Shared) :
    result NativeXelisError (nat * Shared) :=
  if closed s then Err network_connect_cancelled
  else match current s with
       | Some _ => Err network_connect_in_progress
       | None =>
           let a := next_attempt s in
           Ok (a, mkShared (<[a := attempt_new address options]> (attempts s)) (S a) (Some a)
                    (closed s) (active_connection s) (active_lock s) (trace s))
       end.

Definition exec_online (env : Env) (p : online_pc) (s : Shared) : outcome :=
  match p with
  | OnlineStart address options =>
      if bool_decide (timeout_millis options = 0)%Z
      then goto s (Returned None (Err network_timeout_invalid))
      else match acquire address options s with
           | Err e => goto s (Returned None (Err e))
           | Ok (a, s) => goto s (Online (OnlineCheck a))
           end
  | OnlineCheck a =>
      if is_online env then fail_attempt a (from_wallet_error WAlreadyOnlineMode) s
      else goto s (Online (OnlineTakeStale a))
  | OnlineTakeStale a =>
      if active_lock s then None
      else match active_connection s with
           | Some stale =>
               goto (set_active_lock true (set_active None s)) (Online (StaleReconnect a stale))
           | None => goto s (Online (OnlineCheckCancelled a))
           end
  | StaleReconnect a stale =>
      goto (emit (ReconnectDisabled stale) s) (Online (StaleDisconnect a stale))
  | StaleDisconnect a stale => goto (emit (Disconnected stale) s) (Online (StaleOffline a))
  | StaleOffline a =>
      let s := set_active_lock false (emit WentOffline s) in
      match normalize_offline_mode_result (set_offline_mode env) with
      | Ok _ => goto s (Online (OnlineCheckCancelled a))
      | Err e => fail_attempt a e s
      end
  | OnlineCheckCancelled a =>
      if cancelled (attempts s a) then fail_attempt a network_connect_cancelled s
      else goto s (Online (OnlineSpawn a))
  | OnlineSpawn a =>
      Some (upd a (λ x, mkAttempt (at_address x) (at_options x) (cancelled x) (completed x)
                          (notifications x) (activation x) (api_lock x) (api x)
                          true true None ChEmpty true ChEmpty true) s,
            Online (AwaitResult a), [Worker a WorkEndpoint])
  | AwaitResult a =>
      match result_value (attempts s a) with
      | Some (Ok _) => goto s (Online (SendAccepted a))
      | Some (Err error) => return_dropping a (Err error) s
      | None =>
          if result_tx (attempts s a)
          then if timed_out env then goto s (Online (AwaitElapsed a)) else None
          else return_dropping a (Err network_connect_worker_failed) s
      end
  | AwaitElapsed a => goto (upd a (set_result_rx false) s) (Online (TimeoutDropAccepted a))
  | SendAccepted a =>
      if accepted_rx (attempts s a)
      then goto (upd a (set_accepted ChSent) s) (Online (CheckAccepted a))
      else return_dropping a (Err network_connect_worker_failed) s
  | CheckAccepted a =>
      if cancelled (attempts s a) then goto s (Online (DropFinalized a))
      else goto s (Online (LockActive a))
  | LockActive a =>
      if active_lock s then None else goto (set_active_lock true s) (Online (CheckActive a))
  | CheckActive a =>
      if cancelled (attempts s a) then goto s (Online (UnlockCancelled a))
      else goto s (Online (StoreActive a))
  | UnlockCancelled a => goto (set_active_lock false s) (Online (DropFinalized a))
  | StoreActive a => goto (set_active (Some a) s) (Online (SendFinalized a))
  | SendFinalized a =>
      if finalized_rx (attempts s a)
      then goto (upd a (set_finalized ChSent) s) (Online (UnlockActive a))
      else goto (set_active_lock false (upd a (set_finalized ChClosed) s))
             (Returned (Some a) (Err network_connect_worker_failed))
  | UnlockActive a => goto (set_active_lock false s) (Wait a WaitLoad WaitFinal)
  | DropFinalized a =>
      goto (upd a (set_finalized ChClosed) s) (Wait a WaitLoad WaitCancelled)
  | CheckFinal a =>
      goto s (Returned (Some a)
        (if cancelled (attempts s a) then Err network_connect_cancelled else Ok tt))
  | TimeoutDropAccepted a =>
      goto (upd a (set_accepted ChClosed) s) (Online (TimeoutDropFinalized a))
  | TimeoutDropFinalized a =>
      goto (upd a (set_finalized ChClosed) s) (Cancel CancelTake (ThenTimeout a))
  end.

(** [wait_completed]. *)
Definition after_cancel (k : cancel_next) (s : Shared) : outcome :=
  goto s match k with
         | ThenTimeout a => Returned (Some a) (Err network_connect_timeout)
         | ThenOffline => End false TakeActive
         | ThenClose => End true TakeActive
         | ThenDrop => Ended
         end.

Definition waited (a : nat) (k : wait_next) (s : Shared) : outcome :=
  match k with
  | WaitCancelled => goto s (Returned (Some a) (Err network_connect_cancelled))
  | WaitFinal => goto s (Online (CheckFinal a))
  | WaitBarrier k => after_cancel k (emit (Barrier a) s)
  end.

Definition exec_wait (a : nat) (p : wait_pc) (k : wait_next) (s : Shared) : outcome :=
  match p with
  | WaitLoad => if completed (attempts s a) then waited a k s else goto s (Wait a WaitNotified k)
  | WaitNotified => goto s (Wait a (WaitReload (notifications (attempts s a))) k)
  | WaitReload n =>
      if completed (attempts s a) then waited a k s else goto s (Wait a (WaitAwait n) k)
  | WaitAwait n =>
      if bool_decide (n < notifications (attempts s a)) then goto s (Wait a WaitLoad k) else None
  end.

(** [Drop for ConnectionAttemptGuard], with [complete].  The worker's receivers
    are dropped when it ends. *)
Definition exec_guard (a : nat) (p : guard_pc) (k : guard_next) (s : Shared) : outcome :=
  match p with
  | GuardStore => goto (upd a (set_completed true) s) (Guard a GuardNotify k)
  | GuardNotify =>
      goto (upd a (λ x, set_notifications (S (notifications x)) x) s) (Guard a GuardClear k)
  | GuardClear =>
      let s := if bool_decide (current s = Some a) then set_current None s else s in
      match k with
      | GuardReturn e => goto s (Returned (Some a) (Err e))
      | GuardWorkerDone =>
          goto (upd a (λ x, set_finalized_rx false (set_accepted_rx false x)) s) Ended
      | GuardWorkerFail e => goto s (Worker a (WorkSendError e))
      end
  end.

(** [connect_wallet] and the rest of the worker. *)
Definition exec_worker (env : Env) (a : nat) (p : work_pc) (s : Shared) : outcome :=
  let x := attempts s a in
  let fail e s := goto s (Guard a GuardStore (GuardWorkerFail e)) in
  let disconnect e locked := goto s (Worker a (WorkDisconnect e locked)) in
  match p with
  | WorkEndpoint =>
      match daemon_rpc_endpoint (at_address x) with
      | Err e => fail e s
      | Ok endpoint => goto s (Worker a (WorkConnect endpoint))
      end
  | WorkConnect endpoint =>
      match daemon_with env endpoint (timeout_millis (at_options x)) with
      | Err error => fail (from_wallet_operation error CodeNetwork "DAEMON_CONNECT_FAILED") s
      | Ok _ => goto s (Worker a WorkStoreApi)
      end
  | WorkStoreApi =>
      if api_lock x then None else goto (upd a (set_api true) s) (Worker a WorkReconnect)
  | WorkReconnect =>
      goto match reconnect_policy (at_options x) with
           | ApplicationManaged => emit (ReconnectDisabled a) s
           | UpstreamManagedExperimental => s
           end (Worker a WorkCheckConnected)
  | WorkCheckConnected =>
      if cancelled x then disconnect network_connect_cancelled false
      else goto s (Worker a WorkInfo)
  | WorkInfo =>
      match get_info env with
      | Err error =>
          disconnect (from_wallet_operation error CodeNetwork "DAEMON_INFO_PREFLIGHT_FAILED") false
      | Ok network =>
          match ensure_daemon_network wallet_network network with
          | Err e => disconnect e false
          | Ok _ => goto s (Worker a WorkCheckReady)
          end
      end
  | WorkCheckReady =>
      if cancelled x then disconnect network_connect_cancelled false
      else goto s (Worker a WorkLockActivation)
  | WorkLockActivation =>
      if activation x then None
      else goto (upd a (set_activation true) s) (Worker a WorkCheckActivation)
  | WorkCheckActivation =>
      if cancelled x then disconnect network_connect_cancelled true
      else goto s (Worker a WorkInstall)
  | WorkInstall =>
      match set_online_mode_with_api env
              match reconnect_policy (at_options x) with
              | UpstreamManagedExperimental => true | ApplicationManaged => false end with
      | Err error => disconnect (from_wallet_error error) true
      | Ok _ => goto (emit (Installed a) s) (Worker a WorkCheckInstalled)
      end
  | WorkCheckInstalled =>
      if cancelled x then goto s (Worker a (RollbackReconnect RollbackActivation))
      else goto (upd a (set_activation false) s) (Worker a WorkDeliver)
  | WorkDisconnect e locked =>
      let s := emit (Disconnected a) s in
      fail e (if locked then upd a (set_activation false) s else s)
  | WorkDeliver =>
      if result_rx x
      then goto (upd a (λ x, set_result_tx false (set_result_value (Some (Ok tt)) x)) s)
             (Worker a WorkAccepted)
      else goto (upd a (set_result_tx false) s) (Worker a (RollbackReconnect RollbackWorker))
  | WorkAccepted =>
      match accepted x with
      | ChSent => goto (upd a (set_accepted_rx false) s) (Worker a WorkFinalized)
      | ChClosed =>
          goto (upd a (λ x, set_finalized_rx false (set_accepted_rx false x)) s)
            (Worker a (RollbackReconnect RollbackWorker))
      | ChNone | ChEmpty => None
      end
  | WorkFinalized =>
      match finalized x with
      | ChSent => goto (upd a (set_finalized_rx false) s) (Worker a WorkCheckFinal)
      | ChClosed =>
          goto (upd a (set_finalized_rx false) s) (Worker a (RollbackReconnect RollbackWorker))
      | ChNone | ChEmpty => None
      end
  | WorkCheckFinal =>
      if cancelled x then goto s (Worker a (RollbackReconnect RollbackWorker))
      else goto s (Guard a GuardStore GuardWorkerDone)
  | RollbackReconnect k => goto (emit (ReconnectDisabled a) s) (Worker a (RollbackDisconnect k))
  | RollbackDisconnect k => goto (emit (Disconnected a) s) (Worker a (RollbackOffline k))
  | RollbackOffline k =>
      let s := emit (RolledBack a) s in
      match k with
      | RollbackActivation => fail network_connect_cancelled (upd a (set_activation false) s)
      | RollbackWorker => goto s (Guard a GuardStore GuardWorkerDone)
      end
  | WorkSendError e =>
      goto (upd a (λ x,
              set_finalized_rx false (set_accepted_rx false (set_result_tx false
                (set_result_value (if result_rx x then Some (Err e) else result_value x) x)))) s)
        Ended
  end.

(** [cancel_current] and [cancel_connection_attempt]. *)
Definition is_terminal (k : cancel_next) : bool :=
  match k with ThenClose | ThenDrop => true | ThenTimeout _ | ThenOffline => false end.

Definition exec_cancel (p : cancel_pc) (k : cancel_next) (s : Shared) : outcome :=
  match p with
  | CancelTake =>
      let s := if is_terminal k then set_closed true s else s in
      match current s with
      | Some b => goto s (Cancel (CancelStore b) k)
      | None => after_cancel k s
      end
  | CancelStore b =>
      let s := upd b (set_cancelled true) s in
      match k with ThenDrop => goto s Ended | _ => goto s (Cancel (CancelApi b) k) end
  | CancelApi b =>
      if api_lock (attempts s b) then None
      else if api (attempts s b)
      then goto (upd b (set_api_lock true) s) (Cancel (CancelReconnect b) k)
      else goto s (Cancel (CancelActivation b) k)
  | CancelReconnect b => goto (emit (ReconnectDisabled b) s) (Cancel (CancelDisconnect b) k)
  | CancelDisconnect b =>
      goto (upd b (set_api_lock false) (emit (Disconnected b) s)) (Cancel (CancelActivation b) k)
  | CancelActivation b =>
      if activation (attempts s b) then None
      else goto (upd b (set_activation true) s) (Cancel (CancelRelease b) k)
  | CancelRelease b =>
      goto (upd b (set_activation false) s) (Wait b WaitLoad (WaitBarrier k))
  end.

(** [offline_mode] and [close] after the cancellation. *)
Definition exec_end (env : Env) (terminal : bool) (p : end_pc) (s : Shared) : outcome :=
  match p with
  | TakeActive =>
      if active_lock s then None
      else match active_connection s with
           | Some b => goto (set_active None s) (End terminal (ActiveReconnect b))
           | None => goto s (End terminal FinishEnd)
           end
  | ActiveReconnect b => goto (emit (ReconnectDisabled b) s) (End terminal (ActiveDisconnect b))
  | ActiveDisconnect b => goto (emit (Disconnected b) s) (End terminal FinishEnd)
  | FinishEnd =>
      if terminal then goto (emit WalletClosed s) Ended
      else goto (emit WentOffline s)
             (Returned None (normalize_offline_mode_result (set_offline_mode env)))
  end.

Definition exec (env : Env) (t : task) (s : Shared) : outcome :=
  match t with
  | Online p => exec_online env p s
  | Worker a p => exec_worker env a p s
  | Guard a p k => exec_guard a p k s
  | Cancel p k => exec_cancel p k s
  | Wait a p k => exec_wait a p k s
  | End terminal p => exec_end env terminal p s
  | Returned _ _ | Ended => None
  end.

(** ** Systems of tasks *)

Record System : Type := mkSystem {
  shared : Shared;
  tasks : list task
}.

Definition initial_shared : Shared :=
  mkShared (λ _, attempt_new "" (mkOptions 0 ApplicationManaged)) 0 None false None false [].

(** A task of the system makes a step, or a method is called. *)
Inductive label : Type :=
  | Run (i : nat) (env : Env)
  | Call (t : task).

Definition callable (t : task) : Prop :=
  (∃ address options, t = go_online address options) ∨ t = offline_mode ∨ t = close ∨
  t = drop_wallet.

Definition run_task (i : nat) (env : Env) (y : System) : option System :=
  t ← tasks y !! i;
  '(s, t, spawned) ← exec env t (shared y);
  Some (mkSystem s (<[i := t]> (tasks y) ++ spawned)).

Definition system_step (y : System) (l : label) (y' : System) : Prop :=
  match l with
  | Run i env => run_task i env y = Some y'
  | Call t => callable t ∧ y' = mkSystem (shared y) (tasks y ++ [t])
  end.

Definition system_init (y : System) : Prop := y = mkSystem initial_shared [].

Definition reached (y : System) : Prop :=
  ∃ labels, reachable system_init system_step labels y.

End Steps.

End Connection.
