(* ===== verification/Holders.v ===== *)
(** Connection attempts: which task holds which lock, guard and sender. *)

From stdpp Require Import functions list_numbers.
From S2P Require Import Prelude Errors External Tasks Daemon Connection.

Module Holders.
Import Tasks Daemon Connection.

(** ** Who holds what *)

(** The guard of an attempt: its caller until the worker is spawned, then the
    worker, up to the end of its drop.  [live] stops at the store to
    [completed], [unnotified] at the notification. *)
Definition holds (t : task) : option nat :=
  match t with
  | Online (OnlineCheck a | OnlineTakeStale a | StaleReconnect a _ | StaleDisconnect a _
           | StaleOffline a | OnlineCheckCancelled a | OnlineSpawn a) => Some a
  | Worker _ (WorkSendError _) => None
  | Worker a _ => Some a
  | Guard a _ _ => Some a
  | _ => None
  end.
Definition unnotified (t : task) : option nat :=
  match t with Guard _ GuardClear _ => None | _ => holds t end.
Definition live (t : task) : option nat :=
  match t with Guard _ GuardNotify _ => None | _ => unnotified t end.

(** The owners of the three mutexes. *)
Definition owns_active (t : task) : option unit :=
  match t with
  | Online (StaleReconnect _ _ | StaleDisconnect _ _ | StaleOffline _ | CheckActive _
           | UnlockCancelled _ | StoreActive _ | SendFinalized _ | UnlockActive _) => Some tt
  | _ => None
  end.
Definition owns_api (t : task) : option nat :=
  match t with Cancel (CancelReconnect b | CancelDisconnect b) _ => Some b | _ => None end.
Definition owns_activation (t : task) : option nat :=
  match t with
  | Worker a (WorkCheckActivation | WorkInstall | WorkCheckInstalled | WorkDisconnect _ true
             | RollbackReconnect RollbackActivation | RollbackDisconnect RollbackActivation
             | RollbackOffline RollbackActivation) => Some a
  | Cancel (CancelRelease b) _ => Some b
  | _ => None
  end.

(** The senders of the three channels of an attempt. *)
Definition sends_result (t : task) : option nat :=
  match t with
  | Worker a (WorkAccepted | WorkFinalized | WorkCheckFinal | RollbackReconnect RollbackWorker
             | RollbackDisconnect RollbackWorker | RollbackOffline RollbackWorker) => None
  | Worker a _ => Some a
  | Guard a _ (GuardWorkerFail _) => Some a
  | _ => None
  end.
Definition sends_accepted (t : task) : option nat :=
  match t with
  | Online (AwaitResult a | AwaitElapsed a | SendAccepted a | TimeoutDropAccepted a) => Some a
  | _ => None
  end.
Definition sends_finalized (t : task) : option nat :=
  match t with
  | Online (AwaitResult a | AwaitElapsed a | SendAccepted a | TimeoutDropAccepted a
           | CheckAccepted a | LockActive a | CheckActive a | UnlockCancelled a | StoreActive a
           | SendFinalized a | DropFinalized a | TimeoutDropFinalized a) => Some a
  | _ => None
  end.

(** ** The invariant of the tasks *)

Definition delivered (x : Attempt) : Prop := result_value x = Some (Ok tt).
Definition spawned (x : Attempt) : Prop := accepted x ≠ ChNone.
(** The worker could not deliver, and never will. *)
Definition undelivered (x : Attempt) : Prop :=
  result_tx x = false ∧ spawned x ∧ ¬ delivered x.

(** What the channels of an attempt say about each other. *)
Record attempt_ok (x : Attempt) : Prop := mkAttemptOk {
  ok_new : accepted x = ChNone → finalized x = ChNone ∧ result_tx x = false ∧
    result_value x = None;
  ok_created : finalized x = ChNone → accepted x = ChNone;
  ok_sent : finalized x = ChSent → delivered x;
  ok_sender : result_tx x = true → result_value x = None ∧ accepted_rx x = true ∧
    finalized_rx x = true;
  ok_accepted : delivered x → accepted x = ChEmpty → accepted_rx x = true;
  ok_finalized : delivered x → accepted x ≠ ChClosed → finalized x = ChEmpty →
    finalized_rx x = true
}.

(** A caller whose worker is not spawned, or never will be. *)
Definition unspawned (t : task) : option nat :=
  match t with Online _ | Guard _ _ (GuardReturn _) => holds t | _ => None end.

Definition ch_empty (c : channel) : bool := match c with ChEmpty => true | _ => false end.
Definition ch_created (c : channel) : bool := match c with ChNone => false | _ => true end.

Record counts (s : Shared) (ts : list task) : Prop := mkCounts {
  n_holds a : count holds a ts = one (bool_decide (current s = Some a));
  n_unnotified a :
    count unnotified a ts + notifications (attempts s a) =
    one (bool_decide (a < next_attempt s));
  n_live a :
    count live a ts + one (completed (attempts s a)) = one (bool_decide (a < next_attempt s));
  n_active : count owns_active tt ts = one (active_lock s);
  n_api a : count owns_api a ts = one (api_lock (attempts s a));
  n_activation a : count owns_activation a ts = one (activation (attempts s a));
  n_result a : count sends_result a ts = one (result_tx (attempts s a));
  n_accepted a :
    count sends_accepted a ts =
    one (ch_empty (accepted (attempts s a)));
  n_finalized a :
    count sends_finalized a ts =
    one (ch_empty (finalized (attempts s a)));
  n_unspawned a :
    count unspawned a ts +
    one (ch_created (accepted (attempts s a))) ≤ 1
}.

Record context_ok (s : Shared) : Prop := mkContext {
  co_attempts a : attempt_ok (attempts s a);
  co_fresh a : next_attempt s ≤ a →
    attempts s a = attempt_new "" (mkOptions 0 ApplicationManaged);
  co_current a : current s = Some a → a < next_attempt s
}.

(** ** Every step keeps the counts *)

Lemma fn_at {A} (f : nat → A) a v b : <[a := v]> f b = if bool_decide (a = b) then v else f b.
Proof.
  case_bool_decide as Hab.
  - subst. apply fn_lookup_insert.
  - by apply fn_lookup_insert_ne.
Qed.

Lemma count_ge {A} `{EqDecision A} (f : task → option A) x ts i t :
  ts !! i = Some t → one (bool_decide (f t = Some x)) ≤ count f x ts.
Proof. intros Hi. case_bool_decide; cbn; [by eapply count_pos|lia]. Qed.

(** All the cases of one step. *)
Ltac exec_cases t H :=
  destruct t as [p|? p|? p k|p k|? p k|? p|? ?|];
  [destruct p|destruct p|destruct p|destruct p|destruct p|destruct p|..];
  unfold exec, exec_online, exec_worker, exec_guard, exec_wait, exec_cancel, exec_end,
    waited, after_cancel, fail_attempt, return_dropping, acquire, goto in H;
  simplify_eq; repeat (case_match; simplify_eq; try done).

(** Arithmetic on counts, after every test was decided. *)
Ltac count_tac :=
  rewrite ?count_cons, ?count_nil; cbn; rewrite ?fn_at; try (intros; lia); unfold one, ch_empty, ch_created; intros;
  repeat (first [progress simplify_eq/= | progress destruct_and? | case_bool_decide | case_match
    | match goal with
      | Hu : ?x = ?x → _ |- _ => specialize (Hu eq_refl)
      | Hu : ?x ≤ ?y → _ |- _ => specialize (Hu ltac:(lia))
      end]); lia.

Section Counting.
Context `{ErrorText, !UrlLib} (wallet_network : Network).
Context (env : Env) (i : nat) (t : task) (s s' : Shared) (t' : task) (us ts : list task).
Hypothesis Hi : ts !! i = Some t.
Hypothesis Hx : exec wallet_network env t s = Some (s', t', us).
Hypothesis Hc : counts s ts.
Hypothesis Ho : context_ok s.

(** Sets the stage for the count of [f] at [a]. *)
Ltac count_stage f a :=
  pose proof (count_step f a ts i t t' us Hi) as Hstep;
  pose proof (count_ge f a ts i t Hi) as Hge;
  revert Hstep Hge;
  generalize (count f a (<[i := t']> ts ++ us)); generalize (count f a ts);
  clear Hi.

Lemma step_active : count owns_active tt (<[i := t']> ts ++ us) = one (active_lock s').
Proof.
  pose proof (n_active _ _ Hc) as Hn. revert Hn. count_stage owns_active tt.
  clear Hc Ho. exec_cases t Hx. all: count_tac.
Qed.

Lemma step_api a : count owns_api a (<[i := t']> ts ++ us) = one (api_lock (attempts s' a)).
Proof.
  assert (next_attempt s ≤ a → api_lock (attempts s a) = false) as Hfr.
  { intros Ha. by rewrite (co_fresh _ Ho a Ha). }
  pose proof (n_api _ _ Hc a) as Hn. revert Hn Hfr. count_stage owns_api a.
  clear Hc Ho. exec_cases t Hx. all: count_tac.
Qed.

Lemma step_activation a :
  count owns_activation a (<[i := t']> ts ++ us) = one (activation (attempts s' a)).
Proof.
  assert (next_attempt s ≤ a → activation (attempts s a) = false) as Hfr.
  { intros Ha. by rewrite (co_fresh _ Ho a Ha). }
  pose proof (n_activation _ _ Hc a) as Hn. revert Hn Hfr. count_stage owns_activation a.
  clear Hc Ho. exec_cases t Hx. all: count_tac.
Qed.

(** A caller that has not spawned its worker has unused channels. *)
Lemma unspawned_new a :
  unspawned t = Some a → accepted (attempts s a) = ChNone ∧ finalized (attempts s a) = ChNone ∧
    result_tx (attempts s a) = false.
Proof.
  intros Ht. pose proof (count_pos unspawned a ts i t Hi Ht) as Hp.
  pose proof (n_unspawned _ _ Hc a) as Hn.
  destruct (accepted (attempts s a)) eqn:Ha; cbn in Hn; [|lia..].
  destruct (ok_new _ (co_attempts _ Ho a) Ha) as (? & ? & _). done.
Qed.

Lemma step_result a :
  count sends_result a (<[i := t']> ts ++ us) = one (result_tx (attempts s' a)).
Proof.
  assert (next_attempt s ≤ a → result_tx (attempts s a) = false) as Hfr.
  { intros Ha. by rewrite (co_fresh _ Ho a Ha). }
  pose proof (n_result _ _ Hc a) as Hn. pose proof (unspawned_new a) as Hu.
  revert Hn Hfr Hu. count_stage sends_result a.
  clear Hc Ho. exec_cases t Hx. all: count_tac.
Qed.

Lemma step_accepted a :
  count sends_accepted a (<[i := t']> ts ++ us) =
  one (ch_empty (accepted (attempts s' a))).
Proof.
  assert (next_attempt s ≤ a → accepted (attempts s a) = ChNone) as Hfr.
  { intros Ha. by rewrite (co_fresh _ Ho a Ha). }
  pose proof (n_accepted _ _ Hc a) as Hn. pose proof (unspawned_new a) as Hu.
  revert Hn Hfr Hu. count_stage sends_accepted a.
  clear Hc Ho. exec_cases t Hx. all: count_tac.
Qed.

Lemma step_finalized a :
  count sends_finalized a (<[i := t']> ts ++ us) =
  one (ch_empty (finalized (attempts s' a))).
Proof.
  assert (next_attempt s ≤ a → finalized (attempts s a) = ChNone) as Hfr.
  { intros Ha. by rewrite (co_fresh _ Ho a Ha). }
  pose proof (n_finalized _ _ Hc a) as Hn. pose proof (unspawned_new a) as Hu.
  revert Hn Hfr Hu. count_stage sends_finalized a.
  clear Hc Ho. exec_cases t Hx. all: count_tac.
Qed.

Lemma step_holds a :
  count holds a (<[i := t']> ts ++ us) = one (bool_decide (current s' = Some a)).
Proof.
  pose proof (n_holds _ _ Hc a) as Hn. revert Hn. count_stage holds a.
  clear Hc Ho. exec_cases t Hx. all: count_tac.
Qed.

Lemma step_unnotified a :
  count unnotified a (<[i := t']> ts ++ us) + notifications (attempts s' a) =
  one (bool_decide (a < next_attempt s')).
Proof.
  assert (next_attempt s ≤ a → notifications (attempts s a) = 0) as Hfr.
  { intros Ha. by rewrite (co_fresh _ Ho a Ha). }
  pose proof (n_unnotified _ _ Hc a) as Hn. revert Hn Hfr. count_stage unnotified a.
  clear Hc Ho. exec_cases t Hx. all: count_tac.
Qed.

Lemma step_live a :
  count live a (<[i := t']> ts ++ us) + one (completed (attempts s' a)) =
  one (bool_decide (a < next_attempt s')).
Proof.
  assert (next_attempt s ≤ a → completed (attempts s a) = false) as Hfr.
  { intros Ha. by rewrite (co_fresh _ Ho a Ha). }
  pose proof (n_live _ _ Hc a) as Hn. revert Hn Hfr. count_stage live a.
  clear Hc Ho. exec_cases t Hx. all: count_tac.
Qed.

Lemma step_unspawned a :
  count unspawned a (<[i := t']> ts ++ us) +
  one (ch_created (accepted (attempts s' a))) ≤ 1.
Proof.
  assert (next_attempt s ≤ a → accepted (attempts s a) = ChNone) as Hfr.
  { intros Ha. by rewrite (co_fresh _ Ho a Ha). }
  assert (next_attempt s ≤ a → count unspawned a ts = 0) as Hfr2.
  { intros Ha. pose proof (n_holds _ _ Hc a) as Hh.
    rewrite bool_decide_eq_false_2 in Hh by (intros ?%(co_current _ Ho); lia).
    pose proof (count_le unspawned a holds ts) as Hle.
    enough (count unspawned a ts ≤ count holds a ts) by (cbn in *; lia).
    apply Hle. by intros [| |? ? []| | | | |]. }
  assert (sends_accepted t = Some a → accepted (attempts s a) = ChEmpty) as Hse.
  { intros Ht. pose proof (count_pos sends_accepted a ts i t Hi Ht) as Hp.
    rewrite (n_accepted _ _ Hc a) in Hp. destruct (accepted (attempts s a)); cbn in Hp; first [done|lia]. }
  pose proof (n_unspawned _ _ Hc a) as Hn. revert Hn Hfr Hfr2 Hse. count_stage unspawned a.
  clear Hc Ho. exec_cases t Hx. all: count_tac.
Qed.

Lemma step_counts : counts s' (<[i := t']> ts ++ us).
Proof.
  constructor; auto using step_active, step_api, step_activation, step_result, step_accepted,
    step_finalized, step_holds, step_unnotified, step_live, step_unspawned.
Qed.

End Counting.

End Holders.
