(* ===== verification/Stages.v ===== *)
(** Connection attempts: what holds at each stage of a task, and that it keeps
    holding whatever the other tasks do. *)

From stdpp Require Import functions list_numbers.
From S2P Require Import Prelude Errors External Tasks Daemon Connection Holders.

Module Stages.
Import Tasks Daemon Connection Holders.

(** The worker will roll back, or has, or installed nothing. *)
Definition spoiled (x : Attempt) : Prop :=
  undelivered x ∨ accepted x = ChClosed ∨ finalized x = ChClosed ∨ cancelled x = true.
(** The worker waits for no acknowledgement any more. *)
Definition settled (x : Attempt) : Prop :=
  result_tx x = false ∧ spawned x ∧
  (¬ delivered x ∨ accepted x = ChClosed ∨
   (accepted x = ChSent ∧ (finalized x = ChSent ∨ finalized x = ChClosed))).

(** Nothing is being connected and nothing will be. *)
Definition quiet (s : Shared) : Prop :=
  closed s = true ∧ ∀ a, a < next_attempt s → completed (attempts s a) = true.

Definition cancel_fact (s : Shared) (k : cancel_next) (b : nat) : Prop :=
  b < next_attempt s ∧
  (k = ThenClose → closed s = true ∧ (current s = None ∨ current s = Some b)).

Definition online_fact (s : Shared) (p : online_pc) : Prop :=
  match p with
  | AwaitResult a | AwaitElapsed a =>
      spawned (attempts s a) ∧ result_rx (attempts s a) = true ∧
      (result_tx (attempts s a) = true ∨ is_Some (result_value (attempts s a)))
  | TimeoutDropAccepted a | TimeoutDropFinalized a => spawned (attempts s a)
  | SendAccepted a => delivered (attempts s a) ∧ spawned (attempts s a)
  | CheckAccepted a | LockActive a | CheckActive a | StoreActive a | UnlockCancelled a
  | DropFinalized a => delivered (attempts s a) ∧ accepted (attempts s a) = ChSent
  | SendFinalized a =>
      delivered (attempts s a) ∧ accepted (attempts s a) = ChSent ∧
      active_connection s = Some a
  | UnlockActive a =>
      delivered (attempts s a) ∧ accepted (attempts s a) = ChSent ∧
      finalized (attempts s a) = ChSent
  | CheckFinal a =>
      delivered (attempts s a) ∧ accepted (attempts s a) = ChSent ∧
      finalized (attempts s a) = ChSent ∧ completed (attempts s a) = true
  | _ => True
  end.

Definition work_fact (s : Shared) (a : nat) (p : work_pc) : Prop :=
  spawned (attempts s a) ∧
  match p with
  | WorkCheckInstalled | WorkDeliver => Installed a ∈ trace s
  | WorkAccepted => delivered (attempts s a)
  | WorkFinalized => delivered (attempts s a) ∧ accepted (attempts s a) = ChSent
  | WorkCheckFinal =>
      delivered (attempts s a) ∧ accepted (attempts s a) = ChSent ∧
      finalized (attempts s a) = ChSent
  | RollbackReconnect RollbackActivation | RollbackDisconnect RollbackActivation
  | RollbackOffline RollbackActivation => cancelled (attempts s a) = true
  | RollbackReconnect RollbackWorker | RollbackDisconnect RollbackWorker
  | RollbackOffline RollbackWorker => spoiled (attempts s a) ∧ settled (attempts s a)
  | _ => True
  end.

Definition wait_fact (s : Shared) (a : nat) (p : wait_pc) (k : wait_next) : Prop :=
  a < next_attempt s ∧
  match p with
  | WaitReload n => n = 0 ∨ completed (attempts s a) = true
  | WaitAwait n => n = 0
  | _ => True
  end ∧
  match k with
  | WaitFinal => delivered (attempts s a) ∧ accepted (attempts s a) = ChSent ∧
      finalized (attempts s a) = ChSent
  | WaitBarrier k => cancel_fact s k a
  | WaitCancelled => True
  end.

(** What holds while a task stands somewhere, whatever the others do. *)
Definition fact (s : Shared) (t : task) : Prop :=
  match t with
  | Online p => online_fact s p
  | Worker a p => work_fact s a p
  | Guard a _ GuardWorkerDone => settled (attempts s a)
  | Guard a _ (GuardWorkerFail _) => spawned (attempts s a)
  | Cancel (CancelTake) k => True
  | Cancel (CancelStore b | CancelApi b | CancelReconnect b | CancelDisconnect b
           | CancelActivation b | CancelRelease b) k => cancel_fact s k b
  | Wait a p k => wait_fact s a p k
  | End true _ => quiet s
  | Returned (Some a) (Ok _) =>
      completed (attempts s a) = true ∧ Installed a ∈ trace s ∧ RolledBack a ∉ trace s
  | _ => True
  end.

(** Attempts change only in one direction. *)
Record evolves (x y : Attempt) : Prop := mkEvolves {
  ev_cancelled : cancelled x = true → cancelled y = true;
  ev_completed : completed x = true → completed y = true;
  ev_value r : result_value x = Some r → result_value y = Some r;
  ev_undelivered : undelivered x → undelivered y;
  ev_spawned : spawned x → spawned y;
  ev_sender : spawned x → result_tx x = false → result_tx y = false;
  ev_result : result_tx x = true → result_rx x = true →
    result_tx y = true ∨ is_Some (result_value y);
  ev_accepted_sent : accepted x = ChSent → accepted y = ChSent;
  ev_accepted_closed : accepted x = ChClosed → accepted y = ChClosed;
  ev_finalized_sent : finalized x = ChSent → finalized y = ChSent;
  ev_finalized_closed : finalized x = ChClosed → finalized y = ChClosed
}.

(** Is this the attempt the step writes to? *)
Ltac at_attempt :=
  match goal with |- context [if bool_decide (?b = ?c) then _ else attempts _ _] =>
    destruct (bool_decide_reflect (b = c))
  end.

Lemma live_holds t a : live t = Some a → holds t = Some a.
Proof. by destruct t as [| |? []| | | | |]. Qed.

Section Stable.
Context `{ErrorText, !UrlLib} (wallet_network : Network).
Context (env : Env) (i : nat) (t : task) (s s' : Shared) (t' : task) (us ts : list task).
Hypothesis Hi : ts !! i = Some t.
Hypothesis Hx : exec wallet_network env t s = Some (s', t', us).
Hypothesis Hc : counts s ts.
Hypothesis Ho : context_ok s.
Hypothesis Hf : fact s t.

(** What the counts say to the task itself. *)
Lemma sender_result a : sends_result t = Some a → result_tx (attempts s a) = true.
Proof.
  intros Ht. pose proof (count_pos sends_result a ts i t Hi Ht) as Hp.
  rewrite (n_result _ _ Hc a) in Hp. by destruct (result_tx _); cbn in Hp; [|lia].
Qed.
Lemma sender_accepted a : sends_accepted t = Some a → accepted (attempts s a) = ChEmpty.
Proof.
  intros Ht. pose proof (count_pos sends_accepted a ts i t Hi Ht) as Hp.
  rewrite (n_accepted _ _ Hc a) in Hp. by destruct (accepted _); cbn in Hp; lia || done.
Qed.
Lemma sender_finalized a : sends_finalized t = Some a → finalized (attempts s a) = ChEmpty.
Proof.
  intros Ht. pose proof (count_pos sends_finalized a ts i t Hi Ht) as Hp.
  rewrite (n_finalized _ _ Hc a) in Hp. by destruct (finalized _); cbn in Hp; lia || done.
Qed.
Lemma live_current a : live t = Some a →
  current s = Some a ∧ a < next_attempt s ∧ completed (attempts s a) = false.
Proof.
  intros Ht. pose proof (live_holds t a Ht) as Hh.
  pose proof (count_pos holds a ts i t Hi Hh) as Hp. rewrite (n_holds _ _ Hc a) in Hp.
  case_bool_decide as Hcur; cbn in Hp; [|lia]. pose proof (co_current _ Ho a Hcur) as Hlt.
  pose proof (count_pos live a ts i t Hi Ht) as Hl. pose proof (n_live _ _ Hc a) as Hn.
  rewrite bool_decide_eq_true_2 in Hn by done. destruct (completed _); cbn in Hn; [lia|done].
Qed.
Lemma holder_current a : holds t = Some a → current s = Some a ∧ a < next_attempt s.
Proof.
  intros Hh. pose proof (count_pos holds a ts i t Hi Hh) as Hp. rewrite (n_holds _ _ Hc a) in Hp.
  case_bool_decide as Hcur; cbn in Hp; [|lia]. eauto using co_current.
Qed.
Lemma spawned_lt a : spawned (attempts s a) → a < next_attempt s.
Proof.
  intros Hs. destruct (decide (a < next_attempt s)) as [|Hge]; [done|].
  destruct Hs. rewrite (co_fresh _ Ho a) by lia. done.
Qed.
Lemma delivered_spawned a : delivered (attempts s a) → spawned (attempts s a).
Proof. intros Hd Ha. destruct (ok_new _ (co_attempts _ Ho a) Ha) as (_ & _ & Hv). by rewrite Hd in Hv. Qed.

(** Settles a goal on the fields of one attempt. *)
Ltac use_facts :=
  repeat match goal with
         | Hu : ?x = ?x → _ |- _ => specialize (Hu eq_refl); destruct_and?
         | Hu : ?x = ?y → _, He : ?x = ?y |- _ => specialize (Hu He); destruct_and?
         end.
Ltac field_tac :=
  unfold undelivered, spawned, delivered in *; cbn; try tauto; try congruence;
  intros; repeat (progress (destruct_and?; destruct_or?)); use_facts; repeat case_match;
  simplify_eq;
  split_and?; try congruence; auto with congruence.

Lemma step_evolves a : a < next_attempt s → evolves (attempts s a) (attempts s' a).
Proof.
  intros Ha. pose proof (co_attempts _ Ho a) as [Hnew _ _ Hsend _ _].
  pose proof (sender_result a) as Hsr. pose proof (sender_accepted a) as Hsa.
  pose proof (sender_finalized a) as Hsf. pose proof (unspawned_new i t s ts Hi Hc Ho a) as Hun.
  assert (evolves (attempts s a) (attempts s a)) as Hrefl by (constructor; tauto).
  clear Hi Hc Ho Hf. exec_cases t Hx; cbn; rewrite ?fn_at; try exact Hrefl.
  all: at_attempt;
    [subst|exact Hrefl].
  all: first [lia | constructor; cbn; tauto | clear Hrefl; cbn in *; use_facts].
  all: constructor; field_tac.
Qed.

Ltac attempt_stage a :=
  pose proof (sender_result a) as Hsr; pose proof (sender_accepted a) as Hsa;
  pose proof (sender_finalized a) as Hsf.

Lemma step_attempt_ok a : attempt_ok (attempts s' a).
Proof.
  pose proof (co_attempts _ Ho a) as Hok. attempt_stage a. pose proof Hok as [Hnew Hcr Hst Hsend Hac Hfi].
  pose proof (delivered_spawned a) as Hds.
  revert Hf. clear Hi Hc Ho. exec_cases t Hx; cbn; rewrite ?fn_at; try (intros; exact Hok).
  all: at_attempt; [subst|intros; exact Hok].
  all: clear Hok; unfold work_fact, settled, undelivered, spawned, delivered in *; cbn in *; use_facts.
  all: intros; destruct_and?; constructor; field_tac.
Qed.

(** The attempt a step writes to exists. *)
Lemma step_fresh a :
  next_attempt s' ≤ a → attempts s' a = attempt_new "" (mkOptions 0 ApplicationManaged).
Proof.
  pose proof (co_fresh _ Ho a) as Hfr. pose proof (holder_current a) as Hh.
  pose proof (spawned_lt a) as Hs. pose proof (delivered_spawned a) as Hd.
  assert (owns_activation t = Some a → a < next_attempt s) as Hac.
  { intros Ht. destruct (decide (a < next_attempt s)) as [|Hge]; [done|].
    pose proof (count_pos owns_activation a ts i t Hi Ht) as Hp.
    rewrite (n_activation _ _ Hc a), (Hfr ltac:(lia)) in Hp. cbn in Hp. lia. }
  revert Hf. clear Hi Hc Ho. exec_cases t Hx; cbn; rewrite ?fn_at; try (intros; apply Hfr; lia).
  all: at_attempt; [subst|intros; apply Hfr; lia].
  all: unfold cancel_fact, work_fact, settled in *; cbn in *; use_facts; intros; destruct_and?.
  all: first [lia | exfalso; naive_solver lia].
Qed.

(** What a step does to the rest of the state. *)
Record moves : Prop := mkMoves {
  mv_next : next_attempt s ≤ next_attempt s';
  mv_closed : closed s = true → closed s' = true ∧ next_attempt s' = next_attempt s ∧
    (current s' = current s ∨ current s' = None);
  mv_trace e : e ∈ trace s → e ∈ trace s';
  mv_rolled a : RolledBack a ∈ trace s' → RolledBack a ∈ trace s ∨ live t = Some a;
  mv_result_rx a : a < next_attempt s → result_rx (attempts s a) = true →
    result_rx (attempts s' a) = true ∨ sends_accepted t = Some a;
  mv_active : active_connection s' = active_connection s ∨ owns_active t = Some tt ∨
    active_lock s = false
}.

Lemma step_moves : moves.
Proof.
  clear Hi Hc Ho Hf. constructor.
  - exec_cases t Hx; cbn; lia.
  - exec_cases t Hx; cbn; intros; split_and?; try done; try congruence; auto.
  - intros e. exec_cases t Hx; cbn; rewrite ?elem_of_app; auto.
  - intros a. exec_cases t Hx; cbn; rewrite ?elem_of_app, ?list_elem_of_singleton; intuition congruence.
  - intros a. exec_cases t Hx; cbn; rewrite ?fn_at; repeat case_bool_decide; subst; cbn; auto; lia.
  - exec_cases t Hx; cbn; auto.
Qed.
End Stable.

End Stages.
