(* ===== verification/Interleaving.v ===== *)
(** Connection attempts: the invariant of every interleaving. *)

From stdpp Require Import functions list_numbers.
From S2P Require Import Prelude Errors External Tasks Daemon Connection Holders Stages.

Module Interleaving.
Import Tasks Daemon Connection Holders Stages.

(** ** What is known of a task survives the steps of the others *)

Section Stable.
Context `{ErrorText, !UrlLib} (wallet_network : Network).
Context (env : Env) (i : nat) (t : task) (s s' : Shared) (t' : task) (us ts : list task).
Hypothesis Hi : ts !! i = Some t.
Hypothesis Hx : exec wallet_network env t s = Some (s', t', us).
Hypothesis Hc : counts s ts.
Hypothesis Ho : context_ok s.
Hypothesis Hf : fact s t.

Lemma evolves_spawned a : spawned (attempts s a) → evolves (attempts s a) (attempts s' a).
Proof.
  intros Hs. eapply step_evolves; try done. by eapply spawned_lt.
Qed.

Lemma stable_settled a : settled (attempts s a) → settled (attempts s' a).
Proof.
  intros (Htx & Hs & Hor). pose proof (evolves_spawned a Hs) as Hev.
  pose proof Hev as []. split_and!; [auto|auto|]. destruct Hor as [Hnd|[Hcl|(Hac & Hor)]]; [left|tauto|tauto].
  by destruct (ev_undelivered _ _ Hev (conj Htx (conj Hs Hnd))) as (_ & _ & ?).
Qed.

Lemma stable_spoiled a : spawned (attempts s a) → spoiled (attempts s a) → spoiled (attempts s' a).
Proof. intros Hs. pose proof (evolves_spawned a Hs) as []. unfold spoiled. tauto. Qed.

Lemma stable_quiet : quiet s → quiet s'.
Proof.
  intros [Hcl Hq]. destruct (mv_closed _ _ _ (step_moves _ _ _ _ _ _ _ Hx) Hcl) as (? & Hn & _).
  split; [done|]. rewrite Hn. intros a Ha.
  eapply (ev_completed _ _ (step_evolves _ _ _ _ _ _ _ _ _ Hi Hx Hc Ho a Ha)). auto.
Qed.

Lemma stable_cancel k a : cancel_fact s k a → cancel_fact s' k a.
Proof.
  intros [Ha Hk]. pose proof (step_moves _ _ _ _ _ _ _ Hx) as Hm. pose proof (mv_next _ _ _ Hm).
  split; [lia|]. intros Ht. destruct (Hk Ht) as [Hcl Hcur].
  destruct (mv_closed _ _ _ Hm Hcl) as (? & _ & [->| ->]); auto.
Qed.

Lemma other_sends a j u :
  ts !! j = Some u → j ≠ i → sends_accepted u = Some a → sends_accepted t ≠ Some a.
Proof.
  intros Hj Hij Hu Ht. pose proof (count_two sends_accepted a ts j i u t Hj Hi Hu Ht Hij) as H2.
  rewrite (n_accepted _ _ Hc a) in H2. destruct (ch_empty _); cbn in H2; lia.
Qed.

Lemma other_owns j u : ts !! j = Some u → j ≠ i → owns_active u = Some tt →
  active_connection s' = active_connection s.
Proof.
  intros Hj Hij Hu. destruct (mv_active _ _ _ (step_moves _ _ _ _ _ _ _ Hx)) as [?|[Ht|Hl]]; [done| |].
  - pose proof (count_two owns_active tt ts j i u t Hj Hi Hu Ht Hij) as H2.
    rewrite (n_active _ _ Hc) in H2. destruct (active_lock s); cbn in H2; lia.
  - pose proof (count_pos owns_active tt ts j u Hj Hu) as H2.
    rewrite (n_active _ _ Hc), Hl in H2. cbn in H2. lia.
Qed.

Lemma other_live a : completed (attempts s a) = true → live t ≠ Some a.
Proof.
  intros Hco Ht. destruct (live_current i t s ts Hi Hc Ho a Ht) as (_ & _ & Hn). congruence.
Qed.

Lemma completed_lt a : completed (attempts s a) = true → a < next_attempt s.
Proof.
  intros Hco. destruct (decide (a < next_attempt s)) as [|Hge]; [done|].
  rewrite (co_fresh _ Ho a) in Hco by lia. done.
Qed.

Lemma stable_online j p :
  ts !! j = Some (Online p) → j ≠ i → online_fact s p → online_fact s' p.
Proof.
  intros Hj Hij. pose proof (step_moves _ _ _ _ _ _ _ Hx) as Hm.
  assert (∀ a, delivered (attempts s a) → evolves (attempts s a) (attempts s' a)) as Hd.
  { intros a Hd. by eapply evolves_spawned, delivered_spawned. }
  destruct p; cbn; try done.
  1-2: intros (Hs & Hrx & Hor); pose proof (evolves_spawned a Hs) as Hev;
    pose proof (spawned_lt _ Ho a Hs) as Ha;
    pose proof (other_sends a j _ Hj Hij eq_refl) as Hne;
    destruct (mv_result_rx _ _ _ Hm a Ha Hrx) as [?|?]; [|done]; destruct Hev;
    split_and!; [auto|auto|]; destruct Hor as [|[r Hr]]; eauto.
  all: try (pose proof (other_owns j _ Hj Hij eq_refl) as ->).
  all: intros Hp; try (destruct_and! Hp);
    first [pose proof (evolves_spawned a ltac:(done)) as [] | pose proof (Hd a ltac:(done)) as []];
    unfold delivered in *; split_and?; auto.
Qed.

Lemma stable_work j a p :
  ts !! j = Some (Worker a p) → j ≠ i → work_fact s a p → work_fact s' a p.
Proof.
  intros Hj Hij [Hs Hp]. pose proof (step_moves _ _ _ _ _ _ _ Hx) as Hm.
  pose proof (evolves_spawned a Hs) as Hev. pose proof Hev as [].
  split; [auto|]. destruct p as [| | | | | | | | | | | | | | | |k|k|k|]; try done.
  all: try (by apply (mv_trace _ _ _ Hm)).
  all: unfold delivered in *; try destruct k; destruct_and?; split_and?;
    auto using stable_settled, stable_spoiled.
Qed.

Lemma stable_wait a p k : wait_fact s a p k → wait_fact s' a p k.
Proof.
  intros (Ha & Hp & Hk). pose proof (step_moves _ _ _ _ _ _ _ Hx) as Hm.
  pose proof (mv_next _ _ _ Hm).
  pose proof (step_evolves _ _ _ _ _ _ _ _ _ Hi Hx Hc Ho a Ha) as [].
  split_and!; [lia| |].
  - destruct p; try done. destruct Hp; auto.
  - unfold delivered in *. destruct k; try done; [destruct_and?; auto|by apply stable_cancel].
Qed.

Lemma step_stable j u : ts !! j = Some u → j ≠ i → fact s u → fact s' u.
Proof.
  intros Hj Hij. pose proof (step_moves _ _ _ _ _ _ _ Hx) as Hm.
  destruct u as [p|a p|a p k|p k|a p k|b p|[a|] r|]; try done.
  - by eapply stable_online.
  - by eapply stable_work.
  - destruct k; cbn; try done; [apply stable_settled|].
    intros Hs. by apply (ev_spawned _ _ (evolves_spawned a Hs)).
  - destruct p; cbn; try done; apply stable_cancel.
  - apply stable_wait.
  - destruct b; [apply stable_quiet|done].
  - destruct r; cbn; [|done]. intros (Hco & Hin & Hroll).
    pose proof (step_evolves _ _ _ _ _ _ _ _ _ Hi Hx Hc Ho a (completed_lt a Hco)) as [].
    split_and!; [auto|by apply (mv_trace _ _ _ Hm)|].
    intros [?|?]%(mv_rolled _ _ _ Hm); [done|by eapply other_live].
Qed.
End Stable.

(** ** What the trace and the attempts say of each other *)

Record history (s : Shared) : Prop := mkHistory {
  hi_closed : WalletClosed ∈ trace s → quiet s;
  hi_barrier a : Barrier a ∈ trace s → completed (attempts s a) = true;
  hi_rolled a : RolledBack a ∈ trace s → spawned (attempts s a) ∧ spoiled (attempts s a);
  hi_delivered a : delivered (attempts s a) → Installed a ∈ trace s;
  hi_installed a : Installed a ∈ trace s → a < next_attempt s;
  hi_settled a :
    completed (attempts s a) = true → delivered (attempts s a) → settled (attempts s a);
  hi_last a : current s = Some a → S a = next_attempt s
}.

Section Own.
Context `{ErrorText, !UrlLib} (wallet_network : Network).
Context (env : Env) (i : nat) (t : task) (s s' : Shared) (t' : task) (us ts : list task).
Hypothesis Hi : ts !! i = Some t.
Hypothesis Hx : exec wallet_network env t s = Some (s', t', us).
Hypothesis Hc : counts s ts.
Hypothesis Ho : context_ok s.
Hypothesis Hh : history s.
Hypothesis Hf : fact s t.

Lemma current_completed a :
  a < next_attempt s → current s ≠ Some a → completed (attempts s a) = true.
Proof.
  intros Ha Hne. pose proof (n_live _ _ Hc a) as Hl. pose proof (n_holds _ _ Hc a) as Hn.
  pose proof (count_le live a holds ts (λ t, live_holds t a)) as Hle.
  rewrite bool_decide_eq_true_2 in Hl by done. rewrite bool_decide_eq_false_2 in Hn by done.
  destruct (completed _); cbn in *; [done|lia].
Qed.

Lemma idle_completed a : current s = None → a < next_attempt s → completed (attempts s a) = true.
Proof. intros Hcur Ha. apply current_completed; congruence. Qed.

Lemma barrier_quiet a :
  cancel_fact s ThenClose a → completed (attempts s a) = true → quiet s.
Proof.
  intros [_ Hk] Hco. destruct (Hk eq_refl) as [Hcl Hcur]. split; [done|]. intros b Hb.
  destruct (decide (a = b)) as [->|Hab]; [done|]. apply current_completed; [done|].
  destruct Hcur; congruence.
Qed.

(** A notification follows the completion. *)
Lemma notified_completed a :
  notifications (attempts s a) = 0 ∨ completed (attempts s a) = true.
Proof.
  pose proof (n_live _ _ Hc a) as Hl. pose proof (n_unnotified _ _ Hc a) as Hn.
  assert (count live a ts ≤ count unnotified a ts) as Hle.
  { apply count_le. by intros [| |? []| | | | |]. }
  destruct (completed _); [by right|left]. destruct (bool_decide _); cbn in *; lia.
Qed.

Lemma delivered_untx a : delivered (attempts s a) → result_tx (attempts s a) = false.
Proof.
  intros Hd. destruct (result_tx _) eqn:Htx; [|done].
  destruct (ok_sender _ (co_attempts _ Ho a) Htx) as (Hn & _). by rewrite Hd in Hn.
Qed.

Lemma returns_ok a :
  delivered (attempts s a) → accepted (attempts s a) = ChSent →
  finalized (attempts s a) = ChSent → cancelled (attempts s a) = false →
  Installed a ∈ trace s ∧ RolledBack a ∉ trace s.
Proof.
  intros Hd Hac Hfi Hca. split; [by apply hi_delivered|].
  intros (_ & [(_ & _ & ?)|[?|[?|?]]])%(hi_rolled _ Hh); congruence.
Qed.

Lemma step_own : fact s' t'.
Proof.
  pose proof (sender_result i t s ts Hi Hc) as Hsr. pose proof (spawned_lt s Ho) as Hlt.
  pose proof delivered_untx as Hun. pose proof (delivered_spawned s Ho) as Hds.
  pose proof returns_ok as Hret. pose proof idle_completed as Hcq. pose proof barrier_quiet as Hbq.
  pose proof notified_completed as Hno. pose proof (co_current _ Ho) as Hcur.
  assert (∀ a, result_tx (attempts s a) = true → ¬ delivered (attempts s a)) as Hnd.
  { intros a Ha Hd. rewrite (Hun a Hd) in Ha. done. }
  revert Hf. clear Hi Hc Ho Hh. exec_cases t Hx; cbn.
  all: rewrite ?fn_lookup_insert; cbn; try done.
  all: try (intros; destruct_and?; split_and?; done).
  all: unfold work_fact, wait_fact, spoiled, settled, undelivered; cbn;
    rewrite ?fn_lookup_insert; cbn; rewrite ?elem_of_app, ?list_elem_of_singleton;
    unfold spawned in *; intros; destruct_and?; split_and?; try done; eauto.
  - unfold delivered. by destruct a0.
  - by apply Hret.
  - by apply Hret.
  - left. split_and!; [done..|]. by apply Hnd, Hsr.
  - left. by apply Hnd, Hsr.
  - split; [by apply Hcur|]. by split; [|right].
  - split; [by apply Hcur|]. by intros ->.
  - split; [done|]. intros a Ha. by apply Hcq.
  - by match goal with Hk : cancel_fact _ _ _ |- _ => apply Hk end.
  - match goal with Hn : _ ∨ _ |- _ => by destruct Hn; [|congruence] end.
Qed.

Lemma step_spawned u : u ∈ us → fact s' u.
Proof.
  clear Hi Hc Ho Hh Hf. exec_cases t Hx; cbn; try (by intros ?%elem_of_nil).
  intros ->%list_elem_of_singleton. cbn. split; [|done]. cbn. by rewrite fn_lookup_insert.
Qed.

(** The event of a step is the last of the trace. *)
Lemma step_emits :
  trace s' = trace s ∨
  ∃ e, trace s' = trace s ++ [e] ∧
    (∀ a, e = Installed a ∨ e = RolledBack a → live t = Some a).
Proof.
  clear Hi Hc Ho Hh Hf. exec_cases t Hx; cbn; auto; right; eexists; (split; [done|]); eauto;
    intros ? [?|?]; by simplify_eq.
Qed.

(** Only the worker of an attempt delivers, once it has installed. *)
Lemma new_delivered a :
  delivered (attempts s' a) → delivered (attempts s a) ∨
  (live t = Some a ∧ Installed a ∈ trace s ∧ completed (attempts s' a) = completed (attempts s a)).
Proof.
  revert Hf. clear Hi Hc Ho Hh. exec_cases t Hx; cbn; rewrite ?fn_at; auto.
  all: at_attempt; subst; auto; cbn; unfold delivered; cbn; auto; try done.
  all: try (case_match; [done|auto]). intros [_ Hin] _. auto.
Qed.

(** An attempt completes with its guard. *)
Lemma new_completed a :
  completed (attempts s' a) = true →
  completed (attempts s a) = true ∨
  (attempts s' a = set_completed true (attempts s a) ∧ ∃ k, t = Guard a GuardStore k).
Proof.
  clear Hi Hc Ho Hh Hf. exec_cases t Hx; cbn; rewrite ?fn_at; auto.
  all: at_attempt; subst; auto; cbn; auto; try done. intros _. eauto.
Qed.

Lemma guard_settled a k :
  t = Guard a GuardStore k → delivered (attempts s a) → settled (attempts s a).
Proof.
  intros -> Hd. destruct k as [e| |e]; [|done|].
  - pose proof (delivered_spawned s Ho a Hd) as Hs.
    destruct (unspawned_new i _ s ts Hi Hc Ho a eq_refl) as (? & _). done.
  - pose proof (sender_result i _ s ts Hi Hc a eq_refl) as Htx.
    by rewrite (delivered_untx a Hd) in Htx.
Qed.

Lemma new_closed : WalletClosed ∈ trace s' → WalletClosed ∈ trace s ∨ quiet s'.
Proof.
  revert Hf. clear Hi Hc Ho Hh. exec_cases t Hx; cbn; auto.
  all: rewrite ?elem_of_app, ?list_elem_of_singleton; intros ? [?|?]; auto; done.
Qed.

Lemma new_barrier a : Barrier a ∈ trace s' →
  Barrier a ∈ trace s ∨ completed (attempts s' a) = true.
Proof.
  clear Hi Hc Ho Hh Hf. exec_cases t Hx; cbn; auto.
  all: rewrite ?elem_of_app, ?list_elem_of_singleton; intros [?|?]; simplify_eq; auto; done.
Qed.

Lemma new_rolled a : RolledBack a ∈ trace s' →
  RolledBack a ∈ trace s ∨ spawned (attempts s' a) ∧ spoiled (attempts s' a).
Proof.
  revert Hf. clear Hi Hc Ho Hh. exec_cases t Hx; cbn; auto.
  all: rewrite ?elem_of_app, ?list_elem_of_singleton; intros Hw [?|?]; simplify_eq; auto; try done.
  all: right; destruct Hw as [? Hw]; unfold spoiled, undelivered, spawned, delivered in *;
    rewrite ?fn_lookup_insert; split; cbn; tauto.
Qed.

Lemma new_installed a : Installed a ∈ trace s' → Installed a ∈ trace s ∨ live t = Some a.
Proof.
  clear Hi Hc Ho Hh Hf. exec_cases t Hx; cbn; auto.
  all: rewrite ?elem_of_app, ?list_elem_of_singleton; intros [?|?]; simplify_eq; auto; done.
Qed.

Lemma new_current a : current s' = Some a → S a = next_attempt s' ∨
  (current s = Some a ∧ next_attempt s' = next_attempt s).
Proof. clear Hi Hc Ho Hh Hf. exec_cases t Hx; cbn; auto; intros ?; simplify_eq; auto. Qed.

Lemma step_history : history s'.
Proof.
  pose proof (step_moves _ _ _ _ _ _ _ Hx) as Hm.
  assert (∀ a, a < next_attempt s → evolves (attempts s a) (attempts s' a)) as Hev.
  { intros a Ha. by eapply step_evolves. }
  constructor.
  - intros [Hin|?]%new_closed; [|done]. eapply stable_quiet; eauto using hi_closed.
  - intros a [Hin|?]%new_barrier; [|done]. pose proof (hi_barrier _ Hh a Hin) as Hco.
    apply (ev_completed _ _ (Hev a (completed_lt _ Ho a Hco)) Hco).
  - intros a [Hin|?]%new_rolled; [|done]. destruct (hi_rolled _ Hh a Hin) as [Hs Hsp].
    split; [by apply (ev_spawned _ _ (Hev a (spawned_lt _ Ho a Hs)))|].
    eapply stable_spoiled; eauto.
  - intros a [Hd|(_ & Hin & _)]%new_delivered; apply (mv_trace _ _ _ Hm); auto using hi_delivered.
  - intros a Hin. pose proof (mv_next _ _ _ Hm).
    destruct (new_installed a Hin) as [?%(hi_installed _ Hh)|Hl]; [lia|].
    destruct (live_current i t s ts Hi Hc Ho a Hl) as (_ & ? & _). lia.
  - intros a Hco Hd. destruct (new_completed a Hco) as [Hco'|[Heq [k Hk]]].
    + destruct (new_delivered a Hd) as [Hd'|(Hl & _ & _)].
      * eapply stable_settled; eauto using hi_settled.
      * destruct (live_current i t s ts Hi Hc Ho a Hl) as (_ & _ & ?). congruence.
    + assert (settled (attempts s a)) as Hs by (by apply (guard_settled a k); [|rewrite Heq in Hd]).
      by eapply stable_settled.
  - intros a [?|[Hcur ->]]%new_current; [done|]. by apply hi_last.
Qed.
End Own.

End Interleaving.
