(* ===== verification/Connected.v ===== *)
(** Connection attempts: what callers can rely on. *)

From stdpp Require Import functions list_numbers.
From S2P Require Import Prelude Errors External Tasks Daemon Connection Holders Stages Interleaving.

Module Connected.
Import Tasks Daemon Connection Holders Stages Interleaving.

(** ** The attempt whose network handler the wallet runs *)

Definition in_use_step (c : option nat) (e : event) : option nat :=
  match e with
  | Installed a => Some a
  | RolledBack _ | WentOffline | WalletClosed => None
  | ReconnectDisabled _ | Disconnected _ | Barrier _ => c
  end.
Definition in_use (tr : list event) : option nat := foldl in_use_step None tr.

(** Tasks that will stop the network handler whatever it is, and workers that
    have installed one. *)
Definition cleans (t : task) : bool :=
  match t with
  | Online (StaleReconnect _ _ | StaleDisconnect _ _ | StaleOffline _) => true
  | End _ (ActiveReconnect _ | ActiveDisconnect _ | FinishEnd) => true
  | _ => false
  end.
Definition installs (t : task) : option nat :=
  match t with
  | Worker a (WorkCheckInstalled | WorkDeliver | WorkAccepted | WorkFinalized | WorkCheckFinal
             | RollbackReconnect _ | RollbackDisconnect _ | RollbackOffline _) => Some a
  | _ => None
  end.

Record usage (s : Shared) (ts : list task) : Prop := mkUsage {
  us_owner a : in_use (trace s) = Some a →
    active_connection s = Some a ∨ (∃ u, u ∈ ts ∧ cleans u = true) ∨
    (finalized (attempts s a) ≠ ChSent ∧ ∃ u, u ∈ ts ∧ installs u = Some a);
  us_max a b : in_use (trace s) = Some a → Installed b ∈ trace s → b ≤ a
}.

Lemma in_use_snoc tr e : in_use (tr ++ [e]) = in_use_step (in_use tr) e.
Proof. unfold in_use. by rewrite foldl_app. Qed.

Lemma in_use_installed tr a : in_use tr = Some a → Installed a ∈ tr.
Proof.
  induction tr as [|e tr IH] using rev_ind; [done|]. rewrite in_use_snoc, elem_of_app.
  rewrite list_elem_of_singleton. destruct e; cbn; intros ?; simplify_eq; auto.
Qed.

(** Nothing is connected without an installation. *)
Lemma in_use_none pre post :
  in_use pre = None → (∀ a, Installed a ∉ post) → in_use (pre ++ post) = None.
Proof.
  intros Hpre. induction post as [|e post IH] using rev_ind; intros Hn; [by rewrite app_nil_r|].
  rewrite app_assoc, in_use_snoc, IH.
  - destruct e; try done. destruct (Hn a). apply elem_of_app. right. by left.
  - intros a Ha. apply (Hn a), elem_of_app. by left.
Qed.

Section Usage.
Context `{ErrorText, !UrlLib} (wallet_network : Network).
Context (env : Env) (i : nat) (t : task) (s s' : Shared) (t' : task) (us ts : list task).
Hypothesis Hi : ts !! i = Some t.
Hypothesis Hx : exec wallet_network env t s = Some (s', t', us).
Hypothesis Hc : counts s ts.
Hypothesis Ho : context_ok s.
Hypothesis Hh : history s.
Hypothesis Hf : fact s t.
Hypothesis Hu : usage s ts.

Lemma active_kept a :
  active_connection s = Some a →
  active_connection s' = Some a ∨ cleans t' = true ∨
  ∃ b, t = Online (StoreActive b) ∧ active_connection s' = Some b ∧ trace s' = trace s.
Proof. clear Hi Hc Ho Hh Hf Hu. exec_cases t Hx; cbn; auto; eauto 10; congruence. Qed.

Lemma cleans_kept : cleans t = true → cleans t' = true ∨ in_use (trace s') = None.
Proof.
  clear Hi Hc Ho Hh Hf Hu. exec_cases t Hx; cbn; auto; rewrite ?in_use_snoc; auto; done.
Qed.

Lemma installs_kept a :
  installs t = Some a →
  installs t' = Some a ∨ in_use (trace s') = None ∨ finalized (attempts s a) = ChSent.
Proof.
  revert Hf. clear Hi Hc Ho Hh Hu.
  exec_cases t Hx; cbn; auto; rewrite ?in_use_snoc; intros; simplify_eq; auto; try done.
  unfold work_fact in *. tauto.
Qed.

Lemma finalized_sent a :
  finalized (attempts s' a) = ChSent →
  finalized (attempts s a) = ChSent ∨
  (t = Online (SendFinalized a) ∧ active_connection s' = active_connection s).
Proof.
  clear Hi Hc Ho Hh Hf Hu. exec_cases t Hx; cbn; rewrite ?fn_at; auto.
  all: at_attempt; subst; auto; cbn; auto; try done.
Qed.

Lemma in_use_cases :
  in_use (trace s') = in_use (trace s) ∨ in_use (trace s') = None ∨
  ∃ b, live t = Some b ∧ sends_result t = Some b ∧ in_use (trace s') = Some b ∧
    installs t' = Some b ∧ finalized (attempts s' b) = finalized (attempts s b).
Proof.
  clear Hi Hc Ho Hh Hf Hu. exec_cases t Hx; cbn; rewrite ?in_use_snoc; eauto 10.
Qed.

Lemma installed_in_use b :
  Installed b ∈ trace s' → Installed b ∈ trace s ∨ in_use (trace s') = Some b.
Proof.
  clear Hi Hc Ho Hh Hf Hu. exec_cases t Hx; cbn; auto.
  all: rewrite ?in_use_snoc, ?elem_of_app, ?list_elem_of_singleton; intros [?|?]; simplify_eq;
    auto; done.
Qed.

(** The caller that stores its connection is that of the last attempt. *)
Lemma store_active_last a :
  t = Online (StoreActive a) → current s = Some a ∧ Installed a ∈ trace s.
Proof.
  intros ->. destruct Hf as [Hd Hac]. split; [|by apply hi_delivered].
  pose proof (sender_finalized i _ s ts Hi Hc a eq_refl) as Hfi.
  destruct (decide (current s = Some a)) as [|Hcur]; [done|].
  assert (completed (attempts s a) = true) as Hco.
  { eapply current_completed; eauto using spawned_lt, delivered_spawned. }
  destruct (hi_settled _ Hh a Hco Hd) as (_ & _ & [?|[?|[_ [?|?]]]]); congruence.
Qed.

Lemma step_usage : usage s' (<[i := t']> ts ++ us).
Proof.
  assert (t' ∈ <[i := t']> ts ++ us) as Ht'.
  { apply elem_of_app. left. apply list_elem_of_lookup. exists i.
    apply list_lookup_insert_eq. by eapply lookup_lt_Some. }
  assert (history s') as Hh' by by eapply step_history.
  constructor.
  - intros a Ha. destruct in_use_cases as [Heq|[?|(b & Hl & Hr & Hb & Hin & Hfin)]]; [|congruence|].
    + rewrite Heq in Ha. destruct (us_owner _ _ Hu a Ha) as [Hac|[(u & Hin & Hcl)|(Hne & u & Hin & Hu')]].
      * destruct (active_kept a Hac) as [?|[?|(b & Hb & Hab & _)]]; eauto.
        destruct (store_active_last b Hb) as [Hcur Hin].
        pose proof (us_max _ _ Hu a b Ha Hin). pose proof (hi_last _ Hh b Hcur).
        pose proof (hi_installed _ Hh a (in_use_installed _ _ Ha)).
        assert (a = b) as -> by lia. auto.
      * destruct (elem_of_step ts i t t' u us Hi Hin) as [->|?]; [|eauto].
        destruct (cleans_kept Hcl) as [?|?]; [eauto|congruence].
      * destruct (finalized (attempts s' a)) eqn:Hfa.
        3: { destruct (finalized_sent a Hfa) as [?|[-> ->]]; [done|]. left. by apply Hf. }
        all: right; right; split; [congruence|];
          destruct (elem_of_step ts i t t' u us Hi Hin) as [->|?]; [|by eauto];
          destruct (installs_kept a Hu') as [?|[?|?]]; [by eauto|congruence..].
    + assert (a = b) as -> by congruence. right; right. split; [|by eauto]. rewrite Hfin.
      intros Hsent%(ok_sent _ (co_attempts _ Ho b)).
      pose proof (sender_result i t s ts Hi Hc b Hr) as Htx.
      by rewrite (delivered_untx _ Ho b Hsent) in Htx.
  - intros a b Ha Hb. destruct in_use_cases as [Heq|[?|(c & Hl & Hr & Hin & _)]]; [|congruence|].
    + destruct (installed_in_use b Hb) as [Hb'|?]; [|assert (a = b) by congruence; lia].
      rewrite Heq in Ha. by eapply us_max.
    + assert (c = a) as -> by congruence.
      destruct (live_current i t s ts Hi Hc Ho a Hl) as (Hcur & _ & _).
      pose proof (hi_last _ Hh a Hcur). destruct (installed_in_use b Hb) as [?%(hi_installed _ Hh)|?].
      * lia.
      * assert (a = b) by congruence. lia.
Qed.
End Usage.

(** ** The invariant of a system *)

Definition connects (e : event) : Prop := ∃ a, e = Installed a.
Definition works_on (a : nat) (e : event) : Prop := e = Installed a ∨ e = RolledBack a.

Record invariant (y : System) : Prop := mkInvariant {
  inv_counts : counts (shared y) (tasks y);
  inv_context : context_ok (shared y);
  inv_facts i t : tasks y !! i = Some t → fact (shared y) t;
  inv_history : history (shared y);
  inv_usage : usage (shared y) (tasks y);
  inv_closed : after (λ e, e = WalletClosed) connects (trace (shared y));
  inv_barrier a : after (λ e, e = Barrier a) (works_on a) (trace (shared y))
}.

Section Reachable.
Context `{ErrorText, !UrlLib} (wallet_network : Network).

Lemma run_task_inv i env y y' :
  run_task wallet_network i env y = Some y' →
  ∃ t s' t' us, tasks y !! i = Some t ∧ exec wallet_network env t (shared y) = Some (s', t', us) ∧
    y' = mkSystem s' (<[i := t']> (tasks y) ++ us).
Proof.
  unfold run_task. intros (t & Ht & ([[s' t'] us] & Hx & ?)%bind_Some)%bind_Some.
  simplify_eq. eauto 10.
Qed.

Lemma step_after P Q env t s s' t' us :
  exec wallet_network env t s = Some (s', t', us) → after P Q (trace s) →
  (∀ e f, e ∈ trace s → P e → Q f →
    (∃ a, (f = Installed a ∨ f = RolledBack a) ∧ live t ≠ Some a)) →
  after P Q (trace s').
Proof.
  intros Hx Haf Hlive. destruct (step_emits _ _ _ _ _ _ _ Hx) as [->|(g & -> & Hg)]; [done|].
  apply after_snoc; [done|]. intros e He Pe Qg. destruct (Hlive e g He Pe Qg) as (a & Ha & Hn).
  by apply Hn, Hg.
Qed.

Lemma invariant_run i env y y' :
  invariant y → run_task wallet_network i env y = Some y' → invariant y'.
Proof.
  intros [Hc Ho Hf Hh Hu Hcl Hba] (t & s' & t' & us & Hi & Hx & ->)%run_task_inv.
  pose proof (Hf i t Hi) as Hft. constructor; cbn.
  - by eapply step_counts.
  - constructor; [by eapply step_attempt_ok|by eapply step_fresh|].
    intros a [Ha|[Ha ->]]%(new_current _ _ _ _ _ _ _ Hx); [lia|by apply co_current].
  - intros j u Hj. rewrite lookup_app_Some in Hj. destruct Hj as [Hj|[_ Hj]].
    + destruct (decide (j = i)) as [->|Hij].
      * rewrite list_lookup_insert_eq in Hj by (by eapply lookup_lt_Some). simplify_eq.
        exact (step_own _ _ _ _ _ _ _ _ _ Hi Hx Hc Ho Hh Hft).
      * rewrite list_lookup_insert_ne in Hj by done.
        exact (step_stable _ _ _ _ _ _ _ _ _ Hi Hx Hc Ho j u Hj Hij (Hf j u Hj)).
    + apply list_elem_of_lookup_2 in Hj. by eapply step_spawned.
  - by eapply step_history.
  - by eapply step_usage.
  - eapply step_after; [done|done|]. intros e f He -> [a ->]. exists a. split; [by left|].
    intros Hl. destruct (live_current i t _ _ Hi Hc Ho a Hl) as (_ & Ha & Hn).
    destruct (hi_closed _ Hh He) as [_ Hq]. by rewrite Hq in Hn.
  - intros b. eapply step_after; [done|done|]. intros e f He -> Hw. exists b. split; [done|].
    intros Hl. destruct (live_current i t _ _ Hi Hc Ho b Hl) as (_ & Ha & Hn).
    by rewrite (hi_barrier _ Hh b He) in Hn.
Qed.

(** A call adds a task that holds nothing. *)
Lemma callable_holds_nothing t :
  callable t →
  holds t = None ∧ unnotified t = None ∧ live t = None ∧ owns_active t = None ∧
  owns_api t = None ∧ owns_activation t = None ∧ sends_result t = None ∧
  sends_accepted t = None ∧ sends_finalized t = None ∧ unspawned t = None.
Proof. intros [(? & ? & ->)|[->|[->| ->]]]; done. Qed.

Lemma invariant_call t y :
  invariant y → callable t → invariant (mkSystem (shared y) (tasks y ++ [t])).
Proof.
  intros [Hc Ho Hf Hh Hu Hcl Hba] Ht.
  destruct (callable_holds_nothing t Ht) as (?&?&?&?&?&?&?&?&?&?).
  constructor; cbn; try done.
  - destruct Hc. by constructor; intros; rewrite count_call.
  - intros i u [Hi|[_ Hi]]%lookup_app_Some; [by eapply Hf|].
    apply list_elem_of_lookup_2, list_elem_of_singleton in Hi as ->.
    by destruct Ht as [(? & ? & ->)|[->|[->| ->]]].
  - constructor; [|apply Hu]. intros a Ha.
    destruct (us_owner _ _ Hu a Ha) as [?|[(u & ? & ?)|(? & u & ? & ?)]]; [auto|..].
    + right; left. exists u. by rewrite elem_of_app; auto.
    + right; right. split; [done|]. exists u. by rewrite elem_of_app; auto.
Qed.

Lemma invariant_init y : system_init y → invariant y.
Proof.
  intros ->. constructor; cbn.
  - constructor; intros; rewrite count_nil; cbn; try case_bool_decide; cbn; by try lia.
  - constructor; [|done..]. intros a. constructor; unfold delivered; cbn; naive_solver.
  - done.
  - constructor; cbn; intros; try done; exfalso; by eapply not_elem_of_nil.
  - constructor; cbn; done.
  - by intros [] ? ? ? ?.
  - by intros a [] ? ? ? ?.
Qed.

Lemma reached_invariant y : reached wallet_network y → invariant y.
Proof.
  intros [labels Hy]. revert Hy. apply reachable_invariant; [apply invariant_init|].
  intros z [i env|t] z' Hz Hl; [by eapply invariant_run|]. destruct Hl as [Ht ->].
  by apply invariant_call.
Qed.
End Reachable.

(** ** What the callers rely on *)

Definition finished (t : task) : bool :=
  match t with Returned _ _ | Ended => true | _ => false end.

Section Promises.
Context `{ErrorText, !UrlLib} (wallet_network : Network).

(** At most one connection attempt is under way: two
    tasks that hold the guard of an attempt are the same task. *)
Theorem single_flight y i j t u a b :
  reached wallet_network y → tasks y !! i = Some t → tasks y !! j = Some u →
  holds t = Some a → holds u = Some b → i = j.
Proof.
  intros [Hc Ho _ _ _ _ _]%reached_invariant Hi Hj Ht Hu.
  destruct (holder_current i t _ _ Hi Hc Ho a Ht) as [Ha _].
  destruct (holder_current j u _ _ Hj Hc Ho b Hu) as [Hb _]. assert (a = b) as <- by congruence.
  destruct (decide (i = j)) as [|Hij]; [done|].
  pose proof (count_two holds a (tasks y) i j t u Hi Hj Ht Hu Hij) as H2.
  rewrite (n_holds _ _ Hc a) in H2. case_bool_decide; cbn in H2; lia.
Qed.

(** Claim C12 (safety): [close] is final: no attempt connects the wallet after
    it was closed, however its worker was delayed, so no network handler runs. *)
Theorem close_is_final y pre post :
  reached wallet_network y → trace (shared y) = pre ++ WalletClosed :: post →
  (∀ a, Installed a ∉ post) ∧ in_use (trace (shared y)) = None.
Proof.
  intros [_ _ _ _ _ Hcl _]%reached_invariant Htr. assert (∀ a, Installed a ∉ post) as Hn.
  { intros a Hin. exact (Hcl pre WalletClosed post _ Htr eq_refl Hin (ex_intro _ a eq_refl)). }
  split; [done|]. rewrite Htr, cons_middle, app_assoc. apply in_use_none; [|done].
  by rewrite in_use_snoc.
Qed.

(** Claim C15 (safety): when [cancel_connection_attempt] returns, the worker of
    the attempt it cancelled touches the wallet no more. *)
Theorem cancellation_is_a_barrier y pre post a :
  reached wallet_network y → trace (shared y) = pre ++ Barrier a :: post →
  Installed a ∉ post ∧ RolledBack a ∉ post.
Proof.
  intros [_ _ _ _ _ _ Hba]%reached_invariant Htr. split; intros Hin.
  - exact (Hba a pre _ post _ Htr eq_refl Hin (or_introl eq_refl)).
  - exact (Hba a pre _ post _ Htr eq_refl Hin (or_intror eq_refl)).
Qed.

(** Claim C11 (safety): no connection leaks: once every task has ended, a
    network handler that still runs is the one of [active_connection], which
    the next [offline_mode], [close] or [online_mode] will stop. *)
Theorem no_connection_leaks y a :
  reached wallet_network y → (∀ t, t ∈ tasks y → finished t = true) →
  in_use (trace (shared y)) = Some a → active_connection (shared y) = Some a.
Proof.
  intros [_ _ _ _ Hu _ _]%reached_invariant Hfin Ha.
  destruct (us_owner _ _ Hu a Ha) as [?|[(u & Hin & Hcl)|(_ & u & Hin & Hi)]]; [done|..].
  - by specialize (Hfin u Hin); destruct u.
  - by specialize (Hfin u Hin); destruct u.
Qed.

(** [online_mode] reports success only for an attempt whose
    worker has installed its connection, did not roll it back, and is done. *)
Theorem success_is_installed y i a :
  reached wallet_network y → tasks y !! i = Some (Returned (Some a) (Ok tt)) →
  Installed a ∈ trace (shared y) ∧ RolledBack a ∉ trace (shared y) ∧
  completed (attempts (shared y) a) = true.
Proof. intros Hy Hi. by destruct (inv_facts _ (reached_invariant _ y Hy) i _ Hi) as (? & ? & ?). Qed.

(** A caller never finds its worker gone without an answer,
    so [network_connect_worker_failed] is never reported. *)
Theorem worker_never_lost y i a :
  reached wallet_network y →
  (tasks y !! i = Some (Online (AwaitResult a)) →
     result_tx (attempts (shared y) a) = true ∨ is_Some (result_value (attempts (shared y) a))) ∧
  (tasks y !! i = Some (Online (SendAccepted a)) → accepted_rx (attempts (shared y) a) = true) ∧
  (tasks y !! i = Some (Online (SendFinalized a)) → finalized_rx (attempts (shared y) a) = true).
Proof.
  intros [Hc Ho Hf _ _ _ _]%reached_invariant. pose proof (co_attempts _ Ho a) as Hok.
  split_and!; intros Hi; pose proof (Hf i _ Hi) as Hfa.
  - apply Hfa.
  - destruct Hfa as [Hd _]. apply (ok_accepted _ Hok Hd). by eapply sender_accepted.
  - destruct Hfa as (Hd & Hac & _). apply (ok_finalized _ Hok Hd); [congruence|].
    by eapply sender_finalized.
Qed.
End Promises.

(** ** Concrete runs *)

Section Play.
Context `{ErrorText, !UrlLib} (wallet_network : Network).

Fixpoint play (ls : list label) (y : System) : option System :=
  match ls with
  | [] => Some y
  | Run i env :: ls => y ← run_task wallet_network i env y; play ls y
  | Call t :: ls => play ls (mkSystem (shared y) (tasks y ++ [t]))
  end.

Definition is_call (t : task) : bool :=
  match t with
  | Online (OnlineStart _ _) | Cancel CancelTake (ThenOffline | ThenClose | ThenDrop) => true
  | _ => false
  end.
Definition valid (l : label) : bool := match l with Run _ _ => true | Call t => is_call t end.

Lemma is_call_callable t : is_call t = true → callable t.
Proof.
  unfold callable. destruct t as [[]| | |[] []| | | |]; try done; eauto 10.
Qed.

Lemma play_reached ls y y' :
  forallb valid ls = true → reached wallet_network y → play ls y = Some y' →
  reached wallet_network y'.
Proof.
  revert y. induction ls as [|[i env|t] ls IH]; intros y Hv Hy Hp; cbn in *.
  - by simplify_eq.
  - apply bind_Some in Hp as (y1 & H1 & Hp). eapply IH; [done| |done].
    destruct Hy as [tr Hy]. eexists. by eapply (reachable_step _ _ _ (Run i env)).
  - apply andb_prop in Hv as [Hc Hv]. eapply IH; [done| |done].
    destruct Hy as [tr Hy]. eexists. eapply (reachable_step _ _ _ (Call t)); [done|].
    split; [by apply is_call_callable|done].
Qed.

(** The state a list of labels leads to, from the start. *)
Definition start : System := mkSystem initial_shared [].
Definition played (ls : list label) : System := default start (play ls start).
Definition plays (ls : list label) : bool :=
  forallb valid ls && match play ls start with Some _ => true | None => false end.

Lemma played_reached ls : plays ls = true → reached wallet_network (played ls).
Proof.
  unfold plays, played. intros [Hv Hp]%andb_prop. destruct (play ls start) as [y|] eqn:Hy; [|done].
  eapply play_reached; [done| |done]. exists []. by apply reachable_init.
Qed.
End Play.

Definition plain_url : UrlLib := {|
  Url := string;
  sanitize_ws_address := λ address, "ws://" +:+ address;
  url_parse := Some;
  scheme _ := "ws"; host _ := Some "localhost"; username _ := ""; password _ := None;
  path _ := "/"; query _ := None; fragment _ := None
|}.
#[local] Existing Instances plain_text plain_url.

(** The daemon answers, and no time limit passes; or it does. *)
Definition fine : Env :=
  mkEnv false (Ok tt) (λ _ _, Ok tt) (Ok Mainnet) (λ _, Ok tt) false.
Definition late : Env :=
  mkEnv false (Ok tt) (λ _ _, Ok tt) (Ok Mainnet) (λ _, Ok tt) true.
Definition times (n i : nat) : list label := replicate n (Run i fine).
Definition connect : label := Call (go_online "daemon" (mkOptions 1000 ApplicationManaged)).

(** A connection that succeeds: the caller spawns the worker, which installs
    the connection and delivers it; they acknowledge each other. *)
Definition connected : list label :=
  [connect] ++ times 5 0 ++ times 12 1 ++ times 8 0 ++ times 6 1 ++ times 2 0.
(** [close] cancels an attempt whose worker is about to install its
    connection; later another task goes offline. *)
Definition closed_early : list label :=
  [connect] ++ times 5 0 ++ times 6 1 ++ [Call close] ++ times 7 2 ++ times 6 1 ++ times 3 2 ++
  [Call offline_mode] ++ times 3 3.

Lemma single_flight_witness : 1 = 1.
Proof.
  apply (single_flight Mainnet (played Mainnet ([connect] ++ times 5 0)) 1 1
           (Worker 0 WorkEndpoint) (Worker 0 WorkEndpoint) 0 0);
    [apply played_reached; vm_compute; reflexivity|reflexivity..].
Defined.

Lemma close_is_final_witness :
  (∀ a, Installed a ∉ [WentOffline]) ∧ in_use (trace (shared (played Mainnet closed_early))) = None.
Proof.
  apply (close_is_final Mainnet (played Mainnet closed_early)
           [ReconnectDisabled 0; ReconnectDisabled 0; Disconnected 0; Disconnected 0; Barrier 0]);
    [apply played_reached; vm_compute; reflexivity|vm_compute; reflexivity].
Defined.

Lemma cancellation_is_a_barrier_witness :
  Installed 0 ∉ [WalletClosed; WentOffline] ∧ RolledBack 0 ∉ [WalletClosed; WentOffline].
Proof.
  apply (cancellation_is_a_barrier Mainnet (played Mainnet closed_early)
           [ReconnectDisabled 0; ReconnectDisabled 0; Disconnected 0; Disconnected 0]);
    [apply played_reached; vm_compute; reflexivity|vm_compute; reflexivity].
Defined.

Lemma all_finished ts : forallb finished ts = true → ∀ t, t ∈ ts → finished t = true.
Proof. intros Hf t Ht. rewrite forallb_forall in Hf. by apply Hf, list_elem_of_In. Qed.

Lemma no_connection_leaks_witness :
  active_connection (shared (played Mainnet connected)) = Some 0.
Proof.
  apply (no_connection_leaks Mainnet);
    [apply played_reached; vm_compute; reflexivity
    |apply all_finished; vm_compute; reflexivity|vm_compute; reflexivity].
Defined.

Lemma success_is_installed_witness :
  Installed 0 ∈ trace (shared (played Mainnet connected)) ∧
  RolledBack 0 ∉ trace (shared (played Mainnet connected)) ∧
  completed (attempts (shared (played Mainnet connected)) 0) = true.
Proof.
  apply (success_is_installed Mainnet _ 0);
    [apply played_reached; vm_compute; reflexivity|vm_compute; reflexivity].
Defined.

Lemma worker_never_lost_witness :
  let y := played Mainnet ([connect] ++ times 5 0) in
  tasks y !! 0 = Some (Online (AwaitResult 0)) ∧
  (result_tx (attempts (shared y) 0) = true ∨ is_Some (result_value (attempts (shared y) 0))).
Proof.
  intros y. split; [vm_compute; reflexivity|].
  apply (worker_never_lost Mainnet y 0 0);
    [apply played_reached; vm_compute; reflexivity|vm_compute; reflexivity].
Defined.

(** [cancel_connection_attempt] cancels whatever attempt is current.  When the
    worker of a first attempt has failed but not reported it yet, and the time
    limit of its caller passes, the caller cancels a second attempt that has
    started meanwhile, which nobody asked for. *)
Definition refused : Env :=
  mkEnv false (Ok tt) (λ _ _, Err (AnyhowError "refused" CauseOther)) (Ok Mainnet) (λ _, Ok tt) false.
Definition crossed : list label :=
  [connect] ++ times 5 0 ++ [Run 1 fine; Run 1 refused] ++ times 3 1 ++ [Run 0 late] ++
  times 3 0 ++ [connect] ++ times 1 2 ++ times 2 0 ++ times 6 2.

(** A caller that runs out of time can cancel the attempt of another caller,
    although no method that cancels was called. *)
Example timeout_cancels_another_attempt :
  plays Mainnet crossed = true ∧
  forallb (λ l, match l with Run _ _ | Call (Online _) => true | _ => false end) crossed = true ∧
  tasks (played Mainnet crossed) !! 2 = Some (Returned (Some 1) (Err network_connect_cancelled)).
Proof. vm_compute. auto. Qed.

End Connected.
