(* ===== verification/Progress.v ===== *)
(** Connection attempts: every call comes to an end. *)

From stdpp Require Import functions list_numbers.
From S2P Require Import Prelude Errors External Tasks Daemon Connection Holders Stages Interleaving.
From S2P Require Import Connected.

Module Progress.
Import Tasks Daemon Connection Holders Stages Interleaving Connected.

(** ** No task runs for ever *)

(** How many steps a task can still make, those of a worker it spawns
    included.  The loop of [wait_completed] goes round again only when the
    attempt has completed. *)
Definition cancel_rank (k : cancel_next) : nat :=
  match k with ThenTimeout _ | ThenDrop => 0 | ThenOffline | ThenClose => 4 end.
Definition wait_next_rank (k : wait_next) : nat :=
  match k with WaitCancelled => 0 | WaitFinal => 1 | WaitBarrier k => cancel_rank k end.
Definition wait_rank (done : bool) (p : wait_pc) : nat :=
  match p, done with
  | WaitLoad, false => 7 | WaitNotified, false => 6
  | WaitReload _, false => 5 | WaitAwait _, false => 4
  | WaitLoad, true => 1 | WaitNotified, true => 3
  | WaitReload _, true => 2 | WaitAwait _, true => 2
  end.
Definition online_rank (p : online_pc) : nat :=
  match p with
  | OnlineStart _ _ => 48 | OnlineCheck _ => 47 | OnlineTakeStale _ => 46
  | StaleReconnect _ _ => 45 | StaleDisconnect _ _ => 44 | StaleOffline _ => 43
  | OnlineCheckCancelled _ => 42 | OnlineSpawn _ => 41
  | AwaitResult _ => 18 | AwaitElapsed _ => 17 | TimeoutDropAccepted _ => 16
  | TimeoutDropFinalized _ => 15 | SendAccepted _ => 15 | CheckAccepted _ => 14
  | LockActive _ => 13 | CheckActive _ => 12 | StoreActive _ => 11 | SendFinalized _ => 10
  | UnlockActive _ => 9 | UnlockCancelled _ => 9 | DropFinalized _ => 8 | CheckFinal _ => 1
  end.
Definition work_rank (p : work_pc) : nat :=
  match p with
  | WorkEndpoint => 22 | WorkConnect _ => 21 | WorkStoreApi => 20 | WorkReconnect => 19
  | WorkCheckConnected => 18 | WorkInfo => 17 | WorkCheckReady => 16
  | WorkLockActivation => 15 | WorkCheckActivation => 14 | WorkInstall => 13
  | WorkCheckInstalled => 12 | WorkDeliver => 11 | WorkAccepted => 10 | WorkFinalized => 9
  | WorkCheckFinal => 8 | RollbackReconnect _ => 7 | RollbackDisconnect _ => 6
  | RollbackOffline _ => 5 | WorkDisconnect _ _ => 5 | WorkSendError _ => 1
  end.
Definition rank (s : Shared) (t : task) : nat :=
  match t with
  | Online p => online_rank p
  | Worker _ p => work_rank p
  | Guard _ p k =>
      match p with GuardStore => 3 | GuardNotify => 2 | GuardClear => 1 end +
      match k with GuardReturn _ | GuardWorkerDone => 0 | GuardWorkerFail _ => 1 end
  | Cancel p k =>
      match p with
      | CancelTake => 14 | CancelStore _ => 13 | CancelApi _ => 12 | CancelReconnect _ => 11
      | CancelDisconnect _ => 10 | CancelActivation _ => 9 | CancelRelease _ => 8
      end + cancel_rank k
  | Wait a p k => wait_rank (completed (attempts s a)) p + wait_next_rank k
  | End _ p =>
      match p with
      | TakeActive => 4 | ActiveReconnect _ => 3 | ActiveDisconnect _ => 2 | FinishEnd => 1
      end
  | Returned _ _ | Ended => 0
  end.
Definition ranks (s : Shared) (ts : list task) : nat := sum_list_with (rank s) ts.

Lemma rank_bound s t : rank s t ≤ 48.
Proof.
  destruct t as [[]|? []|? [] []|[] []|? [] [| |[]]|? []| |]; cbn; try lia;
    destruct (completed _); cbn; lia.
Qed.

Lemma ranks_bound s ts : ranks s ts ≤ 48 * length ts.
Proof. induction ts as [|t ts IH]; cbn; [lia|]. pose proof (rank_bound s t). unfold ranks in *. lia. Qed.

Section Termination.
Context `{ErrorText, !UrlLib} (wallet_network : Network).

Lemma step_rank env t s s' t' us ts :
  exec wallet_network env t s = Some (s', t', us) → counts s ts →
  rank s' t' + ranks s' us < rank s t.
Proof.
  intros Hx Hc. pose proof (notified_completed s ts Hc) as Hno. clear Hc.
  exec_cases t Hx; cbn; rewrite ?fn_lookup_insert; cbn; try lia.
  all: repeat match goal with b : cancel_next |- _ => destruct b end; cbn; try lia.
  all: repeat case_bool_decide; repeat case_match; try lia; try congruence.
  destruct (Hno a); [lia|congruence].
Qed.

(** The other tasks do not gain steps. *)
Lemma rank_mono env i t s s' t' us ts u :
  ts !! i = Some t → exec wallet_network env t s = Some (s', t', us) → counts s ts →
  context_ok s → fact s u → rank s' u ≤ rank s u.
Proof.
  intros Hi Hx Hc Ho Hu. destruct u as [| | | |a p k| | |]; try done. destruct Hu as (Ha & _).
  pose proof (ev_completed _ _ (step_evolves _ _ _ _ _ _ _ _ _ Hi Hx Hc Ho a Ha)) as Hco.
  cbn. destruct (completed (attempts s a)).
  - by rewrite Hco.
  - destruct p, (completed _); cbn; lia.
Qed.

Lemma run_task_ranks i env y y' :
  invariant y → run_task wallet_network i env y = Some y' →
  ranks (shared y') (tasks y') < ranks (shared y) (tasks y).
Proof.
  intros [Hc Ho Hf _ _ _ _] (t & s' & t' & us & Hi & Hx & ->)%run_task_inv. cbn.
  pose proof (step_rank _ _ _ _ _ _ _ Hx Hc) as Hlt.
  assert (∀ ts, (∀ u, u ∈ ts → u ∈ tasks y) → ranks s' ts ≤ ranks (shared y) ts) as Hmono.
  { induction ts as [|u ts IH]; [done|]. intros Hin. cbn. apply Nat.add_le_mono.
    - destruct (list_elem_of_lookup_1 _ _ (Hin u ltac:(left))) as [j Hj].
      exact (rank_mono _ _ _ _ _ _ _ _ _ Hi Hx Hc Ho (Hf j u Hj)).
    - apply IH. intros v Hv. apply Hin. by right. }
  rewrite insert_take_drop by (by eapply lookup_lt_Some).
  rewrite <-(take_drop_middle (tasks y) i t Hi) at 3.
  unfold ranks in *. rewrite !sum_list_with_app. cbn.
  pose proof (Hmono (take i (tasks y)) ltac:(intros v Hv; by rewrite <-(take_drop i (tasks y)), elem_of_app; left)) as H1.
  pose proof (Hmono (drop (S i) (tasks y)) ltac:(intros v Hv; by rewrite <-(take_drop (S i) (tasks y)), elem_of_app; right)) as H2.
  lia.
Qed.

(** The task that a label of a schedule steps; the other labels are calls. *)
Definition stepping (l : label) : option nat :=
  match l with Run i _ => Some i | Call _ => None end.
Definition steps_of (i : nat) (ls : list label) : nat := length (filter (λ l, stepping l = Some i) ls).
Definition calls_of (ls : list label) : nat := length (filter (λ l, stepping l = None) ls).

(** What is left of the 48 steps of a task, spawned or not. *)
Definition rank_at (y : System) (i : nat) : nat :=
  match tasks y !! i with Some t => rank (shared y) t | None => 48 end.

Lemma rank_at_bound y i : rank_at y i ≤ 48.
Proof. unfold rank_at. case_match; [apply rank_bound|lia]. Qed.

(** A step costs its task at least one step and gives none to another task. *)
Lemma run_task_rank_at i env y y' j :
  invariant y → run_task wallet_network i env y = Some y' →
  rank_at y' j + (if decide (j = i) then 1 else 0) ≤ rank_at y j.
Proof.
  intros [Hc Ho Hf _ _ _ _] (t & s' & t' & us & Hi & Hx & ->)%run_task_inv.
  pose proof (lookup_lt_Some _ _ _ Hi) as Hl. destruct (decide (j = i)) as [->|Hj].
  - pose proof (step_rank _ _ _ _ _ _ _ Hx Hc). unfold rank_at; cbn.
    rewrite lookup_app_l, list_lookup_insert_eq, Hi by (by rewrite ?length_insert). lia.
  - destruct (tasks y !! j) as [u|] eqn:Hu.
    + pose proof (rank_mono _ _ _ _ _ _ _ _ u Hi Hx Hc Ho (Hf j u Hu)). unfold rank_at; cbn.
      rewrite lookup_app_l by (rewrite length_insert; by eapply lookup_lt_Some).
      rewrite list_lookup_insert_ne, Hu by done. lia.
    + pose proof (rank_at_bound (mkSystem s' (<[i:=t']> (tasks y) ++ us)) j).
      unfold rank_at at 2. rewrite Hu. lia.
Qed.

Lemma call_rank_at t y j : rank_at (mkSystem (shared y) (tasks y ++ [t])) j ≤ rank_at y j.
Proof.
  pose proof (rank_at_bound (mkSystem (shared y) (tasks y ++ [t])) j).
  unfold rank_at in *; cbn in *. destruct (tasks y !! j) as [u|] eqn:Hu; [|done].
  by rewrite lookup_app_l, Hu by (by eapply lookup_lt_Some).
Qed.

Lemma steps_bound ls : ∀ y y',
  invariant y → forallb valid ls = true → play wallet_network ls y = Some y' →
  (∀ i, steps_of i ls ≤ rank_at y i) ∧
  length ls ≤ ranks (shared y) (tasks y) + 49 * calls_of ls.
Proof.
  induction ls as [|[i env|t] ls IH]; intros y y' Hy Hv Hp.
  - split; [intros i|]; cbn; lia.
  - apply bind_Some in Hp as (y1 & H1 & Hp).
    destruct (IH y1 y' (invariant_run _ _ _ _ _ Hy H1) Hv Hp) as [Hi Hl]. split.
    + intros j. specialize (Hi j). pose proof (run_task_rank_at i env y y1 j Hy H1) as Hr.
      unfold steps_of in *. rewrite filter_cons. cbn [stepping].
      repeat case_decide; simplify_eq; cbn [length]; lia.
    + pose proof (run_task_ranks _ _ _ _ Hy H1). unfold calls_of in *.
      rewrite filter_cons_False by done. cbn [length]. lia.
  - apply andb_prop in Hv as [Hc Hv]. cbn in Hp.
    destruct (IH _ y' (invariant_call t y Hy (is_call_callable _ Hc)) Hv Hp) as [Hi Hl]. split.
    + intros j. specialize (Hi j). pose proof (call_rank_at t y j).
      unfold steps_of in *. rewrite filter_cons_False by done. lia.
    + unfold ranks in Hl. cbn in Hl. rewrite sum_list_with_app in Hl. cbn in Hl.
      pose proof (rank_bound (shared y) t). unfold calls_of in *. rewrite filter_cons_True by done.
      cbn [length]. unfold ranks. lia.
Qed.

(** Claim C14 (termination): whatever the schedule, whatever calls arrive
    meanwhile and whatever happens outside, each task makes 48 steps at most; so
    all tasks come to an end once no more calls arrive. *)
Theorem every_schedule_ends y ls y' :
  reached wallet_network y → forallb valid ls = true → play wallet_network ls y = Some y' →
  (∀ i, steps_of i ls ≤ 48) ∧ length ls ≤ 48 * length (tasks y) + 49 * calls_of ls.
Proof.
  intros Hy%reached_invariant Hv Hp. destruct (steps_bound ls y y' Hy Hv Hp) as [Hi Hl]. split.
  - intros i. pose proof (rank_at_bound y i). specialize (Hi i). lia.
  - pose proof (ranks_bound (shared y) (tasks y)). lia.
Qed.
End Termination.

(** ** No task waits for ever *)

(** Must the task wait, should its time limit not have passed? *)
Definition waits (s : Shared) (t : task) : bool :=
  match t with
  | Online (OnlineTakeStale _ | LockActive _) | End _ TakeActive => active_lock s
  | Online (AwaitResult a) =>
      result_tx (attempts s a) && match result_value (attempts s a) with None => true | _ => false end
  | Worker a WorkStoreApi => api_lock (attempts s a)
  | Worker a WorkLockActivation => activation (attempts s a)
  | Worker a WorkAccepted =>
      match accepted (attempts s a) with ChNone | ChEmpty => true | _ => false end
  | Worker a WorkFinalized =>
      match finalized (attempts s a) with ChNone | ChEmpty => true | _ => false end
  | Cancel (CancelApi b) _ => api_lock (attempts s b)
  | Cancel (CancelActivation b) _ => activation (attempts s b)
  | Wait a (WaitAwait n) _ => bool_decide (notifications (attempts s a) ≤ n)
  | Returned _ _ | Ended => true
  | _ => false
  end.

Section Waiting.
Context `{ErrorText, !UrlLib} (wallet_network : Network).

Lemma steps_unless_waiting env t s :
  waits s t = false → is_Some (exec wallet_network env t s).
Proof.
  destruct t as [[]|? []|? [] k|[] k|? [] k|? []| |]; cbn;
    unfold fail_attempt, return_dropping, acquire, after_cancel, waited, goto;
    repeat case_match; intros; repeat case_bool_decide; cbn in *; try done; lia.
Qed.

(** Those who hold a lock do not wait. *)
Lemma owners_step s t a :
  owns_active t = Some tt ∨ owns_api t = Some a ∨ owns_activation t = Some a →
  waits s t = false.
Proof.
  destruct t as [[]|? []|? [] k|[] k|? [] k|? []| |]; cbn; intros [?|[?|?]];
    repeat case_match; done.
Qed.

Section Stuck.
Variable y : System.
Hypothesis Hy : invariant y.
Hypothesis Hall : ∀ i t, tasks y !! i = Some t → waits (shared y) t = true.

Lemma nobody_owns t i a : tasks y !! i = Some t →
  owns_active t = Some tt ∨ owns_api t = Some a ∨ owns_activation t = Some a → False.
Proof. intros Hi Ho. pose proof (owners_step (shared y) t a Ho). by rewrite (Hall i t Hi) in *. Qed.

Lemma active_free : active_lock (shared y) = false.
Proof.
  destruct (active_lock _) eqn:Hl; [|done].
  pose proof (n_active _ _ (inv_counts _ Hy)) as Hn. rewrite Hl in Hn.
  destruct (count_exists owns_active tt (tasks y)) as (i & t & Hi & Ht); [cbn in Hn; lia|].
  destruct (nobody_owns t i 0 Hi). auto.
Qed.
Lemma api_free a : api_lock (attempts (shared y) a) = false.
Proof.
  destruct (api_lock _) eqn:Hl; [|done].
  pose proof (n_api _ _ (inv_counts _ Hy) a) as Hn. rewrite Hl in Hn.
  destruct (count_exists owns_api a (tasks y)) as (i & t & Hi & Ht); [cbn in Hn; lia|].
  destruct (nobody_owns t i a Hi). auto.
Qed.
Lemma activation_free a : activation (attempts (shared y) a) = false.
Proof.
  destruct (activation _) eqn:Hl; [|done].
  pose proof (n_activation _ _ (inv_counts _ Hy) a) as Hn. rewrite Hl in Hn.
  destruct (count_exists owns_activation a (tasks y)) as (i & t & Hi & Ht); [cbn in Hn; lia|].
  destruct (nobody_owns t i a Hi). auto.
Qed.

(** The caller answers the worker that waits for it. *)
Lemma worker_waits_not i a p : tasks y !! i = Some (Worker a p) → False.
Proof.
  intros Hi. pose proof (Hall i _ Hi) as Hw. pose proof (inv_facts _ Hy i _ Hi) as [Hs Hp].
  pose proof (co_attempts _ (inv_context _ Hy) a) as Hok.
  destruct p; cbn in Hw; try done.
  - by rewrite api_free in Hw.
  - by rewrite activation_free in Hw.
  - pose proof (n_accepted _ _ (inv_counts _ Hy) a) as Hn.
    destruct (accepted _) eqn:Hac; [by destruct Hs| |done..].
    destruct (count_exists sends_accepted a (tasks y)) as (j & t & Hj & Ht); [cbn in Hn; lia|].
    pose proof (Hall j t Hj) as Hwt. destruct t as [[]| | | | | | |]; cbn in Ht; simplify_eq; try done.
    cbn in Hwt. rewrite Hp in Hwt. by rewrite andb_false_r in Hwt.
  - destruct Hp as [Hd Hac]. pose proof (n_finalized _ _ (inv_counts _ Hy) a) as Hn.
    destruct (finalized _) eqn:Hfi; [by destruct Hs; apply ok_created| |done..].
    destruct (count_exists sends_finalized a (tasks y)) as (j & t & Hj & Ht); [cbn in Hn; lia|].
    pose proof (Hall j t Hj) as Hwt. destruct t as [[]| | | | | | |]; cbn in Ht; simplify_eq; try done.
    + cbn in Hwt. rewrite Hd in Hwt. by rewrite andb_false_r in Hwt.
    + cbn in Hwt. by rewrite active_free in Hwt.
Qed.

Lemma guard_waits_not i a p k : tasks y !! i = Some (Guard a p k) → False.
Proof. by intros Hi%Hall. Qed.

Lemma result_waits_not i a : tasks y !! i = Some (Online (AwaitResult a)) → False.
Proof.
  intros Hi. pose proof (Hall i _ Hi) as [Htx _]%andb_prop.
  pose proof (n_result _ _ (inv_counts _ Hy) a) as Hn. rewrite Htx in Hn.
  destruct (count_exists sends_result a (tasks y)) as (j & t & Hj & Ht); [cbn in Hn; lia|].
  destruct t; try done; [by eapply worker_waits_not|by eapply guard_waits_not].
Qed.

(** The worker wakes those who wait for the end of its attempt. *)
Lemma completion_waits_not i a n k : tasks y !! i = Some (Wait a (WaitAwait n) k) → False.
Proof.
  intros Hi. pose proof (Hall i _ Hi) as Hw%bool_decide_eq_true_1.
  pose proof (inv_facts _ Hy i _ Hi) as (Ha & -> & _).
  pose proof (n_unnotified _ _ (inv_counts _ Hy) a) as Hn.
  rewrite bool_decide_eq_true_2 in Hn by done.
  destruct (count_exists unnotified a (tasks y)) as (j & t & Hj & Ht); [cbn in Hn; lia|].
  destruct t as [p| | | | | | |]; try done; [|by eapply worker_waits_not|by eapply guard_waits_not].
  pose proof (Hall j _ Hj) as Hwt. destruct p; try done. cbn in Hwt. by rewrite active_free in Hwt.
Qed.

Lemma stuck_finished i t : tasks y !! i = Some t → finished t = true.
Proof.
  intros Hi. pose proof (Hall i t Hi) as Hw. pose proof active_free as Hac.
  destruct t as [p|a p|a p k|p k|a p k|b p| |]; try done.
  - destruct p; cbn in Hw; try done; try congruence. by destruct (result_waits_not i a).
  - by destruct (worker_waits_not i a p).
  - destruct p; cbn in Hw; try done; [by rewrite api_free in Hw|by rewrite activation_free in Hw].
  - destruct p; cbn in Hw; try done. by destruct (completion_waits_not i a n k).
  - destruct p; cbn in Hw; try done. congruence.
Qed.
End Stuck.

(** Claim C13 (liveness): no deadlock: while a task has not ended, some task can
    make a step, whatever happens outside and without any time limit. *)
Theorem no_deadlock y i t :
  reached wallet_network y → tasks y !! i = Some t → finished t = false →
  ∃ j, ∀ env, is_Some (run_task wallet_network j env y).
Proof.
  intros Hy%reached_invariant Hi Hfin.
  destruct (decide (Exists (λ u, waits (shared y) u = false) (tasks y))) as [Hex|Hall].
  - apply Exists_exists in Hex as (u & [j Hj]%list_elem_of_lookup & Hu). exists j. intros env.
    destruct (steps_unless_waiting env u _ Hu) as [[[s' t'] us] Hx].
    exists (mkSystem s' (<[j := t']> (tasks y) ++ us)). unfold run_task. rewrite Hj. cbn.
    by rewrite Hx.
  - rewrite (stuck_finished y Hy) with i t in Hfin; [done| |done].
    intros j u Hj. destruct (waits _ u) eqn:Hw; [done|]. destruct Hall. apply Exists_exists.
    exists u. split; [by eapply list_elem_of_lookup_2|done].
Qed.
End Waiting.

#[local] Existing Instances plain_text plain_url.

Definition one_attempt : list label :=
  times 5 0 ++ times 12 1 ++ times 8 0 ++ times 6 1 ++ times 2 0 ++ [Call close] ++ times 3 2.

Lemma every_schedule_ends_witness :
  plays Mainnet ([connect] ++ one_attempt) = true ∧
  steps_of 1 one_attempt = 18 ∧ steps_of 1 one_attempt ≤ 48.
Proof.
  split; [vm_compute; reflexivity|]. split; [vm_compute; reflexivity|].
  apply (every_schedule_ends Mainnet (played Mainnet [connect]) one_attempt
           (played Mainnet ([connect] ++ one_attempt)));
    [apply played_reached; vm_compute; reflexivity|vm_compute; reflexivity..].
Defined.

(** Here the caller waits for its worker and [close] for the end of the attempt. *)
Lemma no_deadlock_witness :
  ∃ j, ∀ env, is_Some (run_task Mainnet j env
    (played Mainnet ([connect] ++ times 5 0 ++ times 6 1 ++ [Call close] ++ times 10 2))).
Proof.
  apply (no_deadlock Mainnet _ 0 (Online (AwaitResult 0)));
    [apply played_reached; vm_compute; reflexivity|vm_compute; reflexivity|reflexivity].
Defined.

End Progress.
