(* ===== verification/Entries.v ===== *)
(** * What the wallet shows of its transactions
    (rust/src/api/wallet/business_events.rs, models/business_event_dtos.rs and
    the asset types of models/wallet_dtos.rs)

    The projection of the wallet's transaction entries, with as much of their
    extra data as the caller asked for.  The entries themselves are types of
    the xelis crates that the code matches exhaustively; an [IndexMap] is the
    list of its entries. *)

From S2P Require Import Prelude Errors External Addresses.

Module Entries.
Import Wire.

Section Entries.
Context `{!HashLib, !AddressLib}.

(** ** The entries of the wallet *)

(** [xelis_common::transaction::extra_data]. *)
Inductive PlaintextFlag : Type := PPrivate | PPublic | PProprietary | PFailed.
Record PlaintextExtraData : Type := mkPlaintext {
  pt_data : option DataElement;
  pt_flag : PlaintextFlag
}.

(** [xelis_common::api::wallet]. *)
Record TransferIn : Type := mkTransferIn {
  ti_asset : Hash;
  ti_amount : Z;
  ti_extra_data : option PlaintextExtraData
}.
Record TransferOut : Type := mkTransferOut {
  to_destination : Address;
  to_asset : Hash;
  to_amount : Z;
  to_extra_data : option PlaintextExtraData
}.
Record DeployInvoke : Type := mkDeployInvoke {
  di_max_gas : Z;
  di_deposits : list (Hash * Z)
}.
Inductive EntryType : Type :=
  | Coinbase (reward : Z)
  | Burn (asset : Hash) (amount fee nonce : Z)
  | Incoming (from : Address) (transfers : list TransferIn)
  | Outgoing (transfers : list TransferOut) (fee nonce : Z)
  | MultiSig (participants : list Address) (threshold fee nonce : Z)
  | InvokeContract (contract : Hash) (deposits : list (Hash * Z))
      (received : list (Hash * list (Hash * Z))) (chunk_id fee max_gas nonce : Z)
  | DeployContract (fee nonce : Z) (invoke : option DeployInvoke)
  | IncomingContract (transfers : list (Hash * list (Hash * Z)))
  | OutgoingBlob (destinations : list Address) (fee nonce : Z) (data : PlaintextExtraData)
  | IncomingBlob (from : Address) (destinations : list Address) (data : PlaintextExtraData).
Record TransactionEntry : Type := mkEntry {
  te_hash : Hash;
  te_topoheight : Z;
  te_timestamp : Z;
  te_entry : EntryType
}.
Record TransactionPending : Type := mkPendingEntry {
  tp_hash : Hash;
  tp_timestamp : Z;
  tp_entry : EntryType
}.

(** [xelis_common::asset]. *)
Inductive MaxSupplyMode : Type := SupplyNone | SupplyFixed (v : Z) | SupplyMintable (v : Z).
Inductive AssetOwner : Type :=
  | OwnerNone
  | OwnerCreator (contract : Hash) (id : Z)
  | OwnerOwner (origin : Hash) (origin_id : Z) (owner : Hash).
Record AssetData : Type := mkAssetData {
  get_name : string;
  get_ticker : string;
  get_decimals : Z;
  get_max_supply : MaxSupplyMode;
  get_owner : AssetOwner
}.

(** ** Their projections *)

Inductive NativeWalletExtraDataDisclosure : Type :=
  | DisclosureRedacted | DisclosureMetadata | DisclosureDetailed.
Inductive ExtraDataProjection : Type := Redacted | Metadata | Detailed.
Definition from_disclosure (disclosure : NativeWalletExtraDataDisclosure) : ExtraDataProjection :=
  match disclosure with
  | DisclosureRedacted => Redacted
  | DisclosureMetadata => Metadata
  | DisclosureDetailed => Detailed
  end.

Inductive NativeWalletExtraDataFlag : Type := FPrivate | FPublic | FProprietary | FFailed.
Inductive NativeWalletExtraDataPayloadKind : Type :=
  | KBoolValue | KString | KU8 | KU16 | KU32 | KU64 | KU128 | KHash | KBlob | KArray | KFields
  | KUnknown.
Record NativeWalletExtraData : Type := mkExtraData {
  ex_flag : NativeWalletExtraDataFlag;
  has_payload : bool;
  payload : option NativeXelisDataElement;
  payload_kind : option NativeWalletExtraDataPayloadKind
}.
Record NativeWalletTransferIn : Type := mkNTransferIn {
  nti_asset : string;
  nti_amount : Z;
  nti_extra_data : option NativeWalletExtraData
}.
Record NativeWalletTransferOut : Type := mkNTransferOut {
  nto_destination : string;
  nto_asset : string;
  nto_amount : Z;
  nto_extra_data : option NativeWalletExtraData
}.
Record NativeWalletAssetAmount : Type := mkAssetAmount { aa_asset : string; aa_amount : Z }.
Record NativeWalletContractTransferGroup : Type := mkGroup {
  cg_contract : string;
  cg_transfers : list NativeWalletAssetAmount
}.
Record NativeWalletDeployInvoke : Type := mkNDeployInvoke {
  ndi_max_gas : Z;
  ndi_deposits : list NativeWalletAssetAmount
}.
Inductive NativeWalletTransactionEntryData : Type :=
  | NCoinbase (reward : Z)
  | NBurn (asset : string) (amount fee nonce : Z)
  | NIncoming (from : string) (transfers : list NativeWalletTransferIn)
  | NOutgoing (transfers : list NativeWalletTransferOut) (fee nonce : Z)
  | NMultisig (participants : list string) (threshold fee nonce : Z)
  | NInvokeContract (contract : string) (deposits : list NativeWalletAssetAmount)
      (received : list NativeWalletContractTransferGroup) (chunk_id fee max_gas nonce : Z)
  | NDeployContract (fee nonce : Z) (invoke : option NativeWalletDeployInvoke)
  | NIncomingContract (transfers : list NativeWalletContractTransferGroup)
  | NOutgoingBlob (destinations : list string) (fee nonce : Z) (data : NativeWalletExtraData)
  | NIncomingBlob (from : string) (destinations : list string) (data : NativeWalletExtraData).
Record NativeWalletTransactionEntry : Type := mkNEntry {
  nte_hash : string;
  nte_topoheight : Z;
  nte_timestamp_millis : Z;
  nte_entry : NativeWalletTransactionEntryData
}.
Record NativeWalletPendingTransaction : Type := mkNPending {
  ntp_hash : string;
  ntp_timestamp_millis : Z;
  ntp_entry : NativeWalletTransactionEntryData
}.

Inductive XelisMaxSupplyMode : Type := XNone | XFixed (v : Z) | XMintable (v : Z).
Inductive XelisAssetOwner : Type :=
  | XOwnerNone
  | XCreator (contract : string) (id : Z)
  | XOwner (origin : string) (origin_id : Z) (owner : string).
Record XelisAssetMetadata : Type := mkMetadata {
  name : string;
  ticker : string;
  decimals : Z;
  max_supply : XelisMaxSupplyMode;
  owner : XelisAssetOwner
}.
Record NativeWalletAsset : Type := mkAsset {
  asset_hash : string;
  a_topoheight : Z;
  metadata : XelisAssetMetadata
}.

Definition from_max_supply (value : MaxSupplyMode) : XelisMaxSupplyMode :=
  match value with
  | SupplyNone => XNone
  | SupplyFixed max_supply => XFixed max_supply
  | SupplyMintable max_supply => XMintable max_supply
  end.
Definition from_owner (value : AssetOwner) : XelisAssetOwner :=
  match value with
  | OwnerNone => XOwnerNone
  | OwnerCreator contract id => XCreator (hash_to_hex contract) id
  | OwnerOwner origin origin_id owner =>
      XOwner (hash_to_hex origin) origin_id (hash_to_hex owner)
  end.
Definition asset_metadata (asset_data : AssetData) : XelisAssetMetadata :=
  mkMetadata (get_name asset_data) (get_ticker asset_data) (get_decimals asset_data)
    (from_max_supply (get_max_supply asset_data)) (from_owner (get_owner asset_data)).

Definition extra_data_payload_kind (payload : DataElement) : NativeWalletExtraDataPayloadKind :=
  match payload with
  | DValue (DBool _) => KBoolValue
  | DValue (DString _) => KString
  | DValue (DU8 _) => KU8
  | DValue (DU16 _) => KU16
  | DValue (DU32 _) => KU32
  | DValue (DU64 _) => KU64
  | DValue (DU128 _) => KU128
  | DValue (DHash _) => KHash
  | DValue (DBlob _) => KBlob
  | DArray _ => KArray
  | DFields _ => KFields
  end.

Definition from_flag (flag : PlaintextFlag) : NativeWalletExtraDataFlag :=
  match flag with
  | PPrivate => FPrivate | PPublic => FPublic | PProprietary => FProprietary | PFailed => FFailed
  end.

Definition extra_data (value : PlaintextExtraData) (projection : ExtraDataProjection) :
    result anyhow_error NativeWalletExtraData :=
  let '(payload, payload_kind) :=
    match projection, pt_data value with
    | Redacted, _ | _, None => (None, None)
    | Metadata, Some payload => (None, Some (extra_data_payload_kind payload))
    | Detailed, Some payload =>
        (Some (from_xelis payload), Some (extra_data_payload_kind payload))
    end in
  Ok (mkExtraData (from_flag (pt_flag value)) (bool_decide (pt_data value ≠ None)) payload
        payload_kind).

(** [.map(...).transpose()?]. *)
Definition optional_extra_data (value : option PlaintextExtraData)
    (projection : ExtraDataProjection) : result anyhow_error (option NativeWalletExtraData) :=
  match value with
  | None => Ok None
  | Some value => Some <$> extra_data value projection
  end.

Definition transfer_in (value : TransferIn) (projection : ExtraDataProjection) :
    result anyhow_error NativeWalletTransferIn :=
  extra ← optional_extra_data (ti_extra_data value) projection;
  Ok (mkNTransferIn (hash_to_hex (ti_asset value)) (ti_amount value) extra).

Definition transfer_out (value : TransferOut) (projection : ExtraDataProjection) :
    result anyhow_error NativeWalletTransferOut :=
  extra ← optional_extra_data (to_extra_data value) projection;
  Ok (mkNTransferOut (address_to_string (to_destination value)) (hash_to_hex (to_asset value))
        (to_amount value) extra).

Definition asset_amounts (values : list (Hash * Z)) : list NativeWalletAssetAmount :=
  map (λ '(asset, amount), mkAssetAmount (hash_to_hex asset) amount) values.

Definition contract_transfer_groups (values : list (Hash * list (Hash * Z))) :
    list NativeWalletContractTransferGroup :=
  map (λ '(contract, transfers), mkGroup (hash_to_hex contract) (asset_amounts transfers)) values.

Definition transaction_entry_data (value : EntryType) (projection : ExtraDataProjection) :
    result anyhow_error NativeWalletTransactionEntryData :=
  match value with
  | Coinbase reward => Ok (NCoinbase reward)
  | Burn asset amount fee nonce => Ok (NBurn (hash_to_hex asset) amount fee nonce)
  | Incoming from transfers =>
      transfers ← mapM (λ value, transfer_in value projection) transfers;
      Ok (NIncoming (address_to_string from) transfers)
  | Outgoing transfers fee nonce =>
      transfers ← mapM (λ value, transfer_out value projection) transfers;
      Ok (NOutgoing transfers fee nonce)
  | MultiSig participants threshold fee nonce =>
      Ok (NMultisig (map address_to_string participants) threshold fee nonce)
  | InvokeContract contract deposits received chunk_id fee max_gas nonce =>
      Ok (NInvokeContract (hash_to_hex contract) (asset_amounts deposits)
            (contract_transfer_groups received) chunk_id fee max_gas nonce)
  | DeployContract fee nonce invoke =>
      Ok (NDeployContract fee nonce
            ((λ i, mkNDeployInvoke (di_max_gas i) (asset_amounts (di_deposits i))) <$> invoke))
  | IncomingContract transfers => Ok (NIncomingContract (contract_transfer_groups transfers))
  | OutgoingBlob destinations fee nonce data =>
      data ← extra_data data projection;
      Ok (NOutgoingBlob (map address_to_string destinations) fee nonce data)
  | IncomingBlob from destinations data =>
      data ← extra_data data projection;
      Ok (NIncomingBlob (address_to_string from) (map address_to_string destinations) data)
  end.

Definition transaction_entry (value : TransactionEntry) (projection : ExtraDataProjection) :
    result anyhow_error NativeWalletTransactionEntry :=
  entry ← transaction_entry_data (te_entry value) projection;
  Ok (mkNEntry (hash_to_hex (te_hash value)) (te_topoheight value) (te_timestamp value) entry).

Definition pending_transaction (value : TransactionPending) (projection : ExtraDataProjection) :
    result anyhow_error NativeWalletPendingTransaction :=
  entry ← transaction_entry_data (tp_entry value) projection;
  Ok (mkNPending (hash_to_hex (tp_hash value)) (tp_timestamp value) entry).

(** ** The projection never fails *)

Lemma extra_data_total value projection : is_ok (extra_data value projection) = true.
Proof. unfold extra_data. by destruct projection, (pt_data value). Qed.

Lemma optional_extra_data_total value projection :
  is_ok (optional_extra_data value projection) = true.
Proof.
  destruct value as [value|]; [|done]. pose proof (extra_data_total value projection). cbn.
  by destruct (extra_data value projection).
Qed.

Lemma mapM_total {A B E} (f : A → result E B) l :
  (∀ x, is_ok (f x) = true) → is_ok (mapM f l) = true.
Proof.
  intros Hf. induction l as [|x l IH]; [done|]. cbn. specialize (Hf x).
  destruct (f x); [|done]. by destruct (mapM f l).
Qed.

Lemma bind_total {A B E} (m : result E A) (f : A → result E B) :
  is_ok m = true → (∀ x, is_ok (f x) = true) → is_ok (m ≫= f) = true.
Proof. intros Hm Hf. destruct m; [apply Hf|done]. Qed.

Lemma transaction_entry_data_total value projection :
  is_ok (transaction_entry_data value projection) = true.
Proof.
  destruct value; cbn; try done; apply bind_total; auto using extra_data_total;
    apply mapM_total; intros x; apply bind_total; auto using optional_extra_data_total.
Qed.

(** ** What the projection discloses *)

(** The entry with the payload of every extra data replaced. *)
Definition map_payload (f : DataElement → DataElement) (x : PlaintextExtraData) :
    PlaintextExtraData := mkPlaintext (f <$> pt_data x) (pt_flag x).
Definition map_entry (f : DataElement → DataElement) (e : EntryType) : EntryType :=
  match e with
  | Incoming from transfers =>
      Incoming from (map (λ t, mkTransferIn (ti_asset t) (ti_amount t)
                                 (map_payload f <$> ti_extra_data t)) transfers)
  | Outgoing transfers fee nonce =>
      Outgoing (map (λ t, mkTransferOut (to_destination t) (to_asset t) (to_amount t)
                            (map_payload f <$> to_extra_data t)) transfers) fee nonce
  | OutgoingBlob destinations fee nonce data =>
      OutgoingBlob destinations fee nonce (map_payload f data)
  | IncomingBlob from destinations data => IncomingBlob from destinations (map_payload f data)
  | e => e
  end.

(** What a projection lets through of a payload: nothing, its kind, or all. *)
Definition sample (kind : NativeWalletExtraDataPayloadKind) : DataElement :=
  match kind with
  | KBoolValue | KUnknown => DValue (DBool false)
  | KString => DValue (DString "")
  | KU8 => DValue (DU8 0) | KU16 => DValue (DU16 0) | KU32 => DValue (DU32 0)
  | KU64 => DValue (DU64 0) | KU128 => DValue (DU128 0)
  | KHash => DValue (DHash XELIS_ASSET)
  | KBlob => DValue (DBlob [])
  | KArray => DArray []
  | KFields => DFields []
  end.
Definition disclosed (projection : ExtraDataProjection) (payload : DataElement) : DataElement :=
  match projection with
  | Redacted => DValue (DBool false)
  | Metadata => sample (extra_data_payload_kind payload)
  | Detailed => payload
  end.

Lemma kind_sample payload :
  extra_data_payload_kind (sample (extra_data_payload_kind payload)) =
  extra_data_payload_kind payload.
Proof. by destruct payload as [[]| |]. Qed.

Lemma extra_data_disclosed x projection :
  extra_data (map_payload (disclosed projection) x) projection = extra_data x projection.
Proof.
  unfold extra_data, map_payload. destruct x as [[payload|] flag]; [|by destruct projection].
  destruct projection; cbn; [done|by rewrite kind_sample|done].
Qed.

Lemma mapM_map {A B C E} (f : B → result E C) (g : A → B) l :
  mapM f (map g l) = mapM (λ x, f (g x)) l.
Proof. induction l as [|x l IH]; [done|]. cbn. by rewrite IH. Qed.

Lemma mapM_eq {A B E} (f g : A → result E B) l : (∀ x, f x = g x) → mapM f l = mapM g l.
Proof. intros Hfg. induction l as [|x l IH]; [done|]. cbn. by rewrite Hfg, IH. Qed.

Lemma entry_disclosed e projection :
  transaction_entry_data (map_entry (disclosed projection) e) projection =
  transaction_entry_data e projection.
Proof.
  destruct e; cbn; try done; rewrite ?extra_data_disclosed, ?mapM_map; try done.
  - erewrite mapM_eq; [done|]. intros [a m [x|]]; [|done]. unfold transfer_in. cbn.
    by rewrite extra_data_disclosed.
  - erewrite mapM_eq; [done|]. intros [d a m [x|]]; [|done]. unfold transfer_out. cbn.
    by rewrite extra_data_disclosed.
Qed.

(** The caller's disclosure bounds what leaves the wallet:
    entries that differ only in payloads cannot be told apart when redacted,
    and only by the kinds of their payloads when the metadata is asked for. *)
Theorem disclosure_bounds_projection projection e e' :
  map_entry (disclosed projection) e = map_entry (disclosed projection) e' →
  transaction_entry_data e projection = transaction_entry_data e' projection.
Proof. intros Heq. rewrite <-(entry_disclosed e), <-(entry_disclosed e'). by rewrite Heq. Qed.

(** ** What it keeps *)

Definition transfer_addresses (e : EntryType) : list Address :=
  match e with
  | Incoming from _ => [from]
  | Outgoing transfers _ _ => map to_destination transfers
  | MultiSig participants _ _ _ => participants
  | OutgoingBlob destinations _ _ _ => destinations
  | IncomingBlob from destinations _ => from :: destinations
  | _ => []
  end.
Definition extra_payloads (e : EntryType) : list DataElement :=
  omap (λ x, x ≫= pt_data)
    match e with
    | Incoming _ transfers => map ti_extra_data transfers
    | Outgoing transfers _ _ => map to_extra_data transfers
    | OutgoingBlob _ _ _ data | IncomingBlob _ _ data => [Some data]
    | _ => []
    end.
Definition entry_wf (e : EntryType) : Prop :=
  Forall (λ a, is_normal a = true) (transfer_addresses e) ∧ Forall element_wf (extra_payloads e).

Section Lossless.
Context `{!HashLaws, !AddressLaws}.

Lemma hex_inj h h' : hash_to_hex h = hash_to_hex h' → h = h'.
Proof. intros Heq. pose proof (hash_from_to_hex h) as Hh. rewrite Heq, hash_from_to_hex in Hh. congruence. Qed.

Lemma address_inj a a' :
  is_normal a = true → is_normal a' = true → address_to_string a = address_to_string a' → a = a'.
Proof.
  intros Ha Ha' Heq. pose proof (address_from_to_string a Ha) as Hs.
  rewrite Heq, (address_from_to_string a' Ha') in Hs. congruence.
Qed.

Lemma element_inj d d' : element_wf d → element_wf d' → from_xelis d = from_xelis d' → d = d'.
Proof.
  intros Hd Hd' Heq. pose proof (element_roundtrip d Hd) as Hs.
  rewrite Heq, (element_roundtrip d' Hd') in Hs. congruence.
Qed.

Lemma map_inj {A B} (f : A → B) (P : A → Prop) l l' :
  (∀ x y, P x → P y → f x = f y → x = y) → Forall P l → Forall P l' → map f l = map f l' → l = l'.
Proof.
  intros Hf Hl. revert l'. induction Hl as [|x l Hx _ IH]; intros [|y l'] Hl' Heq; try done.
  inversion Hl'; subst. cbn in Heq. injection Heq as Hxy Hll. f_equal; auto.
Qed.

Lemma map_hex_inj {A B} (f : A → B) l l' :
  (∀ x y, f x = f y → x = y) → map f l = map f l' → l = l'.
Proof. intros Hf. apply (map_inj f (λ _, True)); auto using Forall_true. Qed.

Lemma asset_amounts_inj l l' : asset_amounts l = asset_amounts l' → l = l'.
Proof. apply map_hex_inj. intros [h z] [h' z'] [= Hh%hex_inj ->]. congruence. Qed.

Lemma groups_inj l l' : contract_transfer_groups l = contract_transfer_groups l' → l = l'.
Proof. apply map_hex_inj. intros [h z] [h' z'] [= Hh%hex_inj Hz%asset_amounts_inj]. congruence. Qed.

Lemma addresses_inj l l' :
  Forall (λ a, is_normal a = true) l → Forall (λ a, is_normal a = true) l' →
  map address_to_string l = map address_to_string l' → l = l'.
Proof. apply (map_inj address_to_string (λ a, is_normal a = true)), address_inj. Qed.

Lemma extra_data_inj x x' r :
  (∀ d, pt_data x = Some d → element_wf d) → (∀ d, pt_data x' = Some d → element_wf d) →
  extra_data x Detailed = Ok r → extra_data x' Detailed = Ok r → x = x'.
Proof.
  destruct x as [[d|] flag], x' as [[d'|] flag']; unfold extra_data; cbn; intros Hd Hd' [= <-] [= Hf].
  - pose proof (element_inj d' d (Hd' _ eq_refl) (Hd _ eq_refl)).
    destruct flag, flag'; naive_solver.
  - destruct flag, flag'; naive_solver.
Qed.

Lemma optional_extra_inj x x' r :
  Forall element_wf (omap (λ x, x ≫= pt_data) [x]) →
  Forall element_wf (omap (λ x, x ≫= pt_data) [x']) →
  optional_extra_data x Detailed = Ok r → optional_extra_data x' Detailed = Ok r → x = x'.
Proof.
  intros Hw Hw' Hx Hx'. destruct x as [x|], x' as [x'|]; cbn in Hx, Hx'; try by simplify_eq.
  - apply fmap_Ok in Hx as (y & Hy & <-), Hx' as (y' & Hy' & [= ->]). f_equal.
    eapply extra_data_inj; [| |done|done]; intros d Hd; cbn in Hw, Hw'.
    + rewrite Hd in Hw. by inversion Hw.
    + rewrite Hd in Hw'. by inversion Hw'.
  - apply fmap_Ok in Hx as (y & Hy & <-). simplify_eq.
  - apply fmap_Ok in Hx' as (y & Hy & <-). simplify_eq.
Qed.

(** Lists of transfers, one by one. *)
Lemma mapM_inj {A B E} (f : A → result E B) (g : A → list DataElement) (h : A → list Address)
    l l' k :
  (∀ x x' y, Forall element_wf (g x) → Forall element_wf (g x') →
     Forall (λ a, is_normal a = true) (h x) → Forall (λ a, is_normal a = true) (h x') →
     f x = Ok y → f x' = Ok y → x = x') →
  Forall (λ x, Forall element_wf (g x) ∧ Forall (λ a, is_normal a = true) (h x)) l →
  Forall (λ x, Forall element_wf (g x) ∧ Forall (λ a, is_normal a = true) (h x)) l' →
  mapM f l = Ok k → mapM f l' = Ok k → l = l'.
Proof.
  intros Hf Hl Hl' Hk%mapM_Ok Hk'%mapM_Ok. revert l' Hl' Hk' Hl.
  induction Hk as [|x y l k Hx _ IH]; intros l' Hl' Hk' Hl; inversion Hk'; [done|]; subst.
  inversion Hl as [|?? [] ?]; inversion Hl' as [|?? [] ?]; subst. f_equal; eauto.
Qed.

Lemma transfer_in_inj x x' y :
  Forall element_wf (omap (λ x, x ≫= pt_data) [ti_extra_data x]) →
  Forall element_wf (omap (λ x, x ≫= pt_data) [ti_extra_data x']) →
  transfer_in x Detailed = Ok y → transfer_in x' Detailed = Ok y → x = x'.
Proof.
  unfold transfer_in. intros Hw Hw' (e & He & <-)%bind_Ok (e' & He' & [= Hh%hex_inj Ha ->])%bind_Ok.
  destruct x, x'; cbn in *. subst. f_equal. by eapply optional_extra_inj.
Qed.

Lemma transfer_out_inj x x' y :
  Forall element_wf (omap (λ x, x ≫= pt_data) [to_extra_data x]) →
  Forall element_wf (omap (λ x, x ≫= pt_data) [to_extra_data x']) →
  is_normal (to_destination x) = true → is_normal (to_destination x') = true →
  transfer_out x Detailed = Ok y → transfer_out x' Detailed = Ok y → x = x'.
Proof.
  unfold transfer_out. intros Hw Hw' Hn Hn' (e & He & [= <-])%bind_Ok
    (e' & He' & [= Hd Hh%hex_inj Ha ->])%bind_Ok.
  apply address_inj in Hd; [|done..]. destruct x, x'; cbn in *. subst. f_equal.
  by eapply optional_extra_inj.
Qed.

Lemma omap_Forall {A B} (P : B → Prop) (f : A → option B) l :
  Forall P (omap f l) ↔ Forall (λ x, Forall P (omap f [x])) l.
Proof.
  induction l as [|x l IH]; [done|]. cbn. rewrite Forall_cons, <-IH. destruct (f x).
  - by rewrite Forall_cons, Forall_singleton.
  - split; [auto|tauto].
Qed.

Lemma transfers_wf {A} (g : A → option PlaintextExtraData) (h : A → list Address) l :
  Forall element_wf (omap (λ x, x ≫= pt_data) (map g l)) →
  Forall (λ x, Forall (λ a, is_normal a = true) (h x)) l →
  Forall (λ x, Forall element_wf (omap (λ x, x ≫= pt_data) [g x]) ∧
               Forall (λ a, is_normal a = true) (h x)) l.
Proof.
  rewrite omap_Forall. intros Hd Ha. apply (Forall_fmap g) in Hd. apply Forall_and. split; [exact Hd|exact Ha].
Qed.

Lemma each_singleton {A B} (P : B → Prop) (f : A → B) l :
  Forall P (map f l) → Forall (λ x, Forall P [f x]) l.
Proof.
  intros Hl. apply (Forall_fmap f) in Hl. eapply Forall_impl; [done|]. intros x Hx.
  by apply Forall_singleton.
Qed.

(** With everything disclosed, nothing is lost: entries
    whose data is within the protocol's limits and whose addresses are plain
    are determined by what is shown of them. *)
Theorem detailed_projection_lossless e e' r :
  entry_wf e → entry_wf e' →
  transaction_entry_data e Detailed = Ok r → transaction_entry_data e' Detailed = Ok r → e = e'.
Proof.
  intros [Ha Hd] [Ha' Hd'] He He'.
  destruct e, e'; cbn in He, He';
    repeat match goal with
    | Hm : _ ≫= _ = Ok _ |- _ => apply bind_Ok in Hm as (? & ? & Hm)
    end; simplify_eq; try done;
    repeat match goal with
    | Hx : hash_to_hex _ = hash_to_hex _ |- _ => apply hex_inj in Hx as ->
    | Hx : asset_amounts _ = asset_amounts _ |- _ => apply asset_amounts_inj in Hx as ->
    | Hx : contract_transfer_groups _ = contract_transfer_groups _ |- _ =>
        apply groups_inj in Hx as ->
    end; unfold extra_payloads in Hd, Hd'; cbn [transfer_addresses] in Ha, Ha'; try done.
  - inversion Ha; inversion Ha'; subst. f_equal; [by apply address_inj|].
    apply (mapM_inj (λ v, transfer_in v Detailed)
             (λ x, omap (λ x, x ≫= pt_data) [ti_extra_data x]) (λ _, []) _ _ x);
      [intros; by eapply transfer_in_inj| | |done|done];
      apply transfers_wf; auto using Forall_true.
  - f_equal. apply (mapM_inj (λ v, transfer_out v Detailed)
             (λ x, omap (λ x, x ≫= pt_data) [to_extra_data x]) (λ x, [to_destination x]) _ _ x);
      [intros ???; rewrite !Forall_singleton; intros; by eapply transfer_out_inj
      | | |done|done];
      apply transfers_wf; try done;
      by apply each_singleton.
  - f_equal. by apply addresses_inj.
  - f_equal. destruct invoke as [[]|], invoke0 as [[]|]; simplify_eq/=; try done.
    by match goal with Hx : asset_amounts _ = asset_amounts _ |- _ =>
      apply asset_amounts_inj in Hx as -> end.
  - f_equal; [by apply addresses_inj|]. eapply extra_data_inj; [| |done|done]; intros d Hx;
      [cbn in Hd; rewrite Hx in Hd; by inversion Hd|cbn in Hd'; rewrite Hx in Hd'; by inversion Hd'].
  - inversion Ha; inversion Ha'; subst.
    f_equal; [by apply address_inj|by apply addresses_inj|].
    eapply extra_data_inj; [| |done|done]; intros d Hx;
      [cbn in Hd; rewrite Hx in Hd; by inversion Hd|cbn in Hd'; rewrite Hx in Hd'; by inversion Hd'].
Qed.
End Lossless.

End Entries.

(** ** Concrete inputs *)

#[local] Existing Instances demo_hash demo_address demo_hash_laws demo_address_laws.

Definition memo (text : string) : EntryType :=
  Incoming (address_new true None "alice")
    [mkTransferIn XELIS_ASSET 5 (Some (mkPlaintext (Some (DValue (DString text))) PPrivate))].

(** Two memos look the same unless the details were asked for. *)
Lemma disclosure_bounds_projection_witness :
  transaction_entry_data (memo "rent") Metadata = transaction_entry_data (memo "bribe") Metadata ∧
  transaction_entry_data (memo "rent") Detailed ≠ transaction_entry_data (memo "bribe") Detailed.
Proof.
  split; [apply (disclosure_bounds_projection Metadata (memo "rent") (memo "bribe")); reflexivity|].
  vm_compute. discriminate.
Defined.

Lemma memo_wf text : entry_wf (memo text).
Proof. split; repeat constructor. Qed.

Lemma detailed_projection_lossless_witness : memo "rent" = memo "rent".
Proof.
  eapply (detailed_projection_lossless (memo "rent") (memo "rent"));
    [apply memo_wf|apply memo_wf|reflexivity|reflexivity].
Defined.

End Entries.
