(* ===== verification/Events.v ===== *)
(** * Event subscriptions
    (rust/src/api/wallet/runtime_events.rs, wallet/business_events.rs and
    models/runtime_event_dtos.rs, models/business_event_dtos.rs)

    Two cursors over the wallet's event channel, one for the runtime events of
    a connection and one for the business events of a session.  The code of the
    two is the same but for their events and error labels, so the cursor is
    defined once over a [Contract] and instantiated twice.  Calls of
    [next_event], cancellations and the wallet that publishes events are
    interleaved. *)

From stdpp Require Import list_numbers.
From S2P Require Import Prelude Errors External Tasks Addresses Entries.

Module Events.
Import Tasks Entries.

(** [xelis_wallet::wallet::Event]. *)
Inductive Event `{!HashLib, !AddressLib} : Type :=
  | ENewTopoHeight (topoheight : Z)
  | ERescan (start_topoheight : Z)
  | EHistorySynced (topoheight : Z)
  | EOnline
  | EOffline
  | ESyncError (message : string)
  | ENewTransaction (transaction : TransactionEntry)
  | ENewPendingTransaction (transaction : TransactionPending)
  | EBalanceChanged (asset : Hash) (balance : Z)
  | ENewAsset (asset : Hash) (topoheight : Z) (inner : AssetData)
  | ETrackAsset (asset : Hash)
  | EUntrackAsset (asset : Hash).

(** ** What the two subscriptions report *)

Definition NATIVE_WALLET_RUNTIME_EVENT_VERSION : Z := 1.
Definition NATIVE_WALLET_BUSINESS_EVENT_VERSION : Z := 1.

Inductive StreamCloseReason : Type := NativeChannelClosed.

Inductive NativeWalletRuntimeEvent : Type :=
  | ROnline | ROffline
  | RSyncIssue (failure : NativeXelisError)
  | RNewTopoHeight (topoheight : Z)
  | RRescan (start_topoheight : Z)
  | RHistorySynced (topoheight : Z)
  | RDegraded (skipped_events : Z) (failure : NativeXelisError)
  | RClosed (reason : StreamCloseReason) (failure : NativeXelisError).

Inductive NativeWalletBusinessEvent : Type :=
  | BNewTransaction (transaction : NativeWalletTransactionEntry)
  | BNewPendingTransaction (transaction : NativeWalletPendingTransaction)
  | BBalanceChanged (asset : string) (balance : Z)
  | BNewAsset (asset : NativeWalletAsset)
  | BAssetTracked (asset : string)
  | BAssetUntracked (asset : string)
  | BDegraded (skipped_events : Z) (failure : NativeXelisError)
  | BClosed (reason : StreamCloseReason) (failure : NativeXelisError).

Section Projection.
Context `{!HashLib, !AddressLib}.

Definition runtime_event_from_wallet_event (event : Event) : option NativeWalletRuntimeEvent :=
  match event with
  | ENewTopoHeight topoheight => Some (RNewTopoHeight topoheight)
  | ERescan start_topoheight => Some (RRescan start_topoheight)
  | EHistorySynced topoheight => Some (RHistorySynced topoheight)
  | EOnline => Some ROnline
  | EOffline => Some ROffline
  | ESyncError message =>
      Some (RSyncIssue (xelis_wallet CodeOperationFailed "WALLET_SYNC_ERROR" message))
  | ENewTransaction _ | ENewPendingTransaction _ | EBalanceChanged _ _ | ENewAsset _ _ _
  | ETrackAsset _ | EUntrackAsset _ => None
  end.

Definition business_event_projection_error `{ErrorText} (error : anyhow_error) :
    NativeXelisError :=
  from_wallet_operation error CodeSerialization "WALLET_BUSINESS_EVENT_PROJECTION_FAILED".

Definition business_event_from_wallet_event_with_projection `{ErrorText} (event : Event)
    (extra_data_projection : ExtraDataProjection) :
    result NativeXelisError (option NativeWalletBusinessEvent) :=
  match event with
  | ENewTransaction transaction =>
      transaction ← map_err business_event_projection_error
                      (transaction_entry transaction extra_data_projection);
      Ok (Some (BNewTransaction transaction))
  | ENewPendingTransaction transaction =>
      transaction ← map_err business_event_projection_error
                      (pending_transaction transaction extra_data_projection);
      Ok (Some (BNewPendingTransaction transaction))
  | EBalanceChanged asset balance => Ok (Some (BBalanceChanged (hash_to_hex asset) balance))
  | ENewAsset asset topoheight inner =>
      Ok (Some (BNewAsset (mkAsset (hash_to_hex asset) topoheight (asset_metadata inner))))
  | ETrackAsset asset => Ok (Some (BAssetTracked (hash_to_hex asset)))
  | EUntrackAsset asset => Ok (Some (BAssetUntracked (hash_to_hex asset)))
  | ENewTopoHeight _ | ERescan _ | EHistorySynced _ | EOnline | EOffline | ESyncError _ =>
      Ok None
  end.

(** The two subscriptions share the wallet's events out:
    every event is reported by exactly one of them, and never as an error. *)
Theorem events_partitioned `{ErrorText} event projection :
  ∃ b, business_event_from_wallet_event_with_projection event projection = Ok b ∧
    (runtime_event_from_wallet_event event = None ↔ b ≠ None).
Proof.
  destruct event as [| | | | | |t|t| | | |]; cbn; try (eexists; split; [reflexivity|by split]).
  - pose proof (transaction_entry_data_total (te_entry t) projection) as Ht.
    unfold transaction_entry. destruct (transaction_entry_data _ _); [|done]. by eexists.
  - pose proof (transaction_entry_data_total (tp_entry t) projection) as Ht.
    unfold pending_transaction. destruct (transaction_entry_data _ _); [|done]. by eexists.
Qed.
End Projection.

(** ** The cursor *)

(** What the two subscriptions do not share. *)
Record Contract `{!HashLib, !AddressLib} (E : Type) : Type := mkContract {
  frame_version : Z;
  project : Event → result NativeXelisError (option E);
  degraded : Z → E;
  closed_event : E;
  sequence_exhausted : NativeXelisError;
  next_in_progress_error : NativeXelisError;
  generation_exhausted : NativeXelisError
}.
Arguments frame_version {_ _ E}.
Arguments project {_ _ E}.
Arguments degraded {_ _ E}.
Arguments closed_event {_ _ E}.
Arguments sequence_exhausted {_ _ E}.
Arguments next_in_progress_error {_ _ E}.
Arguments generation_exhausted {_ _ E}.

Definition runtime_contract `{!HashLib, !AddressLib} : Contract NativeWalletRuntimeEvent :=
  mkContract _ _ _ NATIVE_WALLET_RUNTIME_EVENT_VERSION
    (λ event, Ok (runtime_event_from_wallet_event event))
    (λ skipped_events, RDegraded skipped_events
       (xelis_wallet_flutter CodeStreamLagged "WALLET_EVENTS_LAGGED"
          ("Runtime event receiver skipped " +:+ uint_to_string skipped_events +:+
           " upstream events")))
    (RClosed NativeChannelClosed
       (xelis_wallet_flutter CodeStreamClosedUnexpectedly "WALLET_EVENT_STREAM_CLOSED"
          "Native wallet event channel closed while the subscription was active"))
    (xelis_wallet_flutter CodeInternal "WALLET_EVENT_SEQUENCE_EXHAUSTED"
       "Runtime event sequence exhausted u64")
    (xelis_wallet_flutter CodeOperationInProgress "WALLET_EVENT_NEXT_IN_PROGRESS"
       "Only one runtime event read may be active per subscription")
    (xelis_wallet_flutter CodeInternal "WALLET_EVENT_GENERATION_EXHAUSTED"
       "Runtime event subscription generation exhausted u64").

Definition business_contract `{!HashLib, !AddressLib, ErrorText}
    (extra_data_projection : ExtraDataProjection) : Contract NativeWalletBusinessEvent :=
  mkContract _ _ _ NATIVE_WALLET_BUSINESS_EVENT_VERSION
    (λ event, business_event_from_wallet_event_with_projection event extra_data_projection)
    (λ skipped_events, BDegraded skipped_events
       (xelis_wallet_flutter CodeStreamLagged "WALLET_BUSINESS_EVENTS_LAGGED"
          ("Business event receiver skipped " +:+ uint_to_string skipped_events +:+
           " upstream events")))
    (BClosed NativeChannelClosed
       (xelis_wallet_flutter CodeStreamClosedUnexpectedly "WALLET_BUSINESS_EVENT_STREAM_CLOSED"
          "Native wallet business event channel closed while the subscription was active"))
    (xelis_wallet_flutter CodeInternal "WALLET_BUSINESS_EVENT_SEQUENCE_EXHAUSTED"
       "Business event sequence exhausted u64")
    (xelis_wallet_flutter CodeOperationInProgress "WALLET_BUSINESS_EVENT_NEXT_IN_PROGRESS"
       "Only one business event read may be active per subscription")
    (xelis_wallet_flutter CodeInternal "WALLET_BUSINESS_EVENT_GENERATION_EXHAUSTED"
       "Business event subscription generation exhausted u64").

(** Neither projection fails. *)
Lemma runtime_contract_total `{!HashLib, !AddressLib} event :
  is_ok (project runtime_contract event) = true.
Proof. done. Qed.

Lemma business_contract_total `{!HashLib, !AddressLib, ErrorText} projection event :
  is_ok (project (business_contract projection) event) = true.
Proof.
  destruct event as [| | | | | |t|t| | | |]; try done; cbn.
  - pose proof (transaction_entry_data_total (te_entry t) projection) as Ht.
    unfold transaction_entry. by destruct (transaction_entry_data _ _).
  - pose proof (transaction_entry_data_total (tp_entry t) projection) as Ht.
    unfold pending_transaction. by destruct (transaction_entry_data _ _).
Qed.

Section Cursor.
Context `{!HashLib, !AddressLib} {E : Type} (c : Contract E).

Record Frame : Type := mkFrame {
  f_version : Z;
  f_generation : Z;
  f_sequence : Z;
  f_event : E
}.

(** A tokio broadcast receiver: what it has not received yet, how many events
    were overwritten before that, and whether the senders are gone. *)
Record Receiver : Type := mkReceiver {
  queue : list Event;
  lagged : nat;
  sender_closed : bool
}.
Inductive received : Type := GotEvent (event : Event) | GotLagged (n : nat) | GotClosed.

(** [receiver.recv()] when it is ready. *)
Definition recv (r : Receiver) : option (received * Receiver) :=
  match lagged r, queue r with
  | S n, _ => Some (GotLagged (S n), mkReceiver (queue r) 0 (sender_closed r))
  | O, event :: queue => Some (GotEvent event, mkReceiver queue 0 (sender_closed r))
  | O, [] => if sender_closed r then Some (GotClosed, r) else None
  end.

(** The subscription with its state; [changed] tells whether the watch channel
    of the cancellation has a value that its receiver has not seen. *)
Record Subscription : Type := mkSubscription {
  generation : Z;
  receiver : Receiver;
  next_sequence : Z;
  state_lock : bool;
  changed : bool;
  cancelled : bool;
  next_in_progress : bool;
  terminated : bool
}.

Definition subscription_new (generation : Z) (receiver : Receiver) : Subscription :=
  mkSubscription generation receiver 1 false false false false false.

Definition set_receiver r (s : Subscription) : Subscription :=
  mkSubscription (generation s) r (next_sequence s) (state_lock s) (changed s) (cancelled s)
    (next_in_progress s) (terminated s).
Definition set_next_sequence v (s : Subscription) : Subscription :=
  mkSubscription (generation s) (receiver s) v (state_lock s) (changed s) (cancelled s)
    (next_in_progress s) (terminated s).
Definition set_state_lock v (s : Subscription) : Subscription :=
  mkSubscription (generation s) (receiver s) (next_sequence s) v (changed s) (cancelled s)
    (next_in_progress s) (terminated s).
Definition set_changed v (s : Subscription) : Subscription :=
  mkSubscription (generation s) (receiver s) (next_sequence s) (state_lock s) v (cancelled s)
    (next_in_progress s) (terminated s).
Definition set_cancelled v (s : Subscription) : Subscription :=
  mkSubscription (generation s) (receiver s) (next_sequence s) (state_lock s) (changed s) v
    (next_in_progress s) (terminated s).
Definition set_next_in_progress v (s : Subscription) : Subscription :=
  mkSubscription (generation s) (receiver s) (next_sequence s) (state_lock s) (changed s)
    (cancelled s) v (terminated s).
Definition set_terminated v (s : Subscription) : Subscription :=
  mkSubscription (generation s) (receiver s) (next_sequence s) (state_lock s) (changed s)
    (cancelled s) (next_in_progress s) v.

(** [next_frame]: the sequence is not advanced when it is exhausted. *)
Definition next_frame (event : E) (s : Subscription) : result NativeXelisError Frame * Subscription :=
  let sequence := next_sequence s in
  match checked_add u64_max (next_sequence s) 1 with
  | None => (Err (sequence_exhausted c), s)
  | Some next =>
      (Ok (mkFrame (frame_version c) (generation s) sequence event), set_next_sequence next s)
  end.

(** The body of the loop after the [select!]: [None] when it goes on. *)
Definition handle_received (r : received) (s : Subscription) :
    option (result NativeXelisError Frame) * Subscription :=
  match r with
  | GotEvent event =>
      match project c event with
      | Err error => (Some (Err error), s)
      | Ok None => (None, s)
      | Ok (Some event) => let '(frame, s) := next_frame event s in (Some frame, s)
      end
  | GotLagged skipped_events =>
      let '(frame, s) := next_frame (degraded c (Z.of_nat skipped_events)) s in (Some frame, s)
  | GotClosed =>
      let '(frame, s) := next_frame (closed_event c) (set_terminated true s) in (Some frame, s)
  end.

(** ** The calls *)

(** How a call of [next_event] ends: with a result, or dropped by its caller
    while it waits. *)
Inductive outcome : Type :=
  | Returns (r : result NativeXelisError (option Frame))
  | Dropped.

(** [next_event]: where a call stands.  The guards are dropped in the reverse
    order of their declaration. *)
Inductive read_pc : Type :=
  | BeginNext | CheckFlags | LockState | LoopTop | Select
  | UnlockState (o : outcome) | DropGuard (o : outcome).
(** [cancel_internal], called by [cancel] and by the drop of the subscription. *)
Inductive cancel_pc : Type := SwapCancelled | SendCancellation.
Inductive task : Type :=
  | Read (p : read_pc)
  | Cancel (p : cancel_pc)
  | Done (o : outcome)
  | CancelDone.

Record State : Type := mkState {
  sub : Subscription;
  published : list Event;
  seen : list received;
  produced : list (result NativeXelisError Frame);
  signalled : bool
}.
Definition with_sub (s : Subscription) (x : State) : State :=
  mkState s (published x) (seen x) (produced x) (signalled x).

Definition goto (s : Subscription) (x : State) (t : task) : option (State * task) :=
  Some (with_sub s x, t).

Definition exec_read (p : read_pc) (x : State) : option (State * task) :=
  let s := sub x in
  match p with
  | BeginNext =>
      if next_in_progress s
      then goto s x (Done (Returns (Err (next_in_progress_error c))))
      else goto (set_next_in_progress true s) x (Read CheckFlags)
  | CheckFlags =>
      if cancelled s || terminated s then goto s x (Read (DropGuard (Returns (Ok None))))
      else goto s x (Read LockState)
  | LockState =>
      if state_lock s then None else goto (set_state_lock true s) x (Read LoopTop)
  | LoopTop =>
      if cancelled s then goto s x (Read (UnlockState (Returns (Ok None))))
      else goto s x (Read Select)
  | Select =>
      if changed s
      then goto (set_changed false s) x (Read (UnlockState (Returns (Ok None))))
      else match recv (receiver s) with
           | None => None
           | Some (r, rest) =>
               let '(frame, s) := handle_received r (set_receiver rest s) in
               let x := mkState s (published x) (seen x ++ [r])
                          (produced x ++ option_list frame) (signalled x) in
               Some (x, match frame with
                        | None => Read LoopTop
                        | Some frame => Read (UnlockState (Returns (Some <$> frame)))
                        end)
           end
  | UnlockState o => goto (set_state_lock false s) x (Read (DropGuard o))
  | DropGuard o => goto (set_next_in_progress false s) x (Done o)
  end.

Definition exec_cancel (p : cancel_pc) (x : State) : option (State * task) :=
  let s := sub x in
  match p with
  | SwapCancelled =>
      goto (set_cancelled true s) x (if cancelled s then CancelDone else Cancel SendCancellation)
  | SendCancellation =>
      Some (mkState (set_changed true s) (published x) (seen x) (produced x) true, CancelDone)
  end.

Definition exec (t : task) (x : State) : option (State * task) :=
  match t with
  | Read p => exec_read p x
  | Cancel p => exec_cancel p x
  | Done _ | CancelDone => None
  end.

(** Its caller drops a call that waits. *)
Definition abort (t : task) : option task :=
  match t with
  | Read LockState => Some (Read (DropGuard Dropped))
  | Read Select => Some (Read (UnlockState Dropped))
  | _ => None
  end.

(** ** The system *)

Record System : Type := mkSystem { state : State; tasks : list task }.

Definition next_event : task := Read BeginNext.
Definition cancel : task := Cancel SwapCancelled.
Definition is_call (t : task) : bool :=
  match t with Read BeginNext | Cancel SwapCancelled => true | _ => false end.

(** A call steps, is dropped or is made; the wallet publishes an event, an
    event that was not read is overwritten, or the wallet goes away. *)
Inductive label : Type :=
  | Run (i : nat)
  | Abort (i : nat)
  | Call (t : task)
  | Publish (event : Event)
  | Overwrite
  | CloseChannel.

Definition run (i : nat) (y : System) : option System :=
  t ← tasks y !! i;
  '(x, t) ← exec t (state y);
  Some (mkSystem x (<[i := t]> (tasks y))).

Definition run_abort (i : nat) (y : System) : option System :=
  t ← tasks y !! i;
  t ← abort t;
  Some (mkSystem (state y) (<[i := t]> (tasks y))).

(** What the senders do to the channel; a published event is logged. *)
Definition channel_step (l : label) (r : Receiver) : option (Receiver * list Event) :=
  match l with
  | Publish event =>
      if sender_closed r then None
      else Some (mkReceiver (queue r ++ [event]) (lagged r) false, [event])
  | Overwrite =>
      match queue r with
      | [] => None
      | _ :: queue => Some (mkReceiver queue (S (lagged r)) (sender_closed r), [])
      end
  | CloseChannel => Some (mkReceiver (queue r) (lagged r) true, [])
  | _ => None
  end.

Definition step (y : System) (l : label) : option System :=
  match l with
  | Run i => run i y
  | Abort i => run_abort i y
  | Call t =>
      if is_call t
      then Some (mkSystem (state y) (tasks y ++ [t])) else None
  | Publish _ | Overwrite | CloseChannel =>
      '(r, events) ← channel_step l (receiver (sub (state y)));
      let x := state y in
      Some (mkSystem
        (mkState (set_receiver r (sub x)) (published x ++ events) (seen x) (produced x)
           (signalled x)) (tasks y))
  end.

Definition initial (generation : Z) (y : System) : Prop :=
  y = mkSystem (mkState (subscription_new generation (mkReceiver [] 0 false)) [] [] [] false) [].

Definition reached (generation : Z) (y : System) : Prop :=
  ∃ labels, reachable (initial generation) (λ y l y', step y l = Some y') labels y.

(** ** What holds in every interleaving *)

(** The guard of [begin_next], and the lock of the state. *)
Definition reading (t : task) : option unit :=
  match t with Read BeginNext => None | Read _ => Some tt | _ => None end.
Definition locking (t : task) : option unit :=
  match t with Read (LoopTop | Select | UnlockState _) => Some tt | _ => None end.
(** A call that can still receive. *)
Definition receives (t : task) : bool :=
  match t with Read (LockState | LoopTop | Select) => true | _ => false end.

(** What is reported of what was received. *)
Definition report (r : received) : option E :=
  match r with
  | GotEvent event => match project c event with Ok event => event | Err _ => None end
  | GotLagged skipped_events => Some (degraded c (Z.of_nat skipped_events))
  | GotClosed => Some (closed_event c)
  end.

(** The frames of a list of reports, numbered from 1. *)
Definition frames (generation : Z) (reports : list E) : list (result NativeXelisError Frame) :=
  imap (λ k event, Ok (mkFrame (frame_version c) generation (Z.of_nat k + 1) event)) reports.

(** Every event was received, or is counted as skipped. *)
Inductive covers : list Event → list received → Prop :=
  | covers_nil : covers [] []
  | covers_event events rs event :
      covers events rs → covers (events ++ [event]) (rs ++ [GotEvent event])
  | covers_lagged events rs skipped :
      covers events rs → covers (events ++ skipped) (rs ++ [GotLagged (length skipped)])
  | covers_closed events rs : covers events rs → covers events (rs ++ [GotClosed]).

Record channel_ok (x : State) : Prop := mkChannelOk {
  ch_accounts : ∃ received missed,
    published x = received ++ missed ++ queue (receiver (sub x)) ∧
    covers received (seen x) ∧ length missed = lagged (receiver (sub x))
}.

Record invariant (g : Z) (y : System) : Prop := mkInvariant {
  in_reading : count reading tt (tasks y) = one (next_in_progress (sub (state y)));
  in_locking : count locking tt (tasks y) = one (state_lock (sub (state y)));
  in_channel : channel_ok (state y);
  in_generation : generation (sub (state y)) = g;
  in_frames :
    (∀ event, is_ok (project c event) = true) →
    (Z.of_nat (length (seen (state y))) < u64_max)%Z →
    produced (state y) = frames g (omap report (seen (state y))) ∧
    next_sequence (sub (state y)) = (Z.of_nat (length (omap report (seen (state y)))) + 1)%Z;
  in_signalled : signalled (state y) = true →
    cancelled (sub (state y)) = true ∧
    (Read Select ∈ tasks y → changed (sub (state y)) = true);
  in_sending : cancelled (sub (state y)) = true →
    signalled (state y) = true ∨ Cancel SendCancellation ∈ tasks y;
  in_pending : Cancel SendCancellation ∈ tasks y → cancelled (sub (state y)) = true;
  in_terminated : terminated (sub (state y)) = true →
    ∀ t, t ∈ tasks y → receives t = false
}.

Ltac exec_cases t H :=
  destruct t as [[]|[]| |]; unfold exec, exec_read, exec_cancel, goto in H;
  simplify_eq; repeat (case_match; simplify_eq; try done).

Lemma frames_snoc g reports event :
  frames g (reports ++ [event]) =
  frames g reports ++
    [Ok (mkFrame (frame_version c) g (Z.of_nat (length reports) + 1) event)].
Proof. unfold frames. rewrite imap_app. cbn. by rewrite Nat.add_0_r. Qed.

(** Receiving keeps the account of the events. *)
Lemma recv_covers r g rest :
  recv r = Some (g, rest) → ∀ pub rs,
  (∃ received missed, pub = received ++ missed ++ queue r ∧ covers received rs ∧
     length missed = lagged r) →
  ∃ received missed, pub = received ++ missed ++ queue rest ∧ covers received (rs ++ [g]) ∧
     length missed = lagged rest.
Proof.
  intros Hr pub rs (received & missed & -> & Hc & Hm). unfold recv in Hr.
  destruct (lagged r) as [|n] eqn:Hl.
  - apply nil_length_inv in Hm as ->. destruct (queue r) as [|event q] eqn:Hq.
    + destruct (sender_closed r); simplify_eq. exists received, []. rewrite Hq, Hl.
      split_and!; [done|by apply covers_closed|done].
    + simplify_eq. exists (received ++ [event]), []. split_and!; [|by apply covers_event|done].
      by rewrite <-app_assoc.
  - simplify_eq. exists (received ++ missed), []. cbn. split_and!; [|by rewrite <-Hm; apply covers_lagged|done].
    by rewrite <-app_assoc.
Qed.

Lemma recv_receiver g s r rest :
  (handle_received g (set_receiver rest s)) = r → receiver r.2 = rest ∧ generation r.2 = generation s ∧
  state_lock r.2 = state_lock s ∧ changed r.2 = changed s ∧ cancelled r.2 = cancelled s ∧
  next_in_progress r.2 = next_in_progress s.
Proof.
  intros <-. unfold handle_received, next_frame. repeat (case_match; simplify_eq/=); done.
Qed.

Lemma handle_none g s s' : handle_received g s = (None, s') → terminated s' = terminated s.
Proof.
  unfold handle_received, next_frame. intros Hh. repeat (case_match; simplify_eq/=); done.
Qed.

(** The loop ends with a received event that is reported. *)
Lemma handle_spec g s k :
  (∀ event, is_ok (project c event) = true) →
  next_sequence s = (Z.of_nat k + 1)%Z → (Z.of_nat k + 1 < u64_max)%Z →
  match report g with
  | None => (handle_received g s).1 = None ∧ next_sequence (handle_received g s).2 = next_sequence s
  | Some event =>
      (handle_received g s).1 =
        Some (Ok (mkFrame (frame_version c) (generation s) (Z.of_nat k + 1) event)) ∧
      next_sequence (handle_received g s).2 = (Z.of_nat (S k) + 1)%Z
  end.
Proof.
  intros Hp Hs Hk. assert (checked_add u64_max (Z.of_nat k + 1) 1 = Some (Z.of_nat (S k) + 1)%Z) as Hadd.
  { apply checked_add_Some. lia. }
  destruct g as [event| |]; cbn; unfold next_frame; cbn; rewrite ?Hs, ?Hadd; cbn; try done.
  specialize (Hp event). destruct (project c event) as [[event'|]|]; [|done|done].
  cbn. by rewrite ?Hs, ?Hadd.
Qed.

(** ** Steps keep the invariant *)

Section Run.
Context (g : Z) (i : nat) (t : task) (x x' : State) (t' : task) (ts : list task).
Hypothesis Hi : ts !! i = Some t.
Hypothesis Hx : exec t x = Some (x', t').
Hypothesis Hinv : invariant g (mkSystem x ts).

Lemma run_counts :
  count reading tt (<[i := t']> ts) = one (next_in_progress (sub x')) ∧
  count locking tt (<[i := t']> ts) = one (state_lock (sub x')).
Proof.
  pose proof (in_reading _ _ Hinv) as Hr. pose proof (in_locking _ _ Hinv) as Hl. cbn [tasks state] in Hr, Hl.
  pose proof (count_step reading tt ts i t t' [] Hi) as Hr'.
  pose proof (count_step locking tt ts i t t' [] Hi) as Hl'. rewrite app_nil_r in Hr', Hl'.
  revert Hr Hl Hr' Hl'. rewrite !count_nil. generalize (count reading tt (<[i:=t']> ts)).
  generalize (count locking tt (<[i:=t']> ts)). generalize (count reading tt ts).
  generalize (count locking tt ts). clear Hi Hinv. intros n1 n2 n3 n4 Hr Hl.
  destruct (next_in_progress (sub x)) eqn:En, (state_lock (sub x)) eqn:El; cbn in Hr, Hl; subst.
  all: exec_cases t Hx; cbn;
    try match goal with Hh : handle_received _ _ = _ |- _ => apply recv_receiver in Hh; cbn in Hh end;
    repeat (case_bool_decide; simplify_eq/=); destruct_and?;
    repeat match goal with
           | Hb : next_in_progress _ = _ |- _ => rewrite Hb
           | Hb : state_lock _ = _ |- _ => rewrite Hb
           end; cbn; lia.
Qed.

Lemma run_channel : channel_ok x'.
Proof.
  pose proof (in_channel _ _ Hinv) as [Hch]. cbn in Hch.
  clear Hi Hinv. constructor. exec_cases t Hx; cbn; try done.
  all: match goal with Hh : handle_received _ _ = _, Hr : recv _ = _ |- _ =>
    apply recv_receiver in Hh as (Hrec & _); cbn in Hrec; rewrite Hrec; by eapply recv_covers end.
Qed.

Lemma run_frames :
  generation (sub x') = g ∧
  ((∀ event, is_ok (project c event) = true) →
   (Z.of_nat (length (seen x')) < u64_max)%Z →
   produced x' = frames g (omap report (seen x')) ∧
   next_sequence (sub x') = (Z.of_nat (length (omap report (seen x'))) + 1)%Z).
Proof.
  pose proof (in_generation _ _ Hinv) as Hg. pose proof (in_frames _ _ Hinv) as Hfr.
  cbn in Hg, Hfr. clear Hi Hinv. exec_cases t Hx; cbn; try done.
  all: match goal with Hh : handle_received ?r (set_receiver ?rest ?s) = _ |- _ =>
    pose proof (recv_receiver r s _ rest Hh) as (_ & Hg' & _);
    split; [cbn in Hg'; congruence|]; intros Hp Hlen; rewrite length_app in Hlen; cbn in Hlen;
    destruct (Hfr Hp ltac:(lia)) as [Hpr Hns];
    pose proof (handle_spec r (set_receiver rest s) (length (omap report (seen x))) Hp Hns) as Hsp;
    rewrite Hh, omap_app in *; cbn in * end.
  all: assert (length (omap report (seen x)) ≤ length (seen x)) as Hle by apply omap_length_le.
  specialize (Hsp ltac:(lia)). rewrite Hpr. destruct (report r) as [event|].
  - destruct Hsp as [-> ->]. rewrite length_app. cbn. split; [|lia].
    change (frames (generation (sub x)) (omap report (seen x)) ++
      [Ok (mkFrame (frame_version c) (generation (sub x))
         (Z.of_nat (length (omap report (seen x))) + 1) event)] =
      frames (generation (sub x)) (omap report (seen x) ++ [event])).
    by rewrite frames_snoc.
  - destruct Hsp as [-> ->]. cbn. by rewrite !app_nil_r.
Qed.

(** Only one call is past its guard. *)
Lemma reading_unique j u :
  ts !! j = Some u → reading u = Some tt → reading t = Some tt → j = i.
Proof.
  intros Hj Hu Ht. destruct (decide (j = i)) as [|Hij]; [done|].
  pose proof (count_two reading tt ts j i u t Hj Hi Hu Ht Hij) as H2.
  pose proof (in_reading _ _ Hinv) as Hr. cbn [tasks state] in Hr. rewrite Hr in H2.
  destruct (next_in_progress _); cbn in H2; lia.
Qed.

Lemma elem_of_run u : u ∈ <[i := t']> ts → u = t' ∨ (u ∈ ts ∧ ∃ j, ts !! j = Some u ∧ j ≠ i).
Proof.
  intros [j Hj]%list_elem_of_lookup. destruct (decide (j = i)) as [->|Hij].
  - rewrite list_lookup_insert_eq in Hj by (by eapply lookup_lt_Some). left. congruence.
  - rewrite list_lookup_insert_ne in Hj by done. right. eauto using list_elem_of_lookup_2.
Qed.

Lemma run_cancelled :
  (cancelled (sub x) = true → cancelled (sub x') = true) ∧
  (signalled x = true → signalled x' = true) ∧
  (signalled x' = true → signalled x = true ∨ t = Cancel SendCancellation ∧ changed (sub x') = true) ∧
  (cancelled (sub x') = true → cancelled (sub x) = true ∨ t' = Cancel SendCancellation) ∧
  (t' = Cancel SendCancellation → cancelled (sub x') = true) ∧
  (t' = Read Select → cancelled (sub x) = false) ∧
  (t ≠ Read Select → changed (sub x) = true → changed (sub x') = true) ∧
  (t = Cancel SendCancellation → signalled x' = true) ∧
  (terminated (sub x') = true → terminated (sub x) = true ∨ t = Read Select ∧ receives t' = false) ∧
  (receives t' = true → t = Read CheckFlags ∧ terminated (sub x') = false ∨ receives t = true).
Proof.
  clear Hi Hinv. exec_cases t Hx; cbn; split_and!; auto; try done.
  all: try match goal with Hh : handle_received _ _ = _ |- _ =>
    pose proof (recv_receiver _ _ _ _ Hh) as (_ & _ & _ & _ & Hcc & _); cbn in Hcc; rewrite ?Hcc end.
  all: try (solve [auto]); try congruence.
  - intros _. left. by apply orb_false_elim in H1 as [].
  - match goal with Hh : handle_received _ _ = _ |- _ => rewrite (handle_none _ _ _ Hh) end. auto.
Qed.

Lemma cursor_run_invariant : invariant g (mkSystem x' (<[i := t']> ts)).
Proof.
  destruct run_counts as [Hc1 Hc2]. destruct run_frames as [Hg Hfr].
  destruct run_cancelled as (Hca & Hsi & Hsi' & Hca' & Hse & Hsel & Hch & Hsd & Hte & Hrc).
  pose proof Hinv as [_ _ _ _ _ Hsig Hsend Hpend Hterm].
  cbn [tasks state] in Hsig, Hsend, Hpend, Hterm.
  constructor; cbn [tasks state]; try done.
  - apply run_channel.
  - intros Hs. split.
    + destruct (Hsi' Hs) as [Hs0|[Ht _]]; [by apply Hca, Hsig|].
      apply Hca, Hpend. rewrite <-Ht. by eapply list_elem_of_lookup_2.
    + intros Hin. destruct (Hsi' Hs) as [Hs0|[_ ?]]; [|done]. destruct (Hsig Hs0) as [Hc Hsl].
      destruct (elem_of_run _ Hin) as [<-|(Hin' & j & Hj & Hij)].
      * rewrite (Hsel eq_refl) in Hc. done.
      * apply Hch; [|auto]. intros Ht. destruct Hij.
        eapply reading_unique; [done|done|by rewrite Ht].
  - intros Hc. destruct (Hca' Hc) as [Hc0| ->].
    + destruct (Hsend Hc0) as [?|Hin]; [auto|].
      destruct (elem_of_step ts i t t' _ [] Hi Hin) as [<-|Hin']; [auto|].
      rewrite app_nil_r in Hin'. auto.
    + right. apply list_elem_of_lookup. exists i. apply list_lookup_insert_eq.
      by eapply lookup_lt_Some.
  - intros Hin. destruct (elem_of_run _ Hin) as [<-|(Hin' & _)]; auto.
  - intros Ht u Hin. destruct (elem_of_run u Hin) as [->|(Hin' & j & Hj & Hij)].
    + destruct (Hte Ht) as [Ht0|[_ ?]]; [|done]. destruct (receives t') eqn:Hr; [|done].
      destruct (Hrc eq_refl) as [[_ ?]|Hr']; [congruence|].
      rewrite (Hterm Ht0 t) in Hr' by (by eapply list_elem_of_lookup_2). done.
    + destruct (Hte Ht) as [Ht0|[Hsl _]]; [by apply Hterm|].
      destruct (receives u) eqn:Hr; [|done]. destruct Hij.
      eapply reading_unique; [done| |by rewrite Hsl]. by destruct u as [[]| | |].
Qed.
End Run.

(** The other labels. *)
Lemma abort_invariant g i y y' : invariant g y → run_abort i y = Some y' → invariant g y'.
Proof.
  intros Hinv (t & Hi & (t' & Ha & Hy)%bind_Some)%bind_Some. simplify_eq.
  destruct Hinv as [Hr Hl Hch Hg Hfr Hsig Hsend Hpend Hterm].
  assert (reading t' = reading t ∧ receives t' = false ∧ t ≠ Cancel SendCancellation ∧
          t' ≠ Cancel SendCancellation ∧ locking t' = locking t) as (Hr1 & Hr2 & Hr3 & Hr4 & Hl1).
  { destruct t as [[]| | |]; cbn in Ha; by simplify_eq. }
  assert (∀ f : task → option unit, f t' = f t →
    count f tt (<[i := t']> (tasks y)) = count f tt (tasks y)) as Hcount.
  { intros f Hf. pose proof (count_step f tt (tasks y) i t t' [] Hi) as Hs.
    rewrite app_nil_r, count_nil, Hf in Hs. lia. }
  assert (∀ u, u ∈ <[i := t']> (tasks y) → u = t' ∨ u ∈ tasks y) as Hin.
  { intros u [->|(? & _)]%(elem_of_run i t); auto. }
  constructor; cbn [state tasks]; try done.
  - by rewrite Hcount.
  - by rewrite Hcount.
  - intros Hs. destruct (Hsig Hs) as [Hc Hsel]. split; [done|]. intros [<-|?]%Hin; auto. done.
  - intros Hc. destruct (Hsend Hc) as [?|Hs]; [auto|right].
    destruct (elem_of_step (tasks y) i t t' _ [] Hi Hs) as [?|Hs']; [congruence|].
    by rewrite app_nil_r in Hs'.
  - intros [?|?]%Hin; [congruence|auto].
  - intros Ht u [->|?]%Hin; auto.
Qed.

Lemma call_invariant g t y :
  invariant g y → is_call t = true → invariant g (mkSystem (state y) (tasks y ++ [t])).
Proof.
  intros [Hr Hl Hch Hg Hfr Hsig Hsend Hpend Hterm] Ht.
  assert (reading t = None ∧ locking t = None ∧ receives t = false ∧
          t ≠ Read Select ∧ t ≠ Cancel SendCancellation) as (? & ? & ? & ? & ?)
    by by destruct t as [[]|[]| |].
  constructor; cbn [state tasks]; try done; try (by rewrite count_call).
  - intros Hs. destruct (Hsig Hs) as [? Hsel]. split; [done|].
    intros [?| ?%list_elem_of_singleton]%elem_of_app; [auto|congruence].
  - intros Hc. rewrite elem_of_app. destruct (Hsend Hc); auto.
  - intros [?| ?%list_elem_of_singleton]%elem_of_app; [auto|congruence].
  - intros Hte u [?| ->%list_elem_of_singleton]%elem_of_app; auto.
Qed.

Lemma channel_invariant g l y r events :
  invariant g y → channel_step l (receiver (sub (state y))) = Some (r, events) →
  invariant g (mkSystem
    (mkState (set_receiver r (sub (state y))) (published (state y) ++ events) (seen (state y))
       (produced (state y)) (signalled (state y))) (tasks y)).
Proof.
  intros [Hr Hl [(rec & missed & Hp & Hc & Hm)] Hg Hfr Hsig Hsend Hpend Hterm] Hst.
  constructor; cbn [state tasks sub]; try done. constructor. cbn.
  destruct l; cbn in Hst; simplify_eq.
  - destruct (sender_closed _); simplify_eq. exists rec, missed. cbn.
    by rewrite Hp, <-!app_assoc.
  - destruct (queue _) as [|event q] eqn:Hq; simplify_eq. exists rec, (missed ++ [event]). cbn.
    rewrite length_app, Hp, app_nil_r, <-!app_assoc. cbn. split_and!; [done|done|lia].
  - exists rec, missed. cbn. by rewrite app_nil_r.
Qed.

Lemma cursor_invariant g y : reached g y → invariant g y.
Proof.
  intros [labels Hy]. revert labels y Hy. apply reachable_invariant.
  - intros y ->. constructor; cbn; try done; try (by intros ?%elem_of_nil).
    constructor. exists [], []. by repeat constructor.
  - intros y l y' Hinv Hl. destruct l as [i|i|t|event| |]; cbn [step] in Hl.
    + apply bind_Some in Hl as (t & Hi & ([x' t'] & Hx & ?)%bind_Some). simplify_eq.
      destruct y as [x ts]. by eapply cursor_run_invariant.
    + by eapply abort_invariant.
    + destruct (is_call t) eqn:Ht; simplify_eq. by apply call_invariant.
    + apply bind_Some in Hl as ([r events] & Hl & ?). simplify_eq. by eapply channel_invariant.
    + apply bind_Some in Hl as ([r events] & Hl & ?). simplify_eq. by eapply channel_invariant.
    + apply bind_Some in Hl as ([r events] & Hl & ?). simplify_eq. by eapply channel_invariant.
Qed.

(** ** What subscribers rely on *)

(** Claim C35 (refinement): however reads, cancellations and dropped calls are
    interleaved with the wallet, every event published to the subscription is
    received in order, counted as skipped, or still waiting; and what the reads
    produce is exactly the reports of what was received, one frame each,
    numbered from 1 without a gap under the generation of the subscription. *)
Theorem frames_account_for_events g y :
  reached g y → (∀ event, is_ok (project c event) = true) →
  (Z.of_nat (length (seen (state y))) < u64_max)%Z →
  (∃ received missed,
     published (state y) = received ++ missed ++ queue (receiver (sub (state y))) ∧
     covers received (seen (state y)) ∧ length missed = lagged (receiver (sub (state y)))) ∧
  produced (state y) = frames g (omap report (seen (state y))).
Proof.
  intros [_ _ [Hch] _ Hfr _ _ _ _]%cursor_invariant Hp Hlen. split; [done|]. by apply Hfr.
Qed.

(** A subscription has one reader: calls that are past the
    guard of [begin_next] are the same call. *)
Theorem single_reader g y i j t u :
  reached g y → tasks y !! i = Some t → tasks y !! j = Some u →
  reading t = Some tt → reading u = Some tt → i = j.
Proof.
  intros [Hr _ _ _ _ _ _ _ _]%cursor_invariant Hi Hj Ht Hu.
  destruct (decide (i = j)) as [|Hij]; [done|].
  pose proof (count_two reading tt (tasks y) i j t u Hi Hj Ht Hu Hij) as H2.
  rewrite Hr in H2. destruct (next_in_progress _); cbn in H2; lia.
Qed.

(** Once a cancellation has been signalled, or the end of
    the channel was reported, nothing more is received or produced. *)
Theorem ended_for_good g y l y' :
  reached g y → signalled (state y) = true ∨ terminated (sub (state y)) = true →
  step y l = Some y' →
  seen (state y') = seen (state y) ∧ produced (state y') = produced (state y).
Proof.
  intros [_ _ _ _ _ Hsig _ _ Hterm]%cursor_invariant Hend Hl.
  destruct l as [i|i|t|event| |]; cbn [step] in Hl.
  - apply bind_Some in Hl as (t & Hi & ([x' t'] & Hx & ?)%bind_Some). simplify_eq. cbn.
    apply list_elem_of_lookup_2 in Hi.
    assert (t = Read Select → changed (sub (state y)) = true) as Hsel.
    { intros ->. destruct Hend as [Hs|Ht]; [by apply Hsig|]. by specialize (Hterm Ht _ Hi). }
    clear Hsig Hterm Hi. exec_cases t Hx; cbn; try done; by specialize (Hsel eq_refl).
  - apply bind_Some in Hl as (t & Hi & (t' & Ha & ?)%bind_Some). by simplify_eq.
  - destruct (is_call t); by simplify_eq.
  - apply bind_Some in Hl as ([r events] & Hl & ?). by simplify_eq.
  - apply bind_Some in Hl as ([r events] & Hl & ?). by simplify_eq.
  - apply bind_Some in Hl as ([r events] & Hl & ?). by simplify_eq.
Qed.


(** ** Reads come to an end *)

(** How much the receiver can still give. *)
Definition pending (r : Receiver) : nat :=
  length (queue r) + (if decide (lagged r = 0) then 0 else 1).
Definition rank (s : Subscription) (t : task) : nat :=
  match t with
  | Read p =>
      match p with
      | BeginNext => 7 | CheckFlags => 6 | LockState => 5 | LoopTop => 4 | Select => 3
      | UnlockState _ => 2 | DropGuard _ => 1
      end +
      match p with
      | BeginNext | CheckFlags | LockState | LoopTop | Select => 2 * pending (receiver s)
      | _ => 0
      end
  | Cancel SwapCancelled => 2
  | Cancel SendCancellation => 1
  | Done _ | CancelDone => 0
  end.
Definition ranks (s : Subscription) (ts : list task) : nat := sum_list_with (rank s) ts.

Lemma recv_pending r g rest :
  recv r = Some (g, rest) →
  pending rest + 1 = pending r ∨ (g = GotClosed ∧ rest = r).
Proof.
  unfold recv, pending. destruct (lagged r) as [|n] eqn:Hl.
  - destruct (queue r) as [|event q] eqn:Hq; [destruct (sender_closed r)|]; intros ?; simplify_eq/=.
    + by right.
    + left. lia.
  - intros ?. simplify_eq/=. left. lia.
Qed.

Lemma cursor_step_rank t x x' t' :
  exec t x = Some (x', t') →
  rank (sub x') t' < rank (sub x) t ∧ pending (receiver (sub x')) ≤ pending (receiver (sub x)).
Proof.
  intros Hx. exec_cases t Hx; cbn; try lia.
  all: match goal with Hh : handle_received ?r _ = _, Hr : recv _ = _ |- _ =>
    pose proof (recv_receiver _ _ _ _ Hh) as (Hrec & _); cbn in Hrec; rewrite Hrec;
    destruct (recv_pending _ _ _ Hr) as [?|[-> ->]]; [lia|] end.
  - lia.
  - unfold handle_received, next_frame in *. by repeat (case_match; simplify_eq/=).
Qed.

Lemma run_ranks i y y' :
  run i y = Some y' → ranks (sub (state y')) (tasks y') < ranks (sub (state y)) (tasks y).
Proof.
  intros (t & Hi & ([x' t'] & Hx & ?)%bind_Some)%bind_Some. simplify_eq. cbn.
  destruct (cursor_step_rank _ _ _ _ Hx) as [Hlt Hle].
  assert (∀ ts, ranks (sub x') ts ≤ ranks (sub (state y)) ts) as Hmono.
  { induction ts as [|u ts IH]; [done|]. cbn. apply Nat.add_le_mono; [|done].
    destruct u as [[]|[]| |]; cbn; lia. }
  rewrite insert_take_drop by (by eapply lookup_lt_Some).
  rewrite <-(take_drop_middle (tasks y) i t Hi) at 3.
  unfold ranks in *. rewrite !sum_list_with_app. cbn.
  pose proof (Hmono (take i (tasks y))). pose proof (Hmono (drop (S i) (tasks y))). lia.
Qed.

Fixpoint run_all (l : list nat) (y : System) : option System :=
  match l with [] => Some y | i :: l => y ← run i y; run_all l y end.

(** Between two deliveries of the wallet, the reads and
    cancellations of a subscription make boundedly many steps: the loop of
    [next_event] passes over each waiting event at most once. *)
Theorem reads_end y l y' :
  run_all l y = Some y' →
  length l ≤ (7 + 2 * pending (receiver (sub (state y)))) * length (tasks y).
Proof.
  intros Hrun. enough (length l ≤ ranks (sub (state y)) (tasks y)) as Hle.
  { assert (∀ ts, ranks (sub (state y)) ts ≤
      (7 + 2 * pending (receiver (sub (state y)))) * length ts) as Hb.
    { induction ts as [|u ts IH]; cbn; [lia|].
      assert (rank (sub (state y)) u ≤ 7 + 2 * pending (receiver (sub (state y))))
        by (destruct u as [[]|[]| |]; cbn; lia).
      unfold ranks in *. lia. }
    specialize (Hb (tasks y)). lia. }
  revert y Hrun. induction l as [|i l IH]; intros y; [cbn; lia|].
  intros (y1 & H1 & Hrun)%bind_Some. pose proof (run_ranks _ _ _ H1). pose proof (IH y1 Hrun).
  cbn. lia.
Qed.

(** A call waits only for the wallet: if no task can step,
    every call that has not ended waits in the [select!] for an event, nothing
    is to be received, and no cancellation was requested. *)
Theorem waits_only_for_events g y i t :
  reached g y → tasks y !! i = Some t → (∀ o, t ≠ Done o) → t ≠ CancelDone →
  (∀ j, run j y = None) →
  t = Read Select ∧ queue (receiver (sub (state y))) = [] ∧
  lagged (receiver (sub (state y))) = 0 ∧ sender_closed (receiver (sub (state y))) = false ∧
  cancelled (sub (state y)) = false.
Proof.
  intros [Hr Hl _ _ _ Hsig Hsend _ _]%cursor_invariant Hi Hd Hcd Hstuck.
  assert (∀ j u, tasks y !! j = Some u → exec u (state y) = None) as Hnone.
  { intros j u Hj. specialize (Hstuck j). unfold run in Hstuck. rewrite Hj in Hstuck. cbn in Hstuck.
    by destruct (exec u (state y)) as [[]|]. }
  pose proof (Hnone i t Hi) as Ht. unfold exec, exec_read, exec_cancel, goto in Ht.
  destruct t as [p|p|o|]; [|by destruct p|by destruct (Hd o)|done].
  destruct p; try (by repeat case_match).
  - destruct (state_lock (sub (state y))) eqn:Hlock; [|done]. exfalso.
    destruct (count_exists locking tt (tasks y)) as (j & u & Hj & Hu);
      [rewrite Hl; cbn; lia|].
    assert (i ≠ j) as Hij by (intros ->; by simplify_eq).
    assert (reading u = Some tt) as Hu' by by destruct u as [[]| | |].
    pose proof (count_two reading tt (tasks y) i j _ u Hi Hj eq_refl Hu' Hij) as H2.
    rewrite Hr in H2. destruct (next_in_progress _); cbn in H2; lia.
  - destruct (changed (sub (state y))) eqn:Hch; [done|].
    destruct (recv (receiver (sub (state y)))) as [[r rest]|] eqn:Hrecv.
    { destruct (handle_received r (set_receiver rest (sub (state y)))); done. }
    unfold recv in Hrecv. destruct (lagged _) eqn:Hlag, (queue _) eqn:Hq; try done.
    destruct (sender_closed _) eqn:Hcl; [done|]. split_and!; try done.
    destruct (cancelled _) eqn:Hca; [|done]. destruct (Hsend eq_refl) as [Hs|[j Hj]%list_elem_of_lookup].
    + destruct (Hsig Hs) as [_ Hsel]. apply list_elem_of_lookup_2 in Hi.
      specialize (Hsel Hi). congruence.
    + by specialize (Hnone j _ Hj).
Qed.

(** ** Opening subscriptions *)

(** [next_runtime_event_generation] and [next_business_event_generation]. *)
Definition next_generation (current_generation : Z) : result NativeXelisError Z * Z :=
  match checked_add u64_max current_generation 1 with
  | None => (Err (generation_exhausted c), current_generation)
  | Some next => (Ok next, next)
  end.

(** [subscribe_runtime_events] and [subscribe_business_events], on the wallet's
    generation counter and the receiver that the wallet hands out. *)
Definition subscribe (receiver : Receiver) : action Z NativeXelisError Subscription := λ current,
  match next_generation current with
  | (Ok generation, next) => (Ok (subscription_new generation receiver), next)
  | (Err error, next) => (Err error, next)
  end.

Fixpoint subscribe_all (receivers : list Receiver) (current : Z) :
    list (result NativeXelisError Subscription) * Z :=
  match receivers with
  | [] => ([], current)
  | r :: receivers =>
      let '(s, next) := subscribe r current in
      let '(ss, last) := subscribe_all receivers next in (s :: ss, last)
  end.

(** The generations of a wallet's subscriptions never repeat:
    they count up from the counter, and when it is exhausted opening fails
    rather than wrapping around. *)
Theorem generations_distinct receivers current k s :
  (0 ≤ current ≤ u64_max)%Z → (subscribe_all receivers current).1 !! k = Some s →
  ((current + Z.of_nat k + 1 ≤ u64_max)%Z →
     ∃ sub, s = Ok sub ∧ generation sub = (current + Z.of_nat k + 1)%Z) ∧
  ((u64_max < current + Z.of_nat k + 1)%Z → s = Err (generation_exhausted c)).
Proof.
  revert current k. induction receivers as [|r receivers IH]; intros current k Hc; [done|].
  cbn. unfold subscribe, next_generation at 1. destruct (checked_add u64_max current 1) as [next|] eqn:Hn.
  - apply checked_add_Some in Hn as [-> Hn].
    destruct (subscribe_all receivers (current + 1)) as [ss last] eqn:Hss.
    destruct k as [|k]; cbn; intros Hk; simplify_eq.
    + split; [|lia]. intros _. eexists. split; [done|]. cbn. lia.
    + destruct (IH (current + 1)%Z k ltac:(lia)) as [H1 H2]; [by rewrite Hss|].
      split; intros ?; [destruct H1 as (sub & -> & Hg); [lia|]; exists sub; split; [done|lia]|apply H2; lia].
  - apply checked_add_None in Hn.
    destruct (subscribe_all receivers current) as [ss last] eqn:Hss.
    destruct k as [|k]; cbn; intros Hk; simplify_eq.
    + split; [lia|done].
    + destruct (IH current k Hc) as [H1 H2]; [by rewrite Hss|]. split; [lia|]. intros _. apply H2. lia.
Qed.

(** ** Concrete runs *)

Definition opened (g : Z) : System :=
  mkSystem (mkState (subscription_new g (mkReceiver [] 0 false)) [] [] [] false) [].
Definition played (g : Z) (ls : list label) : System := Tasks.played step (opened g) ls.

Lemma cursor_played g ls : Tasks.plays step (opened g) ls = true → reached g (played g ls).
Proof. apply played_reachable. Qed.

Definition runs (l : list nat) (y : System) : bool :=
  match run_all l y with Some _ => true | None => false end.

Lemma cursor_ran l y : runs l y = true → run_all l y = Some (default y (run_all l y)).
Proof. unfold runs. by destruct (run_all l y). Qed.
End Cursor.

(** ** The two cursors *)

Definition runtime_next_event `{!HashLib, !AddressLib} := exec_read runtime_contract.
Definition business_next_event `{!HashLib, !AddressLib, ErrorText} (projection : ExtraDataProjection) :=
  exec_read (business_contract projection).

Definition subscribe_runtime_events `{!HashLib, !AddressLib} := subscribe runtime_contract.
Definition subscribe_business_events `{!HashLib, !AddressLib, ErrorText}
    (extra_data_disclosure : NativeWalletExtraDataDisclosure) :=
  subscribe (business_contract (from_disclosure extra_data_disclosure)).

#[local] Existing Instances demo_hash demo_address.

(** Of four events the first is lost and the second is not for this cursor. *)
Definition delivery : list (label (E := NativeWalletRuntimeEvent)) :=
  [Publish EOnline; Publish (ETrackAsset XELIS_ASSET); Publish (ERescan 5); Publish EOffline;
   Overwrite; Call next_event] ++ replicate 7 (Run 0) ++ [Call next_event] ++ replicate 9 (Run 1).

Lemma frames_account_for_events_witness :
  produced (state (played runtime_contract 7 delivery)) =
    frames runtime_contract 7
      [degraded runtime_contract 1; RRescan 5] ∧
  queue (receiver (sub (state (played runtime_contract 7 delivery)))) = [EOffline].
Proof.
  split; [|reflexivity].
  refine (proj2 (frames_account_for_events runtime_contract 7 (played runtime_contract 7 delivery)
            _ _ _)); [|done|vm_compute; reflexivity].
  apply cursor_played. vm_compute. reflexivity.
Defined.

Lemma single_reader_witness : 0 = 0.
Proof.
  apply (single_reader runtime_contract 7
           (played runtime_contract 7 [Call next_event; Run 0; Call next_event; Run 1]) 0 0
           (Read CheckFlags) (Read CheckFlags));
    [apply cursor_played; vm_compute; reflexivity|reflexivity..].
Defined.

(** A read that waits is cancelled, and the event published meanwhile is left. *)
Definition cancelled_read : list (label (E := NativeWalletRuntimeEvent)) :=
  [Call next_event] ++ replicate 4 (Run 0) ++ [Call cancel; Run 1; Run 1; Publish EOnline].

Lemma ended_for_good_witness :
  seen (state (played runtime_contract 7 (cancelled_read ++ [Run 0]))) =
    seen (state (played runtime_contract 7 cancelled_read)) ∧
  produced (state (played runtime_contract 7 (cancelled_read ++ [Run 0]))) =
    produced (state (played runtime_contract 7 cancelled_read)).
Proof.
  apply (ended_for_good runtime_contract 7 (played runtime_contract 7 cancelled_read) (Run 0)
           (played runtime_contract 7 (cancelled_read ++ [Run 0])));
    [apply cursor_played; reflexivity|left; reflexivity|reflexivity].
Defined.

Lemma reads_end_witness : 7 ≤ 9.
Proof.
  eapply (reads_end runtime_contract (played runtime_contract 7 [Publish EOnline; Call next_event])
            (replicate 7 0)).
  apply cursor_ran. vm_compute. reflexivity.
Defined.

Lemma waits_only_for_events_witness :
  cancelled (sub (state (played runtime_contract 7 ([Call next_event] ++ replicate 4 (Run 0))))) = false.
Proof.
  refine (proj2 (proj2 (proj2 (proj2 (waits_only_for_events runtime_contract 7
    (played runtime_contract 7 ([Call next_event] ++ replicate 4 (Run 0))) 0 (Read Select)
    _ _ _ _ _))))); [apply cursor_played; vm_compute; reflexivity|reflexivity|done|done|].
  intros [|j]; reflexivity.
Defined.

Lemma generations_distinct_witness :
  ∃ s, (subscribe_all runtime_contract [mkReceiver [] 0 false] u64_max).1 !! 0 = Some s ∧
       s = Err (generation_exhausted runtime_contract).
Proof.
  eexists. split; [reflexivity|].
  refine (proj2 (generations_distinct runtime_contract [mkReceiver [] 0 false] u64_max 0 _ _ _) _);
    [vm_compute; split; discriminate|reflexivity|reflexivity].
Defined.

End Events.
