(* ===== verification/History.v ===== *)
(** * Transaction history
    (rust/src/api/wallet/history.rs, and the history filter of
    models/wallet_dtos.rs)

    The filter that a page of the history is asked with, what it becomes for
    the wallet's storage, the pages and the exact integrated destinations that
    the storage cannot filter, the look-ups, and the CSV exports. *)

From S2P Require Import Prelude Errors External Text Addresses Entries.

Module History.
Import Entries.

(** ** The stored transactions *)

(** What xelis_wallet keeps of a transaction besides what the filter reads. *)
Class EntryTypes := {
  TransferInRest : Type;
  TransferOutRest : Type;
  IncomingRest : Type;
  OutgoingRest : Type;
  OtherData : Type;
  EntryRest : Type;
  PendingRest : Type
}.

Section Types.
Context `{!HashLib, !AddressLib, !EntryTypes}.

(** [xelis_wallet::entry]: the transfers with their extra data, of an incoming
    or outgoing entry; the other kinds of entry have none. *)
Record WTransferIn : Type := mkWTransferIn {
  wti_extra_data : option PlaintextExtraData;
  wti_rest : TransferInRest
}.
Record WTransferOut : Type := mkWTransferOut {
  wto_destination : PublicKey;
  wto_extra_data : option PlaintextExtraData;
  wto_rest : TransferOutRest
}.
Inductive EntryData : Type :=
  | WIncoming (transfers : list WTransferIn) (rest : IncomingRest)
  | WOutgoing (transfers : list WTransferOut) (rest : OutgoingRest)
  | WOther (data : OtherData).
Record WEntry : Type := mkWEntry { we_entry : EntryData; we_rest : EntryRest }.
Record WPending : Type := mkWPending { wp_hash : Hash; wp_rest : PendingRest }.

(** [xelis_wallet::storage::TransactionFilterOptions]; the contract and the
    query are always absent here. *)
Record FilterOptions : Type := mkOptions {
  o_address : option PublicKey;
  o_asset : option Hash;
  o_min_topoheight : option Z;
  o_max_topoheight : option Z;
  o_accept_incoming : bool;
  o_accept_outgoing : bool;
  o_accept_coinbase : bool;
  o_accept_burn : bool;
  o_accept_blob : bool;
  o_min_timestamp : option Z;
  o_max_timestamp : option Z;
  o_skip : option Z;
  o_limit : option Z
}.
Definition set_limit (limit : option Z) (o : FilterOptions) : FilterOptions :=
  mkOptions (o_address o) (o_asset o) (o_min_topoheight o) (o_max_topoheight o)
    (o_accept_incoming o) (o_accept_outgoing o) (o_accept_coinbase o) (o_accept_burn o)
    (o_accept_blob o) (o_min_timestamp o) (o_max_timestamp o) (o_skip o) limit.
Definition set_skip (skip : option Z) (o : FilterOptions) : FilterOptions :=
  mkOptions (o_address o) (o_asset o) (o_min_topoheight o) (o_max_topoheight o)
    (o_accept_incoming o) (o_accept_outgoing o) (o_accept_coinbase o) (o_accept_burn o)
    (o_accept_blob o) (o_min_timestamp o) (o_max_timestamp o) skip (o_limit o).
End Types.

(** The conversions of the entries for the API, and the CSV writer, which
    writes what it has before it fails. *)
Class EntryLib `{!HashLib, !AddressLib, !EntryTypes} := {
  serializable : bool → WEntry → TransactionEntry;
  pending_serializable : bool → WPending → TransactionPending;
  export_transactions_in_csv : list WEntry → list Z * result anyhow_error unit
}.

(** The crate tempfile, on a disk that is only observed: what a path holds, what
    an unnamed temporary file holds and how much of it was synced, and what the
    paths may hold after a crash.  [export_into] is the wallet's CSV writer on such
    a file; [parent] is [Path::parent], which depends on the platform. *)
Class TempFiles `{!HashLib, !AddressLib, !EntryTypes} := {
  Disk : Type;
  NamedTempFile : Type;
  parent : string → option string;
  new_in : string → Disk → result string NamedTempFile * Disk;
  export_into : NamedTempFile → list WEntry → Disk → result anyhow_error unit * Disk;
  sync_all : NamedTempFile → Disk → result string unit * Disk;
  persist : NamedTempFile → string → Disk → result string unit * Disk;
  (** Dropping removes the file; that the removal failed is not reported. *)
  drop_file : NamedTempFile → Disk → result string unit * Disk;
  files : Disk → gmap string (list Z);
  temporary : Disk → NamedTempFile → option (list Z);
  synced : Disk → NamedTempFile → option (list Z);
  after_crash : Disk → gmap string (list Z) → Prop;
  NamedTempFile_eq :: EqDecision NamedTempFile
}.

(** The step from [d] to [d'] changes nothing but the temporary file [t]. *)
Definition touches `{TempFiles} (t : NamedTempFile) (d d' : Disk) : Prop :=
  files d' = files d ∧ (∀ m, after_crash d' m → after_crash d m) ∧
  ∀ u, u ≠ t → temporary d' u = temporary d u.

(** As documented: every operation but a [persist] that succeeds changes only the
    temporary file; a new one is empty; the writer writes to it what it writes
    into memory; [persist] replaces the destination by its content and, if that
    was synced, atomically, so that a crash finds the old files or the new ones;
    a file whose removal succeeds is gone. *)
Class TempFilesLaws `{!HashLib, !AddressLib, !EntryTypes, !EntryLib, !TempFiles} : Prop := {
  new_in_law directory d : let '(r, d') := new_in directory d in
    match r with
    | Ok t => temporary d t = None ∧ temporary d' t = Some [] ∧ touches t d d'
    | Err _ => files d' = files d ∧ (∀ m, after_crash d' m → after_crash d m) ∧
        ∀ u, temporary d' u = temporary d u
    end;
  export_into_law t es d : let '(r, d') := export_into t es d in
    touches t d d' ∧ (r = Ok tt → ∀ w, temporary d t = Some w →
      ∃ written, export_transactions_in_csv es = (written, Ok tt) ∧ temporary d' t = Some (w ++ written));
  sync_all_law t d : let '(r, d') := sync_all t d in
    touches t d d' ∧ temporary d' t = temporary d t ∧
    (r = Ok tt → ∀ w, temporary d t = Some w → synced d' t = Some w);
  persist_law t path d : let '(r, d') := persist t path d in
    match r with
    | Ok _ => ∀ w, temporary d t = Some w →
        files d' = <[path := w]> (files d) ∧ temporary d' t = None ∧
        (∀ u, u ≠ t → temporary d' u = temporary d u) ∧
        (synced d t = Some w → ∀ m', after_crash d' m' →
           after_crash d m' ∨ ∃ m, after_crash d m ∧ m' = <[path := w]> m)
    | Err _ => touches t d d'
    end;
  drop_file_law t d : let '(r, d') := drop_file t d in
    touches t d d' ∧ (r = Ok tt → temporary d' t = None)
}.

(** The wallet's storage under its read lock, with the wallet it belongs to. *)
Record Storage `{!HashLib, !AddressLib, !EntryTypes} : Type := mkStorage {
  get_filtered_transactions : FilterOptions → result anyhow_error (list WEntry);
  get_transactions_count : result anyhow_error Z;
  get_transaction : Hash → result anyhow_error WEntry;
  get_pending_txs : list WPending;
  wallet_public_key : PublicKey;
  wallet_network : Network
}.

Section History.
Context `{!ErrorText, !HashLib, !AddressLib, !EntryTypes, !EntryLib}.

(** ** The filter *)

Record HistoryPageFilter : Type := mkFilter {
  page : Z;
  limit : option Z;
  asset_hash : option string;
  address : option string;
  min_topoheight : option Z;
  max_topoheight : option Z;
  accept_incoming : bool;
  accept_outgoing : bool;
  accept_coinbase : bool;
  accept_burn : bool;
  accept_blob : bool;
  min_timestamp : option Z;
  max_timestamp : option Z
}.

Record ExactIntegratedHistoryDestination : Type := mkDestination {
  public_key : PublicKey;
  serialized_data : bytes
}.

(** [matches] and [matches_wallet]. *)
Definition matches (d : ExactIntegratedHistoryDestination) (key : PublicKey)
    (data : option DataElement) : bool :=
  bool_decide (key = public_key d) &&
  match data with
  | Some data => bool_decide (data_to_bytes data = serialized_data d)
  | None => false
  end.
Definition matches_wallet (d : ExactIntegratedHistoryDestination) (wallet_public_key : PublicKey) :
    bool := bool_decide (wallet_public_key = public_key d).

Record PreparedHistoryFilter : Type := mkPrepared {
  options : FilterOptions;
  exact_integrated_destination : option ExactIntegratedHistoryDestination
}.

(** The address of the filter: a plain one for the storage, or an exact one. *)
Definition prepare_address (address : option string) :
    result anyhow_error (option PublicKey * option ExactIntegratedHistoryDestination) :=
  match address with
  | None => Ok (None, None)
  | Some address =>
      address ← map_err (context "Invalid address") (address_from_string address);
      let '(integrated_data, base_address) := extract_data address in
      let public_key := get_public_key base_address in
      match integrated_data with
      | Some data => Ok (None, Some (mkDestination public_key (data_to_bytes data)))
      | None => Ok (Some public_key, None)
      end
  end.

Definition prepare_asset (asset_hash : option string) : result anyhow_error (option Hash) :=
  match asset_hash with
  | None => Ok None
  | Some asset_hash =>
      Some <$> map_err (context "Invalid asset") (hash_from_hex asset_hash)
  end.

(** [HistoryPageFilter::prepare]. *)
Definition prepare (f : HistoryPageFilter) : result anyhow_error PreparedHistoryFilter :=
  ensure (bool_decide (0 < page f)%Z) (bail "Page must be at least 1");;
  match limit f with
  | Some limit => ensure (bool_decide (0 < limit)%Z) (bail "Limit cannot be 0")
  | None => Ok tt
  end;;
  '(o_address, exact) ← prepare_address (address f);
  asset ← prepare_asset (asset_hash f);
  skip ← match limit f with
         | Some limit =>
             Some <$> ok_or (bail "Pagination offset is too large")
               (page ← checked_sub (page f) 1; checked_mul usize_max page limit)
         | None => Ok None
         end;
  Ok (mkPrepared
        (mkOptions o_address asset (min_topoheight f)
           (match max_topoheight f with
            | Some max => if bool_decide (max ≠ u64_max) then Some max else None
            | None => None
            end)
           (accept_incoming f) (accept_outgoing f)
           (match address f with Some _ => false | None => accept_coinbase f end)
           (match address f with Some _ => false | None => accept_burn f end)
           (accept_blob f && bool_decide (address f = None) && bool_decide (asset_hash f = None))
           (min_timestamp f) (max_timestamp f) skip (limit f))
        exact).

(** ** Pages *)

Record FilteredPagination : Type := mkPagination { offset : Z; p_limit : option Z }.

(** [FilteredPagination::prepare], on the options it changes. *)
Definition prepare_pagination (o : FilterOptions) :
    result anyhow_error (FilteredPagination * FilterOptions) :=
  let offset := default 0%Z (o_skip o) in
  let limit := o_limit o in
  prefix ← match limit with
           | Some limit =>
               Some <$> ok_or (bail "Pagination range is too large")
                 (checked_add usize_max offset limit)
           | None => Ok None
           end;
  Ok (mkPagination offset limit, set_limit prefix (set_skip None o)).

Definition apply {T} (p : FilteredPagination) (values : list T) : list T :=
  match p_limit p with
  | Some limit => take (Z.to_nat limit) (drop (Z.to_nat (offset p)) values)
  | None => values
  end.

Definition keeps_in (d : ExactIntegratedHistoryDestination) (wallet_public_key : PublicKey)
    (t : WTransferIn) : bool := matches d wallet_public_key (wti_extra_data t ≫= pt_data).
Definition keeps_out (d : ExactIntegratedHistoryDestination) (t : WTransferOut) : bool :=
  matches d (wto_destination t) (wto_extra_data t ≫= pt_data).

(** The closure of [retain_mut]: the entry it leaves, if any. *)
Definition retain_exact (d : ExactIntegratedHistoryDestination) (wallet_public_key : PublicKey)
    (transaction : WEntry) : option WEntry :=
  match we_entry transaction with
  | WIncoming transfers rest =>
      if matches_wallet d wallet_public_key then
        match filter (λ t, keeps_in d wallet_public_key t = true) transfers with
        | [] => None
        | transfers => Some (mkWEntry (WIncoming transfers rest) (we_rest transaction))
        end
      else None
  | WOutgoing transfers rest =>
      match filter (λ t, keeps_out d t = true) transfers with
      | [] => None
      | transfers => Some (mkWEntry (WOutgoing transfers rest) (we_rest transaction))
      end
  | WOther _ => None
  end.

Definition apply_exact_integrated_destination (transactions : list WEntry)
    (d : ExactIntegratedHistoryDestination) (wallet_public_key : PublicKey) : list WEntry :=
  omap (retain_exact d wallet_public_key) transactions.

Definition classify_history_error (error : anyhow_error) (fallback_code : NativeXelisErrorCode)
    (fallback_kind : string) : NativeXelisError :=
  from_wallet_operation error fallback_code fallback_kind.

(** The part that [history] and the CSV exports share, with their error kinds. *)
Definition filtered_page (st : Storage) (filter : HistoryPageFilter)
    (filter_invalid read_failed : string) : result NativeXelisError (list WEntry) :=
  prepared ← map_err (λ error, classify_history_error error CodeInvalidInput filter_invalid)
               (prepare filter);
  '(pagination, options) ←
    map_err (λ error, classify_history_error error CodeInvalidInput filter_invalid)
      (prepare_pagination (options prepared));
  let exact := exact_integrated_destination prepared in
  let options := match exact with Some _ => set_limit None options | None => options end in
  transactions ← map_err (λ error, classify_history_error error CodeStorage read_failed)
                   (get_filtered_transactions st options);
  let transactions :=
    match exact with
    | Some destination =>
        apply_exact_integrated_destination transactions destination (wallet_public_key st)
    | None => transactions
    end in
  Ok (apply pagination transactions).

Definition history (st : Storage) (filter : HistoryPageFilter)
    (extra_data_disclosure : NativeWalletExtraDataDisclosure) :
    result NativeXelisError (list NativeWalletTransactionEntry) :=
  page ← filtered_page st filter "WALLET_HISTORY_FILTER_INVALID" "WALLET_HISTORY_READ_FAILED";
  let mainnet := network_is_mainnet (wallet_network st) in
  let projection := from_disclosure extra_data_disclosure in
  mapM (λ tx, map_err (λ error, classify_history_error error CodeSerialization
                                  "WALLET_HISTORY_EXTRA_DATA_SERIALIZATION_FAILED")
                (transaction_entry (serializable mainnet tx) projection)) page.

(** ** Look-ups *)

Definition get_history_count (st : Storage) : result NativeXelisError Z :=
  map_err (λ error, classify_history_error error CodeStorage "WALLET_HISTORY_COUNT_READ_FAILED")
    (get_transactions_count st).

Definition get_pending_transactions (st : Storage)
    (extra_data_disclosure : NativeWalletExtraDataDisclosure) :
    result NativeXelisError (list NativeWalletPendingTransaction) :=
  let mainnet := network_is_mainnet (wallet_network st) in
  let projection := from_disclosure extra_data_disclosure in
  mapM (λ tx, map_err (λ error, classify_history_error error CodeSerialization
                                  "WALLET_PENDING_EXTRA_DATA_SERIALIZATION_FAILED")
                (pending_transaction (pending_serializable mainnet tx) projection))
    (get_pending_txs st).

Definition parse_transaction_hash (hash : string) : result NativeXelisError Hash :=
  map_err (λ error, classify_history_error error CodeInvalidInput
                      "WALLET_TRANSACTION_HASH_INVALID") (hash_from_hex hash).

Definition get_transaction_by_hash (st : Storage) (hash : string)
    (extra_data_disclosure : NativeWalletExtraDataDisclosure) :
    result NativeXelisError NativeWalletTransactionEntry :=
  hash ← parse_transaction_hash hash;
  transaction ← map_err (λ error, classify_history_error error CodeNotFound
                                    "WALLET_TRANSACTION_NOT_FOUND") (get_transaction st hash);
  map_err (λ error, classify_history_error error CodeSerialization
                      "WALLET_TRANSACTION_EXTRA_DATA_SERIALIZATION_FAILED")
    (transaction_entry (serializable (network_is_mainnet (wallet_network st)) transaction)
       (from_disclosure extra_data_disclosure)).

Definition get_pending_transaction_by_hash (st : Storage) (hash : string)
    (extra_data_disclosure : NativeWalletExtraDataDisclosure) :
    result NativeXelisError NativeWalletPendingTransaction :=
  hash ← parse_transaction_hash hash;
  transaction ← ok_or (xelis_wallet_flutter CodeNotFound "WALLET_PENDING_TRANSACTION_NOT_FOUND"
                         "Pending transaction was not found in wallet storage")
                  (List.find (λ transaction, bool_decide (wp_hash transaction = hash))
                     (get_pending_txs st));
  map_err (λ error, classify_history_error error CodeSerialization
                      "WALLET_PENDING_TRANSACTION_EXTRA_DATA_SERIALIZATION_FAILED")
    (pending_transaction (pending_serializable (network_is_mainnet (wallet_network st)) transaction)
       (from_disclosure extra_data_disclosure)).

(** ** CSV exports *)

Definition ensure_transactions_to_export (transaction_count : Z) : result NativeXelisError unit :=
  if bool_decide (transaction_count = 0)%Z
  then Err (xelis_wallet_flutter CodeNotFound "WALLET_HISTORY_CSV_EMPTY"
              "No matching transactions are available for CSV export")
  else Ok tt.

(** [export_csv_transactions] to any writer, and to a buffer in memory: what it
    got, and the result. *)
Definition export_csv_transactions_to {W : Type}
    (writer : list WEntry → W → result anyhow_error unit * W)
    (st : Storage) (filter : HistoryPageFilter) : action W NativeXelisError unit :=
  transactions ← lift (filtered_page st filter "WALLET_HISTORY_CSV_FILTER_INVALID"
                         "WALLET_HISTORY_CSV_READ_FAILED");
  lift (ensure_transactions_to_export (zlen transactions));;
  map_err_action (λ error, classify_history_error error CodeSerialization
                             "WALLET_HISTORY_CSV_SERIALIZATION_FAILED")
    (writer transactions).
Definition write_buffer (transactions : list WEntry) (buffer : list Z) :
    result anyhow_error unit * list Z :=
  let '(written, r) := export_transactions_in_csv transactions in (r, buffer ++ written).
Definition export_csv_transactions (st : Storage) (filter : HistoryPageFilter) :
    list Z * result NativeXelisError unit :=
  let '(r, buffer) := export_csv_transactions_to write_buffer st filter [] in (buffer, r).

(** The well-formed byte sequences of [String::from_utf8]. *)
Definition in_bytes (lo hi b : Z) : bool := bool_decide (lo ≤ b ≤ hi)%Z.
Fixpoint utf8_valid (s : list Z) : bool :=
  match s with
  | [] => true
  | b0 :: s1 =>
      if in_bytes 0 127 b0 then utf8_valid s1 else
      match s1 with
      | [] => false
      | b1 :: s2 =>
          if in_bytes 194 223 b0 && in_bytes 128 191 b1 then utf8_valid s2 else
          match s2 with
          | [] => false
          | b2 :: s3 =>
              let second :=
                if bool_decide (b0 = 224)%Z then in_bytes 160 191 b1
                else if bool_decide (b0 = 237)%Z then in_bytes 128 159 b1
                else in_bytes 225 239 b0 && in_bytes 128 191 b1 in
              if second && in_bytes 128 191 b2 then utf8_valid s3 else
              match s3 with
              | [] => false
              | b3 :: s4 =>
                  let second :=
                    if bool_decide (b0 = 240)%Z then in_bytes 144 191 b1
                    else if bool_decide (b0 = 244)%Z then in_bytes 128 143 b1
                    else in_bytes 241 243 b0 && in_bytes 128 191 b1 in
                  second && in_bytes 128 191 b2 && in_bytes 128 191 b3 && utf8_valid s4
              end
          end
      end
  end.

(** The display of [FromUtf8Error]. *)
Variable utf8_error_text : list Z → string.

Definition convert_transactions_to_csv (st : Storage) (filter : HistoryPageFilter) :
    result NativeXelisError string :=
  let '(buffer, r) := export_csv_transactions st filter in
  r;;
  if utf8_valid buffer then Ok (of_bytes buffer)
  else Err (xelis_wallet_flutter CodeSerialization "WALLET_HISTORY_CSV_ENCODING_FAILED"
              ("Unable to convert the CSV export to UTF-8: " +:+ utf8_error_text buffer)).

Definition csv_path_error (error destination native_kind action : string) : NativeXelisError :=
  xelis_wallet_flutter CodeStorage native_kind
    (action +:+ "; path=" +:+ destination +:+ ": " +:+ error).

Section Files.
Context `{!TempFiles}.

(** The disk during an export: as it is, as it was after each operation so far,
    and the temporary files whose removal failed. *)
Record Export : Type := mkExport {
  disk : Disk;
  moments : list Disk;
  leaked : list NamedTempFile
}.
Definition io {E A} (f : Disk → result E A * Disk) : action Export E A := λ y,
  let '(r, d) := f (disk y) in (r, mkExport d (moments y ++ [d]) (leaked y)).

(** The temporary file goes out of scope. *)
Definition drop_temporary (t : NamedTempFile) (y : Export) : Export :=
  let '(r, y) := io (drop_file t) y in
  match r with Ok _ => y | Err _ => mkExport (disk y) (moments y) (t :: leaked y) end.
(** A block that owns the temporary file and drops it when it fails; [persist]
    gives the file back with its error, and it is dropped there too. *)
Definition owning {A} (t : NamedTempFile) (m : action Export NativeXelisError A) :
    action Export NativeXelisError A := λ y,
  let '(r, y) := m y in
  match r with Ok _ => (r, y) | Err _ => (r, drop_temporary t y) end.

Definition create_temporary_csv_file (destination : string) :
    action Export NativeXelisError NamedTempFile :=
  let directory := match parent destination with
                   | Some parent => if bool_decide (parent = "") then "." else parent
                   | None => "."
                   end in
  map_err_action (λ error, csv_path_error error destination
      "WALLET_HISTORY_CSV_TEMP_FILE_CREATE_FAILED" "Unable to create the temporary CSV file")
    (io (new_in directory)).

Definition persist_csv_file (temporary : NamedTempFile) (destination : string) :
    action Export NativeXelisError unit :=
  map_err_action (λ error, csv_path_error error destination
      "WALLET_HISTORY_CSV_SYNC_FAILED" "Unable to sync the temporary CSV file")
    (io (sync_all temporary));;
  map_err_action (λ error, csv_path_error error destination
      "WALLET_HISTORY_CSV_REPLACE_FAILED" "Unable to atomically replace the CSV file")
    (io (persist temporary destination)).

Definition export_transactions_to_csv_file (st : Storage) (file_path : string)
    (filter : HistoryPageFilter) : action Export NativeXelisError unit :=
  temporary ← create_temporary_csv_file file_path;
  owning temporary
    (export_csv_transactions_to (λ transactions, io (export_into temporary transactions)) st filter;;
     persist_csv_file temporary file_path).
End Files.

(** ** What a filter becomes *)

(** What the storage is asked for is what the filter says:
    pages and limits are positive and the offset fits a [usize]; a plain address
    goes to the storage and an integrated one is kept apart with its data; an
    address filter never lets coinbases, burns or blobs through; and the upper
    topoheight is never the one whose successor overflows. *)
Theorem prepared_filter_sound f p :
  prepare f = Ok p →
  (0 < page f)%Z ∧
  match limit f with
  | Some l => (0 < l)%Z ∧ o_skip (options p) = Some ((page f - 1) * l)%Z ∧
              ((page f - 1) * l ≤ usize_max)%Z
  | None => o_skip (options p) = None
  end ∧
  match address f with
  | None => o_address (options p) = None ∧ exact_integrated_destination p = None
  | Some s => ∃ a, address_from_string s = Ok a ∧
      match (extract_data a).1 with
      | None => o_address (options p) = Some (get_public_key (extract_data a).2) ∧
                exact_integrated_destination p = None
      | Some d => o_address (options p) = None ∧
                  exact_integrated_destination p =
                    Some (mkDestination (get_public_key (extract_data a).2) (data_to_bytes d))
      end ∧
      o_accept_coinbase (options p) = false ∧ o_accept_burn (options p) = false ∧
      o_accept_blob (options p) = false
  end ∧
  o_max_topoheight (options p) ≠ Some u64_max ∧
  (max_topoheight f ≠ Some u64_max → o_max_topoheight (options p) = max_topoheight f).
Proof.
  unfold prepare. intros (? & Hpage & Hf)%bind_Ok. apply ensure_Ok in Hpage.
  apply bool_decide_eq_true in Hpage. apply bind_Ok in Hf as (? & Hlimit & Hf).
  apply bind_Ok in Hf as ([oa exact] & Haddress & Hf). apply bind_Ok in Hf as (asset & _ & Hf).
  apply bind_Ok in Hf as (skip & Hskip & [= <-]). cbn. split_and!; [done| | | |].
  - destruct (limit f) as [l|]; [|by simplify_eq]. apply ensure_Ok, bool_decide_eq_true in Hlimit.
    apply fmap_Ok in Hskip as (z & Hz & <-). apply ok_or_Ok in Hz.
    apply bind_Some in Hz as (q & [-> _]%checked_sub_Some & [-> Hm]%checked_mul_Some). done.
  - destruct (address f) as [s|]; cbn in Haddress; [|by simplify_eq].
    apply bind_Ok in Haddress as (a & Ha%map_err_Ok & Haddress). exists a. split; [done|].
    destruct (extract_data a) as [[d|] base]; cbn in *; simplify_eq; split_and!; try done;
      by rewrite ?andb_false_r.
  - destruct (max_topoheight f); [|done]. case_bool_decide; congruence.
  - destruct (max_topoheight f) as [max|]; [|done]. intros Hm. case_bool_decide as Hn; [done|].
    destruct Hn. congruence.
Qed.

(** ** Pages *)

(** The documented behaviour of the storage's limit: the first matches. *)
Definition storage_prefix (st : Storage) : Prop :=
  ∀ o n, (0 ≤ n)%Z → o_skip o = None →
  get_filtered_transactions st (set_limit (Some n) o) =
  take (Z.to_nat n) <$> get_filtered_transactions st (set_limit None o).

Definition unpaged (f : HistoryPageFilter) : HistoryPageFilter :=
  mkFilter 1 None (asset_hash f) (address f) (min_topoheight f) (max_topoheight f)
    (accept_incoming f) (accept_outgoing f) (accept_coinbase f) (accept_burn f) (accept_blob f)
    (min_timestamp f) (max_timestamp f).

(** A filter and the same one without pages ask for the same transactions. *)
Lemma prepare_unpaged f p l :
  limit f = Some l → (0 < l)%Z → (0 < page f)%Z → ((page f - 1) * l ≤ usize_max)%Z →
  prepare (unpaged f) = Ok p →
  prepare f = Ok (mkPrepared (set_limit (Some l) (set_skip (Some ((page f - 1) * l)%Z) (options p)))
                    (exact_integrated_destination p)) ∧
  o_skip (options p) = None ∧ o_limit (options p) = None.
Proof.
  intros Hl Hl0 Hp Hm. unfold prepare. cbn [page limit unpaged]. rewrite Hl.
  rewrite (bool_decide_eq_true_2 (0 < page f)%Z), (bool_decide_eq_true_2 (0 < l)%Z) by done. cbn.
  destruct (prepare_address (address f)) as [[oa exact]|]; [|done]. cbn.
  destruct (prepare_asset (asset_hash f)) as [asset|]; [|done]. cbn. intros [= <-]. cbn.
  unfold checked_sub, checked_mul. rewrite (bool_decide_eq_true_2 (1 ≤ page f)%Z) by lia. cbn.
  by rewrite (bool_decide_eq_true_2 ((page f - 1) * l ≤ usize_max)%Z) by done.
Qed.

Lemma filtered_page_pages st f l k1 k2 whole :
  storage_prefix st → limit f = Some l → (0 < l)%Z → (0 < page f)%Z →
  ((page f - 1) * l + l ≤ usize_max)%Z → filtered_page st (unpaged f) k1 k2 = Ok whole →
  filtered_page st f k1 k2 =
    Ok (take (Z.to_nat l) (drop (Z.to_nat ((page f - 1) * l)) whole)).
Proof.
  intros Hst Hl Hl0 Hp Hm. assert (0 ≤ (page f - 1) * l)%Z as Hoff by nia. unfold filtered_page.
  destruct (prepare (unpaged f)) as [p|] eqn:Hprep; [|done].
  destruct (prepare_unpaged f p l Hl Hl0 Hp ltac:(lia) Hprep) as (-> & Hs & Hlim). cbn.
  unfold prepare_pagination. cbn. rewrite Hs, Hlim. cbn.
  unfold checked_add. rewrite bool_decide_eq_true_2 by lia. cbn.
  destruct p as [o exact]. cbn in *.
  assert (set_limit None (set_skip None o) = o) as Ho by (destruct o; cbn in *; by subst).
  assert (∀ n, set_limit n (set_skip None (set_limit (Some l) (set_skip (Some ((page f - 1) * l)%Z) o)))
            = set_limit n o) as Hso by (intros n; destruct o; cbn in *; by subst).
  rewrite Hso. destruct exact as [d|].
  - cbn. replace (set_limit None (set_limit _ o)) with (set_limit None o) by done.
    replace (set_limit None (set_limit None (set_skip None o))) with (set_limit None o)
      by (by rewrite Ho).
    destruct (get_filtered_transactions st _); cbn; [|done]. intros [= <-]. done.
  - rewrite Ho, Hst by (done || lia). replace (set_limit None o) with o by (destruct o; cbn in *; by subst).
    destruct (get_filtered_transactions st o) as [ts|]; cbn; [|done]. intros [= <-].
    unfold apply. cbn. f_equal. rewrite Z2Nat.inj_add by lia.
    by rewrite <-take_drop_commute, take_take, Nat.min_id.
Qed.

(** No page is refused for the extra data it shows. *)
Lemma transaction_entry_total value projection : is_ok (transaction_entry value projection) = true.
Proof.
  unfold transaction_entry. apply bind_total; [apply transaction_entry_data_total|done].
Qed.

Lemma mapM_take_drop {A B X} (f : A → result X B) l k n m :
  mapM f l = Ok k → mapM f (take n (drop m l)) = Ok (take n (drop m k)).
Proof. rewrite !mapM_Ok. intros Hl. by apply Forall2_take, Forall2_drop. Qed.

(** The pages of the history are the slices of the whole
    filtered history, exact integrated destinations included: page [p] of [l]
    entries is what comes after the first [(p - 1) * l]. *)
Theorem history_pages st f l disclosure whole :
  storage_prefix st → limit f = Some l → (0 < l)%Z → (0 < page f)%Z →
  ((page f - 1) * l + l ≤ usize_max)%Z →
  history st (unpaged f) disclosure = Ok whole →
  history st f disclosure =
    Ok (take (Z.to_nat l) (drop (Z.to_nat ((page f - 1) * l)) whole)).
Proof.
  intros Hst Hl Hl0 Hp Hm. unfold history. intros (ts & Hts & Hw)%bind_Ok.
  rewrite (filtered_page_pages st f l _ _ ts) by done. cbn. by apply mapM_take_drop.
Qed.

(** A page whose range does not fit a [usize] is refused; it
    is never wrapped around to another page. *)
Theorem history_range_checked st f l disclosure :
  limit f = Some l → (usize_max < (page f - 1) * l + l)%Z →
  is_ok (history st f disclosure) = false.
Proof.
  intros Hl Hm. unfold history, filtered_page. destruct (prepare f) as [p|] eqn:Hp; [|done].
  cbn. assert (o_skip (options p) = Some ((page f - 1) * l)%Z ∧ o_limit (options p) = Some l) as [Hs Hlim].
  { unfold prepare in Hp. rewrite Hl in Hp. apply bind_Ok in Hp as (? & _ & Hp).
    apply bind_Ok in Hp as (? & _ & Hp). apply bind_Ok in Hp as ([oa exact] & _ & Hp).
    apply bind_Ok in Hp as (asset & _ & Hp). apply bind_Ok in Hp as (skip & Hskip & [= <-]). cbn.
    apply fmap_Ok in Hskip as (z & Hz & <-). apply ok_or_Ok in Hz.
    by apply bind_Some in Hz as (q & [-> _]%checked_sub_Some & [-> _]%checked_mul_Some). }
  unfold prepare_pagination. rewrite Hs, Hlim. cbn. unfold checked_add.
  by rewrite bool_decide_eq_false_2 by lia.
Qed.

(** ** Exact integrated destinations *)

Definition transfers_of (e : WEntry) : list (WTransferIn + WTransferOut) :=
  match we_entry e with
  | WIncoming transfers _ => map inl transfers
  | WOutgoing transfers _ => map inr transfers
  | WOther _ => []
  end.
(** A transfer to the destination: an incoming one goes to the wallet itself. *)
Definition pays (d : ExactIntegratedHistoryDestination) (key : PublicKey)
    (t : WTransferIn + WTransferOut) : Prop :=
  match t with
  | inl t => public_key d = key ∧
      ∃ x, wti_extra_data t ≫= pt_data = Some x ∧ data_to_bytes x = serialized_data d
  | inr t => wto_destination t = public_key d ∧
      ∃ x, wto_extra_data t ≫= pt_data = Some x ∧ data_to_bytes x = serialized_data d
  end.

Lemma matches_spec d key data :
  matches d key data = true ↔
  key = public_key d ∧ ∃ x, data = Some x ∧ data_to_bytes x = serialized_data d.
Proof.
  unfold matches. rewrite andb_true_iff, bool_decide_eq_true. apply and_iff_compat_l.
  destruct data as [x|]; [rewrite bool_decide_eq_true|]; naive_solver.
Qed.

#[local] Instance pays_dec d key t : Decision (pays d key t).
Proof.
  destruct t as [t|t].
  - refine (cast_if (decide (matches d key (wti_extra_data t ≫= pt_data) = true)));
      rewrite matches_spec in *; cbn; naive_solver.
  - refine (cast_if (decide (matches d (wto_destination t) (wto_extra_data t ≫= pt_data) = true)));
      rewrite matches_spec in *; cbn; naive_solver.
Defined.

Lemma filter_map_iff {A B} (P : B → Prop) `{!∀ x, Decision (P x)} (g : A → B) (b : A → bool) l :
  (∀ x, b x = true ↔ P (g x)) → filter P (map g l) = map g (filter (λ x, b x = true) l).
Proof.
  intros Hb. induction l as [|x l IH]; [done|]. cbn [map]. rewrite !filter_cons, IH.
  destruct (decide (b x = true)) as [Hx|Hx].
  - by rewrite decide_True by (by apply Hb).
  - by rewrite decide_False by (by rewrite <-Hb).
Qed.

Lemma filter_none {A} (P : A → Prop) `{!∀ x, Decision (P x)} l : (∀ x, ¬ P x) → filter P l = [].
Proof. intros Hn. induction l as [|x l IH]; [done|]. by rewrite filter_cons_False. Qed.

Lemma retain_exact_transfers d key e :
  match retain_exact d key e with
  | Some e' => transfers_of e' = filter (pays d key) (transfers_of e) ∧ transfers_of e' ≠ [] ∧
               we_rest e' = we_rest e
  | None => filter (pays d key) (transfers_of e) = []
  end.
Proof.
  unfold retain_exact, transfers_of. destruct e as [[ts rest|ts rest|o] er]; cbn; [| |done].
  - unfold matches_wallet. case_bool_decide as Hk; cbn.
    + rewrite (filter_map_iff _ inl (keeps_in d key)).
      * by destruct (filter _ ts).
      * intros t. unfold keeps_in. rewrite matches_spec. cbn. naive_solver.
    + induction ts as [|t ts IH]; [done|]. cbn [map]. rewrite filter_cons_False; [done|].
      cbn. naive_solver.
  - rewrite (filter_map_iff _ inr (keeps_out d)).
    + by destruct (filter _ ts).
    + intros t. unfold keeps_out. by rewrite matches_spec.
Qed.

(** An exact integrated destination selects exactly the
    transfers to it: what remains of the transactions, in their order, is every
    transfer to that key with that data and no other, and no entry is left
    empty or invented. *)
Theorem exact_destination_exact transactions d key :
  let kept := apply_exact_integrated_destination transactions d key in
  concat (map transfers_of kept) = filter (pays d key) (concat (map transfers_of transactions)) ∧
  Forall (λ e, transfers_of e ≠ []) kept ∧
  sublist (map we_rest kept) (map we_rest transactions).
Proof.
  cbn. unfold apply_exact_integrated_destination.
  induction transactions as [|e es (IH1 & IH2 & IH3)]; [by repeat constructor|]. cbn.
  pose proof (retain_exact_transfers d key e) as He. rewrite filter_app.
  destruct (retain_exact d key e) as [e'|].
  - destruct He as (Ht & Hne & Hr). cbn. rewrite Ht, IH1, Hr.
    split_and!; [done|by constructor|by constructor].
  - rewrite He, IH1. split_and!; [done|done|by constructor].
Qed.

(** ** CSV exports *)

(** What an export to a buffer is. *)
Lemma exported_Ok st f written :
  export_csv_transactions st f = (written, Ok tt) ↔
  ∃ ts, filtered_page st f "WALLET_HISTORY_CSV_FILTER_INVALID" "WALLET_HISTORY_CSV_READ_FAILED" = Ok ts ∧
    ensure_transactions_to_export (zlen ts) = Ok tt ∧ export_transactions_in_csv ts = (written, Ok tt).
Proof.
  unfold export_csv_transactions, export_csv_transactions_to, write_buffer, mbind, action_bind, lift,
    map_err_action. split.
  - destruct (filtered_page st f _ _) as [ts|]; [|done].
    destruct (ensure_transactions_to_export _) as [[]|] eqn:He; [|done].
    destruct (export_transactions_in_csv ts) as [w [[]|]] eqn:Hw; cbn; intros [= <-]. by eauto.
  - intros (ts & -> & -> & ->). done.
Qed.

Section FileTheorems.
Context `{!TempFiles, !TempFilesLaws}.

(** What an operation on the temporary file [t] leaves alone. *)
Lemma touches_refl t d : touches t d d.
Proof. split; auto. Qed.
Lemma touches_trans t d1 d2 d3 : touches t d1 d2 → touches t d2 d3 → touches t d1 d3.
Proof.
  intros (Hf1 & Hc1 & Ht1) (Hf2 & Hc2 & Ht2). split_and!; [congruence|by auto|].
  intros u Hu. by rewrite Ht2, Ht1.
Qed.

(** The body of the export. *)
Definition body (st : Storage) (path : string) (f : HistoryPageFilter) (t : NamedTempFile) :=
  export_csv_transactions_to (λ transactions, io (export_into t transactions)) st f;;
  persist_csv_file t path.

(** The named files after an export of [f] that began with [d]: as they were, or
    with the whole export under its path. *)
Definition exported (st : Storage) (path : string) (f : HistoryPageFilter)
    (m m' : gmap string (list Z)) : Prop :=
  ∃ written, export_csv_transactions st f = (written, Ok tt) ∧ m' = <[path := written]> m.

(** A disk that an export which began with [d] may pass through. *)
Definition passes (st : Storage) (path : string) (f : HistoryPageFilter) (d d' : Disk) : Prop :=
  (files d' = files d ∨ exported st path f (files d) (files d')) ∧
  ∀ m', after_crash d' m' →
    after_crash d m' ∨ ∃ m, after_crash d m ∧ exported st path f m m'.

Lemma touches_passes st path f t d d' : touches t d d' → passes st path f d d'.
Proof. intros (Hf & Hc & _). split; [by left|]. by auto. Qed.

(** The temporary file [t] has been created on [disk y]; the rest of the export. *)
Lemma body_spec st path f t y :
  temporary (disk y) t = Some [] →
  let '(r, y') := body st path f t y in
  leaked y' = leaked y ∧
  (∃ ds, moments y' = moments y ++ ds ∧ Forall (passes st path f (disk y)) ds) ∧
  match r with
  | Ok _ => exported st path f (files (disk y)) (files (disk y')) ∧ last (moments y') = Some (disk y') ∧
      temporary (disk y') t = None ∧ ∀ u, u ≠ t → temporary (disk y') u = temporary (disk y) u
  | Err _ => touches t (disk y) (disk y')
  end.
Proof.
  intros Ht. unfold body, export_csv_transactions_to, persist_csv_file, mbind, action_bind, lift,
    map_err_action, io.
  destruct (filtered_page st f _ _) as [ts|] eqn:Hts;
    [|split_and!; [done|exists []; by rewrite app_nil_r|apply touches_refl]].
  destruct (ensure_transactions_to_export _) as [[]|] eqn:He;
    [|split_and!; [done|exists []; by rewrite app_nil_r|apply touches_refl]].
  pose proof (export_into_law t ts (disk y)) as Hx.
  destruct (export_into t ts (disk y)) as [[[]|e] d1]; destruct Hx as [Hx1 Hw1]; cbn in *;
    [|split_and!; [done| |done]; exists [d1]; split; [done|]; apply Forall_singleton; by eapply touches_passes].
  destruct (Hw1 eq_refl [] Ht) as (written & Hw & Ht1).
  assert (export_csv_transactions st f = (written, Ok tt)) as Hexp by (apply exported_Ok; by eauto).
  pose proof (touches_passes st path f _ _ _ Hx1) as Hp1.
  pose proof (sync_all_law t d1) as Hx.
  destruct (sync_all t d1) as [r d2]; destruct Hx as (Hx2 & Ht2 & Hs2); cbn in *.
  pose proof (touches_trans _ _ _ _ Hx1 Hx2) as Hx12.
  pose proof (touches_passes st path f _ _ _ Hx12) as Hp2.
  destruct r as [[]|e]; cbn;
    [|split_and!; [done| |done]; exists [d1; d2]; split; [by rewrite <-app_assoc|by repeat apply Forall_cons_2]].
  specialize (Hs2 eq_refl _ Ht1). rewrite <-Ht2 in Ht1.
  pose proof (persist_law t path d2) as Hp.
  destruct (persist t path d2) as [[[]|e] d3]; cbn in *.
  - destruct (Hp _ Ht1) as (Hf3 & Hn3 & Ho3 & Hc3). specialize (Hc3 Hs2).
    assert (exported st path f (files (disk y)) (files d3)) as Hd3.
    { exists written. split; [done|]. by rewrite Hf3, (proj1 Hx12). }
    assert (passes st path f (disk y) d3) as Hp3.
    { split; [by right|]. intros m' [Hm|(m & Hm & ->)]%Hc3; [left; by apply Hx12|right].
      exists m. split; [by apply Hx12|]. by exists written. }
    split_and!; [done| |done|by rewrite last_snoc|done|intros u Hu; rewrite Ho3 by done; by apply Hx12].
    exists [d1; d2; d3]. split; [by rewrite <-!app_assoc|by repeat apply Forall_cons_2].
  - split_and!; [done| |by eapply touches_trans].
    pose proof (touches_passes st path f _ _ _ (touches_trans _ _ _ _ Hx12 Hp)) as Hp3.
    exists [d1; d2; d3]. split; [by rewrite <-!app_assoc|by repeat apply Forall_cons_2].
Qed.

Lemma touches_passes_l st path f t d d1 d2 :
  touches t d d1 → passes st path f d1 d2 → passes st path f d d2.
Proof.
  intros (Hf & Hc & _) [Hp1 Hp2]. split; [by rewrite <-Hf|].
  intros m' [Hm|(m & Hm & He)]%Hp2; [by auto|]. right. exists m. by auto.
Qed.

(** The whole export from the creation of [t], which is dropped when it fails. *)
Lemma owning_spec st path f t d d1 :
  temporary d t = None → temporary d1 t = Some [] → touches t d d1 →
  let '(r, y) := owning t (body st path f t) (mkExport d1 [d1] []) in
  (∀ u, is_Some (temporary (disk y) u) → is_Some (temporary d u) ∨ u ∈ leaked y) ∧
  Forall (passes st path f d) (moments y) ∧ last (moments y) = Some (disk y) ∧
  match r with
  | Ok _ => exported st path f (files d) (files (disk y))
  | Err _ => files (disk y) = files d ∧ ∀ m, after_crash (disk y) m → after_crash d m
  end.
Proof.
  intros Hno Hem Hx. pose proof (body_spec st path f t (mkExport d1 [d1] []) Hem) as Hb.
  unfold owning. destruct (body _ _ _ _ _) as [[[]|e] y]; cbn in Hb; destruct Hb as (Hl & (ds & Hds & Hp) & Hb).
  - destruct Hb as (Hd & Hla & Hg & Ho). split_and!; [| |done|by rewrite <-(proj1 Hx)].
    + intros u [w Hu]. left. destruct (decide (u = t)) as [->|Hut]; [congruence|].
      rewrite Ho in Hu by done. exists w. by rewrite <-(proj2 (proj2 Hx)).
    + rewrite Hds. apply Forall_cons_2; [by eapply touches_passes|].
      eapply Forall_impl; [exact Hp|]. intros d'. by eapply touches_passes_l.
  - unfold drop_temporary, io. pose proof (drop_file_law t (disk y)) as Hdr.
    destruct (drop_file t (disk y)) as [r d']. destruct Hdr as [Htd Hgone].
    pose proof (touches_trans _ _ _ _ Hx (touches_trans _ _ _ _ Hb Htd)) as Hall.
    assert (Forall (passes st path f d) (moments y ++ [d'])) as Hm.
    { apply Forall_app_2; [|apply Forall_singleton; by eapply touches_passes]. rewrite Hds.
      apply Forall_cons_2; [by eapply touches_passes|].
      eapply Forall_impl; [exact Hp|]. intros d2. by eapply touches_passes_l. }
    assert (∀ u, u ≠ t → is_Some (temporary d' u) → is_Some (temporary d u)) as Hu.
    { intros u Hut. by rewrite (proj2 (proj2 Hall) u Hut). }
    destruct r as [[]|e']; cbn; (split_and!; [|done|by rewrite last_snoc|apply Hall|apply Hall]);
      intros u Hs; destruct (decide (u = t)) as [->|Hut]; [|by auto|right; by left|by auto].
    rewrite Hgone in Hs by done. by destruct Hs.
Qed.
End FileTheorems.

(** Claim C36 (error): exporting to a file is all or nothing, whatever fails and
    even if the machine crashes: after every operation of the export, and after a
    crash at any of these moments, the named files are those there were before it,
    or have the whole export under its path; an export that returns an error has
    left them as they were, and one that succeeded has replaced the destination.
    No temporary file is left behind unless its removal failed. *)
Theorem csv_export_atomic `{!TempFiles, !TempFilesLaws} st path f d :
  let '(r, y) := export_transactions_to_csv_file st path f (mkExport d [] []) in
  (∀ t, is_Some (temporary (disk y) t) → is_Some (temporary d t) ∨ t ∈ leaked y) ∧
  Forall (passes st path f d) (moments y) ∧ last (moments y) = Some (disk y) ∧
  match r with
  | Ok _ => exported st path f (files d) (files (disk y))
  | Err _ => files (disk y) = files d ∧ ∀ m, after_crash (disk y) m → after_crash d m
  end.
Proof.
  unfold export_transactions_to_csv_file, create_temporary_csv_file, map_err_action.
  unfold mbind at 1, action_bind at 1, io at 1; cbn [disk moments leaked app].
  pose proof (new_in_law (match parent path with
    Some p => if bool_decide (p = "") then "." else p | None => "." end) d) as Hn.
  destruct (new_in _ d) as [[t|e] d1]; cbn [map_err disk moments leaked].
  - destruct Hn as (Hno & Hem & Hx). exact (owning_spec st path f t d d1 Hno Hem Hx).
  - destruct Hn as (Hf & Hc & Ht). split_and!; [|apply Forall_singleton; split; [by left|by auto]|done..].
    intros t. rewrite Ht. by left.
Qed.

(** An export is never empty, and an export to text is the
    bytes of the export to a file. *)
Theorem csv_exports_agree st f :
  match export_csv_transactions st f with
  | (written, Ok _) =>
      (∃ transactions, transactions ≠ [] ∧
         filtered_page st f "WALLET_HISTORY_CSV_FILTER_INVALID" "WALLET_HISTORY_CSV_READ_FAILED"
           = Ok transactions ∧ export_transactions_in_csv transactions = (written, Ok tt)) ∧
      (utf8_valid written = true → convert_transactions_to_csv st f = Ok (of_bytes written))
  | (_, Err error) => convert_transactions_to_csv st f = Err error
  end.
Proof.
  unfold convert_transactions_to_csv.
  destruct (export_csv_transactions st f) as [written [[]|error]] eqn:He; [|done]. split.
  - apply exported_Ok in He as (ts & Hts & He & Hw). exists ts.
    unfold ensure_transactions_to_export in He. case_bool_decide as Hz; [done|].
    split_and!; [|done|done]. by intros ->.
  - cbn. by intros ->.
Qed.
End History.

(** ** Concrete inputs *)

#[local] Existing Instances plain_text demo_hash demo_address.

Definition demo_types : EntryTypes := {|
  TransferInRest := unit; TransferOutRest := unit; IncomingRest := unit; OutgoingRest := unit;
  OtherData := Z; EntryRest := Z; PendingRest := unit
|}.
#[local] Existing Instance demo_types.

(** Entries are numbered, and show as rewards; the CSV is their numbers. *)
Definition demo_entries : EntryLib := {|
  serializable := λ _ e, mkEntry XELIS_ASSET (we_rest e) 0 (Coinbase 1);
  pending_serializable := λ _ p, mkPendingEntry (wp_hash p) 0 (Coinbase 1);
  export_transactions_in_csv := λ es, (map (λ e, we_rest e) es, Ok tt)
|}.
#[local] Existing Instance demo_entries.

(** A storage of five entries, which honours the limit. *)
Definition five : list WEntry := map (λ n, mkWEntry (WOther 0%Z) n) [65; 66; 67; 68; 69]%Z.
Definition demo_storage : Storage :=
  mkStorage _ _ _
    (λ o, Ok match o_limit o with Some n => take (Z.to_nat n) five | None => five end)
    (Ok 5%Z) (λ _, Err (bail "missing")) [] "alice" Mainnet.

Definition page_of (page limit : Z) : HistoryPageFilter :=
  mkFilter page (Some limit) None None None (Some u64_max) true true true true true None None.

Lemma prepared_filter_sound_witness :
  ∃ p, prepare (page_of 2 2) = Ok p ∧ o_max_topoheight (options p) ≠ Some u64_max.
Proof.
  eexists. split; [reflexivity|].
  refine (proj1 (proj2 (proj2 (proj2 (prepared_filter_sound (page_of 2 2) _ _))))).
  reflexivity.
Defined.

Lemma demo_prefix : storage_prefix demo_storage.
Proof. by intros o n Hn Ho. Qed.

Lemma history_pages_witness :
  ∃ whole, history demo_storage (unpaged (page_of 2 2)) DisclosureRedacted = Ok whole ∧
    history demo_storage (page_of 2 2) DisclosureRedacted = Ok (take 2 (drop 2 whole)).
Proof.
  eexists. split; [vm_compute; reflexivity|].
  apply (history_pages demo_storage (page_of 2 2) 2 DisclosureRedacted);
    [apply demo_prefix|reflexivity|reflexivity|reflexivity|vm_compute; discriminate|].
  vm_compute. reflexivity.
Defined.

Lemma history_range_checked_witness :
  is_ok (history demo_storage (page_of u64_max 3) DisclosureRedacted) = false.
Proof.
  apply (history_range_checked demo_storage (page_of u64_max 3) 3);
    [reflexivity|vm_compute; reflexivity].
Defined.

(** Temporary files are numbered; the operation called [failing] fails.  A crash
    keeps what was synced: a destination that was replaced by a file that was not
    synced is empty. *)
Record DemoDisk : Type := mkDisk {
  named : gmap string (list Z);
  numbered : gmap nat (list Z);
  synced_numbered : gmap nat (list Z);
  durable : gmap string (list Z);
  failing : string
}.
Definition demo_io {A} (name : string) (d : DemoDisk) (f : result string A * DemoDisk) :
    result string A * DemoDisk :=
  if bool_decide (failing d = name) then (Err "disk full", d) else f.
Definition demo_tempfiles : TempFiles := {|
  Disk := DemoDisk;
  NamedTempFile := nat;
  parent _ := None;
  new_in _ d := demo_io "new" d
    (let t := fresh (dom (numbered d)) in
     (Ok t, mkDisk (named d) (<[t := []]> (numbered d)) (synced_numbered d) (durable d) (failing d)));
  export_into t es d :=
    if bool_decide (failing d = "write") then (Err (bail "disk full"), d)
    else (Ok tt, mkDisk (named d) (alter (λ w, w ++ map we_rest es) t (numbered d))
                   (delete t (synced_numbered d)) (durable d) (failing d));
  sync_all t d := demo_io "sync" d
    (Ok tt, mkDisk (named d) (numbered d)
              (partial_alter (λ _, numbered d !! t) t (synced_numbered d)) (durable d) (failing d));
  persist t path d := demo_io "persist" d
    (Ok tt, mkDisk (<[path := default [] (numbered d !! t)]> (named d)) (delete t (numbered d))
              (delete t (synced_numbered d))
              (<[path := default [] (synced_numbered d !! t)]> (durable d)) (failing d));
  drop_file t d := demo_io "drop" d
    (Ok tt, mkDisk (named d) (delete t (numbered d)) (delete t (synced_numbered d)) (durable d) (failing d));
  files := named;
  temporary d t := numbered d !! t;
  synced d t := synced_numbered d !! t;
  after_crash d m := m = durable d;
  NamedTempFile_eq := _
|}.
#[local] Existing Instance demo_tempfiles.

Lemma demo_touches_refl (t : NamedTempFile) (d : Disk) : touches t d d.
Proof. by split_and!. Qed.

Lemma demo_tempfiles_laws : TempFilesLaws.
Proof.
  constructor.
  - intros dir d. cbn. unfold demo_io. case_bool_decide; [by split_and!|]. split_and!; cbn.
    + apply not_elem_of_dom, is_fresh.
    + by rewrite lookup_insert_eq.
    + split_and!; cbn; [done|done|]. intros u Hu. by rewrite lookup_insert_ne.
  - intros t es d. cbn. case_bool_decide; [split; [apply demo_touches_refl|done]|]. split.
    + split_and!; cbn; [done|done|]. intros u Hu. by rewrite lookup_alter_ne.
    + intros _ w Hw. eexists. split; [done|]. cbn in *. by rewrite lookup_alter_eq, Hw.
  - intros t d. cbn. unfold demo_io. case_bool_decide; [split_and!; [apply demo_touches_refl|done..]|].
    split_and!; cbn; [by split_and!|done|]. intros _ w Hw. by rewrite lookup_partial_alter_eq.
  - intros t path d. cbn. unfold demo_io. case_bool_decide; [apply demo_touches_refl|]. cbn.
    intros w Hw. rewrite Hw. split_and!; [done|by rewrite lookup_delete_eq| |].
    + intros u Hu. by rewrite lookup_delete_ne.
    + intros ->. cbn. intros m' ->. right. by eexists.
  - intros t d. cbn. unfold demo_io. case_bool_decide; [split; [apply demo_touches_refl|done]|]. split.
    + split_and!; cbn; [done|done|]. intros u Hu. by rewrite lookup_delete_ne.
    + intros _. cbn. by rewrite lookup_delete_eq.
Qed.

#[local] Existing Instance demo_tempfiles_laws.

(** The export of the second page fails when it cannot be synced. *)
Definition demo_disk (failing : string) : DemoDisk :=
  mkDisk {["history.csv" := [1%Z]]} ∅ ∅ {["history.csv" := [1%Z]]} failing.

Lemma csv_export_atomic_witness :
  let '(r, y) := export_transactions_to_csv_file demo_storage "history.csv" (page_of 2 2)
                   (mkExport (demo_disk "sync") [] []) in
  is_ok r = false ∧ named (disk y) = named (demo_disk "sync") ∧ durable (disk y) = durable (demo_disk "sync").
Proof.
  pose proof (csv_export_atomic demo_storage "history.csv"
    (page_of 2 2) (demo_disk "sync")) as (_ & _ & _ & Hf & Hc).
  split; [reflexivity|]. split; [exact Hf|]. exact (Hc _ eq_refl).
Defined.

(** Without the failure the page is in place, and survives a crash. *)
Example csv_export_succeeds :
  let '(r, y) := export_transactions_to_csv_file demo_storage "history.csv" (page_of 2 2)
                   (mkExport (demo_disk "none") [] []) in
  is_ok r = true ∧ map_to_list (durable (disk y)) = [("history.csv"%string, [67; 68]%Z)] ∧
  map_to_list (numbered (disk y)) = [].
Proof. by vm_compute. Qed.

End History.
