(* ===== verification/Tables.v ===== *)
(** * Precomputed tables
    (rust/src/api/precomputed_tables.rs, rust/src/api/wallet/runtime/table_cache.rs)

    The sizes a wallet may ask its tables for, the application-wide cache of the
    tables, and its users: calls that look a table up, wait for the load lock,
    load and install, the wallets that hold what they got, and the clearing of
    the cache, interleaved in any order.  The tables are shared by [Arc]s, whose
    cells and strong counts are the heap of the model. *)

From S2P Require Import Prelude Tasks Errors External.

Module Tables.
Import Tasks.

(** [xelis_wallet::precomputed_tables]. *)
Class TableSizes := {
  L1_LOW : Z;
  L1_MEDIUM : Z;
  L1_FULL : Z
}.

(** ** Sizes *)

Inductive PrecomputedTableType : Type :=
  | L1Low | L1Medium | L1Full
  | Custom (size : Z).
#[export] Instance PrecomputedTableType_eq_dec : EqDecision PrecomputedTableType.
Proof. solve_decision. Defined.

Section Sizes.
Context `{!TableSizes}.

Definition to_l1_size (t : PrecomputedTableType) : result anyhow_error Z :=
  match t with
  | L1Low => Ok L1_LOW
  | L1Medium => Ok L1_MEDIUM
  | L1Full => Ok L1_FULL
  | Custom size =>
      if bool_decide (size < 16)%Z || bool_decide (33 ≤ size)%Z
      then Err (bail ("Invalid custom L1 size: " +:+ uint_to_string size +:+ " (must be 16..33)"))
      else Ok size
  end.

Definition name (t : PrecomputedTableType) : string :=
  match t with
  | L1Low => "l1Low"
  | L1Medium => "l1Medium"
  | L1Full => "l1Full"
  | Custom n => "custom(" +:+ uint_to_string n +:+ ")"
  end.

Definition index (t : PrecomputedTableType) : Z :=
  match t with L1Low => 0 | L1Medium => 1 | L1Full => 2 | Custom _ => 3 end.

Definition precomputed_table_type_from_l1 (size : Z) : PrecomputedTableType :=
  if bool_decide (size = L1_LOW) then L1Low
  else if bool_decide (size = L1_MEDIUM) then L1Medium
  else if bool_decide (size = L1_FULL) then L1Full
  else Custom size.

(** [are_precomputed_tables_available], on what [has_precomputed_tables] finds. *)
Definition are_precomputed_tables_available `{ErrorText}
    (has_precomputed_tables : string → Z → result anyhow_error bool)
    (precomputed_tables_path : string) (precomputed_table_type : PrecomputedTableType) :
    result NativeXelisError bool :=
  size ← map_err
           (λ error, xelis_wallet_flutter CodeInvalidInput "PRECOMPUTED_TABLE_TYPE_INVALID"
                       (let 'AnyhowError alternate _ := error in alternate))
           (to_l1_size precomputed_table_type);
  map_err (λ error, from_wallet_operation error CodeStorage "PRECOMPUTED_TABLES_CHECK_FAILED")
    (has_precomputed_tables precomputed_tables_path size).
End Sizes.

(** ** Shared tables *)

Section Cache.
Context `{!TableSizes} {T : Type}.

(** An [Arc] is an address of the heap; its cell has the strong count, the
    value in its lock, and whether the lock is poisoned. *)
Abbreviation arc := nat.
Record Cell : Type := mkCell { strong : nat; value : T; poisoned : bool }.
Record CachedPrecomputedTables : Type := mkCached { l1_size : Z; tables : arc }.
Record Cache : Type := mkCache {
  entry : option CachedPrecomputedTables;
  heap : gmap arc Cell
}.

Definition strong_count (a : arc) (c : Cache) : nat := from_option strong 0 (heap c !! a).
Definition on_heap (f : gmap arc Cell → gmap arc Cell) (c : Cache) : Cache :=
  mkCache (entry c) (f (heap c)).
Definition set_entry (e : option CachedPrecomputedTables) (c : Cache) : Cache :=
  mkCache e (heap c).

(** [Arc::new], [clone], [drop] and [try_unwrap], which drops the [Arc] it does
    not unwrap. *)
Definition alloc (a : arc) (v : T) : Cache → Cache := on_heap <[a := mkCell 1 v false]>.
Definition clone (a : arc) : Cache → Cache :=
  on_heap (alter (λ x, mkCell (S (strong x)) (value x) (poisoned x)) a).
Definition release (a : arc) : Cache → Cache :=
  on_heap (λ h, match h !! a with
                | Some (mkCell (S (S n)) v p) => <[a := mkCell (S n) v p]> h
                | Some _ => delete a h
                | None => h
                end).
Definition try_unwrap (a : arc) (c : Cache) : option Cell * Cache :=
  match heap c !! a with
  | Some x => if bool_decide (strong x = 1) then (Some x, on_heap (delete a) c)
              else (None, release a c)
  | None => (None, c)
  end.

(** The lock of a cell: [write] fails when it is poisoned. *)
Definition is_poisoned (a : arc) (c : Cache) : bool := from_option poisoned false (heap c !! a).
Definition write (a : arc) (v : T) : Cache → Cache :=
  on_heap (alter (λ x, mkCell (strong x) v (poisoned x)) a).
Definition poison (a : arc) : Cache → Cache :=
  on_heap (alter (λ x, mkCell (strong x) (value x) true) a).

(** ** The cache *)

Definition cache_new : Cache := mkCache None ∅.

Definition current_l1 (c : Cache) : option Z := l1_size <$> entry c.

Definition clear_if_unused (c : Cache) : bool * Cache :=
  match entry c with
  | Some e => if bool_decide (1 < strong_count (tables e) c) then (false, c)
              else (true, release (tables e) (set_entry None c))
  | None => (true, c)
  end.

Definition finalized_error (current requested : Z) : anyhow_error :=
  bail ("Precomputed tables are already finalized at L1 " +:+ uint_to_string current +:+
        "; refusing a second upgrade to L1 " +:+ uint_to_string requested).

Definition get_or_require_load (requested_l1 : Z) : action Cache anyhow_error (option arc) := λ c,
  match entry c with
  | None => (Ok None, c)
  | Some e =>
      if bool_decide (requested_l1 ≤ l1_size e)%Z then (Ok (Some (tables e)), clone (tables e) c)
      else if bool_decide (l1_size e = L1_LOW) then (Ok None, c)
      else (Err (finalized_error (l1_size e) requested_l1), c)
  end.

(** [install] consumes the loaded tables: it drops them where it does not keep
    them. *)
Definition install (l1 : Z) (loaded_tables : arc) : action Cache anyhow_error arc := λ c,
  match entry c with
  | None => (Ok loaded_tables, set_entry (Some (mkCached l1 loaded_tables)) (clone loaded_tables c))
  | Some e =>
      if bool_decide (l1 ≤ l1_size e)%Z then
        (Ok (tables e), release loaded_tables (clone (tables e) c))
      else if bool_decide (l1_size e ≠ L1_LOW) then
        (Err (finalized_error (l1_size e) l1), release loaded_tables c)
      else
        let '(unwrapped, c) := try_unwrap loaded_tables c in
        match unwrapped with
        | None => (Err (bail "Loaded precomputed tables are unexpectedly shared"), c)
        | Some replacement =>
            if poisoned replacement then
              (Err (bail "Loaded precomputed tables lock is poisoned"), c)
            else if is_poisoned (tables e) c then
              (Err (bail "Application precomputed tables lock is poisoned"), c)
            else
              let c := write (tables e) (value replacement) c in
              let c := set_entry (Some (mkCached l1 (tables e))) c in
              (Ok (tables e), clone (tables e) c)
        end
  end.

(** ** The calls *)

(** A call of [get_or_load_precomputed_tables_with_policy]. *)
Record Request : Type := mkRequest {
  precomputed_tables_path : option string;
  requested_l1 : Z;
  reuse_compatible_cache : bool
}.
Definition get_or_load_precomputed_tables (path : option string) (l1 : Z) : Request :=
  mkRequest path l1 true.
Definition materialize_precomputed_tables (path : string) (l1 : Z) : Request :=
  mkRequest (Some path) l1 false.

(** How a call ends: with the shared tables, with an error, or dropped while it
    waits. *)
Inductive outcome : Type := Got (a : arc) | Failed (e : anyhow_error) | Dropped.

(** Where a call stands; the tables it returned are held until its caller, such
    as a wallet, goes away. *)
Inductive call_pc : Type :=
  | CheckCache | LockLoad | Recheck | Load
  | Install (loaded : arc)
  | UnlockLoad (o : outcome)
  | Returned (o : outcome)
  | Released.
Record Call : Type := mkCall { request : Request; pc : call_pc }.

Record System : Type := mkSystem {
  cache : Cache;
  load_lock : bool;
  next_arc : arc;
  (** The loads that succeeded, with their paths and sizes. *)
  loads : list (option string * Z);
  calls : list Call
}.

(** The two lookups of a call: what comes next when a load is required. *)
Definition lookup_cache (r : Request) (required : call_pc) (found : outcome → call_pc) (c : Cache) :
    Cache * call_pc :=
  if reuse_compatible_cache r
  then match get_or_require_load (requested_l1 r) c with
       | (Ok (Some tables), c) => (c, found (Got tables))
       | (Ok None, c) => (c, required)
       | (Err e, c) => (c, found (Failed e))
       end
  else (c, required).

(** One step of a call, on the cache and the load lock; a load ends by itself. *)
Definition exec (r : Request) (p : call_pc) (c : Cache) (lock : bool) :
    option (Cache * bool * call_pc) :=
  match p with
  | CheckCache => let '(c, p) := lookup_cache r LockLoad Returned c in Some (c, lock, p)
  | LockLoad => if lock then None else Some (c, true, Recheck)
  | Recheck => let '(c, p) := lookup_cache r Load UnlockLoad c in Some (c, lock, p)
  | Install loaded =>
      let '(result, c) := install (requested_l1 r) loaded c in
      Some (c, lock, UnlockLoad (match result with Ok a => Got a | Err e => Failed e end))
  | UnlockLoad o => Some (c, false, Returned o)
  | Load | Returned _ | Released => None
  end.

Definition set_pc (i : nat) (r : Request) (p : call_pc) (y : System) (c : Cache) (lock : bool) :
    System :=
  mkSystem c lock (next_arc y) (loads y) (<[i := mkCall r p]> (calls y)).

Definition run (i : nat) (y : System) : option System :=
  t ← calls y !! i;
  '(c, lock, p) ← exec (request t) (pc t) (cache y) (load_lock y);
  Some (set_pc i (request t) p y c lock).

(** [read_or_generate_precomputed_tables] returns, with tables in a new [Arc]. *)
Definition loaded (i : nat) (result : result anyhow_error T) (y : System) : option System :=
  t ← calls y !! i;
  match pc t, result with
  | Load, Ok v =>
      let r := request t in
      Some (mkSystem (alloc (next_arc y) v (cache y)) (load_lock y) (S (next_arc y))
              (loads y ++ [(precomputed_tables_path r, requested_l1 r)])
              (<[i := mkCall r (Install (next_arc y))]> (calls y)))
  | Load, Err e => Some (set_pc i (request t) (UnlockLoad (Failed e)) y (cache y) (load_lock y))
  | _, _ => None
  end.

(** The future of a waiting call is dropped. *)
Definition abort (i : nat) (y : System) : option System :=
  t ← calls y !! i;
  match pc t with
  | LockLoad => Some (set_pc i (request t) (Returned Dropped) y (cache y) (load_lock y))
  | Load => Some (set_pc i (request t) (UnlockLoad Dropped) y (cache y) (load_lock y))
  | _ => None
  end.

(** The holder of returned tables goes away, or shares them once more. *)
Definition drop_tables (i : nat) (y : System) : option System :=
  t ← calls y !! i;
  match pc t with
  | Returned (Got a) => Some (set_pc i (request t) Released y (release a (cache y)) (load_lock y))
  | _ => None
  end.
Definition share_tables (i : nat) (y : System) : option System :=
  t ← calls y !! i;
  match pc t with
  | Returned (Got a) =>
      Some (mkSystem (clone a (cache y)) (load_lock y) (next_arc y) (loads y) (calls y ++ [t]))
  | _ => None
  end.

Definition on_cache (f : Cache → Cache) (y : System) : System :=
  mkSystem (f (cache y)) (load_lock y) (next_arc y) (loads y) (calls y).

(** [clear_cached_tables]; the warning it logs is its boolean. *)
Definition clear_cached_tables (y : System) : System := on_cache (λ c, (clear_if_unused c).2) y.

Inductive label : Type :=
  | Request_ (r : Request)
  | Run (i : nat)
  | Loaded (i : nat) (result : result anyhow_error T)
  | Abort (i : nat)
  | Drop (i : nat)
  | Share (i : nat)
  | Clear
  | Poison (a : arc).

(** What the loader promises: tables of the size that was asked for. *)
Context (table_l1 : T → Z).
Definition load_ok (y : System) (i : nat) (result : result anyhow_error T) : bool :=
  match calls y !! i, result with
  | Some t, Ok v => bool_decide (table_l1 v = requested_l1 (request t))
  | _, _ => true
  end.

Definition step (y : System) (l : label) : option System :=
  match l with
  | Request_ r =>
      Some (mkSystem (cache y) (load_lock y) (next_arc y) (loads y)
              (calls y ++ [mkCall r CheckCache]))
  | Run i => run i y
  | Loaded i result => if load_ok y i result then loaded i result y else None
  | Abort i => abort i y
  | Drop i => drop_tables i y
  | Share i => share_tables i y
  | Clear => Some (clear_cached_tables y)
  | Poison a => Some (on_cache (poison a) y)
  end.

Definition started : System := mkSystem cache_new false 0 [] [].

Definition reached (y : System) : Prop :=
  ∃ labels, reachable (λ y, y = started) (λ y l y', step y l = Some y') labels y.

(** ** Counting references *)

(** Who holds an [Arc], who holds the tables as a user, and who holds the load
    lock. *)
Definition holds (t : Call) : option arc :=
  match pc t with
  | Install a | UnlockLoad (Got a) | Returned (Got a) => Some a
  | _ => None
  end.
Definition handle (t : Call) : option arc :=
  match pc t with UnlockLoad (Got a) | Returned (Got a) => Some a | _ => None end.
Definition locking (t : Call) : option unit :=
  match pc t with Recheck | Load | Install _ | UnlockLoad _ => Some tt | _ => None end.

Definition refs (e : option CachedPrecomputedTables) (ts : list Call) (a : arc) : nat :=
  one (bool_decide (tables <$> e = Some a)) + count holds a ts.
Definition content (a : arc) (c : Cache) : option T := value <$> heap c !! a.

(** A cell is dropped with its last reference. *)
Definition live (c : Cache) : Prop := ∀ a x, heap c !! a = Some x → 1 ≤ strong x.

Lemma strong_live a c : live c → (1 ≤ strong_count a c ↔ is_Some (heap c !! a)).
Proof.
  intros Hl. unfold strong_count. destruct (heap c !! a) as [x|] eqn:Ha; cbn.
  - split; [by eexists|]. intros _. by eapply Hl.
  - split; [lia|by intros [? ?]].
Qed.

Lemma clone_spec a c :
  live c → 1 ≤ strong_count a c →
  live (clone a c) ∧ entry (clone a c) = entry c ∧
  (∀ b, strong_count b (clone a c) = strong_count b c + one (bool_decide (a = b))) ∧
  (∀ b, content b (clone a c) = content b c).
Proof.
  intros Hl [x Ha]%strong_live; [|done]. unfold clone, on_heap, live, strong_count, content. cbn.
  split_and!; [|done| |].
  - intros b y. destruct (decide (a = b)) as [->|Hab].
    + rewrite lookup_alter_eq, Ha. cbn. intros [= <-]. cbn. lia.
    + rewrite lookup_alter_ne by done. apply Hl.
  - intros b. case_bool_decide as Hab.
    + subst. rewrite lookup_alter_eq, Ha. cbn. lia.
    + rewrite lookup_alter_ne by done. cbn. lia.
  - intros b. destruct (decide (a = b)) as [->|Hab].
    + by rewrite lookup_alter_eq, Ha.
    + by rewrite lookup_alter_ne by done.
Qed.

Lemma release_spec a c :
  live c → 1 ≤ strong_count a c →
  live (release a c) ∧ entry (release a c) = entry c ∧
  (∀ b, strong_count b (release a c) + one (bool_decide (a = b)) = strong_count b c) ∧
  (∀ b, 1 ≤ strong_count b (release a c) → content b (release a c) = content b c).
Proof.
  intros Hl [[n v p] Ha]%strong_live; [|done].
  pose proof (Hl _ _ Ha) as Hn. cbn in Hn.
  unfold release, on_heap, live, strong_count, content. cbn. rewrite Ha.
  destruct n as [|[|n]]; [lia| |]; (split_and!; [|done| |]);
    intros b; destruct (decide (a = b)) as [->|Hab];
    rewrite ?lookup_delete_eq, ?lookup_insert_eq, ?lookup_delete_ne, ?lookup_insert_ne,
      ?Ha by done; cbn; rewrite ?bool_decide_eq_true_2, ?bool_decide_eq_false_2 by done; cbn;
    try done; try lia; try (by intros ? [= <-]; cbn; lia); apply Hl.
Qed.

Lemma alloc_spec a v c :
  live c → heap c !! a = None →
  live (alloc a v c) ∧ entry (alloc a v c) = entry c ∧
  (∀ b, strong_count b (alloc a v c) = strong_count b c + one (bool_decide (a = b))) ∧
  content a (alloc a v c) = Some v ∧ (∀ b, a ≠ b → content b (alloc a v c) = content b c).
Proof.
  intros Hl Ha. unfold alloc, on_heap, live, strong_count, content. cbn. split_and!; [|done| | |].
  - intros b y. rewrite lookup_insert_Some. intros [[-> <-]|[_ Hb]]; [done|by eapply Hl].
  - intros b. case_bool_decide as Hab.
    + subst. by rewrite lookup_insert_eq, Ha.
    + rewrite lookup_insert_ne by done. cbn. lia.
  - by rewrite lookup_insert_eq.
  - intros b Hab. by rewrite lookup_insert_ne.
Qed.

(** Changing the value or the lock of a cell leaves the counts. *)
Lemma alter_spec f a c :
  live c → (∀ x, strong (f x) = strong x) →
  live (on_heap (alter f a) c) ∧
  (∀ b, strong_count b (on_heap (alter f a) c) = strong_count b c) ∧
  (∀ b, content b (on_heap (alter f a) c) =
        if bool_decide (a = b) then (λ x, value (f x)) <$> heap c !! b else content b c).
Proof.
  intros Hl Hf. unfold on_heap, live, strong_count, content. cbn. split_and!.
  - intros b x. rewrite lookup_alter. case_decide; [|apply Hl]. subst.
    destruct (heap c !! b) as [z|] eqn:Hb; [|done]. intros [= <-]. rewrite Hf. by eapply Hl.
  - intros b. rewrite lookup_alter. case_decide; [|done]. subst.
    destruct (heap c !! b); cbn; [apply Hf|done].
  - intros b. rewrite lookup_alter. case_bool_decide; [rewrite decide_True by done|by rewrite decide_False by done].
    subst. by destruct (heap c !! b).
Qed.

(** ** What the operations of the cache do *)

Definition entry_ok (c : Cache) : Prop :=
  ∀ e, entry c = Some e →
    1 ≤ strong_count (tables e) c ∧ table_l1 <$> content (tables e) c = Some (l1_size e).

Definition is_arc {E} (r : result E arc) (a : arc) : nat :=
  match r with Ok b => one (bool_decide (b = a)) | Err _ => 0 end.

(** The cached tables stay, and are replaced by larger ones only when they are
    the smallest. *)
Definition upgrades (c c' : Cache) : Prop :=
  ∀ e, entry c = Some e →
    ∃ e', entry c' = Some e' ∧ tables e' = tables e ∧ (l1_size e ≤ l1_size e')%Z ∧
          (l1_size e' ≠ l1_size e → l1_size e = L1_LOW).

Lemma upgrades_refl c c' : entry c' = entry c → upgrades c c'.
Proof. intros Heq e He. rewrite Heq. eauto with lia. Qed.

Lemma entry_ok_same c c' :
  entry c' = entry c → (∀ b, strong_count b c ≤ strong_count b c') →
  (∀ b, 1 ≤ strong_count b c → content b c' = content b c) → entry_ok c → entry_ok c'.
Proof.
  intros He Hs Hc Hok e. rewrite He. intros [H1 H2]%Hok. pose proof (Hs (tables e)).
  rewrite Hc by done. split; [lia|done].
Qed.

Lemma get_or_require_load_spec l1 c r c' :
  live c → entry_ok c → get_or_require_load l1 c = (r, c') →
  live c' ∧ entry_ok c' ∧ entry c' = entry c ∧ (∀ b, content b c' = content b c) ∧
  (∀ b, strong_count b c' =
        strong_count b c + match r with Ok (Some a) => one (bool_decide (a = b)) | _ => 0 end) ∧
  match r with
  | Ok (Some a) => ∃ e, entry c = Some e ∧ tables e = a ∧ (l1 ≤ l1_size e)%Z
  | _ => True
  end.
Proof.
  intros Hl He. unfold get_or_require_load. destruct (entry c) as [e|] eqn:Hentry.
  2:{ intros [= <- <-]. split_and!; try done. }
  case_bool_decide as Hle; [|case_bool_decide]; intros [= <- <-].
  - destruct (clone_spec (tables e) c) as (H1 & H2 & H3 & H4); [done|by apply He|].
    split_and!; eauto. eapply entry_ok_same; eauto. intros b. rewrite H3. lia.
  - split_and!; try done.
  - split_and!; try done.
Qed.

Definition shared_error : anyhow_error :=
  bail "Loaded precomputed tables are unexpectedly shared".

Lemma entry_ok_release a c :
  live c → entry_ok c → tables <$> entry c ≠ Some a → 1 ≤ strong_count a c →
  entry_ok (release a c).
Proof.
  intros Hl He Hne Ha. destruct (release_spec a c Hl Ha) as (_ & R2 & R3 & R4).
  intros e Hentry. rewrite R2 in Hentry. destruct (He e Hentry) as [Hs Ht].
  specialize (R3 (tables e)). rewrite bool_decide_eq_false_2 in R3 by (intros ->; by rewrite Hentry in Hne).
  cbn in R3. rewrite R4 by lia. split; [lia|done].
Qed.

(** What [install] promises for the tables it is given. *)
Record installed (l1 : Z) (loaded : arc) (c : Cache) (r : result anyhow_error arc) (c' : Cache) :
    Prop := mkInstalled {
  i_live : live c';
  i_entry : entry_ok c';
  i_upgrades : upgrades c c';
  i_unshared : r ≠ Err shared_error;
  i_counts b :
    strong_count b c' + one (bool_decide (loaded = b)) +
      one (bool_decide (tables <$> entry c = Some b)) =
    strong_count b c + one (bool_decide (tables <$> entry c' = Some b)) + is_arc r b;
  i_fresh b : strong_count b c = 0 → strong_count b c' = 0;
  i_result a : r = Ok a → ∃ e, entry c' = Some e ∧ tables e = a ∧ (l1 ≤ l1_size e)%Z
}.

Section Install.
Context (l1 : Z) (loaded : arc) (c : Cache).
Hypothesis (Hlive : live c) (Hentry : entry_ok c) (Hne : tables <$> entry c ≠ Some loaded)
  (Hone : strong_count loaded c = 1) (Hvalue : table_l1 <$> content loaded c = Some l1).

Lemma install_first :
  entry c = None →
  installed l1 loaded c (Ok loaded) (set_entry (Some (mkCached l1 loaded)) (clone loaded c)).
Proof.
  intros He. destruct (clone_spec loaded c) as (C1 & C2 & C3 & C4); [done|lia|].
  split; [done| | |done| | |].
  - intros e [= <-]. cbn. unfold set_entry, strong_count, content in *. cbn in *.
    rewrite C3, C4. split; [lia|done].
  - intros e. congruence.
  - intros b. rewrite He. unfold set_entry, strong_count in *. cbn. rewrite C3.
    repeat case_bool_decide; simplify_eq; cbn; lia.
  - intros b Hb. unfold set_entry, strong_count in *. cbn. rewrite C3.
    case_bool_decide; [subst; lia|cbn; lia].
  - intros a [= <-]. eexists. split_and!; [done|done|cbn; lia].
Qed.

(** The loaded tables are dropped with an error. *)
Lemma install_refused error :
  error ≠ shared_error → installed l1 loaded c (Err error) (release loaded c).
Proof.
  intros Herror. destruct (release_spec loaded c) as (R1 & R2 & R3 & R4); [done|lia|].
  split; [done|apply entry_ok_release; auto with lia|by apply upgrades_refl|naive_solver| | |done].
  - intros b. specialize (R3 b). rewrite R2. cbn. lia.
  - intros b Hb. specialize (R3 b). lia.
Qed.

(** The cached tables serve the request. *)
Lemma install_served e :
  entry c = Some e → (l1 ≤ l1_size e)%Z →
  installed l1 loaded c (Ok (tables e)) (release loaded (clone (tables e) c)).
Proof.
  intros He Hle. destruct (clone_spec (tables e) c) as (C1 & C2 & C3 & C4); [done|by apply Hentry|].
  destruct (release_spec loaded (clone (tables e) c)) as (R1 & R2 & R3 & R4);
    [done|rewrite C3; lia|].
  split; [done| |apply upgrades_refl; by rewrite R2, C2|done| | |].
  - apply entry_ok_release; [done| |by rewrite C2|rewrite C3; lia].
    eapply (entry_ok_same c); eauto. intros b. rewrite C3. lia.
  - intros b. specialize (R3 b). rewrite C3 in R3. rewrite R2, C2. cbn. lia.
  - intros b Hb. specialize (R3 b). rewrite C3 in R3. destruct (Hentry e He) as [Hs _].
    rewrite (bool_decide_eq_false_2 (tables e = b)) in R3 by (intros <-; lia). cbn in R3. lia.
  - intros a [= <-]. exists e. by rewrite R2, C2.
Qed.

Lemma try_unwrap_loaded :
  ∃ x, try_unwrap loaded c = (Some x, release loaded c) ∧ table_l1 (value x) = l1.
Proof.
  unfold content, strong_count in *. unfold try_unwrap, release.
  destruct (heap c !! loaded) as [[n v p]|] eqn:Hh; [|done]. cbn in *. subst n.
  rewrite bool_decide_eq_true_2 by done. exists (mkCell 1 v p).
  split; [unfold on_heap; by rewrite Hh|cbn in *; congruence].
Qed.

(** The cached tables are replaced in place. *)
Lemma install_replaced e v :
  entry c = Some e → (l1_size e < l1)%Z → l1_size e = L1_LOW → table_l1 v = l1 →
  installed l1 loaded c (Ok (tables e))
    (clone (tables e)
       (set_entry (Some (mkCached l1 (tables e))) (write (tables e) v (release loaded c)))).
Proof.
  intros He Hlt Hlow Hv. destruct (release_spec loaded c) as (R1 & R2 & R3 & R4); [done|lia|].
  assert (entry_ok (release loaded c)) as Hd by (apply entry_ok_release; auto with lia).
  assert (1 ≤ strong_count (tables e) (release loaded c)) as Hse by (apply Hd; by rewrite R2).
  set (d := release loaded c) in *. unfold write.
  destruct (alter_spec (λ z, mkCell (strong z) v (poisoned z)) (tables e) d)
    as (A1 & A2 & A3); [done|done|].
  set (d' := on_heap (alter _ _) d) in *. set (d'' := set_entry _ d').
  assert (∀ b, strong_count b d'' = strong_count b d) as Hset by apply A2.
  destruct (clone_spec (tables e) d'') as (C1 & C2 & C3 & C4); [done|by rewrite Hset|].
  split; [done| | |done| | |].
  - intros e'. rewrite C2. intros [= <-]. cbn. rewrite C3, C4, Hset. split; [lia|].
    change (content (tables e) d'') with (content (tables e) d').
    rewrite A3, bool_decide_eq_true_2 by done. apply strong_live in Hse as [z Hz]; [|done].
    rewrite Hz. cbn. by rewrite Hv.
  - intros e'. rewrite He. intros [= <-]. eexists. rewrite C2. split_and!; [done|done|cbn; lia|done].
  - intros b. specialize (R3 b). rewrite C3, Hset, C2, He. cbn. lia.
  - intros b Hb. specialize (R3 b). rewrite C3, Hset.
    rewrite (bool_decide_eq_false_2 (tables e = b)) by (intros <-; lia). cbn. lia.
  - intros a [= <-]. eexists. rewrite C2. split_and!; [done|done|cbn; lia].
Qed.

Lemma install_spec r c' : install l1 loaded c = (r, c') → installed l1 loaded c r c'.
Proof.
  unfold install. case_eq (entry c); [intros e He|intros He].
  2:{ intros [= <- <-]. by apply install_first. }
  case_bool_decide as Hle; [intros [= <- <-]; by apply install_served|].
  case_bool_decide as Hlow; [intros [= <- <-]; by apply install_refused|].
  destruct try_unwrap_loaded as (x & -> & Hx).
  destruct (poisoned x); [intros [= <- <-]; by apply install_refused|].
  destruct (is_poisoned _ _); [intros [= <- <-]; by apply install_refused|].
  intros [= <- <-]. apply install_replaced; [done|lia|lia|done].
Qed.
End Install.

(** ** The invariant of the interleavings *)

(** A call that may reuse the cache loads only what the cache cannot serve and
    may still be upgraded to. *)
Definition loading (t : Call) : bool := match pc t with Load | Install _ => true | _ => false end.
Definition needed (c : Cache) (r : Request) : Prop :=
  reuse_compatible_cache r = true →
  ∀ e, entry c = Some e → (l1_size e < requested_l1 r)%Z ∧ l1_size e = L1_LOW.

Record wf (y : System) : Prop := mkWf {
  wf_counts a : strong_count a (cache y) = refs (entry (cache y)) (calls y) a;
  wf_live : live (cache y);
  wf_fresh a : next_arc y ≤ a → strong_count a (cache y) = 0;
  wf_entry : entry_ok (cache y);
  wf_lock : count locking tt (calls y) = one (load_lock y);
  wf_handles t a : t ∈ calls y → handle t = Some a →
    ∃ e, entry (cache y) = Some e ∧ tables e = a ∧ (requested_l1 (request t) ≤ l1_size e)%Z;
  wf_install t a : t ∈ calls y → pc t = Install a →
    tables <$> entry (cache y) ≠ Some a ∧ strong_count a (cache y) = 1 ∧
    table_l1 <$> content a (cache y) = Some (requested_l1 (request t));
  wf_loads t : t ∈ calls y → is_Some (holds t) → reuse_compatible_cache (request t) = false →
    (precomputed_tables_path (request t), requested_l1 (request t)) ∈ loads y;
  wf_needed t : t ∈ calls y → loading t = true → needed (cache y) (request t)
}.

Lemma holds_handle t a : handle t = Some a → holds t = Some a.
Proof. unfold handle, holds. by repeat case_match. Qed.

(** One call moves, with the cache. *)
Section Move.
Context (y : System) (i : nat) (t t' : Call) (c' : Cache) (lock' : bool) (next' : arc)
  (loads' : list (option string * Z)).
Hypothesis (Hwf : wf y) (Hi : calls y !! i = Some t).

Lemma lock_alone j u :
  locking t = Some tt → calls y !! j = Some u → locking u = Some tt → j = i.
Proof.
  intros Ht Hj Hu. destruct (decide (j = i)) as [|Hne]; [done|].
  pose proof (count_two locking tt (calls y) i j t u Hi Hj Ht Hu ltac:(congruence)) as H2.
  rewrite (wf_lock _ Hwf) in H2. destruct (load_lock y); cbn in H2; lia.
Qed.

Lemma elem_of_move u :
  u ∈ <[i := t']> (calls y) → u = t' ∨ (u ∈ calls y ∧ ∃ j, j ≠ i ∧ calls y !! j = Some u).
Proof.
  intros [j Hj]%list_elem_of_lookup. destruct (decide (i = j)) as [<-|Hij].
  - rewrite list_lookup_insert_eq in Hj by (by eapply lookup_lt_Some). left. congruence.
  - rewrite list_lookup_insert_ne in Hj by done. right. split; [by eapply list_elem_of_lookup_2|].
    exists j. done.
Qed.

(** The steps of a call that does not hold the load lock leave the rest. *)
Definition frames_rest : Prop :=
  locking t = Some tt ∨
  (entry c' = entry (cache y) ∧
   ∀ a, tables <$> entry (cache y) ≠ Some a →
     strong_count a c' = strong_count a (cache y) ∧ content a c' = content a (cache y)).

Lemma wf_move :
  (∀ b, strong_count b c' + one (bool_decide (holds t = Some b)) +
          one (bool_decide (tables <$> entry (cache y) = Some b)) =
        strong_count b (cache y) + one (bool_decide (holds t' = Some b)) +
          one (bool_decide (tables <$> entry c' = Some b))) →
  live c' → (∀ a, next' ≤ a → strong_count a c' = 0) → entry_ok c' →
  upgrades (cache y) c' →
  one lock' + one (bool_decide (locking t = Some tt)) =
    one (load_lock y) + one (bool_decide (locking t' = Some tt)) →
  (∀ a, handle t' = Some a →
     ∃ e, entry c' = Some e ∧ tables e = a ∧ (requested_l1 (request t') ≤ l1_size e)%Z) →
  (∀ a, pc t' = Install a →
     tables <$> entry c' ≠ Some a ∧ strong_count a c' = 1 ∧
     table_l1 <$> content a c' = Some (requested_l1 (request t'))) →
  frames_rest → loads y ⊆ loads' →
  (is_Some (holds t') → reuse_compatible_cache (request t') = false →
     (precomputed_tables_path (request t'), requested_l1 (request t')) ∈ loads') →
  (loading t' = true → needed c' (request t')) →
  wf (mkSystem c' lock' next' loads' (<[i := t']> (calls y))) ∧ upgrades (cache y) c'.
Proof.
  intros Hcounts Hlive Hfresh Hentry Hup Hlock Hhandle Hinstall Hframe Hloads Hown Hneed.
  destruct Hwf as [W1 W2 W3 W4 W5 W6 W7 W8 W9].
  pose proof (λ b, count_step holds b (calls y) i t t' [] Hi) as Hholds.
  pose proof (count_step locking tt (calls y) i t t' [] Hi) as Hlocks.
  setoid_rewrite app_nil_r in Hholds. rewrite app_nil_r in Hlocks.
  split; [|done]. split; cbn; [|done|done|done| | | | |].
  - intros a. specialize (Hcounts a). specialize (W1 a). specialize (Hholds a). rewrite count_nil in Hholds.
    unfold refs in *. lia.
  - change (count locking tt (<[i := t']> (calls y)) = one lock'). rewrite count_nil in Hlocks. lia.
  - intros u a [->|[Hu _]]%elem_of_move Ha; [by apply Hhandle|].
    destruct (W6 u a Hu Ha) as (e & He & <- & Hle). destruct (Hup e He) as (e' & He' & Htab & ? & _).
    exists e'. split_and!; [done|done|lia].
  - intros u a [->|[Hu (j & Hj & Huj)]]%elem_of_move Ha; [by apply Hinstall|].
    destruct (W7 u a Hu Ha) as (H1 & H2 & H3). destruct Hframe as [Hlk|[-> Hframe]].
    + destruct Hj. apply (lock_alone j u); [done|done|]. unfold locking. by rewrite Ha.
    + destruct (Hframe a H1) as [-> ->]. done.
  - intros u [->|[Hu _]]%elem_of_move; [done|]. intros ? ?. apply Hloads. by apply W8.
  - intros u [->|[Hu (j & Hj & Huj)]]%elem_of_move Hl; [by apply Hneed|].
    destruct Hframe as [Hlk|[Heq _]].
    + destruct Hj. apply (lock_alone j u); [done|done|]. unfold locking, loading in *.
      by destruct (pc u).
    + unfold needed. rewrite Heq. by apply W9.
Qed.
End Move.

Section Steps.
Context (y : System) (i : nat) (r : Request) (p : call_pc).
Hypothesis (Hwf : wf y) (Hi : calls y !! i = Some (mkCall r p)).

Lemma own_load :
  is_Some (holds (mkCall r p)) → reuse_compatible_cache r = false →
  (precomputed_tables_path r, requested_l1 r) ∈ loads y.
Proof. intros Hh Hr. apply (wf_loads y Hwf (mkCall r p)); [|done|done]. by eapply list_elem_of_lookup_2. Qed.

(** The cache does not change. *)
Lemma move_quiet p' lock' :
  holds (mkCall r p') = holds (mkCall r p) → handle (mkCall r p') = handle (mkCall r p) →
  (∀ a, p' ≠ Install a) → (p' = Load → needed (cache y) r) →
  one lock' + one (bool_decide (locking (mkCall r p) = Some tt)) =
    one (load_lock y) + one (bool_decide (locking (mkCall r p') = Some tt)) →
  wf (set_pc i r p' y (cache y) lock') ∧ upgrades (cache y) (cache y).
Proof.
  intros Hh Hhd Hp Hneed Hlock. pose proof Hwf as [W1 W2 W3 W4 W5 W6 W7 W8 W9].
  apply (wf_move y i (mkCall r p) (mkCall r p')); try done.
  - intros b. rewrite Hh. lia.
  - by apply upgrades_refl.
  - intros a. rewrite Hhd. intros Ha. eapply (W6 (mkCall r p)); [by eapply list_elem_of_lookup_2|done].
  - intros a Ha. by destruct (Hp a).
  - by right.
  - rewrite Hh. apply own_load.
  - unfold loading. cbn. destruct p' as [| | | |a| | |]; try done; intros _; [by apply Hneed|by destruct (Hp a)].
Qed.

(** The call gets the cached tables. *)
Lemma move_found e p' :
  entry (cache y) = Some e → (requested_l1 r ≤ l1_size e)%Z → reuse_compatible_cache r = true →
  holds (mkCall r p) = None → holds (mkCall r p') = Some (tables e) → (∀ a, p' ≠ Install a) →
  locking (mkCall r p') = locking (mkCall r p) →
  wf (set_pc i r p' y (clone (tables e) (cache y)) (load_lock y)) ∧
  upgrades (cache y) (clone (tables e) (cache y)).
Proof.
  intros He Hle Hreuse Hh Hh' Hp Hlock. pose proof Hwf as [W1 W2 W3 W4 W5 W6 W7 W8 W9].
  destruct (clone_spec (tables e) (cache y)) as (C1 & C2 & C3 & C4); [done|by apply W4|].
  apply (wf_move y i (mkCall r p) (mkCall r p')); try done.
  - intros b. rewrite Hh, Hh', C2, C3. repeat case_bool_decide; simplify_eq; cbn; lia.
  - intros a Ha. rewrite C3. case_bool_decide as Heq; [|cbn; specialize (W3 a Ha); lia].
    subst. destruct (W4 e He) as [H1 _]. specialize (W3 _ Ha). lia.
  - eapply (entry_ok_same (cache y)); eauto. intros b. rewrite C3. lia.
  - by apply upgrades_refl.
  - rewrite Hlock. lia.
  - intros a Ha%holds_handle. rewrite Hh' in Ha. simplify_eq. exists e. by rewrite C2.
  - intros a Ha. by destruct (Hp a).
  - right. split; [done|]. intros a Ha. rewrite C3, C4. split; [|done].
    rewrite bool_decide_eq_false_2 by (intros <-; by rewrite He in Ha). cbn. lia.
  - cbn. congruence.
  - unfold loading. cbn. destruct p' as [| | | |a| | |]; try done. by destruct (Hp a).
Qed.

(** The two lookups of a call. *)
Lemma move_lookup required (found : outcome → call_pc) c p' :
  (∀ a, holds (mkCall r (found (Got a))) = Some a) →
  (∀ e, holds (mkCall r (found (Failed e))) = None) → (∀ o, loading (mkCall r (found o)) = false) →
  (∀ o, locking (mkCall r (found o)) = locking (mkCall r p)) →
  holds (mkCall r p) = None → holds (mkCall r required) = None →
  locking (mkCall r required) = locking (mkCall r p) →
  lookup_cache r required found (cache y) = (c, p') →
  wf (set_pc i r p' y c (load_lock y)) ∧ upgrades (cache y) c.
Proof.
  intros F1 F2 F3 F4 Hh Hh' Hlk. unfold lookup_cache.
  assert (∀ q, holds (mkCall r q) = None → locking (mkCall r q) = locking (mkCall r p) →
    (q = Load → needed (cache y) r) →
    wf (set_pc i r q y (cache y) (load_lock y)) ∧ upgrades (cache y) (cache y)) as Hquiet.
  { intros q Hq Hl Hn. apply move_quiet; [congruence| | |done|rewrite Hl; lia].
    - destruct (handle (mkCall r q)) as [a|] eqn:Ha; [by rewrite (holds_handle _ _ Ha) in Hq|].
      destruct (handle (mkCall r p)) as [a|] eqn:Ha'; [by rewrite (holds_handle _ _ Ha') in Hh|done].
    - by intros a ->. }
  destruct (reuse_compatible_cache r) eqn:Hreuse; [|intros [= <- <-]; apply Hquiet; [done..|unfold needed; congruence]].
  unfold get_or_require_load. destruct (entry (cache y)) as [e|] eqn:He.
  2:{ intros [= <- <-]. apply Hquiet; [done..|]. unfold needed. congruence. }
  case_bool_decide; [|case_bool_decide]; intros [= <- <-].
  - apply move_found; eauto. intros a Ha. specialize (F3 (Got (tables e))). by rewrite Ha in F3.
  - apply Hquiet; [done..|]. intros _ _ e'. rewrite He. intros [= <-]. split; [lia|done].
  - apply Hquiet; [done..|]. intros Hload. 
    specialize (F3 (Failed (finalized_error (l1_size e) (requested_l1 r)))). by rewrite Hload in F3.
Qed.

Lemma move_install a res c :
  p = Install a → install (requested_l1 r) a (cache y) = (res, c) →
  (wf (set_pc i r (UnlockLoad (match res with Ok a => Got a | Err e => Failed e end)) y c
         (load_lock y)) ∧ upgrades (cache y) c) ∧ res ≠ Err shared_error.
Proof.
  intros Hp Hins. pose proof Hwf as [W1 W2 W3 W4 W5 W6 W7 W8 W9].
  destruct (W7 (mkCall r p) a) as (H1 & H2 & H3); [by eapply list_elem_of_lookup_2|by rewrite Hp|].
  destruct (install_spec _ _ _ W2 W4 H1 H2 H3 _ _ Hins) as [I1 I2 I3 I4 I5 I7 I6].
  assert (is_Some (holds (mkCall r p))) as Hholds by (rewrite Hp; by eexists).
  split; [|done].
  apply (wf_move y i (mkCall r p)); try done.
  - intros b. specialize (I5 b). rewrite Hp.
    destruct res as [x|x]; cbn in *; repeat case_bool_decide; simplify_eq; cbn in *; lia.
  - intros x Hx. apply I7. by apply W3.
  - rewrite Hp. cbn. lia.
  - intros x. destruct res as [z|z]; [|done]. cbn. intros [= <-]. by apply I6.
  - left. by rewrite Hp.
  - intros _ ?. by apply own_load.
Qed.
End Steps.

(** The call of index [i] loads, or its holder goes away. *)
Lemma move_loaded y i r v :
  wf y → calls y !! i = Some (mkCall r Load) → table_l1 v = requested_l1 r →
  let y' := mkSystem (alloc (next_arc y) v (cache y)) (load_lock y) (S (next_arc y))
              (loads y ++ [(precomputed_tables_path r, requested_l1 r)])
              (<[i := mkCall r (Install (next_arc y))]> (calls y)) in
  wf y' ∧ upgrades (cache y) (cache y').
Proof.
  intros Hwf Hi Hv y'. subst y'. cbn [cache]. pose proof Hwf as [W1 W2 W3 W4 W5 W6 W7 W8 W9].
  pose proof (W3 (next_arc y) ltac:(lia)) as H0.
  assert (heap (cache y) !! next_arc y = None) as Hnone.
  { destruct (heap (cache y) !! next_arc y) as [x|] eqn:Hx; [|done].
    unfold strong_count in H0. rewrite Hx in H0. cbn in H0. specialize (W2 _ _ Hx). lia. }
  destruct (alloc_spec (next_arc y) v (cache y) W2 Hnone) as (A1 & A2 & A3 & A4 & A5).
  apply (wf_move y i (mkCall r Load) (mkCall r (Install (next_arc y)))); try done.
  - intros b. rewrite A2, A3. cbn. repeat case_bool_decide; simplify_eq; cbn; lia.
  - intros a Ha. rewrite A3, (W3 a) by lia. rewrite bool_decide_eq_false_2 by lia. done.
  - eapply (entry_ok_same (cache y)); eauto; intros b; [rewrite A3; lia|].
    intros Hb. apply A5. intros <-. lia.
  - by apply upgrades_refl.
  - intros a [= <-]. rewrite A2, A3, A4. rewrite bool_decide_eq_true_2 by done.
    split_and!; [|cbn; lia|cbn; by rewrite Hv].
    destruct (entry (cache y)) as [e|] eqn:He; [|done]. cbn. intros [= Heq].
    destruct (W4 e He) as [H1 _]. rewrite Heq in H1. lia.
  - by left.
  - set_solver.
  - set_solver.
  - intros _. unfold needed. rewrite A2. apply (W9 (mkCall r Load)); [|done].
    by eapply list_elem_of_lookup_2.
Qed.

(** A user of the tables never holds the last reference. *)
Lemma handle_counts y t a :
  wf y → t ∈ calls y → handle t = Some a →
  ∃ e, entry (cache y) = Some e ∧ tables e = a ∧ 2 ≤ strong_count a (cache y).
Proof.
  intros Hwf Ht Ha. destruct (wf_handles _ Hwf t a Ht Ha) as (e & He & <- & _).
  exists e. split_and!; [done|done|]. rewrite (wf_counts _ Hwf). unfold refs.
  rewrite He, bool_decide_eq_true_2 by done.
  apply list_elem_of_lookup in Ht as [j Hj].
  pose proof (count_pos holds (tables e) (calls y) j t Hj (holds_handle _ _ Ha)). cbn. lia.
Qed.

Lemma move_drop y i r a :
  wf y → calls y !! i = Some (mkCall r (Returned (Got a))) →
  wf (set_pc i r Released y (release a (cache y)) (load_lock y)) ∧
  upgrades (cache y) (release a (cache y)).
Proof.
  intros Hwf Hi. pose proof Hwf as [W1 W2 W3 W4 W5 W6 W7 W8 W9].
  destruct (handle_counts y (mkCall r (Returned (Got a))) a) as (e & He & Ha & H2);
    [done|by eapply list_elem_of_lookup_2|done|].
  destruct (release_spec a (cache y)) as (R1 & R2 & R3 & R4); [done|lia|].
  apply (wf_move y i (mkCall r (Returned (Got a))) (mkCall r Released)); try done.
  - intros b. specialize (R3 b). rewrite R2. cbn. repeat case_bool_decide; simplify_eq; cbn in *; lia.
  - intros b Hb. specialize (R3 b). specialize (W3 b Hb). lia.
  - intros e' He'. rewrite R2, He in He'. simplify_eq. specialize (R3 (tables e')).
    rewrite bool_decide_eq_true_2 in R3 by done. cbn in R3.
    rewrite R4 by lia. split; [lia|by apply W4].
  - by apply upgrades_refl.
  - right. split; [done|]. intros b Hb. specialize (R3 b).
    rewrite bool_decide_eq_false_2 in R3 by (intros <-; rewrite He in Hb; cbn in Hb; congruence).
    cbn in R3. split; [lia|]. destruct (decide (1 ≤ strong_count b (cache y))) as [Hp|Hp].
    + apply R4. lia.
    + assert (∀ d, live d → strong_count b d = 0 → content b d = None) as Hnone.
      { intros d Hd Hz. unfold content, strong_count in *.
        destruct (heap d !! b) as [x|] eqn:Hx; [|done]. cbn in Hz. specialize (Hd _ _ Hx). lia. }
      rewrite !Hnone; auto with lia.
  - by intros [? ?].
Qed.

Lemma wf_append y t c' :
  wf y → live c' → entry c' = entry (cache y) → locking t = None → (∀ a, pc t ≠ Install a) →
  (∀ b, strong_count b c' = strong_count b (cache y) + one (bool_decide (holds t = Some b))) →
  (∀ b, content b c' = content b (cache y)) →
  (∀ a, holds t = Some a → t ∈ calls y ∧ handle t = Some a) →
  wf (mkSystem c' (load_lock y) (next_arc y) (loads y) (calls y ++ [t])).
Proof.
  intros Hwf Hlive Hentry Hlock Hinst Hcounts Hcontent Hold.
  pose proof Hwf as [W1 W2 W3 W4 W5 W6 W7 W8 W9].
  assert (∀ b, tables <$> entry (cache y) ≠ Some b → strong_count b c' = strong_count b (cache y))
    as Hother.
  { intros b Hb. rewrite Hcounts. case_bool_decide as Hh; [|cbn; lia].
    destruct (Hold b Hh) as [Ht Hd]. destruct (W6 t b Ht Hd) as (e & He & <- & _).
    by rewrite He in Hb. }
  split; cbn; [|done| | | | | | |].
  - intros a. unfold refs. rewrite count_app, count_cons, count_nil, Hcounts, Hentry, W1.
    unfold refs. lia.
  - intros a Ha. rewrite Hother; [by apply W3|]. intros Hb.
    destruct (entry (cache y)) as [e|] eqn:He; [|done]. cbn in Hb. simplify_eq.
    destruct (W4 e He) as [H1 _]. specialize (W3 _ Ha). lia.
  - eapply (entry_ok_same (cache y)); eauto. intros b. rewrite Hcounts. lia.
  - change (count locking tt (calls y ++ [t]) = one (load_lock y)). by rewrite count_call.
  - rewrite Hentry. intros u a [Hu|Hu]%elem_of_app Ha; [by apply W6|].
    apply list_elem_of_singleton in Hu as ->. apply W6; [|done].
    by apply (Hold a), holds_handle.
  - rewrite Hentry. intros u a [Hu|Hu]%elem_of_app Ha.
    + destruct (W7 u a Hu Ha) as (H1 & H2 & H3). rewrite Hother, Hcontent by done. done.
    + apply list_elem_of_singleton in Hu as ->. by destruct (Hinst a).
  - intros u [Hu|Hu]%elem_of_app Hh; [by apply W8|].
    apply list_elem_of_singleton in Hu as ->. destruct Hh as [a Ha]. intros ?.
    apply W8; [by apply (Hold a)|by eexists|done].
  - intros u [Hu|Hu]%elem_of_app Hl; [unfold needed; rewrite Hentry; by apply W9|].
    apply list_elem_of_singleton in Hu as ->. unfold loading, locking in *. by destruct (pc t).
Qed.

Lemma wf_clear y : wf y → wf (clear_cached_tables y).
Proof.
  intros Hwf. pose proof Hwf as [W1 W2 W3 W4 W5 W6 W7 W8 W9]. unfold clear_cached_tables, on_cache.
  unfold clear_if_unused. destruct (entry (cache y)) as [e|] eqn:He; [|by destruct y].
  case_bool_decide as Hused; [by destruct y|]. cbn.
  destruct (W4 e He) as [H1 _]. set (d := set_entry None (cache y)).
  destruct (release_spec (tables e) d) as (R1 & R2 & R3 & R4); [done|done|].
  assert (∀ b, strong_count b d = strong_count b (cache y)) as Hd by done.
  assert (∀ u a, u ∈ calls y → handle u ≠ Some a) as Hno.
  { intros u a Hu Ha. destruct (handle_counts y u a Hwf Hu Ha) as (e' & He' & <- & H2).
    rewrite He in He'. simplify_eq. lia. }
  split; cbn [cache calls load_lock next_arc loads].
  - intros a. specialize (R3 a). rewrite Hd, W1 in R3. rewrite R2. unfold refs in *. rewrite ?He in R3.
    cbn in *. repeat case_bool_decide; simplify_eq; cbn in *; lia.
  - done.
  - intros a Ha. specialize (R3 a). specialize (W3 a Ha). rewrite Hd in R3. lia.
  - intros e'. by rewrite R2.
  - done.
  - intros u a Hu Ha. by destruct (Hno u a).
  - intros u a Hu Ha. destruct (W7 u a Hu Ha) as (N1 & N2 & N3). rewrite R2.
    specialize (R3 a). rewrite Hd in R3.
    rewrite bool_decide_eq_false_2 in R3 by (intros <-; by apply N1). cbn in R3.
    rewrite R4 by lia. split_and!; [done|lia|done].
  - done.
  - intros u _ _ _ e'. by rewrite R2.
Qed.

Lemma wf_poison y a : wf y → wf (on_cache (poison a) y).
Proof.
  intros Hwf. pose proof Hwf as [W1 W2 W3 W4 W5 W6 W7 W8 W9].
  destruct (alter_spec (λ x, mkCell (strong x) (value x) true) a (cache y)) as (A1 & A2 & A3);
    [done|done|].
  assert (∀ b, content b (poison a (cache y)) = content b (cache y)) as Hc.
  { intros b. unfold poison. rewrite A3. by case_bool_decide. }
  split; cbn; [| done | | | | | | |].
  - intros b. unfold poison. by rewrite A2, W1.
  - intros b Hb. unfold poison. rewrite A2. by apply W3.
  - eapply (entry_ok_same (cache y)); eauto. intros b. unfold poison. by rewrite A2.
  - done.
  - done.
  - intros u b Hu Hb. destruct (W7 u b Hu Hb) as (N1 & N2 & N3). unfold poison at 2.
    rewrite Hc, A2. done.
  - done.
  - done.
Qed.

Lemma wf_run y i y' : wf y → run i y = Some y' → wf y' ∧ upgrades (cache y) (cache y').
Proof.
  intros Hwf. unfold run. destruct (calls y !! i) as [[r p]|] eqn:Hi; [|done]. cbn.
  destruct p as [| | | |a|o|o|]; cbn; try done.
  - destruct (lookup_cache _ _ _ _) as [c p'] eqn:Hl. intros [= <-].
    by eapply (move_lookup y i r CheckCache Hwf Hi LockLoad Returned).
  - destruct (load_lock y) eqn:Hlock; [done|]. intros [= <-].
    apply (move_quiet y i r LockLoad Hwf Hi); try done. by rewrite Hlock.
  - destruct (lookup_cache _ _ _ _) as [c p'] eqn:Hl. intros [= <-].
    by eapply (move_lookup y i r Recheck Hwf Hi Load UnlockLoad).
  - destruct (install _ _ _) as [res c] eqn:Hins. intros [= <-].
    by eapply (move_install y i r (Install a) Hwf Hi a).
  - intros [= <-]. apply (move_quiet y i r (UnlockLoad o) Hwf Hi); try done.
    pose proof (count_pos locking tt (calls y) i _ Hi eq_refl) as Hpos.
    rewrite (wf_lock _ Hwf) in Hpos. rewrite bool_decide_eq_true_2, bool_decide_eq_false_2 by done.
    destruct (load_lock y); [done|cbn in Hpos; lia].
Qed.

Lemma wf_loaded y i res y' :
  wf y → load_ok y i res = true → loaded i res y = Some y' → wf y' ∧ upgrades (cache y) (cache y').
Proof.
  intros Hwf. unfold load_ok, loaded. destruct (calls y !! i) as [[r p]|] eqn:Hi; [|done]. cbn.
  destruct p; try done. destruct res as [v|e]; cbn.
  - intros Hv%bool_decide_eq_true [= <-]. by apply move_loaded.
  - intros _ [= <-]. by apply (move_quiet y i r Load Hwf Hi).
Qed.

Lemma wf_step y l y' :
  wf y → step y l = Some y' → wf y' ∧ (l ≠ Clear → upgrades (cache y) (cache y')).
Proof.
  intros Hwf. destruct l as [r|i|i res|i|i|i| |a]; cbn.
  - intros [= <-]. split; [|intros _; by apply upgrades_refl].
    apply wf_append; try done. apply Hwf.
  - intros [? ?]%wf_run; auto.
  - destruct (load_ok y i res) eqn:Hok; [|done]. intros [? ?]%wf_loaded; auto.
  - unfold abort. destruct (calls y !! i) as [[r p]|] eqn:Hi; [|done]. cbn.
    destruct p; try done; intros [= <-].
    + by destruct (move_quiet y i r LockLoad Hwf Hi (Returned Dropped) (load_lock y)).
    + by destruct (move_quiet y i r Load Hwf Hi (UnlockLoad Dropped) (load_lock y)).
  - unfold drop_tables. destruct (calls y !! i) as [[r p]|] eqn:Hi; [|done]. cbn.
    destruct p as [| | | | | |[a| |]|]; try done; intros [= <-].
    destruct (move_drop y i r a Hwf Hi); auto.
  - unfold share_tables. destruct (calls y !! i) as [[r p]|] eqn:Hi; [|done]. cbn.
    destruct p as [| | | | | |[a| |]|]; try done; intros [= <-].
    assert (mkCall r (Returned (Got a)) ∈ calls y) as Ht by (by eapply list_elem_of_lookup_2).
    destruct (handle_counts y _ a Hwf Ht eq_refl) as (e & He & Ha & H2).
    destruct (clone_spec a (cache y)) as (C1 & C2 & C3 & C4); [apply Hwf|lia|].
    split; [|intros _; by apply upgrades_refl].
    apply wf_append; try done.
    intros b. rewrite C3. cbn. repeat case_bool_decide; simplify_eq; done.
  - intros [= <-]. split; [by apply wf_clear|done].
  - intros [= <-]. split; [by apply wf_poison|]. intros _. by apply upgrades_refl.
Qed.

Lemma tables_invariant y : reached y → wf y.
Proof.
  intros [labels Hr]. revert Hr. apply reachable_invariant.
  - intros ? ->. split; cbn; try done; try (by intros * ?%elem_of_nil).
  - intros z l z' Hz Hs. by eapply wf_step.
Qed.

(** A returned handle is the cached [Arc], and its tables serve the request. *)
Lemma handle_shares y t a :
  reached y → t ∈ calls y → pc t = Returned (Got a) →
  ∃ e v, entry (cache y) = Some e ∧ tables e = a ∧ content a (cache y) = Some v ∧
         table_l1 v = l1_size e ∧ (requested_l1 (request t) ≤ table_l1 v)%Z.
Proof.
  intros Hwf%tables_invariant Ht Hp.
  destruct (wf_handles _ Hwf t a Ht) as (e & He & <- & Hle); [unfold handle; by rewrite Hp|].
  destruct (wf_entry _ Hwf e He) as [_ Hv].
  destruct (content (tables e) (cache y)) as [v|] eqn:Hc; [|done]. cbn in Hv. simplify_eq.
  exists e, v. split_and!; [done..|congruence|by rewrite Hv].
Qed.

(** ** What the users of the tables rely on *)

(** Claim C28 (invariant): however the calls, the loads and the clearing are
    interleaved, every holder of precomputed tables shares the cached ones, and
    they are at least as large as what the holder asked for; so all holders see
    the same tables. *)
Theorem tables_shared y t u a b :
  reached y → t ∈ calls y → u ∈ calls y → pc t = Returned (Got a) → pc u = Returned (Got b) →
  a = b ∧ ∃ v, content a (cache y) = Some v ∧
    (requested_l1 (request t) ≤ table_l1 v)%Z ∧ (requested_l1 (request u) ≤ table_l1 v)%Z.
Proof.
  intros Hy Ht Hu Ha Hb. destruct (handle_shares y t a Hy Ht Ha) as (e & v & He & <- & Hv & _ & Hle).
  destruct (handle_shares y u b Hy Hu Hb) as (e' & v' & He' & <- & Hv' & _ & Hle').
  simplify_eq. eauto.
Qed.

(** Claim C29 (safety): tables in use are never taken away, exchanged for others
    or shrunk; they are replaced, for all their holders at once, only when they
    were the smallest, so at most one upgrade happens during a use. *)
Theorem tables_only_upgrade y l y' t a :
  reached y → step y l = Some y' → t ∈ calls y → pc t = Returned (Got a) →
  ∃ e e', entry (cache y) = Some e ∧ entry (cache y') = Some e' ∧ tables e = a ∧ tables e' = a ∧
    (l1_size e ≤ l1_size e')%Z ∧ (l1_size e' ≠ l1_size e → l1_size e = L1_LOW).
Proof.
  intros Hwf%tables_invariant Hs Ht Hp.
  destruct (handle_counts y t a Hwf Ht) as (e & He & <- & H2); [unfold handle; by rewrite Hp|].
  destruct (wf_step _ _ _ Hwf Hs) as [_ Hup]. exists e.
  destruct l; try (destruct (Hup ltac:(done) e He) as (e' & ? & ? & ? & ?); by exists e').
  cbn in Hs; injection Hs as <-; unfold clear_cached_tables, on_cache, clear_if_unused; cbn;
    rewrite He, bool_decide_eq_true_2 by lia; exists e; cbn; split_and!; done || lia.
Qed.

(** At most two tables are in memory: the cached ones, and
    those that the holder of the load lock is about to install. *)
Theorem tables_in_memory y :
  reached y →
  size (heap (cache y)) ≤ length (option_list (entry (cache y))) + one (load_lock y).
Proof.
  intros Hwf%tables_invariant. rewrite <-size_dom.
  set (waiting := filter (λ t, locking t = Some tt) (calls y)).
  assert (length waiting = one (load_lock y)) as Hw by apply (wf_lock _ Hwf).
  trans (size (list_to_set (C := gset arc)
    (map tables (option_list (entry (cache y))) ++ omap holds waiting))).
  - apply subseteq_size. intros a [x Hx]%elem_of_dom. apply elem_of_list_to_set, elem_of_app.
    pose proof (wf_live _ Hwf _ _ Hx) as Hs. pose proof (wf_counts _ Hwf a) as Hc.
    unfold strong_count in Hc. rewrite Hx in Hc. cbn in Hc. unfold refs in Hc.
    case_bool_decide as Hent.
    { left. destruct (entry (cache y)) as [e|]; [|done]. cbn in Hent. simplify_eq. cbn. set_solver. }
    destruct (count_exists holds a (calls y)) as (i & t & Hi & Ht); [cbn in Hc; lia|].
    assert (t ∈ calls y) as Hin by (by eapply list_elem_of_lookup_2).
    destruct (handle t) as [b|] eqn:Hb.
    + pose proof (holds_handle _ _ Hb). simplify_eq.
      destruct (wf_handles _ Hwf t a Hin Hb) as (e & He & <- & _). by rewrite He in Hent.
    + right. apply list_elem_of_omap. exists t. split; [|done]. apply list_elem_of_filter.
      split; [|done]. unfold holds, handle, locking in *. by repeat case_match.
  - rewrite <-Hw. etrans; [apply size_list_to_set_le|]. rewrite length_app, length_map.
    pose proof (omap_length_le holds waiting). lia.
Qed.

(** The cache is cleared exactly when nobody holds its
    tables, and then their memory is freed. *)
Theorem cleared_when_unused y :
  reached y →
  let '(cleared, c) := clear_if_unused (cache y) in
  (cleared = true ↔ ∀ t, t ∈ calls y → handle t = None) ∧
  (cleared = true → entry c = None ∧ ∀ e, entry (cache y) = Some e → content (tables e) c = None).
Proof.
  intros Hwf%tables_invariant. destruct (clear_if_unused (cache y)) as [cleared c] eqn:Hclear.
  assert (cleared = false → ∃ t, t ∈ calls y ∧ handle t ≠ None) as Hused.
  { unfold clear_if_unused in Hclear. destruct (entry (cache y)) as [e|] eqn:He; [|by simplify_eq].
    case_bool_decide as Hs; simplify_eq; [intros _|done].
    rewrite (wf_counts _ Hwf) in Hs. unfold refs in Hs. rewrite He, bool_decide_eq_true_2 in Hs by done.
    destruct (count_exists holds (tables e) (calls y)) as (i & t & Hi & Ht); [cbn in Hs; lia|].
    apply list_elem_of_lookup_2 in Hi. exists t. split; [done|].
    unfold handle, holds in *. destruct (pc t) as [| | | |a|[]|[]|] eqn:Hp; try done.
    destruct (wf_install _ Hwf t a Hi Hp) as [Hne _]. by rewrite He, Ht in Hne. }
  assert (∀ t a, t ∈ calls y → handle t = Some a → cleared = false) as Hkept.
  { intros t a Ht Ha. destruct (handle_counts y t a Hwf Ht Ha) as (e & He & <- & H2).
    unfold clear_if_unused in Hclear. rewrite He, bool_decide_eq_true_2 in Hclear by lia.
    by simplify_eq. }
  split; [split|].
  - intros -> t Ht. destruct (handle t) as [a|] eqn:Ha; [|done]. by specialize (Hkept t a Ht Ha).
  - intros Hno. destruct cleared; [done|]. destruct Hused as (t & Ht & Hh); [done|]. by rewrite Hno in Hh.
  - intros ->. unfold clear_if_unused in Hclear. destruct (entry (cache y)) as [e|] eqn:He; [|by simplify_eq].
    case_bool_decide as Hs; simplify_eq. split; [done|]. intros ? [= <-].
    destruct (wf_entry _ Hwf e He) as [H1 _].
    destruct (release_spec (tables e) (set_entry None (cache y))) as (R1 & _ & R3 & _);
      [apply Hwf|done|]. specialize (R3 (tables e)). rewrite bool_decide_eq_true_2 in R3 by done.
    change (strong_count (tables e) (set_entry None (cache y)))
      with (strong_count (tables e) (cache y)) in R3. cbn [one] in R3.
    unfold content. destruct (heap (release _ _) !! tables e) as [x|] eqn:Hx; [|done].
    specialize (R1 _ _ Hx). unfold strong_count in R3 at 1. rewrite Hx in R3. cbn in R3. lia.
Qed.

(** Tables are loaded or generated by one call at a time, and
    for a call that may reuse the cache only when the cache cannot serve it and
    an upgrade is still allowed. *)
Theorem loads_exclusive_and_needed y i t :
  reached y → calls y !! i = Some t → loading t = true →
  (∀ j u, calls y !! j = Some u → loading u = true → j = i) ∧
  (reuse_compatible_cache (request t) = true →
   ∀ e, entry (cache y) = Some e → (l1_size e < requested_l1 (request t))%Z ∧ l1_size e = L1_LOW).
Proof.
  intros Hwf%tables_invariant Hi Hl.
  assert (∀ u, loading u = true → locking u = Some tt) as Hlk.
  { intros u. unfold loading, locking. by destruct (pc u). }
  split.
  - intros j u Hj Hu. by apply (lock_alone y i t Hwf Hi j u); auto.
  - apply (wf_needed _ Hwf t); [by eapply list_elem_of_lookup_2|done].
Qed.

(** Installing loaded tables never fails because they are
    shared: the loading call holds their only reference. *)
Theorem loaded_tables_unshared y i r a :
  reached y → calls y !! i = Some (mkCall r (Install a)) →
  (install (requested_l1 r) a (cache y)).1 ≠ Err shared_error.
Proof.
  intros Hwf%tables_invariant Hi. destruct (install _ _ _) as [res c] eqn:Hins.
  by apply (move_install y i r (Install a) Hwf Hi a res c).
Qed.

Lemma materialized y t a :
  reached y → t ∈ calls y → pc t = Returned (Got a) → reuse_compatible_cache (request t) = false →
  (precomputed_tables_path (request t), requested_l1 (request t)) ∈ loads y.
Proof.
  intros Hwf%tables_invariant Ht Hp. apply (wf_loads _ Hwf t Ht). unfold holds. rewrite Hp. by eexists.
Qed.

(** [materialize_precomputed_tables] succeeds only after
    tables of the requested size were read or generated at the requested path,
    whatever the cache holds: an update survives the process. *)
Theorem update_materialized y t path l1 a :
  reached y → t ∈ calls y → request t = materialize_precomputed_tables path l1 →
  pc t = Returned (Got a) → (Some path, l1) ∈ loads y.
Proof.
  intros Hy Ht Hr Hp. pose proof (materialized y t a Hy Ht Hp) as Hl. rewrite Hr in Hl. by apply Hl.
Qed.

(** ** Progress *)

Definition ended (t : Call) : bool :=
  match pc t with Returned _ | Released => true | _ => false end.

(** The load lock never blocks everybody: while a call has
    not ended, some call can make a step or waits for its load. *)
Theorem loads_progress y t :
  reached y → t ∈ calls y → ended t = false →
  ∃ i u, calls y !! i = Some u ∧ (pc u = Load ∨ is_Some (run i y)).
Proof.
  intros Hwf%tables_invariant Ht He.
  assert (∀ i u, calls y !! i = Some u → locking u = Some tt → pc u = Load ∨ is_Some (run i y)) as Hgo.
  { intros i u Hi Hu. unfold run. rewrite Hi. cbn. destruct u as [r p]. cbn in *.
    destruct p; try done; [right|by left|right|right]; cbn.
    - destruct (lookup_cache _ _ _ _). by eexists.
    - destruct (install _ _ _). by eexists.
    - by eexists. }
  apply list_elem_of_lookup in Ht as [i Hi]. destruct t as [r p].
  destruct p; try done; try (exists i; eexists; split; [done|by eapply Hgo]).
  - exists i. eexists. split; [done|]. right. unfold run. rewrite Hi. cbn.
    destruct (lookup_cache _ _ _ _). by eexists.
  - destruct (load_lock y) eqn:Hlock.
    + destruct (count_exists locking tt (calls y)) as (j & u & Hj & Hu);
        [rewrite (wf_lock _ Hwf), Hlock; done|]. exists j, u. split; [done|by eapply Hgo].
    + exists i. eexists. split; [done|]. right. unfold run. rewrite Hi. cbn. rewrite Hlock. by eexists.
Qed.

(** A bound on the steps a call still makes. *)
Definition rank (t : Call) : nat :=
  match pc t with
  | CheckCache => 6 | LockLoad => 5 | Recheck => 4 | Load => 3 | Install _ => 2
  | UnlockLoad _ => 1 | Returned _ | Released => 0
  end.
Definition ranks (y : System) : nat := sum_list_with rank (calls y).

Definition by_call (y : System) (l : label) : option System :=
  match l with Run _ | Loaded _ _ => step y l | _ => None end.
Fixpoint run_calls (ls : list label) (y : System) : option System :=
  match ls with [] => Some y | l :: ls => y ← by_call y l; run_calls ls y end.

Lemma lookup_rank r required found c c' p' :
  lookup_cache r required found c = (c', p') →
  rank (mkCall r p') ≤ rank (mkCall r required) ∨ ∃ o, p' = found o.
Proof.
  unfold lookup_cache. repeat case_match; intros [= <- <-]; eauto.
Qed.

Lemma by_call_ranks y l y' : by_call y l = Some y' → ranks y' < ranks y.
Proof.
  unfold by_call. destruct l as [|i|i res| | | | |]; try done; cbn; [|case_match; [|done]];
    unfold run, loaded; destruct (calls y !! i) as [[r p]|] eqn:Hi; try done; cbn.
  - destruct (exec r p (cache y) (load_lock y)) as [[[c lock] p']|] eqn:Hx; [|done].
    cbn. intros [= <-]. pose proof (sum_insert rank (calls y) i _ (mkCall r p') Hi) as Hr.
    unfold ranks. cbn. cut (rank (mkCall r p') < rank (mkCall r p)); [lia|].
    destruct p; cbn in Hx; try done.
    + destruct (lookup_cache _ _ _ _) as [c0 p0] eqn:Hlk. simplify_eq.
      apply lookup_rank in Hlk as [Hlk|[o ->]]; cbn in *; lia.
    + case_match; simplify_eq; cbn; lia.
    + destruct (lookup_cache _ _ _ _) as [c0 p0] eqn:Hlk. simplify_eq.
      apply lookup_rank in Hlk as [Hlk|[o ->]]; cbn in *; lia.
    + destruct (install _ _ _) as [res c0]. simplify_eq. cbn. lia.
    + simplify_eq. cbn. lia.
  - destruct p; try done. destruct res as [v|e]; intros [= <-]; unfold ranks; cbn.
    + pose proof (sum_insert rank (calls y) i _ (mkCall r (Install (next_arc y))) Hi) as Hr. cbn in Hr. lia.
    + pose proof (sum_insert rank (calls y) i _ (mkCall r (UnlockLoad (Failed e))) Hi) as Hr. cbn in Hr. lia.
Qed.

(** Every call ends: between new requests the calls and
    their loads make at most six steps each. *)
Theorem calls_end y ls y' : run_calls ls y = Some y' → length ls ≤ 6 * length (calls y).
Proof.
  intros Hrun. trans (ranks y).
  - revert y Hrun. induction ls as [|l ls IH]; intros y Hrun; cbn in *; [lia|].
    apply bind_Some in Hrun as (z & Hz%by_call_ranks & Hrun). specialize (IH z Hrun). lia.
  - apply sum_bound. intros [r p]. destruct p; cbn; lia.
Qed.

(** ** Concrete runs *)

Definition played (ls : list label) : System := Tasks.played step started ls.

Lemma tables_played ls : Tasks.plays step started ls = true → reached (played ls).
Proof. apply played_reachable. Qed.
End Cache.

(** ** Sizes and types *)

(** A size that a type stands for is named by a type that
    stands for the same size; a custom size is accepted exactly from 16 to 32. *)
Theorem table_type_roundtrip `{!TableSizes} t n :
  to_l1_size t = Ok n →
  to_l1_size (precomputed_table_type_from_l1 n) = Ok n ∧
  (∀ size, t = Custom size → n = size ∧ (16 ≤ size ≤ 32)%Z).
Proof.
  intros Ht. unfold precomputed_table_type_from_l1. split.
  - case_bool_decide; [by subst|]. case_bool_decide; [by subst|]. case_bool_decide; [by subst|].
    destruct t as [| | |size]; cbn in Ht; try congruence. by case_match; simplify_eq/=; case_match.
  - intros size ->. cbn in Ht. case_match eqn:Hb; [done|]. simplify_eq.
    apply orb_false_iff in Hb as [H1%bool_decide_eq_false H2%bool_decide_eq_false]. split; [done|lia].
Qed.

(** ** Witnesses *)

Definition demo_sizes : TableSizes := {| L1_LOW := 13; L1_MEDIUM := 25; L1_FULL := 26 |}%Z.
#[local] Existing Instance demo_sizes.

(** Two wallets ask for the small tables, one of them loads; an update replaces
    them by larger ones. *)
Definition two_wallets : list (label (T := Z)) :=
  [Request_ (get_or_load_precomputed_tables None 13);
   Request_ (get_or_load_precomputed_tables None 13);
   Run 0; Run 1; Run 0; Run 0; Loaded 0 (Ok 13%Z); Run 0; Run 0; Run 1; Run 1; Run 1].
Definition updated : list (label (T := Z)) :=
  two_wallets ++
  [Request_ (materialize_precomputed_tables "tables" 26); Run 2; Run 2; Run 2;
   Loaded 2 (Ok 26%Z); Run 2; Run 2; Drop 2].

Lemma table_type_roundtrip_witness :
  to_l1_size (precomputed_table_type_from_l1 26) = Ok 26%Z ∧
  (∀ size, Custom 26 = Custom size → 26%Z = size ∧ (16 ≤ size ≤ 32)%Z).
Proof. apply (table_type_roundtrip (Custom 26) 26). reflexivity. Defined.

Definition holder : Call := mkCall (get_or_load_precomputed_tables None 13) (Returned (Got 0)).

Lemma tables_shared_witness :
  0 = 0 ∧ ∃ v, content 0 (cache (played id (take 19 updated))) = Some v ∧
    (13 ≤ id v)%Z ∧ (26 ≤ id v)%Z.
Proof.
  apply (tables_shared id (played id (take 19 updated)) holder
           (mkCall (materialize_precomputed_tables "tables" 26) (Returned (Got 0))) 0 0);
    [apply tables_played; vm_compute; reflexivity|apply (list_elem_of_lookup_2 _ 0); reflexivity
    |apply (list_elem_of_lookup_2 _ 2); reflexivity|reflexivity|reflexivity].
Defined.

(** The step that installs the larger tables. *)
Lemma tables_only_upgrade_witness :
  ∃ e e', entry (cache (played id (take 17 updated))) = Some e ∧
    entry (cache (played id (take 18 updated))) = Some e' ∧ tables e = 0 ∧ tables e' = 0 ∧
    (l1_size e ≤ l1_size e')%Z ∧ (l1_size e' ≠ l1_size e → l1_size e = L1_LOW).
Proof.
  apply (tables_only_upgrade id (played id (take 17 updated)) (Run 2)
           (played id (take 18 updated)) holder 0);
    [apply tables_played; vm_compute; reflexivity|reflexivity
    |apply (list_elem_of_lookup_2 _ 0); reflexivity|reflexivity].
Defined.

Lemma tables_in_memory_witness :
  size (heap (cache (played id (take 17 updated)))) ≤
    length (option_list (entry (cache (played id (take 17 updated))))) +
      one (load_lock (played id (take 17 updated))).
Proof.
  apply (tables_in_memory id). apply tables_played. vm_compute. reflexivity.
Defined.

Lemma cleared_when_unused_witness :
  let '(cleared, c) := clear_if_unused (cache (played id updated)) in
  (cleared = true ↔ ∀ t, t ∈ calls (played id updated) → handle t = None) ∧
  (cleared = true → entry c = None ∧
     ∀ e, entry (cache (played id updated)) = Some e → content (tables e) c = None).
Proof.
  apply (cleared_when_unused id (played id updated)). apply tables_played. vm_compute. reflexivity.
Defined.

Lemma loads_exclusive_and_needed_witness :
  (∀ j u, calls (played id (take 6 two_wallets)) !! j = Some u → loading u = true → j = 0) ∧
  (true = true → ∀ e, entry (cache (played id (take 6 two_wallets))) = Some e →
     (l1_size e < 13)%Z ∧ l1_size e = L1_LOW).
Proof.
  apply (loads_exclusive_and_needed id (played id (take 6 two_wallets)) 0
           (mkCall (get_or_load_precomputed_tables None 13) Load));
    [apply tables_played; vm_compute; reflexivity|reflexivity|reflexivity].
Defined.

Lemma loaded_tables_unshared_witness :
  (install 26 1 (cache (played id (take 17 updated)))).1 ≠ Err shared_error.
Proof.
  apply (loaded_tables_unshared id (played id (take 17 updated)) 2
           (materialize_precomputed_tables "tables" 26) 1);
    [apply tables_played; vm_compute; reflexivity|reflexivity].
Defined.

Lemma update_materialized_witness :
  (Some "tables", 26%Z) ∈ loads (played id (take 19 updated)).
Proof.
  apply (update_materialized id (played id (take 19 updated))
           (mkCall (materialize_precomputed_tables "tables" 26) (Returned (Got 0))) "tables" 26 0);
    [apply tables_played; vm_compute; reflexivity
    |apply (list_elem_of_lookup_2 _ 2); reflexivity|reflexivity|reflexivity].
Defined.

Lemma loads_progress_witness :
  ∃ i u, calls (played id (take 4 two_wallets)) !! i = Some u ∧
    (pc u = Load ∨ is_Some (run i (played id (take 4 two_wallets)))).
Proof.
  apply (loads_progress id (played id (take 4 two_wallets))
           (mkCall (get_or_load_precomputed_tables None 13) LockLoad));
    [apply tables_played; vm_compute; reflexivity|apply (list_elem_of_lookup_2 _ 0); reflexivity|reflexivity].
Defined.

Lemma calls_end_witness : 4 ≤ 12.
Proof.
  apply (calls_end id (played id (take 2 two_wallets)) [Run 0; Run 1; Run 0; Run 0]
           (played id (take 6 two_wallets))).
  reflexivity.
Defined.
End Tables.
