(* ===== verification/Lifecycle.v ===== *)
(** * The life of a wallet
    (rust/src/api/wallet/runtime.rs outside the connection attempts,
    rust/src/api/wallet.rs, and WalletDaemonInfo of models/runtime_dtos.rs)

    The thread parameters of the application, where a wallet lies, what it is
    recovered from, how it is created or opened over the shared tables of
    [Tables], how the tables are updated, and the methods that pass a call on to
    the wallet crate. *)

From Stdlib Require Import Ascii.
From S2P Require Import Prelude Tasks Errors External Tables Prepared Pending Registry.
From S2P Require Import Daemon Connection.

Module Lifecycle.
Import Tasks Tables.

(** ** Thread parameters *)

(** [saturating_sub], [max] and [min] on [usize]. *)
Definition mt_params_for_cpu_cores (cpu_cores : Z) : Z * Z :=
  let thread_count := (Z.max (cpu_cores - 2) 0 `max` 1 `min` 32)%Z in
  (thread_count, (thread_count * 4)%Z).

(** The static [MT_PARAMS]; [available_parallelism] may fail. *)
Definition get_mt_params (available_parallelism : option Z) : proc (option (Z * Z)) (Z * Z) := λ guard,
  match guard with
  | Some params => (params, guard)
  | None =>
      let cpu_cores := default 1%Z available_parallelism in
      let params := mt_params_for_cpu_cores cpu_cores in
      (params, Some params)
  end.
Definition refresh_mt_params (available_parallelism : option Z) : proc (option (Z * Z)) unit := λ _,
  let '(_, guard) := get_mt_params available_parallelism None in (tt, guard).
Definition set_mt_params (thread_count concurrency : Z) : proc (option (Z * Z)) unit := λ _,
  (tt, Some (thread_count, concurrency)).

(** ** Paths *)

(** [Path::join] on Unix: an absolute path replaces, and a separator is added
    where there is none. *)
Definition ends_with_slash (s : string) : bool :=
  match last (String.list_ascii_of_string s) with Some c => bool_decide (c = "/"%char) | None => false end.
Definition join (directory name : string) : string :=
  match name with
  | String "/" _ => name
  | _ => if bool_decide (directory = "") || ends_with_slash directory
         then directory +:+ name else directory +:+ "/" +:+ name
  end.

Definition resolve_wallet_path (name directory : string) : result anyhow_error string :=
  if bool_decide (name = "") then
    if bool_decide (directory = "") then
      Err (bail "Either 'name' or 'directory' must be non-empty")
    else Ok directory
  else Ok (join directory name).

(** ** Recovery inputs *)

Inductive RecoveryInputKind : Type := KindNone | KindSeed | KindPrivateKey.

Definition recovery_input_kind (has_seed has_private_key : bool) :
    result NativeXelisError RecoveryInputKind :=
  match has_seed, has_private_key with
  | true, true =>
      Err (xelis_wallet_flutter CodeInvalidInput "WALLET_RECOVERY_INPUT_CONFLICT"
             "Seed and private key recovery inputs are mutually exclusive")
  | true, false => Ok KindSeed
  | false, true => Ok KindPrivateKey
  | false, false => Ok KindNone
  end.

(** [xelis_wallet::wallet::RecoverOption]. *)
Inductive RecoverOption : Type :=
  | RecoverNone
  | RecoverSeed (seed : string)
  | RecoverPrivateKey (private_key : string).

(** [None] is the panic of [expect]. *)
Definition recover_option (kind : RecoveryInputKind) (seed private_key : option string) :
    option RecoverOption :=
  match kind with
  | KindNone => Some RecoverNone
  | KindSeed => RecoverSeed <$> seed
  | KindPrivateKey => RecoverPrivateKey <$> private_key
  end.

(** ** One call of the table cache at a time *)

Section Sequential.
Context `{!TableSizes} {T : Type} (read_or_generate : option string → Z → result anyhow_error T).

(** The next step of the call of index [i], when nothing else runs. *)
Definition advance (i : nat) (y : System (T := T)) : System :=
  match calls y !! i with
  | Some (mkCall r Load) =>
      default y (loaded i (read_or_generate (precomputed_tables_path r) (requested_l1 r)) y)
  | _ => default y (run i y)
  end.

(** A call makes at most six steps. *)
Definition perform (r : Request) (y : System) : outcome * System :=
  let i := length (calls y) in
  let y := Nat.iter 6 (advance i)
             (mkSystem (cache y) (load_lock y) (next_arc y) (loads y)
                (calls y ++ [mkCall r CheckCache])) in
  (match calls y !! i with Some (mkCall _ (Returned o)) => o | _ => Dropped end, y).
End Sequential.

(** ** The application and its wallets *)

Section Lifecycle.
Context `{!ErrorText, !TableSizes, !HashLib} {T Wallet Prepared Multisig AppState : Type}.

(** What is called of the wallet crate and of the system.  [Wallet::create] and
    [Wallet::open] are given the tables; they return their result, and whether the
    wallet crate still holds the tables then. *)
Record Env : Type := mkEnv {
  available_parallelism : option Z;
  read_or_generate_precomputed_tables : option string → Z → result anyhow_error T;
  wallet_create : string → string → RecoverOption → Network → nat → Z → Z →
    result anyhow_error Wallet * bool;
  wallet_open : string → string → Network → nat → Z → Z → result anyhow_error Wallet * bool
}.

(** The statics of the process. *)
Record App : Type := mkApp {
  mt_params : option (Z * Z);
  shared_tables : Tables.System (T := T)
}.
Definition set_tables (y : Tables.System) (app : App) : App := mkApp (mt_params app) y.

(** A wallet handle; [table_call] is the call of the table cache whose result
    the wallet holds. *)
Record XelisWallet : Type := mkXelisWallet {
  wallet : Wallet;
  table_call : nat;
  connection : Connection.Shared;
  runtime_event_generation : Z;
  business_event_generation : Z;
  prepared_transaction : Slot.PreparedTransactionStore Hash Prepared;
  pending_multisig : Pending.PendingMultisigStore (Hash := Hash) (T := Multisig);
  xswd_sessions : gmap Z (@Registry.XswdSessionEntry AppState)
}.

Definition alternate (e : anyhow_error) : string := let 'AnyhowError text _ := e in text.

Definition invalid_path (error : anyhow_error) : NativeXelisError :=
  xelis_wallet_flutter CodeInvalidInput "WALLET_PATH_INVALID" (alternate error).
Definition invalid_table_type (error : anyhow_error) : NativeXelisError :=
  xelis_wallet_flutter CodeInvalidInput "PRECOMPUTED_TABLE_TYPE_INVALID" (alternate error).
Definition tables_failed (error : anyhow_error) : NativeXelisError :=
  xelis_wallet_flutter CodeInitialization "PRECOMPUTED_TABLES_INITIALIZATION_FAILED" (alternate error).

(** A call of the bridge: it returns, or not, and changes the statics. *)
Definition call (A : Type) : Type := App → option (result NativeXelisError A) * App.
#[local] Instance call_ret : MRet call := λ A a app, (Some (Ok a), app).
#[local] Instance call_bind : MBind call := λ A B f m app,
  match m app with
  | (Some (Ok a), app) => f a app
  | (Some (Err e), app) => (Some (Err e), app)
  | (None, app) => (None, app)
  end.
Definition try {A} (r : result NativeXelisError A) : call A := λ app, (Some r, app).
(** A panic does not return. *)
Definition expect {A} (o : option A) : call A := λ app, (Ok <$> o, app).

(** A request to the table cache, as the index and the [Arc] of its result; the
    holder of the result lets it go with [release_tables]. *)
Definition request_tables (env : Env) (r : Request) (on_error : anyhow_error → NativeXelisError) :
    call (nat * nat) := λ app,
  let i := length (calls (shared_tables app)) in
  match perform (read_or_generate_precomputed_tables env) r (shared_tables app) with
  | (Got tables, y) => (Some (Ok (i, tables)), set_tables y app)
  | (Failed e, y) => (Some (Err (on_error e)), set_tables y app)
  | (Dropped, y) => (None, set_tables y app)
  end.
Definition release_tables (i : nat) (app : App) : App :=
  set_tables (default (shared_tables app) (drop_tables i (shared_tables app))) app.

Definition thread_params (env : Env) : call (Z * Z) := λ app,
  let '(params, guard) := get_mt_params (available_parallelism env) (mt_params app) in
  (Some (Ok params), mkApp guard (shared_tables app)).

(** The tables are moved to the wallet crate; they are released if it has let them
    go when it returns. *)
Definition own_tables {A} (i : nat) (on_error : anyhow_error → NativeXelisError)
    (r : result anyhow_error A * bool) : call A := λ app,
  (Some (map_err on_error r.1), if r.2 then app else release_tables i app).

Definition new_wallet (w : Wallet) (i : nat) : XelisWallet :=
  mkXelisWallet w i Connection.initial_shared 0 0 Slot.store_default Pending.pending_default ∅.

Definition create_error (recovery_input : RecoveryInputKind) (error : anyhow_error) :
    NativeXelisError :=
  match recovery_input with
  | KindNone => from_wallet_operation error CodeInternal "WALLET_CREATE_FAILED"
  | KindSeed => from_wallet_seed_recovery_operation error
  | KindPrivateKey => from_wallet_private_key_recovery_operation error
  end.

Definition create_xelis_wallet (env : Env) (name directory password : string) (network : Network)
    (seed private_key precomputed_tables_path : option string)
    (precomputed_table_type : PrecomputedTableType) : call XelisWallet :=
  recovery_input ← try (recovery_input_kind (bool_decide (is_Some seed))
                          (bool_decide (is_Some private_key)));
  full_path ← try (map_err invalid_path (resolve_wallet_path name directory));
  precomputed_tables_size ← try (map_err invalid_table_type (to_l1_size precomputed_table_type));
  '(i, precomputed_tables) ← request_tables env
      (get_or_load_precomputed_tables precomputed_tables_path precomputed_tables_size)
      tables_failed;
  recover ← expect (recover_option recovery_input seed private_key);
  '(thread_count, concurrency) ← thread_params env;
  xelis_wallet ← own_tables i (create_error recovery_input)
      (wallet_create env full_path password recover network precomputed_tables
         thread_count concurrency);
  mret (new_wallet xelis_wallet i).

Definition open_xelis_wallet (env : Env) (name directory password : string) (network : Network)
    (precomputed_tables_path : option string) (precomputed_table_type : PrecomputedTableType) :
    call XelisWallet :=
  full_path ← try (map_err invalid_path (resolve_wallet_path name directory));
  precomputed_tables_size ← try (map_err invalid_table_type (to_l1_size precomputed_table_type));
  '(i, precomputed_tables) ← request_tables env
      (get_or_load_precomputed_tables precomputed_tables_path precomputed_tables_size)
      tables_failed;
  '(thread_count, concurrency) ← thread_params env;
  xelis_wallet ← own_tables i
      (λ error, from_wallet_authentication_operation error CodeInternal "WALLET_OPEN_FAILED")
      (wallet_open env full_path password network precomputed_tables thread_count concurrency);
  mret (new_wallet xelis_wallet i).

(** What the drop of a wallet does to the tables; what it does to the connection
    is [Connection.drop_wallet]. *)
Definition drop_wallet (w : XelisWallet) (app : App) : App := release_tables (table_call w) app.

Definition clear_tables (app : App) : App :=
  set_tables (clear_cached_tables (shared_tables app)) app.

(** [update_tables] of wallet.rs, with the one of runtime.rs that it calls. *)
Definition update_failed (error : anyhow_error) : NativeXelisError :=
  from_wallet_operation error CodeStorage "PRECOMPUTED_TABLES_UPDATE_FAILED".
Definition drop_result (i : nat) : call unit := λ app, (Some (Ok tt), release_tables i app).
Definition update_tables (env : Env) (precomputed_tables_path : string)
    (precomputed_table_type : PrecomputedTableType) : call unit :=
  try (map_err invalid_table_type (to_l1_size precomputed_table_type));;
  precomputed_tables_size ← try (map_err update_failed (to_l1_size precomputed_table_type));
  '(i, _) ← request_tables env
      (materialize_precomputed_tables precomputed_tables_path precomputed_tables_size) update_failed;
  drop_result i.

Definition get_current_precomputed_tables_type (app : App) : result anyhow_error PrecomputedTableType :=
  size ← ok_or (bail "Precomputed tables not initialized") (current_l1 (cache (shared_tables app)));
  Ok (precomputed_table_type_from_l1 size).

(** ** Calls passed on to the wallet crate *)

Definition change_password (set_password : string → string → result anyhow_error unit)
    (old_password new_password : string) : result NativeXelisError unit :=
  map_err (λ error, from_wallet_authentication_operation error CodeInternal
                      "WALLET_PASSWORD_CHANGE_FAILED")
    (set_password old_password new_password).

Definition is_valid_password (wallet_is_valid_password : string → result anyhow_error unit)
    (password : string) : result NativeXelisError unit :=
  map_err (λ error, from_wallet_authentication_operation error CodeInternal
                      "WALLET_PASSWORD_VERIFICATION_FAILED")
    (wallet_is_valid_password password).

Definition get_seed (wallet_get_seed : Z → result anyhow_error string) (language_index : option Z) :
    result NativeXelisError string :=
  let index := default 0%Z language_index in
  map_err (λ error, from_wallet_operation error CodeInternal "WALLET_SEED_READ_FAILED")
    (wallet_get_seed index).

Definition rescan (wallet_rescan : Z → bool → result WalletError unit) (topoheight : Z) :
    result NativeXelisError unit :=
  map_err from_wallet_error (wallet_rescan topoheight true).

(** [xelis_common::api::daemon::GetInfoResult]; the difficulty by its text and
    the block version by its discriminant. *)
Record GetInfoResult : Type := mkInfo {
  i_height : Z; i_topoheight : Z; i_stableheight : Z; i_stable_topoheight : Z;
  i_pruned_topoheight : option Z; i_top_block_hash : Hash;
  i_circulating_supply : Z; i_burned_supply : Z; i_emitted_supply : Z; i_maximum_supply : Z;
  i_difficulty : string; i_block_time_target : Z; i_average_block_time : Z;
  i_block_reward : Z; i_dev_reward : Z; i_miner_reward : Z; i_mempool_size : Z;
  i_version : string; i_network : Network; i_block_version : Z
}.
Record WalletDaemonInfo : Type := mkDaemonInfo {
  height : Z; topoheight : Z; stable_height : Z; stable_topoheight : Z;
  pruned_topoheight : option Z; top_block_hash : string;
  circulating_supply : Z; burned_supply : Z; emitted_supply : Z; maximum_supply : Z;
  difficulty : string; block_time_target : Z; average_block_time : Z;
  block_reward : Z; dev_reward : Z; miner_reward : Z; mempool_size : Z;
  version : string; info_network : Network; block_version : Z
}.

(** [impl From<GetInfoResult> for WalletDaemonInfo]; [mempool_size as u64] keeps
    a [usize], and [block_version as u8] the low byte. *)
Definition from_info (i : GetInfoResult) : WalletDaemonInfo :=
  mkDaemonInfo (i_height i) (i_topoheight i) (i_stableheight i) (i_stable_topoheight i)
    (i_pruned_topoheight i) (hash_to_hex (i_top_block_hash i))
    (i_circulating_supply i) (i_burned_supply i) (i_emitted_supply i) (i_maximum_supply i)
    (i_difficulty i) (i_block_time_target i) (i_average_block_time i)
    (i_block_reward i) (i_dev_reward i) (i_miner_reward i) (i_mempool_size i)
    (i_version i) (i_network i) (as_u8 (i_block_version i)).

Definition get_daemon_info (network_handler : option (result anyhow_error GetInfoResult)) :
    result NativeXelisError WalletDaemonInfo :=
  get_info ← ok_or (from_wallet_error WNoNetworkHandler) network_handler;
  info ← map_err (λ error, from_wallet_operation error CodeNetwork "DAEMON_INFO_READ_FAILED") get_info;
  Ok (from_info info).

(** ** A call that runs alone *)

Section Alone.
Context (table_l1 : T → Z) (read : option string → Z → result anyhow_error T).

(** The loader reads or generates tables of the size it is asked for. *)
Definition loader_ok : Prop := ∀ path l1 v, read path l1 = Ok v → table_l1 v = l1.

Hypothesis (Hloader : loader_ok).

Lemma advance_reached i y : Tables.reached table_l1 y → Tables.reached table_l1 (advance read i y).
Proof.
  intros [tr Hr]. assert (∀ l, from_option (Tables.reached table_l1) True (step table_l1 y l)) as Hstep.
  { intros l. destruct (step table_l1 y l) as [y'|] eqn:Hs; [|done]. cbn. eexists.
    by eapply (reachable_step _ _ _ l). }
  assert (Tables.reached table_l1 y) as Hy by (by eexists).
  assert (∀ o : option Tables.System, (∃ l, step table_l1 y l = o) →
    Tables.reached table_l1 (default y o)) as Hdefault.
  { intros o [l <-]. specialize (Hstep l). by destruct (step table_l1 y l). }
  unfold advance. destruct (calls y !! i) as [[r p]|] eqn:Hi; [|apply Hdefault; by exists (Run i)].
  destruct p; try (apply Hdefault; by exists (Run i)).
  apply Hdefault. exists (Loaded i (read (precomputed_tables_path r) (requested_l1 r))). cbn. unfold load_ok. rewrite Hi.
  destruct (read _ _) as [v|e] eqn:Hv; [|done]. rewrite bool_decide_eq_true_2; [done|].
  cbn. by eapply Hloader.
Qed.

(** Where a call that runs alone stands: it holds the lock when it must. *)
Definition alone_at (cs : list Call) (r : Request) (p : call_pc) (y : Tables.System (T := T)) : Prop :=
  calls y = cs ++ [mkCall r p] ∧ load_lock y = bool_decide (locking (mkCall r p) = Some tt) ∧
  match p with UnlockLoad Dropped | Returned Dropped | Released => False | _ => True end.

Lemma advance_alone cs r p y :
  alone_at cs r p y →
  ∃ p', alone_at cs r p' (advance read (length cs) y) ∧
        rank (mkCall r p') ≤ pred (rank (mkCall r p)).
Proof.
  intros (Hcalls & Hlock & Hp).
  assert (calls y !! length cs = Some (mkCall r p)) as Hi by (by rewrite Hcalls, lookup_app_r, Nat.sub_diag).
  assert (∀ p', <[length cs := mkCall r p']> (calls y) = cs ++ [mkCall r p']) as Hset.
  { intros p'. by rewrite Hcalls, insert_app_r_alt, Nat.sub_diag. }
  unfold advance, run, loaded. rewrite Hi.
  destruct p as [| | | |a|o|o|]; cbn; try done; rewrite ?Hi; cbn; rewrite ?Hlock; cbn.
  - destruct (lookup_cache r LockLoad Returned (cache y)) as [c p'] eqn:Hl. cbn.
    exists p'. unfold lookup_cache in Hl. repeat case_match; simplify_eq;
      (split; [split_and!; [apply Hset|done|done]|cbn; lia]).
  - exists Recheck. split; [split_and!; [apply Hset|done|done]|cbn; lia].
  - destruct (lookup_cache r Load UnlockLoad (cache y)) as [c p'] eqn:Hl. cbn.
    exists p'. unfold lookup_cache in Hl. repeat case_match; simplify_eq;
      (split; [split_and!; [apply Hset|done|done]|cbn; lia]).
  - destruct (read _ _) as [v|e]; cbn; eexists;
      (split; [split_and!; [apply Hset|done|done]|cbn; lia]).
  - destruct (install _ _ _) as [[b|e] c]; cbn; eexists;
      (split; [split_and!; [apply Hset|done|done]|cbn; lia]).
  - eexists. split; [split_and!; [apply Hset|done|by destruct o]|cbn; lia].
  - eexists. split; [by split_and!|cbn; lia].
Qed.

(** With the lock free a request ends, in a state that the interleavings reach,
    and leaves the other holders alone. *)
Lemma perform_spec r y o y' :
  Tables.reached table_l1 y → load_lock y = false → perform read r y = (o, y') →
  Tables.reached table_l1 y' ∧ load_lock y' = false ∧ o ≠ Dropped ∧
  calls y' = calls y ++ [mkCall r (Returned o)].
Proof.
  intros Hr Hlock. unfold perform. set (y0 := mkSystem _ _ _ _ _).
  assert (Tables.reached table_l1 y0) as Hr0.
  { destruct Hr as [tr Hr]. eexists. by eapply (reachable_step _ _ _ (Request_ r)). }
  assert (alone_at (calls y) r CheckCache y0) as Hstart by (split_and!; done).
  assert (∀ n, Tables.reached table_l1 (Nat.iter n (advance read (length (calls y))) y0) ∧
    ∃ p, alone_at (calls y) r p (Nat.iter n (advance read (length (calls y))) y0) ∧
         rank (mkCall r p) ≤ 6 - n) as Hiter.
  { intros n. induction n as [|n [IH1 (p & IH2 & IH3)]]; [split; [done|exists CheckCache; done]|].
    split; [by apply advance_reached|]. destruct (advance_alone _ _ _ _ IH2) as (p' & ? & ?).
    exists p'. split; [done|lia]. }
  destruct (Hiter 6) as [Hr6 (p & (Hc & Hl & Hp) & Hrank)]. set (y6 := Nat.iter _ _ _) in *. clearbody y6. clear Hiter.
  rewrite Hc, lookup_app_r, Nat.sub_diag by done. cbn.
  destruct p as [| | | | | |o'|]; cbn in Hrank; try lia; try done. intros [= <- <-].
  split_and!; [done|done|by destruct o'|done].
Qed.
End Alone.

(** ** What callers rely on *)

(** Between one and thirty-two threads are used, with four
    tasks each, whatever the machine; and the parameters stay the same until
    they are set or refreshed. *)
Theorem mt_params_bounded cpu_cores available available' guard :
  (let '(thread_count, concurrency) := mt_params_for_cpu_cores cpu_cores in
   (1 ≤ thread_count ≤ 32)%Z ∧ concurrency = (4 * thread_count)%Z) ∧
  (let '(params, guard') := get_mt_params available guard in
   get_mt_params available' guard' = (params, guard') ∧
   (guard = None → params = mt_params_for_cpu_cores (default 1%Z available))).
Proof. split; [unfold mt_params_for_cpu_cores; lia|]. by destruct guard as [[]|]. Qed.

(** A wallet never lies nowhere: without a name the
    directory itself is used, an absolute name replaces it, and otherwise the
    name is put below the directory behind exactly one separator. *)
Theorem wallet_path_resolved name directory :
  match resolve_wallet_path name directory with
  | Err _ => name = "" ∧ directory = ""
  | Ok path =>
      path ≠ "" ∧
      (name = "" → path = directory) ∧
      (∀ rest, name = String "/" rest → path = name) ∧
      (∀ c rest, name = String c rest → c ≠ "/"%char → directory ≠ "" →
         path = directory +:+ (if ends_with_slash directory then "" else "/") +:+ name)
  end.
Proof.
  unfold resolve_wallet_path. destruct name as [|c rest].
  - rewrite bool_decide_eq_true_2 by done. case_bool_decide; [done|]. split_and!; done.
  - rewrite bool_decide_eq_false_2 by done. unfold join.
    assert (∀ d s, d +:+ String c s ≠ "") as Hne by (intros [|? ?] ?; done).
    destruct (decide (c = "/"%char)) as [->|Hc]; [split_and!; naive_solver|].
    assert (∀ X (a b : X), match c with "/"%char => a | _ => b end = b) as Hmatch.
    { intros X a b. destruct c as [[] [] [] [] [] [] [] []]; done. }
    rewrite Hmatch. case_bool_decide as Hd; cbn.
    + split_and!; [by subst|done|naive_solver|naive_solver].
    + destruct (ends_with_slash directory); (split_and!; [|done|naive_solver|naive_solver]); [done|].
      by destruct directory.
Qed.

(** Claim C31 (type): the option a wallet is recovered with is the input that was
    given; the [expect]s of [recover_option] never fail. *)
Theorem recovery_never_panics seed private_key kind :
  recovery_input_kind (bool_decide (is_Some seed)) (bool_decide (is_Some private_key)) = Ok kind →
  recover_option kind seed private_key =
    match seed, private_key with
    | Some seed, None => Some (RecoverSeed seed)
    | None, Some private_key => Some (RecoverPrivateKey private_key)
    | None, None => Some RecoverNone
    | Some _, Some _ => None
    end ∧ is_Some (recover_option kind seed private_key).
Proof.
  assert (∀ x : string, bool_decide (is_Some (Some x)) = true) as Hs.
  { intros x. by apply bool_decide_eq_true_2. }
  assert (bool_decide (is_Some (@None string)) = false) as Hn.
  { apply bool_decide_eq_false_2. by intros [? ?]. }
  destruct seed, private_key; rewrite ?Hs, ?Hn; cbn; intros [= <-]; split; done || by eexists.
Qed.

Section Opening.
Context (table_l1 : T → Z) (env : Env).
Hypothesis (Hloader : loader_ok table_l1 (read_or_generate_precomputed_tables env)).

(** A wallet of the wallet crate holds the tables it was given, and a failure of
    the crate has let them go. *)
Definition kept_by_wallet (r : result anyhow_error Wallet * bool) : Prop := r.2 = is_ok r.1.
Hypothesis (Hcreate : ∀ path password recover network a tc cc,
  kept_by_wallet (wallet_create env path password recover network a tc cc)).
Hypothesis (Hopen : ∀ path password network a tc cc,
  kept_by_wallet (wallet_open env path password network a tc cc)).

Definition app_ok (app : App) : Prop :=
  Tables.reached table_l1 (shared_tables app) ∧ load_lock (shared_tables app) = false.

Lemma release_ok i app : app_ok app → app_ok (release_tables i app).
Proof.
  intros [[tr Hr] Hlock]. unfold release_tables.
  destruct (drop_tables i (shared_tables app)) as [y|] eqn:Hd; [|by split; [eexists|]].
  split; [eexists; by eapply (reachable_step _ _ _ (Drop i))|].
  unfold drop_tables in Hd. destruct (calls _ !! i) as [[r p]|]; [|done]. cbn in Hd.
  by destruct p as [| | | | | |[]|]; simplify_eq.
Qed.

(** A call that was added to those of [app] and holds nothing. *)
Definition adds_idle (app app' : App) : Prop :=
  calls (shared_tables app') = calls (shared_tables app) ∨
  ∃ t, calls (shared_tables app') = calls (shared_tables app) ++ [t] ∧ holds t = None.

(** The table request of an opening, with its holder. *)
Definition holds_tables (app app' : App) (r : Request) (i a : nat) : Prop :=
  i = length (calls (shared_tables app)) ∧
  calls (shared_tables app') = calls (shared_tables app) ++ [mkCall r (Returned (Got a))].

Lemma request_tables_spec r on_error app :
  app_ok app →
  ∃ res app', request_tables env r on_error app = (Some res, app') ∧ app_ok app' ∧
    mt_params app' = mt_params app ∧
    match res with
    | Ok (i, a) => holds_tables app app' r i a
    | Err _ => adds_idle app app'
    end.
Proof.
  intros [Hr Hlock]. unfold request_tables.
  destruct (perform _ r (shared_tables app)) as [o y] eqn:Hp.
  destruct (perform_spec table_l1 _ Hloader _ _ _ _ Hr Hlock Hp) as (P1 & P2 & P3 & P4).
  destruct o as [a|e|]; [| |done]; (do 2 eexists; split_and!; [done|done|done|]).
  - done.
  - right. eexists. split; [exact P4|done].
Qed.

Lemma release_holder app app' r i a :
  holds_tables app app' r i a → adds_idle app (release_tables i app').
Proof.
  intros [-> Hc]. right. unfold release_tables, drop_tables. rewrite Hc, lookup_app_r, Nat.sub_diag by done.
  cbn. eexists. rewrite Hc, insert_app_r_alt, Nat.sub_diag by done. cbn. done.
Qed.

(** Creating or opening a wallet. *)
Inductive opening : Request → App → option (result NativeXelisError XelisWallet) → App → Prop :=
  | opening_create name directory password network seed private_key path type size app res app' :
      to_l1_size type = Ok size →
      create_xelis_wallet env name directory password network seed private_key path type app =
        (res, app') →
      opening (get_or_load_precomputed_tables path size) app res app'
  | opening_open name directory password network path type size app res app' :
      to_l1_size type = Ok size →
      open_xelis_wallet env name directory password network path type app = (res, app') →
      opening (get_or_load_precomputed_tables path size) app res app'.

Lemma try_bind {A B} (x : result NativeXelisError A) (f : A → call B) app :
  (try x ≫= f) app = match x with Ok a => f a app | Err e => (Some (Err e), app) end.
Proof. by destruct x. Qed.
Lemma ok_bind {A B} (m : call A) (f : A → call B) app a app' :
  m app = (Some (Ok a), app') → (m ≫= f) app = f a app'.
Proof. unfold mbind, call_bind. by intros ->. Qed.
Lemma err_bind {A B} (m : call A) (f : A → call B) app e app' :
  m app = (Some (Err e), app') → (m ≫= f) app = (Some (Err e), app').
Proof. unfold mbind, call_bind. by intros ->. Qed.

(** What both do once the tables are there. *)
Lemma own_tables_spec app app1 r i a on_error (f : Z → Z → result anyhow_error Wallet * bool) res app' :
  (∀ tc cc, kept_by_wallet (f tc cc)) → app_ok app1 → holds_tables app app1 r i a →
  ('(thread_count, concurrency) ← thread_params env;
   w ← own_tables i on_error (f thread_count concurrency);
   mret (new_wallet w i) : call XelisWallet) app1 = (res, app') →
  app_ok app' ∧
  match res with
  | Some (Ok w) => w = new_wallet (wallet w) i ∧ holds_tables app app' r i a
  | Some (Err _) => adds_idle app app'
  | None => False
  end.
Proof.
  intros Hf Hok Hh. unfold thread_params, own_tables, mbind, call_bind.
  destruct (get_mt_params _ _) as [[tc cc] guard]. specialize (Hf tc cc).
  destruct (f tc cc) as [[w|e] kept]; unfold kept_by_wallet in Hf; cbn in Hf |- *; subst kept; cbn; intros [= <- <-].
  - split; [done|]. done.
  - split; [by apply release_ok|]. by apply (release_holder app (mkApp guard (shared_tables app1)) r i a).
Qed.

Opaque request_tables own_tables thread_params.

(** The steps before the tables end the call at once or change nothing. *)
Lemma opening_tables r app res app' :
  app_ok app → opening r app res app' →
  app_ok app' ∧
  match res with
  | Some (Ok w) => ∃ i a, w = new_wallet (wallet w) i ∧ holds_tables app app' r i a
  | Some (Err _) => adds_idle app app'
  | None => False
  end.
Proof.
  intros Hok Hopening. revert Hok.
  destruct Hopening as
    [name directory password network seed private_key path type size app res app' Hsize Hrun
    |name directory password network path type size app res app' Hsize Hrun]; intros Hok.
  - unfold create_xelis_wallet in Hrun. rewrite try_bind in Hrun.
    destruct (recovery_input_kind _ _) as [kind|e] eqn:Hkind; [|simplify_eq; split; [done|by left]].
    destruct (recovery_never_panics _ _ _ Hkind) as [_ [rec Hrec]].
    rewrite try_bind in Hrun.
    destruct (resolve_wallet_path name directory) as [full|e]; cbn [map_err] in Hrun;
      [|simplify_eq; split; [done|by left]]. rewrite try_bind, Hsize in Hrun. cbn [map_err] in Hrun.
    destruct (request_tables_spec (get_or_load_precomputed_tables path size) tables_failed app Hok)
      as ([[i a]|e] & app1 & Hreq & Hok1 & _ & Hh).
    2:{ rewrite (err_bind _ _ _ _ _ Hreq) in Hrun. by simplify_eq. }
    rewrite (ok_bind _ _ _ _ _ Hreq) in Hrun.
    rewrite (ok_bind (expect _) _ app1 rec app1) in Hrun by (unfold expect; by rewrite Hrec).
    destruct (own_tables_spec app app1 _ i a (create_error kind)
      (λ tc cc, wallet_create env full password rec network a tc cc)
      res app' ltac:(intros; apply Hcreate) Hok1 Hh Hrun) as [? Hres].
    split; [done|]. destruct res as [[w|e]|]; [exists i, a; done|done|done].
  - unfold open_xelis_wallet in Hrun. rewrite try_bind in Hrun.
    destruct (resolve_wallet_path name directory) as [full|e]; cbn [map_err] in Hrun;
      [|simplify_eq; split; [done|by left]]. rewrite try_bind, Hsize in Hrun. cbn [map_err] in Hrun.
    destruct (request_tables_spec (get_or_load_precomputed_tables path size) tables_failed app Hok)
      as ([[i a]|e] & app1 & Hreq & Hok1 & _ & Hh).
    2:{ rewrite (err_bind _ _ _ _ _ Hreq) in Hrun. by simplify_eq. }
    rewrite (ok_bind _ _ _ _ _ Hreq) in Hrun.
    destruct (own_tables_spec app app1 _ i a
      (λ error, from_wallet_authentication_operation error CodeInternal "WALLET_OPEN_FAILED")
      (λ tc cc, wallet_open env full password network a tc cc)
      res app' ltac:(intros; apply Hopen) Hok1 Hh Hrun) as [? Hres].
    split; [done|]. destruct res as [[w|e]|]; [exists i, a; done|done|done].
Qed.

(** A wallet that was created or opened starts with no
    connection attempt, no prepared transaction, no pending request and no
    session, and holds the shared tables, which are large enough for it. *)
Theorem opened_wallet_fresh r app w app' :
  app_ok app → opening r app (Some (Ok w)) app' →
  app_ok app' ∧ w = new_wallet (wallet w) (length (calls (shared_tables app))) ∧
  ∃ a e v, calls (shared_tables app') !! table_call w = Some (mkCall r (Returned (Got a))) ∧
    entry (cache (shared_tables app')) = Some e ∧ tables e = a ∧
    content a (cache (shared_tables app')) = Some v ∧ (requested_l1 r ≤ table_l1 v)%Z.
Proof.
  intros Hok Hop. destruct (opening_tables r app _ app' Hok Hop) as [Hok' (i & a & Hw & -> & Hc)].
  assert (mkCall r (Returned (Got a)) ∈ calls (shared_tables app')) as Ht by (rewrite Hc; set_solver).
  destruct (handle_shares _ _ _ a (proj1 Hok') Ht eq_refl) as (e & v & He & Ha & Hv & _ & Hle).
  split_and!; [done|done|]. exists a, e, v. split_and!; try done.
  rewrite Hw. cbn. by rewrite Hc, lookup_app_r, Nat.sub_diag.
Qed.

(** With the load lock free and nothing else running, creating or opening a wallet
    with a table type that has a size returns, and when it fails nobody holds
    tables who did not hold them before. *)
Theorem failed_opening_leaks_nothing r app res app' :
  app_ok app → opening r app res app' →
  ∃ x, res = Some x ∧ app_ok app' ∧
    (is_ok x = false →
     ∀ t, t ∈ calls (shared_tables app') → holds t ≠ None → t ∈ calls (shared_tables app)).
Proof.
  intros Hok Hop. destruct (opening_tables r app res app' Hok Hop) as [Hok' Hres].
  destruct res as [[w|e]|]; [| |done].
  - eexists. split_and!; [done|done|done].
  - eexists. split_and!; [done|done|]. intros _ t Ht Hh.
    destruct Hres as [Hc|(u & Hc & Hu)]; rewrite Hc in Ht; [done|].
    apply elem_of_app in Ht as [Ht|Ht%list_elem_of_singleton]; [done|]. by subst.
Qed.
End Opening.

(** Bad input is refused before anything happens: conflicting
    recovery inputs, an empty path and an unknown table size are reported as
    invalid input and leave the application untouched. *)
Theorem invalid_input_untouched env name directory password network seed private_key path type app :
  (is_Some seed ∧ is_Some private_key) ∨ (name = "" ∧ directory = "") ∨
    (∃ e, to_l1_size type = Err e) →
  ∃ e, create_xelis_wallet env name directory password network seed private_key path type app =
         (Some (Err e), app) ∧ code e = CodeInvalidInput.
Proof.
  intros Hbad. unfold create_xelis_wallet. rewrite try_bind.
  destruct (recovery_input_kind _ _) as [kind|e] eqn:Hkind.
  2:{ exists e. split; [done|]. destruct seed, private_key; cbn in Hkind; by simplify_eq. }
  rewrite try_bind. destruct (resolve_wallet_path name directory) as [full|e] eqn:Hpath;
    cbn [map_err]; [|by eexists].
  rewrite try_bind. destruct (to_l1_size type) as [size|e]; cbn [map_err]; [|by eexists].
  destruct Hbad as [[[s ->] [k ->]]|[[-> ->]|[? ?]]]; done.
Qed.

(** After a successful update the tables were written at
    the path that was asked for, the tables in use are at least as large, and
    the reported type stands for their size. *)
Theorem update_tables_effective table_l1 env path type app app' :
  loader_ok table_l1 (read_or_generate_precomputed_tables env) → app_ok table_l1 app →
  update_tables env path type app = (Some (Ok tt), app') →
  app_ok table_l1 app' ∧
  ∃ size current, to_l1_size type = Ok size ∧ (Some path, size) ∈ loads (shared_tables app') ∧
    (size ≤ current)%Z ∧ current_l1 (cache (shared_tables app')) = Some current ∧
    get_current_precomputed_tables_type app' = Ok (precomputed_table_type_from_l1 current).
Proof.
  intros Hloader Hok. unfold update_tables. rewrite try_bind.
  destruct (to_l1_size type) as [size|e] eqn:Hsize; cbn [map_err]; [|done].
  rewrite try_bind.
  destruct (request_tables_spec table_l1 env Hloader (materialize_precomputed_tables path size)
    update_failed app Hok) as ([[i a]|e] & app1 & Hreq & Hok1 & _ & Hh).
  2:{ rewrite (err_bind _ _ _ _ _ Hreq). done. }
  rewrite (ok_bind _ _ _ _ _ Hreq). cbn. intros [= <-]. split; [by apply release_ok|].
  destruct Hh as [-> Hc].
  assert (mkCall (materialize_precomputed_tables path size) (Returned (Got a))
            ∈ calls (shared_tables app1)) as Ht by (rewrite Hc; set_solver).
  destruct (handle_shares _ _ _ a (proj1 Hok1) Ht eq_refl) as (e & v & He & _ & _ & Hv & Hle).
  pose proof (materialized _ _ _ a (proj1 Hok1) Ht eq_refl eq_refl) as Hload.
  assert (entry (cache (shared_tables (release_tables (length (calls (shared_tables app))) app1))) = Some e ∧
          loads (shared_tables (release_tables (length (calls (shared_tables app))) app1)) =
          loads (shared_tables app1)) as [He' Hl'].
  { unfold release_tables, drop_tables. rewrite Hc, lookup_app_r, Nat.sub_diag by done. done. }
  exists size, (l1_size e). unfold get_current_precomputed_tables_type, current_l1.
  rewrite He', Hl'. split_and!; [done|done|by rewrite <-Hv|done|done].
Qed.
End Lifecycle.

(** ** Witnesses *)

#[local] Existing Instances plain_text demo_hash demo_sizes.

Definition demo_env : Env (T := Z) (Wallet := unit) :=
  mkEnv (Some 8%Z) (λ _ l1, Ok l1)
    (λ _ password _ _ _ _ _,
       if bool_decide (password = "") then (Err (bail "no password"), false) else (Ok tt, true))
    (λ _ _ _ _ _ _, (Ok tt, true)).
Definition demo_app : App (T := Z) := mkApp None started.
Definition demo_create (password : string) :
    call (T := Z) (XelisWallet (Wallet := unit) (Prepared := unit) (Multisig := unit) (AppState := unit)) :=
  create_xelis_wallet demo_env "main" "wallets" password Mainnet (Some "seed words") None None L1Low.

Lemma demo_loader : loader_ok id (read_or_generate_precomputed_tables demo_env).
Proof. intros path l1 v. by intros [= <-]. Qed.
Lemma demo_create_keeps path password recover network a tc cc :
  kept_by_wallet (wallet_create demo_env path password recover network a tc cc).
Proof. cbn. by case_bool_decide. Qed.
Lemma demo_open_keeps path password network a tc cc :
  kept_by_wallet (wallet_open demo_env path password network a tc cc).
Proof. done. Qed.
Lemma demo_app_ok : app_ok id demo_app.
Proof. split; [|done]. exists []. by apply reachable_init. Qed.

Lemma recovery_never_panics_witness :
  recover_option KindSeed (Some "seed") None = Some (RecoverSeed "seed") ∧
  is_Some (recover_option KindSeed (Some "seed") None).
Proof. apply (recovery_never_panics (Some "seed") None KindSeed). reflexivity. Defined.

Lemma opened_wallet_fresh_witness :
  ∃ w app', demo_create "secret" demo_app = (Some (Ok w), app') ∧
    w = new_wallet (wallet w) 0 ∧ app_ok id app'.
Proof.
  do 2 eexists. split; [reflexivity|].
  epose proof (opened_wallet_fresh id demo_env demo_loader demo_create_keeps demo_open_keeps (get_or_load_precomputed_tables None 13)
    demo_app _ _ demo_app_ok) as Hfresh.
  lapply Hfresh; [intros (Hok & Hw & _); split; [exact Hw|exact Hok]|].
  eapply (opening_create demo_env "main" "wallets" "secret" Mainnet (Some "seed words") None None L1Low);
    reflexivity.
Defined.

Lemma failed_opening_leaks_nothing_witness :
  ∃ x, (demo_create "" demo_app).1 = Some x.
Proof.
  destruct (failed_opening_leaks_nothing id demo_env demo_loader demo_create_keeps demo_open_keeps (get_or_load_precomputed_tables None 13)
    demo_app (demo_create "" demo_app).1 (demo_create "" demo_app).2 demo_app_ok) as (x & Hx & _).
  - eapply (opening_create demo_env "main" "wallets" "" Mainnet (Some "seed words") None None L1Low);
      reflexivity.
  - exists x. exact Hx.
Defined.

Lemma invalid_input_untouched_witness :
  ∃ e, create_xelis_wallet (Prepared := unit) (Multisig := unit) (AppState := unit) demo_env
         "main" "wallets" "secret" Mainnet None None None (Custom 33) demo_app = (Some (Err e), demo_app) ∧
       code e = CodeInvalidInput.
Proof. apply invalid_input_untouched. right. right. eexists. reflexivity. Defined.

Lemma update_tables_effective_witness :
  ∃ app', update_tables demo_env "tables" L1Full demo_app = (Some (Ok tt), app') ∧ app_ok id app'.
Proof.
  eexists. split; [reflexivity|].
  apply (update_tables_effective id demo_env "tables" L1Full demo_app);
    [exact demo_loader|exact demo_app_ok|reflexivity].
Defined.

End Lifecycle.
