(* ===== verification/Assets.v ===== *)
(** * Assets and balances (rust/src/api/wallet/assets.rs)

    The data of an asset is read from the wallet's storage, or fetched from the
    daemon and stored; concurrent requests are interleaved in any order.  The
    balances, the known assets and the tracking of assets go to the storage. *)

From S2P Require Import Prelude Tasks Errors External Addresses Entries.

Module Assets.
Import Tasks Entries.

Section Assets.
Context `{!ErrorText, !HashLib}.

Definition classify_asset_error (error : anyhow_error) (fallback_code : NativeXelisErrorCode)
    (fallback_kind : string) : NativeXelisError :=
  from_wallet_operation error fallback_code fallback_kind.
Definition classify_asset_storage_error (error : anyhow_error) (fallback_kind : string) :
    NativeXelisError :=
  from_wallet_storage_operation error fallback_kind.

Definition resolve_asset_hash (asset_hash : option string) : result anyhow_error Hash :=
  match asset_hash with
  | Some value => map_err (context "Invalid asset") (hash_from_hex value)
  | None => Ok XELIS_ASSET
  end.

(** ** Balances *)

(** What the wallet's storage answers. *)
Record Storage : Type := mkStorage {
  has_balance_for : Hash → result anyhow_error bool;
  get_plaintext_balance_for : Hash → result anyhow_error Z;
  get_tracked_assets : result anyhow_error (list (result anyhow_error Hash));
  get_assets_with_data : result anyhow_error (list (result anyhow_error (Hash * AssetData)))
}.

Definition has_asset_balance (st : Storage) (asset : string) : result anyhow_error bool :=
  asset_hash ← map_err (context "Invalid asset") (hash_from_hex asset);
  has_balance_for st asset_hash.

Definition get_xelis_balance (st : Storage) : result NativeXelisError Z :=
  let failed error := classify_asset_error error CodeStorage "WALLET_XELIS_BALANCE_READ_FAILED" in
  has_balance ← map_err failed (has_balance_for st XELIS_ASSET);
  if has_balance : bool then map_err failed (get_plaintext_balance_for st XELIS_ASSET) else Ok 0%Z.

Definition tracked_failed (error : anyhow_error) : NativeXelisError :=
  classify_asset_error error CodeStorage "WALLET_TRACKED_BALANCES_READ_FAILED".

(** The loop over the tracked assets, on the map it fills. *)
Fixpoint collect_balances (st : Storage) (tracked : list (result anyhow_error Hash))
    (balances : gmap string Z) : result NativeXelisError (gmap string Z) :=
  match tracked with
  | [] => Ok balances
  | r :: tracked =>
      asset ← map_err tracked_failed r;
      has_balance ← map_err tracked_failed (has_balance_for st asset);
      balance ← if has_balance : bool
                then map_err tracked_failed (get_plaintext_balance_for st asset) else Ok 0%Z;
      collect_balances st tracked (<[hash_to_hex asset := balance]> balances)
  end.

Definition get_tracked_balances (st : Storage) : result NativeXelisError (gmap string Z) :=
  tracked_assets ← map_err tracked_failed (get_tracked_assets st);
  collect_balances st tracked_assets ∅.

Definition known_failed (error : anyhow_error) : NativeXelisError :=
  classify_asset_error error CodeStorage "WALLET_KNOWN_ASSETS_READ_FAILED".
Fixpoint collect_assets (known : list (result anyhow_error (Hash * AssetData)))
    (assets : gmap string XelisAssetMetadata) :
    result NativeXelisError (gmap string XelisAssetMetadata) :=
  match known with
  | [] => Ok assets
  | r :: known =>
      '(hash, asset_data) ← map_err known_failed r;
      collect_assets known (<[hash_to_hex hash := asset_metadata asset_data]> assets)
  end.
Definition get_known_assets (st : Storage) :
    result NativeXelisError (gmap string XelisAssetMetadata) :=
  assets_with_data ← map_err known_failed (get_assets_with_data st);
  collect_assets assets_with_data ∅.

(** ** Tracking *)

Definition parse_asset (asset : string) : result NativeXelisError Hash :=
  map_err (λ error, classify_asset_error error CodeInvalidInput "WALLET_ASSET_HASH_INVALID")
    (map_err (context "Invalid asset") (hash_from_hex asset)).

(** [Wallet::track_asset] and [untrack_asset] change the wallet [W]. *)
Definition track_asset {W} (wallet_track_asset : Hash → action W anyhow_error bool) (asset : string) :
    action W NativeXelisError bool :=
  asset_hash ← lift (parse_asset asset);
  map_err_action
    (λ error, classify_asset_storage_error (context "Error tracking asset" error)
                "WALLET_ASSET_TRACK_FAILED") (wallet_track_asset asset_hash).
Definition untrack_asset {W} (wallet_untrack_asset : Hash → action W anyhow_error bool)
    (asset : string) : action W NativeXelisError bool :=
  asset_hash ← lift (parse_asset asset);
  map_err_action
    (λ error, classify_asset_storage_error (context "Error untracking asset" error)
                "WALLET_ASSET_UNTRACK_FAILED") (wallet_untrack_asset asset_hash).

(** ** Resolving an asset *)

(** What a step meets: a failing read or write of the storage, the state of the
    connection and the answer of the daemon. *)
Record Env : Type := mkEnv {
  read_error : option anyhow_error;
  online : bool;
  daemon_asset : option (result anyhow_error AssetData);
  write_error : option anyhow_error
}.

(** Where a call of [get_asset_data] stands. *)
Inductive resolve_pc : Type :=
  | LoadCached | LockResolution | LoadAgain | FetchFromDaemon
  | Persist (asset_data : AssetData)
  | Unlock (r : result anyhow_error AssetData)
  | Resolved (r : result anyhow_error AssetData).
Record Resolution : Type := mkResolution { asset : Hash; pc : resolve_pc }.

(** [stored] is the stored data; the logs keep what was ever stored for an
    asset, and which assets this wallet fetched and stored. *)
Record State : Type := mkState {
  stored : Hash → option AssetData;
  resolution_lock : bool;
  seen : list (Hash * AssetData);
  fetched : list Hash
}.

Definition store (h : Hash) (d : AssetData) (s : State) : State :=
  mkState (λ k, if bool_decide (k = h) then Some d else stored s k) (resolution_lock s)
    (seen s ++ [(h, d)]) (fetched s).
Definition log_fetch (h : Hash) (s : State) : State :=
  mkState (stored s) (resolution_lock s) (seen s) (fetched s ++ [h]).
Definition set_lock (b : bool) (s : State) : State :=
  mkState (stored s) b (seen s) (fetched s).

(** The closure [load_cached]. *)
Definition load_cached (env : Env) (h : Hash) (s : State) : result anyhow_error (option AssetData) :=
  match read_error env with
  | Some error => Err (context "Error reading asset from wallet storage" error)
  | None => Ok (stored s h)
  end.

(** The closure [fetch_from_daemon]. *)
Definition fetch_from_daemon (env : Env) (h : Hash) : result anyhow_error AssetData :=
  if negb (online env) then
    Err (context ("Asset " +:+ hash_to_hex h +:+ " not found in wallet storage/cache")
           (anyhow_of_wallet WNotOnlineMode))
  else
    api ← ok_or (anyhow_of_wallet WNoNetworkHandler) (daemon_asset env);
    map_err (context "Failed to fetch asset from daemon") api.

(** The closure [persist]. *)
Definition persist (env : Env) (h : Hash) (asset_data : AssetData) (s : State) :
    result anyhow_error AssetData * State :=
  match write_error env with
  | Some error => (Err (context "Error storing fetched asset in wallet storage" error), s)
  | None => (Ok asset_data, log_fetch h (store h asset_data s))
  end.

(** [resolve_asset_data], one step. *)
Definition exec (env : Env) (h : Hash) (p : resolve_pc) (s : State) : option (State * resolve_pc) :=
  match p with
  | LoadCached =>
      Some (s, match load_cached env h s with
               | Err e => Resolved (Err e)
               | Ok (Some asset_data) => Resolved (Ok asset_data)
               | Ok None => LockResolution
               end)
  | LockResolution => if resolution_lock s then None else Some (set_lock true s, LoadAgain)
  | LoadAgain =>
      Some (s, match load_cached env h s with
               | Err e => Unlock (Err e)
               | Ok (Some asset_data) => Unlock (Ok asset_data)
               | Ok None => FetchFromDaemon
               end)
  | FetchFromDaemon =>
      Some (s, match fetch_from_daemon env h with
               | Err e => Unlock (Err e)
               | Ok asset_data => Persist asset_data
               end)
  | Persist asset_data => let '(r, s) := persist env h asset_data s in Some (s, Unlock r)
  | Unlock r => Some (set_lock false s, Resolved r)
  | Resolved _ => None
  end.

(** ** Interleaved resolutions *)

Record System : Type := mkSystem { state : State; tasks : list Resolution }.

(** A call is made, makes a step, or is dropped where it waits; or the wallet
    stores the data of an asset by itself. *)
Inductive label : Type :=
  | GetAssetData (h : Hash)
  | Run (i : nat) (env : Env)
  | Abort (i : nat)
  | Sync (h : Hash) (asset_data : AssetData).

Definition run (i : nat) (env : Env) (y : System) : option System :=
  t ← tasks y !! i;
  '(s, p) ← exec env (asset t) (pc t) (state y);
  Some (mkSystem s (<[i := mkResolution (asset t) p]> (tasks y))).

(** The lock is released when a call that holds it is dropped. *)
Definition dropped : anyhow_error := bail "dropped".
Definition abort (i : nat) (y : System) : option System :=
  t ← tasks y !! i;
  let go s p := Some (mkSystem s (<[i := mkResolution (asset t) p]> (tasks y))) in
  match pc t with
  | LoadCached | LockResolution => go (state y) (Resolved (Err dropped))
  | LoadAgain | FetchFromDaemon | Persist _ => go (set_lock false (state y)) (Resolved (Err dropped))
  | Unlock _ | Resolved _ => None
  end.

Definition step (y : System) (l : label) : option System :=
  match l with
  | GetAssetData h => Some (mkSystem (state y) (tasks y ++ [mkResolution h LoadCached]))
  | Run i env => run i env y
  | Abort i => abort i y
  | Sync h asset_data => Some (mkSystem (store h asset_data (state y)) (tasks y))
  end.

Definition started (initial : list (Hash * AssetData)) : System :=
  mkSystem (mkState (λ h, (λ p, p.2.2) <$> list_find (λ p, p.1 = h) initial) false initial []) [].

Definition reached (initial : list (Hash * AssetData)) (y : System) : Prop :=
  ∃ labels, reachable (λ y, y = started initial) (λ y l y', step y l = Some y') labels y.

(** ** Single calls *)

(** A call that runs alone, of at most six steps; it waits when the lock is held. *)
Definition get_asset_data (env : Env) (h : Hash) (s : State) :
    option (result anyhow_error AssetData) * State :=
  let '(s, p) := Nat.iter 6 (λ '(s, p), default (s, p) (exec env h p s)) (s, LoadCached) in
  (match p with Resolved r => Some r | _ => None end, s).

Definition map_ok {E A B} (f : A → B) (r : option (result E A)) : option (result E B) :=
  option_map (fmap (M := result E) f) r.
Definition map_failed {E F A} (f : E → F) (r : option (result E A)) : option (result F A) :=
  option_map (map_err f) r.

Definition on_asset {A} (env : Env) (asset : string) (f : AssetData → A) (s : State) :
    option (result anyhow_error A) * State :=
  match map_err (context "Invalid asset") (hash_from_hex asset) with
  | Err e => (Some (Err e), s)
  | Ok asset_hash =>
      let '(r, s) := get_asset_data env asset_hash s in (map_ok f r, s)
  end.
Definition get_asset_decimals (env : Env) (asset : string) (s : State) := on_asset env asset get_decimals s.
Definition get_asset_ticker (env : Env) (asset : string) (s : State) := on_asset env asset get_ticker s.

Definition get_asset_metadata (env : Env) (asset : string) (s : State) :
    option (result NativeXelisError XelisAssetMetadata) * State :=
  match parse_asset asset with
  | Err e => (Some (Err e), s)
  | Ok asset_hash =>
      let '(r, s) := get_asset_data env asset_hash s in
      (map_ok asset_metadata
         (map_failed (λ error, classify_asset_storage_error error "WALLET_ASSET_METADATA_READ_FAILED") r),
       s)
  end.

(** [xelis_common::utils::format_coin] is a parameter. *)
Definition format_coin (common_format_coin : Z → Z → string) (env : Env) (atomic_amount : Z)
    (asset_hash : option string) (s : State) : option (result anyhow_error string) * State :=
  match resolve_asset_hash asset_hash with
  | Err e => (Some (Err e), s)
  | Ok asset =>
      let '(r, s) := get_asset_data env asset s in
      (map_ok (λ data, common_format_coin atomic_amount (get_decimals data)) r, s)
  end.

Lemma alone_spec env h s :
  resolution_lock s = false →
  get_asset_data env h s =
    match load_cached env h s with
    | Err e => (Some (Err e), s)
    | Ok (Some asset_data) => (Some (Ok asset_data), s)
    | Ok None =>
        match fetch_from_daemon env h with
        | Err e => (Some (Err e), s)
        | Ok asset_data => let '(r, s) := persist env h asset_data s in (Some r, s)
        end
    end.
Proof.
  intros Hlock. unfold get_asset_data.
  assert (∀ b, load_cached env h (set_lock b s) = load_cached env h s) as Hload by done.
  assert (set_lock false s = s) as Hs by (rewrite <-Hlock; by destruct s).
  assert (∀ d, persist env h d (set_lock true s) =
    ((persist env h d s).1, set_lock true (persist env h d s).2)) as Hpersist.
  { intros d. unfold persist. by destruct (write_error env). }
  assert (∀ d, set_lock false (persist env h d s).2 = (persist env h d s).2) as Hp.
  { intros d. unfold persist. destruct (write_error env); [done|]. unfold set_lock, log_fetch, store. cbn. by rewrite Hlock. }
  cbn -[load_cached fetch_from_daemon persist set_lock].
  destruct (load_cached env h s) as [[d|]|e] eqn:Hl; cbn -[load_cached fetch_from_daemon persist set_lock];
    [done| |done].
  rewrite Hlock. cbn -[load_cached fetch_from_daemon persist set_lock]. rewrite Hload.
  cbn -[load_cached fetch_from_daemon persist set_lock].
  destruct (fetch_from_daemon env h) as [d|e]; cbn -[load_cached persist set_lock].
  - rewrite Hpersist. cbn -[persist set_lock]. destruct (persist env h d s) as [r s'] eqn:Hr.
    specialize (Hp d). rewrite Hr in Hp. cbn -[set_lock] in *.
    change (set_lock false (set_lock true s')) with (set_lock false s'). by rewrite Hp.
  - change (set_lock false (set_lock true s)) with (set_lock false s). by rewrite Hs.
Qed.

(** ** What holds in every interleaving *)

Definition locking (t : Resolution) : option unit :=
  match pc t with LoadAgain | FetchFromDaemon | Persist _ | Unlock _ => Some tt | _ => None end.
Definition fetching (t : Resolution) : bool :=
  match pc t with FetchFromDaemon | Persist _ => true | _ => false end.
Definition resolved (t : Resolution) : option AssetData :=
  match pc t with Unlock (Ok d) | Resolved (Ok d) => Some d | _ => None end.

Record assets_ok (y : System) : Prop := mkOk {
  a_lock : count locking tt (tasks y) = one (resolution_lock (state y));
  a_nodup : NoDup (fetched (state y));
  a_fetched h : h ∈ fetched (state y) → stored (state y) h ≠ None;
  a_absent t : t ∈ tasks y → fetching t = true → asset t ∉ fetched (state y);
  a_seen h d : stored (state y) h = Some d → (h, d) ∈ seen (state y);
  a_resolved t d : t ∈ tasks y → resolved t = Some d →
    (asset t, d) ∈ seen (state y) ∧ stored (state y) (asset t) ≠ None
}.

(** One call moves. *)
Section Move.
Context (y : System) (i : nat) (h : Hash) (p p' : resolve_pc).
Hypothesis (Hok : assets_ok y) (Hi : tasks y !! i = Some (mkResolution h p)).

Lemma assets_move s' :
  one (resolution_lock s') + one (bool_decide (locking (mkResolution h p) = Some tt)) =
    one (resolution_lock (state y)) + one (bool_decide (locking (mkResolution h p') = Some tt)) →
  NoDup (fetched s') → (∀ k, k ∈ fetched s' → stored s' k ≠ None) →
  (∀ k d, stored s' k = Some d → (k, d) ∈ seen s') →
  seen (state y) ⊆ seen s' → (∀ k, stored (state y) k ≠ None → stored s' k ≠ None) →
  fetched s' = fetched (state y) ∨ locking (mkResolution h p) = Some tt →
  (fetching (mkResolution h p') = true → h ∉ fetched s') →
  (∀ d, resolved (mkResolution h p') = Some d → (h, d) ∈ seen s' ∧ stored s' h ≠ None) →
  assets_ok (mkSystem s' (<[i := mkResolution h p']> (tasks y))).
Proof.
  intros Hlock Hnd Hf Hs Hseen Hmono Hframe Hfetch Hres. destruct Hok as [O1 O2 O3 O4 O5 O6].
  pose proof (count_step locking tt (tasks y) i _ (mkResolution h p') [] Hi) as Hc.
  rewrite app_nil_r, count_nil in Hc.
  assert (∀ u, u ∈ <[i := mkResolution h p']> (tasks y) → u = mkResolution h p' ∨
    ∃ j, j ≠ i ∧ tasks y !! j = Some u ∧ u ∈ tasks y) as Hcase.
  { intros u [j Hj]%list_elem_of_lookup. destruct (decide (i = j)) as [<-|Hij].
    - rewrite list_lookup_insert_eq in Hj by (by eapply lookup_lt_Some). left. congruence.
    - rewrite list_lookup_insert_ne in Hj by done. right. exists j. split_and!; [done|done|].
      by eapply list_elem_of_lookup_2. }
  split; cbn [state tasks]; try done.
  - lia.
  - intros u [->|(j & Hj & Hu & Hin)]%Hcase Hft; [by apply Hfetch|].
    destruct Hframe as [->|Hlk]; [by apply O4|].
    assert (locking u = Some tt) as Hul by (unfold fetching, locking in *; by destruct (pc u)).
    pose proof (count_two locking tt (tasks y) i j _ u Hi Hu Hlk Hul ltac:(congruence)) as H2.
    rewrite O1 in H2. destruct (resolution_lock (state y)); cbn in H2; lia.
  - intros u d [->|(j & Hj & Hu & Hin)]%Hcase Hr; [by apply Hres|].
    destruct (O6 u d Hin Hr) as [? ?]. split; [by apply Hseen|by apply Hmono].
Qed.

(** The storage does not change. *)
Lemma assets_quiet lock' :
  one lock' + one (bool_decide (locking (mkResolution h p) = Some tt)) =
    one (resolution_lock (state y)) + one (bool_decide (locking (mkResolution h p') = Some tt)) →
  (fetching (mkResolution h p') = true → h ∉ fetched (state y)) →
  (∀ d, resolved (mkResolution h p') = Some d →
     stored (state y) h = Some d ∨ resolved (mkResolution h p) = Some d) →
  assets_ok (mkSystem (set_lock lock' (state y)) (<[i := mkResolution h p']> (tasks y))).
Proof.
  intros Hlock Hfetch Hres. pose proof Hok as [O1 O2 O3 O4 O5 O6].
  apply assets_move; cbn; try done; [by left|]. intros d [Hd|Hd]%Hres.
  - split; [by apply O5|congruence].
  - apply (O6 (mkResolution h p)); [by eapply list_elem_of_lookup_2|done].
Qed.
End Move.

Lemma set_lock_id s : set_lock (resolution_lock s) s = s.
Proof. by destruct s. Qed.

Lemma assets_run y i env y' : assets_ok y → run i env y = Some y' → assets_ok y'.
Proof.
  intros Hok. unfold run. destruct (tasks y !! i) as [[h p]|] eqn:Hi; [|done]. cbn.
  pose proof Hok as [O1 O2 O3 O4 O5 O6].
  assert (∀ p', locking (mkResolution h p') = locking (mkResolution h p) →
    (fetching (mkResolution h p') = true → h ∉ fetched (state y)) →
    (∀ d, resolved (mkResolution h p') = Some d →
       stored (state y) h = Some d ∨ resolved (mkResolution h p) = Some d) →
    assets_ok (mkSystem (state y) (<[i := mkResolution h p']> (tasks y)))) as Hquiet.
  { intros p' Hl Hf Hr. rewrite <-(set_lock_id (state y)).
    apply (assets_quiet y i h p p'); [done|done|rewrite Hl; lia|done|done]. }
  assert (stored (state y) h = None → h ∉ fetched (state y)) as Hnone by (by intros Hn Hin%O3).
  destruct p as [| | | |d|r|r]; cbn.
  - intros [= <-]. apply Hquiet; unfold load_cached;
      (destruct (read_error env); [done|]); destruct (stored (state y) h) eqn:Hs; try done; naive_solver.
  - destruct (resolution_lock (state y)) eqn:Hl; [done|]. intros [= <-].
    apply (assets_quiet y i h LockResolution LoadAgain); [done|done| |done|done]. by rewrite Hl.
  - intros [= <-]. apply Hquiet; unfold load_cached;
      (destruct (read_error env); [done|]); destruct (stored (state y) h) eqn:Hs; try done; naive_solver.
  - intros [= <-]. apply Hquiet; destruct (fetch_from_daemon env h); try done.
    intros _. apply (O4 (mkResolution h FetchFromDaemon)); [by eapply list_elem_of_lookup_2|done].
  - unfold persist. destruct (write_error env); cbn; intros [= <-]; [by apply Hquiet|].
    assert (h ∉ fetched (state y)) as Hh.
    { apply (O4 (mkResolution h (Persist d))); [by eapply list_elem_of_lookup_2|done]. }
    apply (assets_move y i h (Persist d) (Unlock (Ok d))); cbn; try done.
    + apply NoDup_app. split_and!; [done|set_solver|]. apply NoDup_singleton.
    + intros k [Hk|Hk%list_elem_of_singleton]%elem_of_app; case_bool_decide; try done. by apply O3.
    + intros k e. case_bool_decide as Hk; [intros [= <-]; set_solver|]. intros ?%O5. set_solver.
    + set_solver.
    + intros k Hk. by case_bool_decide.
    + by right.
    + intros e [= <-]. rewrite bool_decide_eq_true_2 by done. set_solver.
  - intros [= <-]. apply (assets_quiet y i h (Unlock r) (Resolved r)); [done|done| |done|].
    + pose proof (count_pos locking tt (tasks y) i _ Hi eq_refl) as Hpos. rewrite O1 in Hpos.
      rewrite bool_decide_eq_true_2, bool_decide_eq_false_2 by done.
      destruct (resolution_lock (state y)); [done|cbn in Hpos; lia].
    + intros d Hd. by right.
  - done.
Qed.

Lemma assets_abort y i y' : assets_ok y → abort i y = Some y' → assets_ok y'.
Proof.
  intros Hok. unfold abort. destruct (tasks y !! i) as [[h p]|] eqn:Hi; [|done]. cbn.
  pose proof Hok as [O1 O2 O3 O4 O5 O6].
  assert (locking (mkResolution h p) = Some tt → resolution_lock (state y) = true) as Hlk.
  { intros Hl. pose proof (count_pos locking tt (tasks y) i _ Hi Hl) as Hpos. rewrite O1 in Hpos.
    destruct (resolution_lock (state y)); [done|cbn in Hpos; lia]. }
  destruct p; try done; intros [= <-];
    first [apply (assets_quiet y i h _ (Resolved (Err dropped)) Hok Hi); try done; rewrite Hlk by done; done
          |rewrite <-(set_lock_id (state y));
           apply (assets_quiet y i h _ (Resolved (Err dropped)) Hok Hi); try done; lia].
Qed.

Lemma assets_step y l y' : assets_ok y → step y l = Some y' → assets_ok y'.
Proof.
  intros Hok. destruct l as [h|i env|i|h d]; cbn; [|by apply assets_run|by apply assets_abort|].
  - intros [= <-]. destruct Hok as [O1 O2 O3 O4 O5 O6].
    split; cbn [state tasks]; try done.
    + by rewrite count_call.
    + intros t [Ht|Ht%list_elem_of_singleton]%elem_of_app; [by apply O4|by subst].
    + intros t d [Ht|Ht%list_elem_of_singleton]%elem_of_app; [by apply O6|by subst].
  - intros [= <-]. destruct Hok as [O1 O2 O3 O4 O5 O6]. split; cbn; try done.
    + intros k Hk. case_bool_decide; [done|by apply O3].
    + intros k e. case_bool_decide as Hk; [intros [= <-]; set_solver|]. intros ?%O5. set_solver.
    + intros t e Ht He. destruct (O6 t e Ht He). split; [set_solver|]. by case_bool_decide.
Qed.

Lemma assets_invariant initial y : reached initial y → assets_ok y.
Proof.
  intros [labels Hr]. revert Hr. apply reachable_invariant; [|intros z l z'; apply assets_step].
  intros ? ->. split; cbn; try done; try (by intros * ?%elem_of_nil); [constructor|].
  intros h d Hd. destruct (list_find _ initial) as [[k [h' d']]|] eqn:Hf; [|done]. cbn in Hd. simplify_eq.
  apply list_find_Some in Hf as (Hk & Heq & _). cbn in Heq. subst. by eapply list_elem_of_lookup_2.
Qed.

(** ** What the callers rely on *)

(** Claim C37 (safety): however many calls ask for the same asset at once, it is
    fetched from the daemon and stored at most once, and at most one call talks
    to the daemon at a time. *)
Theorem assets_fetched_once initial y :
  reached initial y →
  NoDup (fetched (state y)) ∧
  ∀ i j t u, tasks y !! i = Some t → tasks y !! j = Some u →
    fetching t = true → fetching u = true → i = j.
Proof.
  intros [O1 O2 _ _ _ _]%assets_invariant. split; [done|]. intros i j t u Hi Hj Ht Hu.
  assert (∀ v, fetching v = true → locking v = Some tt) as Hlk.
  { intros v. unfold fetching, locking. by destruct (pc v). }
  destruct (decide (i = j)) as [|Hij]; [done|].
  pose proof (count_two locking tt (tasks y) i j t u Hi Hj (Hlk t Ht) (Hlk u Hu) Hij) as HB.
  rewrite O1 in HB. destruct (resolution_lock (state y)); cbn in HB; lia.
Qed.

(** Asset data is returned only when it is, or was, stored
    for that very asset, and then the asset is known from then on. *)
Theorem asset_data_stored initial y t d :
  reached initial y → t ∈ tasks y → pc t = Resolved (Ok d) →
  (asset t, d) ∈ seen (state y) ∧ stored (state y) (asset t) ≠ None.
Proof.
  intros Hok%assets_invariant Ht Hp. apply (a_resolved _ Hok t d Ht). unfold resolved. by rewrite Hp.
Qed.

(** The resolution lock never blocks every call: while one
    has not ended, some call can make a step, whatever the storage and the
    daemon answer. *)
Theorem resolutions_progress initial y t env :
  reached initial y → t ∈ tasks y → (∀ r, pc t ≠ Resolved r) →
  ∃ i, is_Some (run i env y).
Proof.
  intros Hok%assets_invariant Ht Hp.
  assert (∀ i u, tasks y !! i = Some u → locking u = Some tt → is_Some (run i env y)) as Hgo.
  { intros i [h p] Hi Hu. unfold run. rewrite Hi. cbn. destruct p; cbn; try done; try by eexists.
    destruct (persist env h _ (state y)). by eexists. }
  apply list_elem_of_lookup in Ht as [i Hi]. destruct t as [h p].
  destruct p as [| | | |d|r|r]; try (exists i; by eapply Hgo).
  - exists i. unfold run. rewrite Hi. cbn. by eexists.
  - destruct (resolution_lock (state y)) eqn:Hl.
    + destruct (count_exists locking tt (tasks y)) as (j & u & Hj & Hu);
        [rewrite (a_lock _ Hok), Hl; done|]. exists j. by eapply Hgo.
    + exists i. unfold run. rewrite Hi. cbn. rewrite Hl. by eexists.
  - by destruct (Hp r).
Qed.

(** ** Balances *)

Definition balance_of (st : Storage) (asset : Hash) : result anyhow_error Z :=
  has_balance ← has_balance_for st asset;
  if has_balance : bool then get_plaintext_balance_for st asset else Ok 0%Z.

Lemma collect_balances_cons st r tracked balances m :
  collect_balances st (r :: tracked) balances = Ok m ↔
  ∃ asset balance, r = Ok asset ∧ balance_of st asset = Ok balance ∧
    collect_balances st tracked (<[hash_to_hex asset := balance]> balances) = Ok m.
Proof.
  split.
  - destruct r as [asset|e]; [|done]. cbn. intros Hm. exists asset. unfold balance_of.
    destruct (has_balance_for st asset) as [[]|e]; cbn in *; [|by eauto|done].
    destruct (get_plaintext_balance_for st asset); cbn in *; [by eauto|done].
  - intros (asset & balance & -> & Hb & Hm). cbn. unfold balance_of in Hb.
    destruct (has_balance_for st asset) as [[]|e]; cbn in *; [|by simplify_eq|done].
    destruct (get_plaintext_balance_for st asset); cbn in *; by simplify_eq.
Qed.

Lemma collect_balances_all st tracked balances m :
  collect_balances st tracked balances = Ok m → ∃ l, tracked = map Ok l.
Proof.
  revert balances. induction tracked as [|r tracked IH]; intros balances; [by exists []|].
  intros (asset & balance & -> & _ & [l ->]%IH)%collect_balances_cons. by exists (asset :: l).
Qed.

Lemma collect_balances_spec `{!HashLaws} st l balances m :
  collect_balances st (map Ok l) balances = Ok m →
  (∀ asset, asset ∈ l → ∃ balance, balance_of st asset = Ok balance ∧
     m !! hash_to_hex asset = Some balance) ∧
  (∀ k, k ∉ map hash_to_hex l → m !! k = balances !! k).
Proof.
  revert balances. induction l as [|asset l IH]; intros balances.
  { intros [= <-]. split; [by intros ? ?%elem_of_nil|done]. }
  intros (asset' & balance & [= <-] & Hb & Hm)%collect_balances_cons.
  destruct (IH _ Hm) as (HA & HB). split.
  - intros other [->|Ho]%elem_of_cons; [|by apply HA]. exists balance. split; [done|].
    destruct (decide (asset ∈ l)) as [Hin|Hout].
    + destruct (HA asset Hin) as (b & Hb' & ->). congruence.
    + rewrite HB, lookup_insert_eq; [done|]. intros (other & Heq & Ho)%list_elem_of_fmap. apply Hout.
      apply (f_equal hash_from_hex) in Heq. rewrite !hash_from_to_hex in Heq. by simplify_eq.
  - intros k [Hne Hk]%not_elem_of_cons. by rewrite HB, lookup_insert_ne.
Qed.

(** Claim C38 (functional): the tracked balances are complete and exact: they are
    returned only when every tracked asset could be read, and then each has its
    balance, zero where none is stored, under its own hash, and nothing else is
    in the map. *)
Theorem tracked_balances_exact `{!HashLaws} st m :
  get_tracked_balances st = Ok m →
  ∃ tracked, get_tracked_assets st = Ok (map Ok tracked) ∧
    ∀ k b, m !! k = Some b ↔
      ∃ asset, asset ∈ tracked ∧ hash_to_hex asset = k ∧ balance_of st asset = Ok b.
Proof.
  unfold get_tracked_balances. destruct (get_tracked_assets st) as [rs|e]; [|done]. cbn.
  intros Hm. destruct (collect_balances_all _ _ _ _ Hm) as [l ->].
  apply collect_balances_spec in Hm as [HA HB]. exists l. split; [done|]. intros k b. split.
  - intros Hk. destruct (decide (k ∈ map hash_to_hex l)) as [Hk'|Hk'].
    + apply list_elem_of_fmap in Hk' as (asset & -> & Ha). exists asset. split_and!; [done|done|].
      destruct (HA asset Ha) as (b' & Hb & Hm). congruence.
    + by rewrite HB in Hk.
  - intros (asset & Ha & <- & Hb). destruct (HA asset Ha) as (b' & Hb' & ->). congruence.
Qed.

(** An unknown asset of a wallet that is offline is reported
    as such: the contexts added on the way do not hide the cause. *)
Theorem offline_asset_reported env asset h s :
  resolution_lock s = false → hash_from_hex asset = Ok h → read_error env = None →
  stored s h = None → online env = false →
  ∃ e, get_asset_metadata env asset s = (Some (Err e), s) ∧ code e = CodeOffline.
Proof.
  intros Hlock Hh Hread Hst Hon. unfold get_asset_metadata, parse_asset. rewrite Hh. cbn -[get_asset_data].
  destruct (get_asset_data env h s) as [r s'] eqn:Hget.
  assert (get_asset_data env h s = (Some (Err (context
    ("Asset " +:+ hash_to_hex h +:+ " not found in wallet storage/cache")
    (anyhow_of_wallet WNotOnlineMode))), s)) as Hr.
  { rewrite alone_spec by done. unfold load_cached, fetch_from_daemon. by rewrite Hread, Hst, Hon. }
  rewrite Hr in Hget. simplify_eq. eexists. split; [done|]. done.
Qed.

(** ** Termination *)

Definition rank (t : Resolution) : nat :=
  match pc t with
  | LoadCached => 6 | LockResolution => 5 | LoadAgain => 4 | FetchFromDaemon => 3 | Persist _ => 2
  | Unlock _ => 1 | Resolved _ => 0
  end.

Fixpoint run_all (ls : list (nat * Env)) (y : System) : option System :=
  match ls with [] => Some y | (i, env) :: ls => y ← run i env y; run_all ls y end.

Lemma resolution_rank env h p s s' p' :
  exec env h p s = Some (s', p') → rank (mkResolution h p') < rank (mkResolution h p).
Proof. destruct p; cbn; intros ?; repeat case_match; simplify_eq; cbn; lia. Qed.

(** A call makes at most six steps, whatever the
    storage and the daemon answer. *)
Theorem resolutions_end ls y y' : run_all ls y = Some y' → length ls ≤ 6 * length (tasks y).
Proof.
  intros Hrun. trans (sum_list_with rank (tasks y)); [|apply sum_bound; intros [h p]; destruct p; cbn; lia].
  revert y Hrun. induction ls as [|[i env] ls IH]; intros y Hrun; cbn in *; [lia|].
  apply bind_Some in Hrun as (z & Hz & Hrun). specialize (IH z Hrun). unfold run in Hz.
  destruct (tasks y !! i) as [[h p]|] eqn:Hi; [|done]. cbn in Hz.
  destruct (exec env h p (state y)) as [[s' p']|] eqn:He; [|done]. cbn in Hz. simplify_eq. cbn in IH.
  pose proof (sum_insert rank (tasks y) i _ (mkResolution h p') Hi). apply resolution_rank in He. lia.
Qed.

End Assets.

(** ** Witnesses *)

#[local] Existing Instances plain_text demo_hash demo_hash_laws.

Definition demo_asset : AssetData := mkAssetData "Xelis" "XEL" 8 SupplyNone OwnerNone.
Definition good : Env := mkEnv None true (Some (Ok demo_asset)) None.

Definition played (ls : list label) : System := Tasks.played step (started []) ls.

Lemma assets_played ls : Tasks.plays step (started []) ls = true → reached [] (played ls).
Proof. apply played_reachable. Qed.

(** Two calls for the same asset: the first fetches it while the second waits. *)
Definition race : list label :=
  [GetAssetData XELIS_ASSET; GetAssetData XELIS_ASSET; Run 0 good; Run 1 good; Run 0 good;
   Run 0 good; Run 0 good; Run 0 good; Run 0 good; Run 1 good; Run 1 good; Run 1 good].

Lemma assets_fetched_once_witness :
  NoDup (fetched (state (played race))) ∧
  ∀ i j t u, tasks (played race) !! i = Some t → tasks (played race) !! j = Some u →
    fetching t = true → fetching u = true → i = j.
Proof. apply (assets_fetched_once []). apply assets_played. vm_compute. reflexivity. Defined.

Lemma asset_data_stored_witness :
  (XELIS_ASSET, demo_asset) ∈ seen (state (played race)) ∧
  stored (state (played race)) XELIS_ASSET ≠ None.
Proof.
  apply (asset_data_stored [] (played race) (mkResolution XELIS_ASSET (Resolved (Ok demo_asset))) demo_asset);
    [apply assets_played; vm_compute; reflexivity|apply (list_elem_of_lookup_2 _ 1); reflexivity|reflexivity].
Defined.

Lemma resolutions_progress_witness : ∃ i, is_Some (run i good (played (take 5 race))).
Proof.
  apply (resolutions_progress [] (played (take 5 race)) (mkResolution XELIS_ASSET LockResolution));
    [apply assets_played; vm_compute; reflexivity|apply (list_elem_of_lookup_2 _ 1); reflexivity|done].
Defined.

Lemma resolutions_end_witness : 2 ≤ 12.
Proof.
  eapply (resolutions_end [(0, good); (1, good)] (played (take 2 race))). reflexivity.
Defined.

Definition demo_storage : Storage :=
  mkStorage (λ h, Ok (bool_decide (h = XELIS_ASSET))) (λ _, Ok 5%Z)
    (Ok [Ok XELIS_ASSET; Ok "token"]) (Ok []).

Lemma tracked_balances_exact_witness :
  ∃ m tracked, get_tracked_balances demo_storage = Ok m ∧
    get_tracked_assets demo_storage = Ok (map Ok tracked).
Proof.
  edestruct (tracked_balances_exact demo_storage) as (tracked & Ht & _); [reflexivity|].
  eexists _, tracked. split; [reflexivity|exact Ht].
Defined.

Lemma offline_asset_reported_witness :
  ∃ e, get_asset_metadata (mkEnv None false None None) "ftoken" (state (started [])) =
         (Some (Err e), state (started [])) ∧ code e = CodeOffline.
Proof. eapply (offline_asset_reported _ "ftoken"); reflexivity. Defined.

End Assets.
