(* ===== verification/Contacts.v ===== *)
(** * The older address book
    (rust/src/api/address_book.rs, rust/src/api/models/address_book_dtos.rs)

    Contacts keyed by their address in a tree of the wallet's storage, which is
    the one that [AddressBook] migrates from. *)

From S2P Require Import Prelude Errors External Text Addresses AddressBook.

Module Contacts.
Import AddressBook.

Definition ADDRESS_BOOK_TREE : string := "address_book".

Record ContactDetails : Type := mkContact {
  c_name : string;
  c_address : string;
  c_note : option string
}.

(** The [HashMap] of the contacts by address. *)
Record AddressBookData : Type := mkData { contacts : gmap string ContactDetails }.

(** What the code uses of xelis_common and of the regex crate besides the
    storage: [DataConversionError]s, and the filtered queries of the storage. *)
Class ContactLib `{!HashLib, !CustomStorage} := {
  not_a_value : DataElement → anyhow_error;
  not_a_string : DataValue → anyhow_error;
  expected_value : anyhow_error;
  Regex : Type;
  (** [RegexBuilder] on the escaped text, case-insensitive. *)
  regex_build : string → result anyhow_error Regex;
  (** [query_db] with a query on the ["name"] field, a [take] and a [skip]. *)
  query_contacts : option Regex → option Z → option Z → Storage →
    result anyhow_error (list (DataValue * DataElement));
  count_custom_tree_entries : string → Storage → result anyhow_error Z
}.

Section Contacts.
Context `{!ErrorText, !HashLib, !AddressLib, !CustomStorage, !TextLib, !ContactLib}.

(** [fields.get(..).map(|v| v.as_value().and_then(|v| v.as_string())).transpose()]. *)
Definition text_field (fields : list (DataValue * DataElement)) (name : string) :
    result anyhow_error (option string) :=
  match field_get fields name with
  | None => Ok None
  | Some (DValue (DString s)) => Ok (Some s)
  | Some (DValue v) => Err (not_a_string v)
  | Some e => Err (not_a_value e)
  end.

(** [AddressBookData::from]: other keys and values are passed over. *)
Fixpoint add_entries (entries : list (DataValue * DataElement)) (book : gmap string ContactDetails) :
    result anyhow_error (gmap string ContactDetails) :=
  match entries with
  | [] => Ok book
  | (DString address, DFields fields) :: entries =>
      name ← text_field fields "name";
      name ← ok_or expected_value name;
      note ← text_field fields "note";
      add_entries entries (<[address := mkContact name address note]> book)
  | _ :: entries => add_entries entries book
  end.
Definition data_from (entries : list (DataValue * DataElement)) : result anyhow_error AddressBookData :=
  mkData <$> add_entries entries ∅.

(** [ContactDetails::from]. *)
Definition contact_from (fields : list (DataValue * DataElement)) : result anyhow_error ContactDetails :=
  name ← text_field fields "name";
  name ← ok_or expected_value name;
  address ← text_field fields "address";
  address ← ok_or expected_value address;
  note ← text_field fields "note";
  Ok (mkContact name address note).

Definition to_data_element (c : ContactDetails) : DataElement :=
  DFields ([field "name" (DString (c_name c)); field "address" (DString (c_address c))] ++
           match c_note c with Some note => [field "note" (DString note)] | None => [] end).

(** ** The methods of the trait *)

Definition retrieve_contacts (skip take : option Z) (s : Storage) : result anyhow_error AddressBookData :=
  entries ← query_contacts None take skip s;
  data_from entries.

Definition count_contacts (s : Storage) : result anyhow_error Z :=
  count_custom_tree_entries ADDRESS_BOOK_TREE s.

Definition find_contacts_by_name (name : string) (skip take : option Z) (s : Storage) :
    result anyhow_error AddressBookData :=
  regex ← regex_build name;
  entries ← query_contacts (Some regex) take skip s;
  data_from entries.

(** The check that the methods share, with its message. *)
Definition check_network (mainnet : bool) (address message : string) : result anyhow_error unit :=
  a ← address_from_string address;
  ensure (bool_decide (is_mainnet a = mainnet)) (bail message).

Definition upsert_contact (mainnet : bool) (entry : ContactDetails) :
    action Storage anyhow_error unit :=
  lift (check_network mainnet (c_address entry)
          "Cannot add contact with address from a different network");;
  set_custom_data ADDRESS_BOOK_TREE (DString (c_address entry)) (to_data_element entry).

Definition remove_contact (mainnet : bool) (address : string) : action Storage anyhow_error unit :=
  lift (check_network mainnet address "Cannot add contact with address from a different network");;
  delete_custom_data ADDRESS_BOOK_TREE (DString address).

Definition find_contact_by_address (mainnet : bool) (address : string) (s : Storage) :
    result anyhow_error ContactDetails :=
  check_network mainnet address "Cannot find contact with address from a different network";;
  entry ← get_custom_data ADDRESS_BOOK_TREE (DString address) s;
  match entry with
  | DFields content => contact_from content
  | _ => Err (bail ("Data for address " +:+ address +:+ " is not a valid contact entry"))
  end.

Definition is_contact_present (mainnet : bool) (address : string) (s : Storage) :
    result anyhow_error bool :=
  check_network mainnet address "Cannot check contact with address from a different network";;
  has_custom_data ADDRESS_BOOK_TREE (DString address) s.

(** ** Stored contacts *)

Lemma text_fields c :
  let fields := match to_data_element c with DFields fields => fields | _ => [] end in
  field_get fields "name" = Some (DValue (DString (c_name c))) ∧
  field_get fields "address" = Some (DValue (DString (c_address c))) ∧
  field_get fields "note" = DValue ∘ DString <$> c_note c.
Proof.
  destruct c as [name address [note|]]; cbn; repeat case_bool_decide; simplify_eq; split_and!; done.
Qed.

Lemma contact_roundtrip c :
  match to_data_element c with DFields fields => contact_from fields = Ok c | _ => False end.
Proof.
  pose proof (text_fields c) as (Hn & Ha & Ht). unfold to_data_element in *.
  unfold contact_from, text_field. rewrite Hn, Ha, Ht. by destruct c as [name address [note|]].
Qed.

Lemma check_network_spec mainnet address m m' :
  check_network mainnet address m = Ok tt → check_network mainnet address m' = Ok tt.
Proof.
  unfold check_network. destruct (address_from_string address); [|done]. cbn.
  unfold ensure. by case_bool_decide.
Qed.

Section Laws.
Context `{!StorageLaws}.

(** On a storage that works a contact that was saved is found under its address
    exactly as it was saved, and after its removal it is gone; no other record
    of the storage is touched by either. *)
Theorem saved_contact_found `{!StorageWorks} mainnet c s s' :
  upsert_contact mainnet c s = (Ok tt, s') →
  find_contact_by_address mainnet (c_address c) s' = Ok c ∧
  is_contact_present mainnet (c_address c) s' = Ok true ∧
  (∀ t k, (t, k) ≠ (ADDRESS_BOOK_TREE, DString (c_address c)) → stored s' t k = stored s t k) ∧
  ∃ s'', remove_contact mainnet (c_address c) s' = (Ok tt, s'') ∧
    is_contact_present mainnet (c_address c) s'' = Ok false ∧
    ∀ t k, (t, k) ≠ (ADDRESS_BOOK_TREE, DString (c_address c)) → stored s'' t k = stored s t k.
Proof.
  unfold upsert_contact, mbind, action_bind, lift.
  destruct (check_network mainnet (c_address c) _) as [[]|e] eqn:Hn; [|done].
  destruct (set_spec ADDRESS_BOOK_TREE (DString (c_address c)) (to_data_element c) s) as (s1 & -> & Hs1).
  intros [= <-]. destruct (delete_spec ADDRESS_BOOK_TREE (DString (c_address c)) s1) as (s2 & Hdel & Hs2).
  assert (stored s1 ADDRESS_BOOK_TREE (DString (c_address c)) = Some (to_data_element c)) as Hget.
  { by rewrite Hs1, bool_decide_eq_true_2. }
  assert (∀ t k, (t, k) ≠ (ADDRESS_BOOK_TREE, DString (c_address c)) → stored s1 t k = stored s t k) as Hrest.
  { intros t k Hne. rewrite Hs1, bool_decide_eq_false_2; [done|]. naive_solver. }
  split_and!; [| |done|].
  - unfold find_contact_by_address. rewrite (check_network_spec _ _ _ _ Hn). cbn.
    rewrite (get_spec _ _ _ _ Hget). cbn. apply (contact_roundtrip c).
  - unfold is_contact_present. rewrite (check_network_spec _ _ _ _ Hn). cbn.
    rewrite has_spec, Hget. by rewrite bool_decide_eq_true_2 by (by eexists).
  - exists s2. unfold remove_contact, mbind, action_bind, lift.
    rewrite (check_network_spec _ _ _ _ Hn), Hdel. split_and!; [done| |].
    + unfold is_contact_present. rewrite (check_network_spec _ _ _ _ Hn). cbn.
      rewrite has_spec, Hs2, (bool_decide_eq_true_2 (_ ∧ _)) by done.
      by rewrite bool_decide_eq_false_2 by (by intros [? ?]).
    + intros t k Hne. rewrite Hs2, bool_decide_eq_false_2 by naive_solver. by apply Hrest.
Qed.

(** An address that does not parse or belongs to another
    network is refused by every method and changes nothing. *)
Theorem foreign_contact_refused mainnet c s :
  match address_from_string (c_address c) with Ok a => is_mainnet a ≠ mainnet | Err _ => True end →
  (∃ e, upsert_contact mainnet c s = (Err e, s)) ∧
  (∃ e, remove_contact mainnet (c_address c) s = (Err e, s)) ∧
  is_ok (find_contact_by_address mainnet (c_address c) s) = false ∧
  is_ok (is_contact_present mainnet (c_address c) s) = false.
Proof.
  intros Hbad. assert (∀ m, ∃ e, check_network mainnet (c_address c) m = Err e) as Hn.
  { intros m. unfold check_network. destruct (address_from_string (c_address c)); cbn; [|eauto].
    unfold ensure. rewrite bool_decide_eq_false_2 by done. eauto. }
  unfold upsert_contact, remove_contact, find_contact_by_address, is_contact_present, mbind, action_bind, lift.
  split_and!.
  - destruct (Hn "Cannot add contact with address from a different network") as [e ->]. eauto.
  - destruct (Hn "Cannot add contact with address from a different network") as [e ->]. eauto.
  - by destruct (Hn "Cannot find contact with address from a different network") as [e ->].
  - by destruct (Hn "Cannot check contact with address from a different network") as [e ->].
Qed.

Lemma migrates_as_entered mainnet c :
  migrate_record mainnet (DString (c_address c), to_data_element c) =
  normalize_entry (c_address c) (c_name c) None (c_note c) mainnet.
Proof.
  pose proof (text_fields c) as (Hn & Ha & Ht). unfold to_data_element in *. cbv beta iota zeta in Hn, Ha, Ht.
  unfold migrate_record, required_field, string_field. rewrite Hn, Ha, Ht.
  unfold normalize_entry. destruct c as [name address note]. cbn [c_note c_name c_address].
  assert (∀ o : option string,
    match DValue ∘ DString <$> o with
    | Some (DValue (DString value)) => Ok (Some value)
    | Some _ => Err (schema_error "Address-book entry contains an invalid field type")
    | None => if false then Err (schema_error "Address-book entry is missing a required field") else Ok None
    end = Ok o) as Ho by (by intros []).
  rewrite Ho. cbn [mbind result_bind].
  destruct (canonical_destination address mainnet) as [d|e]; [|done]. cbn [mbind result_bind].
  destruct (normalize_required _ _ _ _) as [n|e]; [|done]. cbn [mbind result_bind].
  destruct (normalize_optional None _ _ _) as [l|e]; [|done]. cbn [mbind result_bind].
  destruct (normalize_optional note _ _ _) as [t|e]; [|done]. cbn [mbind result_bind].
  by rewrite bool_decide_eq_false_2 by (cbn; intros Hne; by apply Hne).
Qed.

(** Claim C34 (equivalence): what this address book saves is what the migration
    of the newer one reads: whatever was saved here, by address, is migrated as
    if its address, name and note had been entered there, errors included. *)
Theorem contact_migrates mainnet c s s' :
  upsert_contact mainnet c s = (Ok tt, s') →
  ∃ v, stored s' LEGACY_TREE (DString (c_address c)) = Some v ∧
    migrate_record mainnet (DString (c_address c), v) =
      normalize_entry (c_address c) (c_name c) None (c_note c) mainnet.
Proof.
  unfold upsert_contact, mbind, action_bind, lift.
  destruct (check_network mainnet (c_address c) _) as [[]|e]; [|done].
  intros [_ [Hs|[? _]]]%set_stored; [|done]. exists (to_data_element c).
  split; [exact Hs|apply migrates_as_entered].
Qed.

(** A contact without a name, which this address book accepts, keeps the
    migration from ever completing. *)
Lemma unnamed_contact_blocks_migration mainnet c s :
  stored s ADDRESS_BOOK_TREE (DString (c_address c)) = Some (to_data_element c) →
  trim (c_name c) = "" →
  stored s ADDRESS_BOOK_V2_TREE (DString MIGRATION_MARKER_KEY) = None →
  ∀ r s', migrate_address_book_v2 mainnet s = (r, s') → is_ok r = false.
Proof.
  intros Hc Hname Hmark r s'. unfold migrate_address_book_v2, mbind, action_bind, stored_read, lift.
  destruct (has_custom_data _ _ s) as [present|e] eqn:Hh; cbn [map_err]; [|by intros [= <- <-]].
  apply has_stored in Hh as ->. rewrite Hmark, bool_decide_eq_false_2 by (by intros [? ?]).
  destruct (query_db LEGACY_TREE s) as [l|e] eqn:Hq; cbn [map_err]; [|by intros [= <- <-]].
  apply query_stored in Hq as [_ Hl].
  destruct (collect_legacy mainnet l []) as [es|e] eqn:Hes; [|by intros [= <- <-]].
  apply Hl in Hc. destruct (proj2 (collect_legacy_Ok _ _ _ _ Hes) _ Hc) as (entry & He & _).
  rewrite migrates_as_entered in He. unfold normalize_entry, normalize_required in He. rewrite Hname in He.
  rewrite bool_decide_eq_true_2 in He by (by left). by destruct (canonical_destination _ _).
Qed.
End Laws.
End Contacts.

(** ** Witnesses *)

#[local] Existing Instances plain_text demo_hash demo_address AddressBook.demo_storage demo_text.
#[local] Existing Instances demo_storage_laws demo_storage_works.

Definition demo_contacts : ContactLib := {|
  not_a_value _ := bail "no value";
  not_a_string _ := bail "no string";
  expected_value := bail "expected a value";
  Regex := string;
  regex_build name := Ok name;
  query_contacts _ _ _ s := query_db LEGACY_TREE s;
  count_custom_tree_entries tree s := Ok (zlen (filter (λ r, r.1.1 = tree) s))
|}.
#[local] Existing Instance demo_contacts.

Definition alice : ContactDetails := mkContact "Alice" "xelalice" (Some "landlord").

Definition nothing : @Storage demo_hash AddressBook.demo_storage := [].
Definition saved : @Storage demo_hash AddressBook.demo_storage := (upsert_contact true alice nothing).2.

Lemma saved_contact_found_witness :
  find_contact_by_address true "xelalice" saved = Ok alice.
Proof. apply (saved_contact_found true alice nothing saved). reflexivity. Defined.

Lemma foreign_contact_refused_witness :
  ∃ e, upsert_contact false alice nothing = (Err e, nothing).
Proof. apply (foreign_contact_refused false alice nothing). discriminate. Defined.

Lemma contact_migrates_witness :
  ∃ v, stored saved LEGACY_TREE (DString "xelalice") = Some v ∧
    migrate_record true (DString "xelalice", v) =
      normalize_entry "xelalice" "Alice" None (Some "landlord") true.
Proof. apply (contact_migrates true alice nothing saved). reflexivity. Defined.
End Contacts.
