(* ===== verification/Logging.v ===== *)
(** * Logs and progress reports
    (rust/src/api/logger.rs, rust/src/api/progress_report.rs)

    The process-wide logger is installed once, with a level and a scope that
    bound what leaves the native code; records and reports go to the stream that
    the application registered last.  Installations, records, reports, new
    streams and streams that fail are interleaved in any order. *)

From S2P Require Import Prelude Tasks Errors.

Module Logging.
Import Tasks.

(** ** Streams *)

Section Sinks.
Context {A : Type}.

(** The static slot with the current sink; a sink is an [Arc] up to [ptr_eq].
    A closed sink refuses what is added to it. *)
Record Sinks : Type := mkSinks {
  slot : option nat;
  next_sink : nat;
  closed : list nat;
  delivered : list (nat * A)
}.

(** [replace_stream_sink]. *)
Definition replace_stream_sink (s : Sinks) : Sinks :=
  mkSinks (Some (next_sink s)) (S (next_sink s)) (closed s) (delivered s).
(** The receiver of a stream goes away. *)
Definition close_sink (k : nat) (s : Sinks) : Sinks :=
  mkSinks (slot s) (next_sink s) (k :: closed s) (delivered s).

(** Sending one entry: the sink is read, the entry is added, and a sink that
    refused it is taken out of the slot if it is still there. *)
Inductive send_pc : Type :=
  | ReadSink (entry : A)
  | AddTo (entry : A) (k : nat)
  | TakeFailed (k : nat)
  | Sent.

Definition exec_send (p : send_pc) (s : Sinks) : option (Sinks * send_pc) :=
  match p with
  | ReadSink entry => Some (s, match slot s with None => Sent | Some k => AddTo entry k end)
  | AddTo entry k =>
      if bool_decide (k ∈ closed s) then Some (s, TakeFailed k)
      else Some (mkSinks (slot s) (next_sink s) (closed s) (delivered s ++ [(k, entry)]), Sent)
  | TakeFailed k =>
      Some (mkSinks (if bool_decide (slot s = Some k) then None else slot s) (next_sink s)
              (closed s) (delivered s), Sent)
  | Sent => None
  end.

(** The senders, of progress reports for instance, as interleaved tasks. *)
Record Senders : Type := mkSenders { sinks : Sinks; sending : list send_pc }.

Inductive send_label : Type :=
  | Send (entry : A)
  | Step (i : nat)
  | NewSink
  | CloseSink (k : nat).

Definition send_step (y : Senders) (l : send_label) : option Senders :=
  match l with
  | Send entry => Some (mkSenders (sinks y) (sending y ++ [ReadSink entry]))
  | Step i =>
      p ← sending y !! i;
      '(s, p) ← exec_send p (sinks y);
      Some (mkSenders s (<[i := p]> (sending y)))
  | NewSink => Some (mkSenders (replace_stream_sink (sinks y)) (sending y))
  | CloseSink k => Some (mkSenders (close_sink k (sinks y)) (sending y))
  end.

Definition no_senders : Senders := mkSenders (mkSinks None 0 [] []) [].
Definition senders_reached (y : Senders) : Prop := reaches send_step no_senders y.

(** Sinks that are in use were handed out, and a sender that gives up on a sink
    found it closed. *)
Definition sender_ok (s : Sinks) (p : send_pc) : Prop :=
  match p with
  | AddTo _ k => k < next_sink s
  | TakeFailed k => k < next_sink s ∧ k ∈ closed s
  | _ => True
  end.
Definition sinks_ok (s : Sinks) : Prop := ∀ k, slot s = Some k → k < next_sink s.

Lemma exec_send_ok p s s' p' :
  sinks_ok s → sender_ok s p → exec_send p s = Some (s', p') →
  sinks_ok s' ∧ sender_ok s' p' ∧ next_sink s' = next_sink s ∧ closed s' = closed s ∧
  (slot s' = slot s ∨ ∃ k, slot s = Some k ∧ k ∈ closed s ∧ slot s' = None).
Proof.
  intros Hs Hp. destruct p as [e|e k|k|]; cbn in *; [| | |done].
  - intros [= <- <-]. split_and!; [done| |done|done|by left]. destruct (slot s) eqn:Hk; [by apply Hs|done].
  - case_bool_decide; intros [= <- <-]; split_and!; try done; by left.
  - intros [= <- <-]. destruct Hp as [Hk Hc]. split_and!; try done; cbn.
    + intros j. case_bool_decide; [done|apply Hs].
    + case_bool_decide; [right; by exists k|by left].
Qed.

Lemma senders_invariant y :
  senders_reached y → sinks_ok (sinks y) ∧ ∀ p, p ∈ sending y → sender_ok (sinks y) p.
Proof.
  intros [tr Hr]. revert Hr.
  apply (reachable_invariant _ _ (λ y, sinks_ok (sinks y) ∧ ∀ p, p ∈ sending y → sender_ok (sinks y) p)).
  - intros ? ->. split; [done|]. by intros p ?%elem_of_nil.
  - intros z l z' [Hs Hp] Hstep. destruct l as [e|i| |k]; cbn in Hstep.
    + simplify_eq. split; [done|]. intros p [Hin|Hin%list_elem_of_singleton]%elem_of_app; [by apply Hp|by subst].
    + apply bind_Some in Hstep as (p & Hi & Hx). apply bind_Some in Hx as ([s' p'] & Hx & [= <-]).
      destruct (exec_send_ok p (sinks z) s' p' Hs) as (H1 & H2 & H3 & H4 & _);
        [apply Hp; by eapply list_elem_of_lookup_2|done|].
      split; [done|]. intros q Hq. cbn in Hq. apply list_elem_of_lookup in Hq as [j Hj].
      destruct (decide (i = j)) as [<-|Hij].
      * rewrite list_lookup_insert_eq in Hj by (by eapply lookup_lt_Some). by simplify_eq.
      * rewrite list_lookup_insert_ne in Hj by done. apply list_elem_of_lookup_2 in Hj.
        specialize (Hp q Hj). unfold sender_ok in *. cbn. destruct q; try done; rewrite ?H3, ?H4; done.
    + simplify_eq. split; [intros k [= <-]; cbn; lia|]. intros p Hin. specialize (Hp p Hin).
      unfold sender_ok in *. destruct p; cbn; try done; [lia|]. destruct Hp. split; [lia|done].
    + simplify_eq. split; [done|]. intros p Hin. specialize (Hp p Hin).
      unfold sender_ok in *. destruct p; cbn; try done. destruct Hp. split; [done|set_solver].
Qed.

(** A registered stream is lost only when it was replaced or
    is itself closed: a sender that still failed on an older stream never takes
    the newer one out. *)
Theorem sink_never_lost y l y' k :
  senders_reached y → send_step y l = Some y' → slot (sinks y) = Some k → k ∉ closed (sinks y) →
  slot (sinks y') = Some k ∨ (l = NewSink ∧ slot (sinks y') = Some (next_sink (sinks y))).
Proof.
  intros [Hs Hp]%senders_invariant Hstep Hk Hc. destruct l as [e|i| |j]; cbn in Hstep; simplify_eq; [by left| |by right|by left].
  apply bind_Some in Hstep as (p & Hi & Hx). apply bind_Some in Hx as ([s' p'] & Hx & [= <-]).
  destruct (exec_send_ok p (sinks y) s' p' Hs) as (_ & _ & _ & _ & [Heq|(j & Hj & Hcj & _)]);
    [apply Hp; by eapply list_elem_of_lookup_2|done|left; cbn; congruence|]. congruence.
Qed.
End Sinks.
Arguments Sinks : clear implicits.
Arguments send_pc : clear implicits.

(** ** The logger *)

Definition CONSUMER_LOG_TARGET : string := "xelis_wallet_flutter".

Inductive Level : Type := LError | LWarn | LInfo | LDebug | LTrace.
Inductive NativeLogScope : Type := Standard | PackageDiagnostic | UnsafeUpstreamDiagnostic.
#[export] Instance Level_eq_dec : EqDecision Level.
Proof. solve_decision. Defined.
#[export] Instance NativeLogScope_eq_dec : EqDecision NativeLogScope.
Proof. solve_decision. Defined.

(** [log::LevelFilter] by its discriminant, 0 for [Off]. *)
Definition level_filter (l : Level) : Z :=
  match l with LError => 1 | LWarn => 2 | LInfo => 3 | LDebug => 4 | LTrace => 5 end.

(** [scope as u8], and what [enabled] makes of the stored byte. *)
Definition scope_as_u8 (s : NativeLogScope) : Z :=
  match s with Standard => 0 | PackageDiagnostic => 1 | UnsafeUpstreamDiagnostic => 2 end.
Definition scope_of_u8 (b : Z) : NativeLogScope :=
  match b with 0%Z => Standard | 1%Z => PackageDiagnostic | _ => UnsafeUpstreamDiagnostic end.

Record LoggerConfiguration : Type := mkConfiguration {
  minimum_level : Level;
  scope : NativeLogScope
}.
#[export] Instance LoggerConfiguration_eq_dec : EqDecision LoggerConfiguration.
Proof. solve_decision. Defined.

(** [log::Record] is forwarded as a [NativeLogEntry] with the same three parts. *)
Record NativeLogEntry : Type := mkLogEntry {
  log_level : Level;
  log_target : string;
  log_message : string
}.

Definition starts_with (prefix s : string) : bool := String.prefix prefix s.

Definition accepts (entry : NativeLogEntry) (scope : NativeLogScope) (maximum_level : Z) : bool :=
  let target := log_target entry in
  bool_decide (level_filter (log_level entry) ≤ maximum_level)%Z &&
  match scope with
  | Standard => bool_decide (target = CONSUMER_LOG_TARGET)
  | PackageDiagnostic =>
      bool_decide (target = CONSUMER_LOG_TARGET) || starts_with "xelis_wallet_flutter::" target
  | UnsafeUpstreamDiagnostic =>
      bool_decide (target = CONSUMER_LOG_TARGET) || starts_with "xelis_wallet_flutter::" target ||
      bool_decide (target = "xelis_wallet") || starts_with "xelis_wallet::" target ||
      bool_decide (target = "xelis_common") || starts_with "xelis_common::" target
  end.

(** ** Installing and logging, interleaved *)

(** The statics of logger.rs and of the log crate: [logger] tells whether a
    logger is set and whether it is ours; [chosen] is the configuration of the
    call that set it. *)
Record LogState : Type := mkLogState {
  configuration : option LoggerConfiguration;
  configuration_lock : bool;
  logger : option bool;
  log_scope : Z;
  max_level : Z;
  log_sinks : Sinks NativeLogEntry;
  chosen : option LoggerConfiguration
}.

Definition configuration_conflict : NativeXelisError :=
  xelis_wallet_flutter CodeConflict "LOGGER_CONFIGURATION_CONFLICT"
    "the Rust logger is already initialized with a different configuration".
(** [SetLoggerError] has one message. *)
Definition installation_failed : NativeXelisError :=
  xelis_wallet_flutter CodeInitialization "LOGGER_INSTALLATION_FAILED"
    ("failed to install the Rust logger: " +:+
     "attempted to set a logger after the logging system was already initialized").

(** [init_logger], which holds the lock of the configuration, and [log]. *)
Inductive log_task : Type :=
  | InitLock (c : LoggerConfiguration)
  | InitCheck (c : LoggerConfiguration)
  | InitSetLogger (c : LoggerConfiguration)
  | InitStoreScope (c : LoggerConfiguration)
  | InitSetMaxLevel (c : LoggerConfiguration)
  | InitStoreConfiguration (c : LoggerConfiguration)
  | InitUnlock (c : LoggerConfiguration) (r : result NativeXelisError unit)
  | InitDone (c : LoggerConfiguration) (r : result NativeXelisError unit)
  | LogLoadScope (entry : NativeLogEntry)
  | LogEnabled (entry : NativeLogEntry) (scope : NativeLogScope)
  | LogSend (p : send_pc NativeLogEntry).

Definition set_configuration_lock b (x : LogState) : LogState :=
  mkLogState (configuration x) b (logger x) (log_scope x) (max_level x) (log_sinks x) (chosen x).
Definition set_logger c (x : LogState) : LogState :=
  mkLogState (configuration x) (configuration_lock x) (Some true) (log_scope x) (max_level x)
    (log_sinks x) (Some c).
Definition set_log_scope b (x : LogState) : LogState :=
  mkLogState (configuration x) (configuration_lock x) (logger x) b (max_level x) (log_sinks x) (chosen x).
Definition set_max_level b (x : LogState) : LogState :=
  mkLogState (configuration x) (configuration_lock x) (logger x) (log_scope x) b (log_sinks x) (chosen x).
Definition set_configuration c (x : LogState) : LogState :=
  mkLogState (Some c) (configuration_lock x) (logger x) (log_scope x) (max_level x) (log_sinks x) (chosen x).
Definition set_log_sinks s (x : LogState) : LogState :=
  mkLogState (configuration x) (configuration_lock x) (logger x) (log_scope x) (max_level x) s (chosen x).

Definition exec_log (t : log_task) (x : LogState) : option (LogState * log_task) :=
  match t with
  | InitLock c =>
      if configuration_lock x then None else Some (set_configuration_lock true x, InitCheck c)
  | InitCheck c =>
      Some (x, match configuration x with
               | Some installed =>
                   InitUnlock c (if bool_decide (installed = c) then Ok tt else Err configuration_conflict)
               | None => InitSetLogger c
               end)
  | InitSetLogger c =>
      match logger x with
      | Some _ => Some (x, InitUnlock c (Err installation_failed))
      | None => Some (set_logger c x, InitStoreScope c)
      end
  | InitStoreScope c => Some (set_log_scope (scope_as_u8 (scope c)) x, InitSetMaxLevel c)
  | InitSetMaxLevel c =>
      Some (set_max_level (level_filter (minimum_level c)) x, InitStoreConfiguration c)
  | InitStoreConfiguration c => Some (set_configuration c x, InitUnlock c (Ok tt))
  | InitUnlock c r => Some (set_configuration_lock false x, InitDone c r)
  | InitDone _ _ => None
  | LogLoadScope entry => Some (x, LogEnabled entry (scope_of_u8 (log_scope x)))
  | LogEnabled entry scope =>
      Some (x, LogSend (if accepts entry scope (max_level x) then ReadSink entry else Sent))
  | LogSend p => '(s, p) ← exec_send p (log_sinks x); Some (set_log_sinks s x, LogSend p)
  end.

Record LogSystem : Type := mkLogSystem { statics : LogState; log_tasks : list log_task }.

(** The log macros reach the logger once it is set; another crate may set one
    first. *)
Inductive log_label : Type :=
  | Init (c : LoggerConfiguration)
  | Log (entry : NativeLogEntry)
  | LogStep (i : nat)
  | LogNewSink
  | LogCloseSink (k : nat)
  | ForeignLogger.

Definition log_step (y : LogSystem) (l : log_label) : option LogSystem :=
  let x := statics y in
  match l with
  | Init c => Some (mkLogSystem x (log_tasks y ++ [InitLock c]))
  | Log entry =>
      match logger x with
      | Some true => Some (mkLogSystem x (log_tasks y ++ [LogLoadScope entry]))
      | _ => None
      end
  | LogStep i =>
      t ← log_tasks y !! i;
      '(x, t) ← exec_log t x;
      Some (mkLogSystem x (<[i := t]> (log_tasks y)))
  | LogNewSink => Some (mkLogSystem (set_log_sinks (replace_stream_sink (log_sinks x)) x) (log_tasks y))
  | LogCloseSink k => Some (mkLogSystem (set_log_sinks (close_sink k (log_sinks x)) x) (log_tasks y))
  | ForeignLogger =>
      match logger x with
      | None => Some (mkLogSystem (mkLogState (configuration x) (configuration_lock x) (Some false)
                                     (log_scope x) (max_level x) (log_sinks x) (chosen x)) (log_tasks y))
      | Some _ => None
      end
  end.

Definition log_started : LogSystem :=
  mkLogSystem (mkLogState None false None 0 0 (mkSinks None 0 [] []) None) [].
Definition log_reached (y : LogSystem) : Prop := reaches log_step log_started y.

(** ** The invariant *)

Definition within (c : LoggerConfiguration) (entry : NativeLogEntry) : Prop :=
  accepts entry (scope c) (level_filter (minimum_level c)) = true.

(** How far the installation of [c] has come. *)
Definition scope_set (x : LogState) (c : LoggerConfiguration) : Prop :=
  log_scope x = scope_as_u8 (scope c).
Definition level_set (x : LogState) (c : LoggerConfiguration) : Prop :=
  scope_set x c ∧ max_level x = level_filter (minimum_level c).
Definition level_off_or_set (x : LogState) (c : LoggerConfiguration) : Prop :=
  (max_level x = 0%Z ∧ (log_scope x = 0%Z ∨ scope_set x c)) ∨ level_set x c.

Definition task_ok (x : LogState) (t : log_task) : Prop :=
  match t with
  | InitStoreScope c => chosen x = Some c
  | InitSetMaxLevel c => chosen x = Some c ∧ scope_set x c
  | InitStoreConfiguration c => chosen x = Some c ∧ level_set x c
  | InitUnlock c (Ok _) | InitDone c (Ok _) => configuration x = Some c
  | InitUnlock c (Err e) | InitDone c (Err e) =>
      (∃ c', configuration x = Some c' ∧ c' ≠ c ∧ e = configuration_conflict) ∨
      (logger x = Some false ∧ e = installation_failed)
  | LogLoadScope _ => is_Some (chosen x)
  | LogEnabled _ scope_read =>
      ∃ c, chosen x = Some c ∧ (scope_read = Standard ∨ scope_read = scope c)
  | LogSend (ReadSink entry) | LogSend (AddTo entry _) => ∃ c, chosen x = Some c ∧ within c entry
  | _ => True
  end.

Definition installing (t : log_task) : option unit :=
  match t with InitStoreScope _ | InitSetMaxLevel _ | InitStoreConfiguration _ => Some tt | _ => None end.
Definition holding (t : log_task) : option unit :=
  match t with
  | InitCheck _ | InitSetLogger _ | InitStoreScope _ | InitSetMaxLevel _
  | InitStoreConfiguration _ | InitUnlock _ _ => Some tt
  | _ => None
  end.

Record log_ok (y : LogSystem) : Prop := mkLogOk {
  l_lock : count holding tt (log_tasks y) = one (configuration_lock (statics y));
  l_logger : logger (statics y) = Some true ↔ is_Some (chosen (statics y));
  l_chosen c : chosen (statics y) = Some c →
    level_off_or_set (statics y) c ∧
    match configuration (statics y) with
    | Some c' => c' = c ∧ level_set (statics y) c
    | None => 1 ≤ count installing tt (log_tasks y)
    end;
  l_none : chosen (statics y) = None →
    configuration (statics y) = None ∧ max_level (statics y) = 0%Z ∧ log_scope (statics y) = 0%Z;
  l_checked c : InitSetLogger c ∈ log_tasks y → configuration (statics y) = None;
  l_tasks t : t ∈ log_tasks y → task_ok (statics y) t;
  l_delivered k entry : (k, entry) ∈ delivered (log_sinks (statics y)) →
    ∃ c, chosen (statics y) = Some c ∧ within c entry
}.

(** What later steps keep of the statics. *)
Record grows (x x' : LogState) : Prop := mkGrows {
  g_chosen c : chosen x = Some c → chosen x' = Some c;
  g_configuration c : configuration x = Some c → configuration x' = Some c;
  g_foreign : logger x = Some false → logger x' = Some false;
  g_scope c : chosen x = Some c → scope_set x c → scope_set x' c;
  g_level c : chosen x = Some c → level_set x c → level_set x' c
}.

Lemma task_ok_grows x x' t : grows x x' → task_ok x t → task_ok x' t.
Proof.
  intros [G1 G2 G3 G4 G5]. destruct t as [| | |c|c|c|c [[]|e]|c [[]|e]|e|e sc|[]]; cbn; try done.
  - apply G1.
  - intros [? ?]. auto.
  - intros [? ?]. auto.
  - apply G2.
  - intros [(c' & ? & ? & ?)|[? ?]]; [left; exists c'; auto|right; auto].
  - apply G2.
  - intros [(c' & ? & ? & ?)|[? ?]]; [left; exists c'; auto|right; auto].
  - intros [c Hc]. exists c. auto.
  - intros (c & ? & ?). exists c. auto.
  - intros (c & ? & ?). exists c. auto.
  - intros (c & ? & ?). exists c. auto.
Qed.

(** One task moves. *)
Lemma log_move y i t t' x' :
  log_ok y → log_tasks y !! i = Some t → grows (statics y) x' → task_ok x' t' →
  one (configuration_lock x') + one (bool_decide (holding t = Some tt)) =
    one (configuration_lock (statics y)) + one (bool_decide (holding t' = Some tt)) →
  (logger x' = Some true ↔ is_Some (chosen x')) →
  (∀ c, chosen x' = Some c → level_off_or_set x' c ∧
     match configuration x' with
     | Some c' => c' = c ∧ level_set x' c
     | None => installing t' = Some tt ∨ (installing t = None ∧ chosen (statics y) = Some c)
     end) →
  (chosen x' = None → configuration x' = None ∧ max_level x' = 0%Z ∧ log_scope x' = 0%Z) →
  (configuration x' = configuration (statics y) ∨ holding t = Some tt) →
  (∀ c, t' = InitSetLogger c → configuration x' = None) →
  (∀ k entry, (k, entry) ∈ delivered (log_sinks x') →
     (k, entry) ∈ delivered (log_sinks (statics y)) ∨ ∃ c, chosen x' = Some c ∧ within c entry) →
  log_ok (mkLogSystem x' (<[i := t']> (log_tasks y))).
Proof.
  intros Hok Hi Hg Ht Hlock Hlog Hch Hno Hconf Hset Hdel. pose proof Hok as [L1 L2 L3 L4 L5 L6 L7].
  pose proof (λ f, count_step (A := unit) f tt (log_tasks y) i t t' [] Hi) as Hc.
  assert (∀ u, u ∈ <[i := t']> (log_tasks y) → u = t' ∨
    ∃ j, j ≠ i ∧ log_tasks y !! j = Some u ∧ u ∈ log_tasks y) as Hcase.
  { intros u [j Hj]%list_elem_of_lookup. destruct (decide (i = j)) as [<-|Hij].
    - rewrite list_lookup_insert_eq in Hj by (by eapply lookup_lt_Some). left. congruence.
    - rewrite list_lookup_insert_ne in Hj by done. right. exists j. split_and!; [done|done|].
      by eapply list_elem_of_lookup_2. }
  split; cbn [statics log_tasks]; try done.
  - specialize (Hc holding). rewrite app_nil_r, count_nil in Hc. lia.
  - intros c Hcc. destruct (Hch c Hcc) as [Hl Hcf]. split; [done|].
    destruct (configuration x') as [c'|] eqn:Hx'; [done|].
    destruct Hcf as [Hi'|[Hi' Hc']].
    + eapply (count_pos installing tt _ i t'); [|done].
      apply list_lookup_insert_eq. by eapply lookup_lt_Some.
    + specialize (Hc installing). rewrite app_nil_r, count_nil, Hi' in Hc.
      destruct (L3 c Hc') as [_ L3c]. destruct (configuration (statics y)) as [c0|] eqn:H0.
      { rewrite (g_configuration _ _ Hg c0 H0) in Hx'. done. }
      rewrite (bool_decide_eq_false_2 (None = Some tt)) in Hc by done. cbn [one] in Hc. lia.
  - intros c [Hn|(j & Hj & Hu & Hin)]%Hcase; [by eapply Hset|].
    destruct Hconf as [->|Hh]; [by eapply L5|].
    pose proof (count_two holding tt (log_tasks y) i j t _ Hi Hu Hh eq_refl ltac:(congruence)) as H2.
    rewrite L1 in H2. destruct (configuration_lock (statics y)); cbn in H2; lia.
  - intros u [->|(j & Hj & Hu & Hin)]%Hcase; [done|]. eapply task_ok_grows; [done|by apply L6].
  - intros k entry [Hin|Hin]%Hdel; [|done]. destruct (L7 k entry Hin) as (c & Hc' & Hw).
    exists c. split; [by eapply g_chosen|done].
Qed.

(** The statics stay, or only the lock or the streams change. *)
Lemma log_move_quiet y i t t' x' :
  log_ok y → log_tasks y !! i = Some t →
  configuration x' = configuration (statics y) → logger x' = logger (statics y) →
  log_scope x' = log_scope (statics y) → max_level x' = max_level (statics y) →
  chosen x' = chosen (statics y) → task_ok x' t' →
  one (configuration_lock x') + one (bool_decide (holding t = Some tt)) =
    one (configuration_lock (statics y)) + one (bool_decide (holding t' = Some tt)) →
  installing t = None → (∀ c, t' = InitSetLogger c → configuration (statics y) = None) →
  (∀ k entry, (k, entry) ∈ delivered (log_sinks x') →
     (k, entry) ∈ delivered (log_sinks (statics y)) ∨ ∃ c, chosen x' = Some c ∧ within c entry) →
  log_ok (mkLogSystem x' (<[i := t']> (log_tasks y))).
Proof.
  intros Hok Hi E1 E2 E3 E4 E5 Ht Hlock Hinst Hset Hdel. pose proof Hok as [L1 L2 L3 L4 L5 L6 L7].
  assert (∀ c, scope_set x' c ↔ scope_set (statics y) c) as Hs by (intros c; unfold scope_set; by rewrite E3).
  assert (∀ c, level_set x' c ↔ level_set (statics y) c) as Hl.
  { intros c. unfold level_set. by rewrite Hs, E4. }
  apply (log_move y i t t' x'); try done.
  - split; intros *; rewrite ?E1, ?E2, ?E5, ?Hs, ?Hl; done.
  - by rewrite E2, E5.
  - intros c Hc. rewrite E5 in Hc. destruct (L3 c Hc) as [Hlo Hcf]. rewrite E1. split.
    + unfold level_off_or_set in *. by rewrite Hl, Hs, E3, E4.
    + destruct (configuration (statics y)); [|by right]. rewrite Hl. done.
  - by rewrite E1, E3, E4, E5.
  - by left.
  - by rewrite E1.
Qed.

Lemma scope_roundtrip s : scope_of_u8 (scope_as_u8 s) = s.
Proof. by destruct s. Qed.

(** A wider scope accepts what the standard one does. *)
Lemma accepts_standard entry scope n : accepts entry Standard n = true → accepts entry scope n = true.
Proof.
  unfold accepts. intros [H1 H2]%andb_true_iff. rewrite H1. cbn. destruct scope; [done| |]; by rewrite H2.
Qed.

(** Nothing passes while the level is off. *)
Lemma accepts_off entry scope : accepts entry scope 0 = false.
Proof. unfold accepts. destruct (log_level entry); rewrite bool_decide_eq_false_2; done || (cbn; lia). Qed.

Lemma not_chosen y : log_ok y → logger (statics y) ≠ Some true → chosen (statics y) = None.
Proof.
  intros Hok Hl. apply eq_None_not_Some. intros Hc. by apply Hl, (l_logger _ Hok).
Qed.

Section LogStep.
Context (y : LogSystem) (i : nat).
Hypothesis (Hok : log_ok y).

Lemma lock_held t :
  log_tasks y !! i = Some t → holding t = Some tt → configuration_lock (statics y) = true.
Proof.
  intros Hi Hh. pose proof (count_pos holding tt (log_tasks y) i t Hi Hh) as Hp.
  rewrite (l_lock _ Hok) in Hp. destruct (configuration_lock (statics y)); [done|cbn in Hp; lia].
Qed.

(** A logger that was there before the check is not ours. *)
Lemma installation_fails c b :
  log_tasks y !! i = Some (InitSetLogger c) → logger (statics y) = Some b → b = false.
Proof.
  intros Hi Hlog. pose proof Hok as [L1 L2 L3 L4 L5 L6 L7]. destruct b; [|done]. exfalso.
  assert (is_Some (chosen (statics y))) as [c' Hc'] by (by apply L2).
  destruct (L3 c' Hc') as [_ Hcf].
  rewrite (L5 c) in Hcf by (by eapply list_elem_of_lookup_2).
  destruct (count_exists _ _ _ Hcf) as (j & u & Hj & Hu).
  assert (holding u = Some tt) as Hhu by (by destruct u).
  assert (i ≠ j) as Hij by (intros ->; rewrite Hi in Hj; by simplify_eq).
  pose proof (count_two holding tt (log_tasks y) i j _ u Hi Hj eq_refl Hhu Hij) as H2.
  rewrite L1 in H2. destruct (configuration_lock (statics y)); cbn in H2; lia.
Qed.

(** The steps of [init_logger] around the installation. *)
Lemma log_init_ok t x' t' :
  installing t = None → installing t' = None → (holding t = Some tt ∨ holding t' = Some tt) →
  log_tasks y !! i = Some t → exec_log t (statics y) = Some (x', t') →
  log_ok (mkLogSystem x' (<[i := t']> (log_tasks y))).
Proof.
  intros Hinst Hinst' Hhold Hi Hx. pose proof (l_tasks _ Hok t (list_elem_of_lookup_2 _ _ _ Hi)) as Ht.
  destruct t as [c|c|c|c|c|c|c r|c r|e|e sc|p]; cbn in Hx; try done.
  - destruct (configuration_lock (statics y)) eqn:Hl; [done|]. simplify_eq.
    apply (log_move_quiet y i (InitLock c)); try done; [|by left]. by rewrite Hl.
  - simplify_eq. destruct (configuration (statics y)) as [c'|] eqn:Hc.
    + apply (log_move_quiet y i (InitCheck c)); try done; try (by left); try (by rewrite Hc).
      case_bool_decide as Heq; cbn; [by rewrite Hc, Heq|]. left. exists c'. by rewrite Hc.
    + apply (log_move_quiet y i (InitCheck c)); try done; try (by left); by rewrite Hc.
  - destruct (logger (statics y)) as [b|] eqn:Hlog; simplify_eq.
    rewrite (installation_fails c b Hi Hlog) in Hlog.
    apply (log_move_quiet y i (InitSetLogger c)); try done; try (by left). cbn. by right.
  - simplify_eq. apply (log_move_quiet y i (InitUnlock c r)); try done; [|by left].
    cbn [configuration_lock set_configuration_lock]. rewrite (lock_held _ Hi eq_refl).
    rewrite bool_decide_eq_true_2, bool_decide_eq_false_2 by done. done.
  - simplify_eq. by destruct Hhold.
  - simplify_eq. by destruct Hhold.
  - apply bind_Some in Hx as ([s' p'] & Hp & [= <- <-]). by destruct Hhold.
Qed.

(** The installation itself. *)
Lemma log_install_ok t x' t' :
  installing t = Some tt ∨ installing t' = Some tt →
  log_tasks y !! i = Some t → exec_log t (statics y) = Some (x', t') →
  log_ok (mkLogSystem x' (<[i := t']> (log_tasks y))).
Proof.
  intros Hinst Hi Hx. pose proof Hok as [L1 L2 L3 L4 L5 L6 L7].
  pose proof (L6 t (list_elem_of_lookup_2 _ _ _ Hi)) as Ht.
  destruct t as [c|c|c|c|c|c|c r|c r|e|e sc|p]; cbn in Hx; try done.
  - destruct (configuration_lock (statics y)); simplify_eq. by destruct Hinst.
  - simplify_eq. by destruct (configuration (statics y)), Hinst.
  - destruct (logger (statics y)) as [b|] eqn:Hlog; simplify_eq; [by destruct Hinst|].
    assert (chosen (statics y) = None) as Hn by (apply not_chosen; [done|congruence]).
    destruct (L4 Hn) as (N1 & N2 & N3).
    apply (log_move y i (InitSetLogger c)); try done.
    * split; cbn; intros *; congruence.
    * cbn. intros c' [= <-]. rewrite N1. split; [left; split; [done|by left]|by left].
    * by left.
    * by left.
  - simplify_eq. cbn in Ht. apply (log_move y i (InitStoreScope c)); try done.
    + split; cbn; intros *; try done; rewrite Ht; intros [= <-]; [done|].
      intros [_ ?]. by split.
    + cbn. intros c' Hc'. rewrite Ht in Hc'. simplify_eq. destruct (L3 c' Ht) as [Hlo Hcf].
      assert (scope_set (set_log_scope (scope_as_u8 (scope c')) (statics y)) c') as Hss by done. split.
      * destruct Hlo as [[Hm _]|[_ Hm]]; [left; split; [done|by right]|right; by split].
      * destruct (configuration (statics y)) as [c0|]; [|by left]. destruct Hcf as [-> [_ Hm]]. by split_and!.
    + cbn. rewrite Ht. done.
    + by left.
    + by left.
  - simplify_eq. cbn in Ht. destruct Ht as [Ht Hs]. apply (log_move y i (InitSetMaxLevel c)); try done.
    + split; cbn; intros *; try done. intros Hc' _. rewrite Ht in Hc'. simplify_eq. by split.
    + cbn. intros c' Hc'. rewrite Ht in Hc'. simplify_eq. destruct (L3 c' Ht) as [_ Hcf].
      assert (level_set (set_max_level (level_filter (minimum_level c')) (statics y)) c') as Hls by (by split).
      split; [by right|]. destruct (configuration (statics y)) as [c0|]; [|by left]. by destruct Hcf as [-> _].
    + cbn. rewrite Ht. done.
    + by left.
    + by left.
  - simplify_eq. cbn in Ht. destruct Ht as [Ht Hs]. apply (log_move y i (InitStoreConfiguration c)); try done.
    + split; cbn; intros *; try done. intros Hc'.
      destruct (L3 c Ht) as [_ Hcf]. rewrite Hc' in Hcf. by destruct Hcf as [-> _].
    + cbn. intros c' Hc'. rewrite Ht in Hc'. simplify_eq. destruct (L3 c' Ht) as [Hlo _]. done.
    + cbn. rewrite Ht. done.
    + by right.
    + by left.
  - simplify_eq. by destruct Hinst.
  - simplify_eq. by destruct Hinst.
  - simplify_eq. by destruct Hinst.
  - apply bind_Some in Hx as ([s' p'] & Hp & [= <- <-]). by destruct Hinst.
Qed.

(** The steps of [log]. *)
Lemma log_record_ok t x' t' :
  match t with LogLoadScope _ | LogEnabled _ _ | LogSend _ => true | _ => false end = true →
  log_tasks y !! i = Some t → exec_log t (statics y) = Some (x', t') →
  log_ok (mkLogSystem x' (<[i := t']> (log_tasks y))).
Proof.
  intros Hlog Hi Hx. pose proof Hok as [L1 L2 L3 L4 L5 L6 L7].
  pose proof (L6 t (list_elem_of_lookup_2 _ _ _ Hi)) as Ht.
  destruct t as [c|c|c|c|c|c|c r|c r|e|e sc|p]; cbn in Hx; try done.
  - simplify_eq. apply (log_move_quiet y i (LogLoadScope e)); try done; [|by left].
    cbn in *. destruct Ht as [c Hc]. exists c. split; [done|]. destruct (L3 c Hc) as [Hlo _].
    destruct Hlo as [[_ [->|Hs]]|[Hs _]]; [by left| |]; right; rewrite Hs; apply scope_roundtrip.
  - simplify_eq. apply (log_move_quiet y i (LogEnabled e sc)); try done; [|by left].
    cbn in Ht. destruct Ht as (c & Hc & Hsc). destruct (accepts e sc (max_level (statics y))) eqn:Ha; [|done].
    cbn. exists c. split; [done|]. destruct (L3 c Hc) as [Hlo _].
    destruct Hlo as [[Hm _]|[_ Hm]]; rewrite Hm in Ha; [by rewrite accepts_off in Ha|].
    unfold within. destruct Hsc as [->| ->]; [by apply accepts_standard|done].
  - apply bind_Some in Hx as ([s' p'] & Hp & [= <- <-]). apply (log_move_quiet y i (LogSend p)); try done.
    + destruct p as [e|e k|k|]; cbn in Hp, Ht; try done.
      * simplify_eq. by destruct (slot (log_sinks (statics y))).
      * by case_bool_decide; simplify_eq.
      * by simplify_eq.
    + intros k entry. destruct p as [e|e j|j|]; cbn in Hp, Ht; try done.
      * simplify_eq. by left.
      * case_bool_decide; simplify_eq; cbn; [by left|].
        intros [Hin|Hin%list_elem_of_singleton]%elem_of_app; [by left|]. simplify_eq. by right.
      * simplify_eq. by left.
Qed.

Lemma log_exec_ok y' : log_step y (LogStep i) = Some y' → log_ok y'.
Proof.
  cbn. intros Hstep. apply bind_Some in Hstep as (t & Hi & Hx).
  apply bind_Some in Hx as ([x' t'] & Hx & [= <-]).
  destruct (decide (installing t = Some tt ∨ installing t' = Some tt)) as [Hin|Hout].
  { by apply (log_install_ok t). }
  destruct (match t with LogLoadScope _ | LogEnabled _ _ | LogSend _ => true | _ => false end) eqn:Hlog.
  { by apply (log_record_ok t). }
  apply (log_init_ok t); [| | |done|done].
  - destruct (installing t) as [[]|]; [by destruct Hout; left|done].
  - destruct (installing t') as [[]|]; [by destruct Hout; right|done].
  - destruct t; cbn in Hx; try done; try (by left). case_match; simplify_eq. by right.
Qed.
End LogStep.

Lemma log_step_ok y l y' : log_ok y → log_step y l = Some y' → log_ok y'.
Proof.
  intros Hok. destruct l as [c|e|i| |k|]; [| |by apply log_exec_ok| | |]; cbn; intros Hstep;
    pose proof Hok as [L1 L2 L3 L4 L5 L6 L7].
  - simplify_eq. split; cbn [statics log_tasks]; try done.
    + by rewrite count_call.
    + intros c' Hc'. destruct (L3 c' Hc') as [? Hcf]. split; [done|].
      destruct (configuration (statics y)); [done|]. by rewrite count_call.
    + intros c' [Hin|Hin%list_elem_of_singleton]%elem_of_app; [by eapply L5|done].
    + intros t [Hin|Hin%list_elem_of_singleton]%elem_of_app; [by apply L6|by subst].
  - destruct (logger (statics y)) as [[]|] eqn:Hlog; simplify_eq.
    split; cbn [statics log_tasks]; try done.
    + by rewrite count_call.
    + by rewrite Hlog.
    + intros c' Hc'. destruct (L3 c' Hc') as [? Hcf]. split; [done|].
      destruct (configuration (statics y)); [done|]. by rewrite count_call.
    + intros c' [Hin|Hin%list_elem_of_singleton]%elem_of_app; [by eapply L5|done].
    + intros t [Hin|Hin%list_elem_of_singleton]%elem_of_app; [by apply L6|]. subst. cbn. by apply L2.
  - simplify_eq. by split.
  - simplify_eq. by split.
  - destruct (logger (statics y)) as [b|] eqn:Hlog; simplify_eq.
    assert (chosen (statics y) = None) as Hn by (apply not_chosen; [done|congruence]).
    split; cbn [statics log_tasks]; try done.
    + cbn. rewrite Hn. split; [done|by intros [? ?]].
    + intros t Hin. specialize (L6 t Hin). destruct t as [| | | | | |c [|]|c [|]| | |]; try done.
      * cbn in *. destruct L6 as [|[]]; [by left|congruence].
      * cbn in *. destruct L6 as [|[]]; [by left|congruence].
Qed.

Lemma log_invariant y : log_reached y → log_ok y.
Proof.
  intros [tr Hr]. revert Hr. apply reachable_invariant; [|intros z l z'; apply log_step_ok].
  intros ? ->. split; cbn; try done; try (by intros * ?%elem_of_nil).
Qed.

(** ** What the application relies on *)

(** Claim C40 (safety): whatever is logged while the logger is being installed or
    after, an entry leaves the native code only when the level and scope that
    were chosen for the process accept it. *)
Theorem log_within_scope y k entry :
  log_reached y → (k, entry) ∈ delivered (log_sinks (statics y)) →
  ∃ c, chosen (statics y) = Some c ∧
    accepts entry (scope c) (level_filter (minimum_level c)) = true.
Proof. intros Hok%log_invariant. apply (l_delivered _ Hok). Qed.

(** Calls of [init_logger] that race with each other end
    consistently: those that succeed asked for the one configuration that is
    installed, and the others report a conflict with it, or that another logger
    was there first. *)
Theorem init_logger_consistent y c r :
  log_reached y → InitDone c r ∈ log_tasks y →
  match r with
  | Ok _ => configuration (statics y) = Some c
  | Err e => (∃ c', configuration (statics y) = Some c' ∧ c' ≠ c ∧ e = configuration_conflict) ∨
             (logger (statics y) = Some false ∧ e = installation_failed)
  end.
Proof. intros Hok%log_invariant Hin. apply (l_tasks _ Hok) in Hin. by destruct r as [[]|]. Qed.

(** An installed configuration is in force and never
    changes. *)
Theorem logger_configuration_final y l y' c :
  log_reached y → configuration (statics y) = Some c → log_step y l = Some y' →
  configuration (statics y') = Some c ∧ log_scope (statics y') = scope_as_u8 (scope c) ∧
  max_level (statics y') = level_filter (minimum_level c).
Proof.
  intros Hok%log_invariant Hc Hs. pose proof (log_step_ok _ _ _ Hok Hs) as Hok'.
  assert (configuration (statics y') = Some c) as Hc'.
  { destruct l as [c0|e|i| |k|]; cbn in Hs; simplify_eq; try done;
      try (by repeat case_match; simplify_eq).
    apply bind_Some in Hs as (t & Hi & Hx). apply bind_Some in Hx as ([x' t'] & Hx & [= <-]). cbn.
    pose proof (l_tasks _ Hok t (list_elem_of_lookup_2 _ _ _ Hi)) as Ht.
    destruct t; cbn in Hx; repeat case_match; simplify_eq; try done.
    - destruct Ht as [Ht _]. destruct (l_chosen _ Hok _ Ht) as [_ Hcf]. rewrite Hc in Hcf. by destruct Hcf as [-> _].
    - by apply bind_Some in Hx as ([s' p'] & _ & [= <- <-]). }
  split; [done|]. destruct (chosen (statics y')) as [c'|] eqn:Hch.
  - destruct (l_chosen _ Hok' _ Hch) as [_ Hcf]. rewrite Hc' in Hcf. by destruct Hcf as [-> [? ?]].
  - destruct (l_none _ Hok' Hch) as [? _]. congruence.
Qed.

(** ** Witnesses *)

(** The first stream fails under a sender; the second was registered meanwhile. *)
Definition sink_race : list (send_label (A := nat)) :=
  [NewSink; Send 7; Step 0; CloseSink 0; Step 0; NewSink].

Lemma sink_never_lost_witness :
  slot (sinks (played send_step no_senders (sink_race ++ [Step 0]))) = Some 1 ∨
  (Step (A := nat) 0 = NewSink ∧
   slot (sinks (played send_step no_senders (sink_race ++ [Step 0]))) = Some 2).
Proof.
  apply (sink_never_lost (played send_step no_senders sink_race) (Step 0)
           (played send_step no_senders (sink_race ++ [Step 0])) 1);
    [apply played_reachable; vm_compute; reflexivity|reflexivity|reflexivity|].
  vm_compute. intros Hin. repeat (inversion Hin as [|? ? ? Hin']; subst; clear Hin; rename Hin' into Hin).
Defined.

Definition quiet_logs : LoggerConfiguration := mkConfiguration LInfo Standard.
Definition loud_logs : LoggerConfiguration := mkConfiguration LTrace UnsafeUpstreamDiagnostic.
Definition opened_entry : NativeLogEntry := mkLogEntry LInfo CONSUMER_LOG_TARGET "wallet opened".

(** Two initializations race, and a record is logged. *)
Definition log_race : list log_label :=
  [LogNewSink; Init quiet_logs; Init loud_logs; LogStep 0; LogStep 0; LogStep 0;
   Log opened_entry; LogStep 2; LogStep 0; LogStep 0; LogStep 0; LogStep 0;
   LogStep 1; LogStep 1; LogStep 1; LogStep 2; LogStep 2; LogStep 2].

Lemma log_within_scope_witness :
  ∃ c, chosen (statics (played log_step log_started log_race)) = Some c ∧
    accepts opened_entry (scope c) (level_filter (minimum_level c)) = true.
Proof.
  apply (log_within_scope (played log_step log_started log_race) 0);
    [apply played_reachable; vm_compute; reflexivity|].
  apply (list_elem_of_lookup_2 _ 0). reflexivity.
Defined.

Lemma init_logger_consistent_witness :
  (∃ c', configuration (statics (played log_step log_started log_race)) = Some c' ∧ c' ≠ loud_logs ∧
         configuration_conflict = configuration_conflict) ∨
  (logger (statics (played log_step log_started log_race)) = Some false ∧
   configuration_conflict = installation_failed).
Proof.
  apply (init_logger_consistent (played log_step log_started log_race) loud_logs
           (Err configuration_conflict)); [apply played_reachable; vm_compute; reflexivity|].
  apply (list_elem_of_lookup_2 _ 1). reflexivity.
Defined.

Lemma logger_configuration_final_witness :
  configuration (statics (played log_step log_started (log_race ++ [Init loud_logs]))) = Some quiet_logs ∧
  log_scope (statics (played log_step log_started (log_race ++ [Init loud_logs]))) = 0%Z ∧
  max_level (statics (played log_step log_started (log_race ++ [Init loud_logs]))) = 3%Z.
Proof.
  apply (logger_configuration_final (played log_step log_started log_race) (Init loud_logs) _ quiet_logs);
    [apply played_reachable; vm_compute; reflexivity|reflexivity|reflexivity].
Defined.

End Logging.
