(* ===== verification/SeedSearch.v ===== *)
(** * Seed words (rust/src/api/seed_search_engine.rs)

    Completion and validation of seed words over a trie of the words of a
    language.  The trie is the crate trie_rs, by its documented behaviour. *)

From S2P Require Import Prelude.

Module SeedSearch.

(** The tables of xelis_wallet's mnemonics and the trie. *)
Class SeedLib := {
  Language : Type;
  get_words : Language → list string;
  LANGUAGES : list Language;
  ENGLISH : Language;
  Trie : Type;
  TrieBuilder : Type;
  builder_new : TrieBuilder;
  builder_push : string → TrieBuilder → TrieBuilder;
  builder_build : TrieBuilder → Trie;
  predictive_search : Trie → string → list string;
  exact_match : Trie → string → bool
}.

Section Engine.
Context `{!SeedLib}.

Fixpoint push_all (words : list string) (builder : TrieBuilder) : TrieBuilder :=
  match words with [] => builder | word :: words => push_all words (builder_push word builder) end.

Record SearchEngine : Type := mkEngine { trie : Trie }.

Definition language_at (language_index : Z) : Language :=
  default ENGLISH (LANGUAGES !! Z.to_nat language_index).

Definition init (language_index : Z) : SearchEngine :=
  mkEngine (builder_build (push_all (get_words (language_at language_index)) builder_new)).

Definition search (e : SearchEngine) (query : string) : list string :=
  predictive_search (trie e) query.

Fixpoint collect_invalid (e : SearchEngine) (seed results : list string) : list string :=
  match seed with
  | [] => results
  | word :: seed =>
      collect_invalid e seed (if exact_match (trie e) word then results else results ++ [word])
  end.
Definition check_seed (e : SearchEngine) (seed : list string) : list string := collect_invalid e seed [].

(** What the trie promises for the words it was built from. *)
Class SeedLaws : Prop := {
  exact_match_spec words word :
    exact_match (builder_build (push_all words builder_new)) word = bool_decide (word ∈ words);
  predictive_search_spec words query word :
    word ∈ predictive_search (builder_build (push_all words builder_new)) query ↔
    word ∈ words ∧ String.prefix query word = true
}.

Lemma collect_invalid_filter e seed results :
  collect_invalid e seed results = results ++ filter (λ word, exact_match (trie e) word = false) seed.
Proof.
  revert results. induction seed as [|word seed IH]; intros results; cbn [collect_invalid]; [by rewrite app_nil_r|].
  rewrite IH, filter_cons. destruct (exact_match (trie e) word) eqn:Hm.
  - by rewrite decide_False.
  - rewrite decide_True by done. by rewrite <-app_assoc.
Qed.

(** [check_seed] returns exactly the words of the seed
    that the language does not have, in their order, so a seed passes when all
    its words are known; and [search] offers exactly the words that extend the
    query, all of which pass. *)
Theorem seed_check_exact `{!SeedLaws} language_index seed query word :
  let e := init language_index in
  let words := get_words (language_at language_index) in
  check_seed e seed = filter (.∉ words) seed ∧
  (check_seed e seed = [] ↔ ∀ w, w ∈ seed → w ∈ words) ∧
  (word ∈ search e query ↔ word ∈ words ∧ String.prefix query word = true) ∧
  (word ∈ search e query → check_seed e [word] = []).
Proof.
  cbn zeta. set (words := get_words (language_at language_index)).
  assert (∀ s, check_seed (init language_index) s = filter (.∉ words) s) as Hcheck.
  { intros s. unfold check_seed. rewrite collect_invalid_filter. cbn. apply list_filter_iff. intros w.
    rewrite exact_match_spec. fold words. by rewrite bool_decide_eq_false. }
  assert (∀ s, filter (.∉ words) s = [] ↔ ∀ w, w ∈ s → w ∈ words) as Hnil.
  { intros s. induction s as [|w s IH]; [split; [by intros _ ? ?%elem_of_nil|done]|].
    rewrite filter_cons. case_decide as Hw; [split; [done|intros Hall; destruct Hw; apply Hall; by left]|].
    rewrite IH. set_solver. }
  split_and!; [apply Hcheck|by rewrite Hcheck|apply predictive_search_spec|].
  intros [Hw _]%predictive_search_spec. rewrite Hcheck. apply Hnil. intros w ->%list_elem_of_singleton. done.
Qed.
End Engine.

(** ** Witness *)

Definition demo_seed : SeedLib := {|
  Language := list string;
  get_words l := l;
  LANGUAGES := [["abbey"; "abducts"; "zoom"]];
  ENGLISH := ["abbey"; "abducts"; "zoom"];
  Trie := list string;
  TrieBuilder := list string;
  builder_new := [];
  builder_push w b := b ++ [w];
  builder_build b := b;
  predictive_search t query := filter (λ w, String.prefix query w = true) t;
  exact_match t w := bool_decide (w ∈ t)
|}.
#[local] Existing Instance demo_seed.

Lemma demo_push words b : push_all words b = b ++ words.
Proof.
  revert b. induction words as [|w words IH]; intros b; cbn; [by rewrite app_nil_r|].
  rewrite IH. cbn. by rewrite <-app_assoc.
Qed.
Lemma demo_seed_laws : SeedLaws.
Proof.
  split; intros *; rewrite demo_push; [done|]. cbn. rewrite list_elem_of_filter. naive_solver.
Qed.

Lemma seed_check_exact_witness :
  check_seed (init 7) ["abbey"; "abby"] = filter (.∉ ["abbey"; "abducts"; "zoom"]) ["abbey"; "abby"].
Proof.
  apply (@seed_check_exact demo_seed demo_seed_laws 7 ["abbey"; "abby"] "" "").
Defined.
End SeedSearch.
