(* ===== verification/XswdStart.v ===== *)
(** * Starting XSWD
    (rust/src/api/xswd/impl.rs, [start_xswd] and [add_xswd_relayer], and the
    fallback of rust/src/api/xswd/stub.rs)

    How the local server and a relayed application are brought up: what is
    checked first, when the handler of the events is spawned, and when the
    application is added.  The handler itself is in [Dispatcher]. *)

From S2P Require Import Prelude Tasks Errors External Payload Xswd.

Module XswdStart.
Import Payload Xswd.

Section Start.
(** The application data that the wallet crate builds from its JSON, and the
    receiver of a channel of XSWD events. *)
Context {ApplicationData Receiver : Type}.

Record ApplicationDataRelayer : Type := mkRelayed {
  r_id : string; r_name : string; r_description : string; r_url : option string;
  r_permissions : list string; r_relayer : string; r_encryption_mode : option EncryptionMode
}.
Record CoreApplicationDataRelayer : Type := mkCore {
  app_data : ApplicationData; relayer : string; encryption_mode : option EncryptionMode
}.

(** What a call does, in order. *)
Inductive start_effect : Type :=
  | EnableServer
  | InitRelayer
  | SpawnHandler (receiver : Receiver) (limits : NativeXswdProjectionLimits)
  | AddApplication (data : CoreApplicationDataRelayer).

(** The build: on the web, or without the api_server feature, there is no local
    server. *)
Inductive Build : Type := Web | RelayOnly | WithServer.

Record StartEnv : Type := mkStartEnv {
  build : Build;
  enable_xswd : result anyhow_error (option Receiver);
  init_xswd_relayer : result anyhow_error (option Receiver);
  add_xswd_relayer_application : CoreApplicationDataRelayer → result anyhow_error unit;
  (** [serde_json::from_value] of the JSON object of the fields. *)
  application_from_json : string → string → string → option string → list string →
    result anyhow_error ApplicationData;
  (** [to_string] of an error. *)
  error_to_string : anyhow_error → string
}.

Abbreviation starting := (action (list start_effect) anyhow_error).
Definition emit (e : start_effect) : starting unit := modify (λ log, log ++ [e]).

Definition start_xswd (env : StartEnv) (projection_limits : NativeXswdProjectionLimits) :
    starting unit :=
  projection_limits ← lift (validated_limits projection_limits);
  match build env with
  | Web => throw (bail "Local XSWD server not supported on web. Use relay mode instead.")
  | RelayOnly =>
      throw (bail "Local XSWD server not enabled in this build. Use relay mode instead.")
  | WithServer =>
      emit EnableServer;;
      match enable_xswd env with
      | Ok (Some receiver) => emit (SpawnHandler receiver projection_limits)
      | Ok None => mret tt
      | Err e => throw (bail ("Error while enabling XSWD Server: " +:+ error_to_string env e))
      end
  end.

Definition add_application (env : StartEnv) (data : CoreApplicationDataRelayer) : starting unit :=
  emit (AddApplication data);;
  lift (add_xswd_relayer_application env data).

Definition add_xswd_relayer (env : StartEnv) (data : ApplicationDataRelayer)
    (projection_limits : NativeXswdProjectionLimits) : starting unit :=
  projection_limits ← lift (validated_limits projection_limits);
  mode ← lift (convert_encryption_mode (r_encryption_mode data));
  core_app_info ← lift (application_from_json env (r_id data) (r_name data) (r_description data)
                          (r_url data) (r_permissions data));
  let core_app_data := mkCore core_app_info (r_relayer data) mode in
  emit InitRelayer;;
  channel ← lift (init_xswd_relayer env);
  match channel with
  | Some receiver =>
      emit (SpawnHandler receiver projection_limits);;
      add_application env core_app_data
  | None => add_application env core_app_data
  end.

(** ** The build without XSWD *)

Definition xswd_unavailable {A} : result anyhow_error A :=
  Err (bail "XSWD support is not enabled in this build").
Definition xswd_native_unavailable : NativeXelisError :=
  xelis_wallet_flutter CodeUnsupported "XSWD_SUPPORT_UNAVAILABLE"
    "XSWD support is not enabled in this build".
Definition stub_start_xswd : result anyhow_error unit := xswd_unavailable.
Definition stub_stop_xswd : result anyhow_error unit := Ok tt.
Definition stub_is_xswd_running : bool := false.
Definition stub_get_application_permissions : result anyhow_error (list AppInfo) := Ok [].
Definition stub_modify_application_permissions : result NativeXelisError unit :=
  Err xswd_native_unavailable.
Definition stub_close_application_session : result NativeXelisError unit :=
  Err xswd_native_unavailable.
Definition stub_add_xswd_relayer : result anyhow_error unit := xswd_unavailable.

(** ** What the wallet relies on *)

Lemma key_length key k : encryption_key key = Ok k → k = key ∧ length key = 32.
Proof.
  unfold encryption_key, zlen. case_bool_decide as Hl; [|done]. intros [= <-]. split; [done|lia].
Qed.

Definition keyed (mode : option EncryptionMode) : Prop :=
  match mode with
  | Some (Aes key) | Some (Chacha20Poly1305 key) => length key = 32
  | None => True
  end.

Lemma converted_mode mode m : convert_encryption_mode mode = Ok m → m = mode ∧ keyed mode.
Proof.
  destruct mode as [[key|key]|]; cbn; [| |by intros [= <-]];
    destruct (encryption_key key) as [k|] eqn:Hk; cbn; try done; intros [= <-];
    by apply key_length in Hk as [-> ?].
Qed.

(** A relayed application is added only after everything that
    was passed in has been checked and the handler of its events runs: a new
    channel has its handler before the application can send anything, and it
    uses the checked limits; and the key of the application is whole. *)
Theorem relayed_application_handled env data limits r log pre core post :
  add_xswd_relayer env data limits [] = (r, log) → log = pre ++ AddApplication core :: post →
  post = [] ∧ encryption_mode core = r_encryption_mode data ∧ keyed (r_encryption_mode data) ∧
  ∃ checked, validated_limits limits = Ok checked ∧
    match init_xswd_relayer env with
    | Ok (Some receiver) => pre = [InitRelayer; SpawnHandler receiver checked]
    | Ok None => pre = [InitRelayer]
    | Err _ => False
    end.
Proof.
  unfold add_xswd_relayer, add_application, emit, mbind, action_bind, lift, modify.
  destruct (validated_limits limits) as [checked|e]; [|intros [= <- <-] Hlog; by destruct pre].
  destruct (convert_encryption_mode (r_encryption_mode data)) as [mode|e] eqn:Hm;
    [|intros [= <- <-] Hlog; by destruct pre].
  apply converted_mode in Hm as [-> Hkey].
  destruct (application_from_json env _ _ _ _ _) as [info|e]; [|intros [= <- <-] Hlog; by destruct pre].
  destruct (init_xswd_relayer env) as [[receiver|]|e]; intros [= <- <-] Hlog; cbn in Hlog.
  - destruct pre as [|? [|? [|? pre]]]; cbn in Hlog; simplify_eq; [by split_and!; eauto|by destruct pre].
  - destruct pre as [|? [|? pre]]; cbn in Hlog; simplify_eq; [by split_and!; eauto|by destruct pre].
  - destruct pre as [|? pre]; cbn in Hlog; simplify_eq; by destruct pre.
Qed.

(** Limits that are not valid, a key of the wrong length and a
    build without a local server are refused before anything is started. *)
Theorem refused_start_does_nothing env data limits log :
  (is_ok (validated_limits limits) = false ∨ build env ≠ WithServer →
     ∃ e, start_xswd env limits log = (Err e, log)) ∧
  (is_ok (validated_limits limits) = false ∨ ¬ keyed (r_encryption_mode data) →
     ∃ e, add_xswd_relayer env data limits log = (Err e, log)).
Proof.
  split; intros Hbad.
  - unfold start_xswd, mbind, action_bind, lift, throw.
    destruct (validated_limits limits) as [checked|e]; [|eauto].
    destruct Hbad as [Hbad|Hbad]; [done|]. destruct (build env); [eauto|eauto|done].
  - unfold add_xswd_relayer, mbind, action_bind, lift.
    destruct (validated_limits limits) as [checked|e]; [|eauto].
    destruct Hbad as [Hbad|Hbad]; [done|].
    destruct (convert_encryption_mode (r_encryption_mode data)) as [mode|e] eqn:Hm; [|eauto].
    by apply converted_mode in Hm as [_ ?].
Qed.
End Start.

(** A build with a server whose wallet crate opens one channel, numbered 7. *)
Definition sample_env : StartEnv (ApplicationData := string) (Receiver := nat) :=
  mkStartEnv WithServer (Ok None) (Ok (Some 7%nat)) (λ _, Ok tt) (λ id _ _ _ _, Ok id) (λ _, "").
Definition sample_application : ApplicationDataRelayer :=
  mkRelayed "id" "name" "" None [] "wss://relay" (Some (Aes (replicate 32 Byte.x00))).

Lemma relayed_application_handled_witness :
  let '(_, log) := add_xswd_relayer sample_env sample_application limits_default [] in
  length log = 3 ∧ keyed (r_encryption_mode sample_application) ∧
  ∃ checked, validated_limits limits_default = Ok checked ∧
    take 2 log = [InitRelayer; SpawnHandler 7 checked].
Proof.
  destruct (relayed_application_handled sample_env sample_application limits_default (Ok tt)
      [InitRelayer; SpawnHandler 7 limits_default;
       AddApplication (mkCore "id" "wss://relay" (r_encryption_mode sample_application))]
      [InitRelayer; SpawnHandler 7 limits_default]
      (mkCore "id" "wss://relay" (r_encryption_mode sample_application)) [] eq_refl eq_refl)
    as (_ & _ & Hkeyed & checked & Hlimits & Hpre).
  split; [reflexivity|]. split; [exact Hkeyed|]. exists checked. split; [exact Hlimits|exact Hpre].
Defined.
End XswdStart.
