(* ===== verification/Startup.v ===== *)
(** * Initialization of the library (rust/src/api/api.rs)

    The calls an application makes before it uses a wallet: the crypto provider
    of the TLS connections, the logger and the two streams.  They may come in any
    order, more than once, and from several isolates; the logger and the streams
    are those of [Logging]. *)

From S2P Require Import Prelude Tasks Errors Logging.

Module Startup.
Import Tasks Logging.

(** rustls: the provider of the process, which can be installed once. *)
Class CryptoProviders := {
  Provider : Type;
  ProviderSlot : Type;
  ring : Provider;
  no_provider : ProviderSlot;
  installed : ProviderSlot → option Provider;
  install_default : Provider → ProviderSlot → bool * ProviderSlot
}.
Class CryptoProviderLaws `{!CryptoProviders} : Prop := {
  installed_none : installed no_provider = None;
  install_free p s : installed s = None →
    ∃ s', install_default p s = (true, s') ∧ installed s' = Some p;
  install_taken p q s : installed s = Some q →
    ∃ s', install_default p s = (false, s') ∧ installed s' = Some q
}.

Section Startup.
Context `{!CryptoProviders}.
(** What a progress report carries. *)
Context {ProgressReport : Type}.
(** Whether the target is not [wasm32]. *)
Context (native : bool).

Definition provider_already_installed : NativeXelisError :=
  dependency CodeConflict "CRYPTO_PROVIDER_ALREADY_INSTALLED"
    "failed to install ring because a process-wide crypto provider is already installed".

Definition initialize_crypto_provider : action ProviderSlot NativeXelisError unit := λ s,
  if native then
    let '(done, s) := install_default ring s in
    (if done then Ok tt else Err provider_already_installed, s)
  else (Ok tt, s).

(** The process: [returned] is what the calls of [initialize_crypto_provider]
    returned. *)
Record Process : Type := mkProcess {
  providers : ProviderSlot;
  logs : LogSystem;
  progress : Senders (A := ProgressReport);
  returned : list (result NativeXelisError unit)
}.

Definition set_up_rust_logger (minimum_level : Level) (scope : NativeLogScope) (y : Process) :
    option Process :=
  l ← log_step (logs y) (Init (mkConfiguration minimum_level scope));
  Some (mkProcess (providers y) l (progress y) (returned y)).
Definition create_log_stream (y : Process) : option Process :=
  l ← log_step (logs y) LogNewSink;
  Some (mkProcess (providers y) l (progress y) (returned y)).
Definition create_progress_report_stream (y : Process) : option Process :=
  p ← send_step (progress y) NewSink;
  Some (mkProcess (providers y) (logs y) p (returned y)).

Inductive process_label : Type :=
  | InitializeCryptoProvider
  | SetUpRustLogger (minimum_level : Level) (scope : NativeLogScope)
  | CreateLogStream
  | CreateProgressReportStream
  (** the application installs another provider *)
  | ForeignProvider (p : Provider)
  (** records, reports and the steps of what runs already *)
  | Logs (l : log_label)
  | Progress (l : send_label (A := ProgressReport)).

Definition process_step (y : Process) (l : process_label) : option Process :=
  match l with
  | InitializeCryptoProvider =>
      let '(r, s) := initialize_crypto_provider (providers y) in
      Some (mkProcess s (logs y) (progress y) (returned y ++ [r]))
  | SetUpRustLogger minimum_level scope => set_up_rust_logger minimum_level scope y
  | CreateLogStream => create_log_stream y
  | CreateProgressReportStream => create_progress_report_stream y
  | ForeignProvider p =>
      Some (mkProcess (install_default p (providers y)).2 (logs y) (progress y) (returned y))
  | Logs l =>
      x ← log_step (logs y) l; Some (mkProcess (providers y) x (progress y) (returned y))
  | Progress l =>
      x ← send_step (progress y) l; Some (mkProcess (providers y) (logs y) x (returned y))
  end.

Definition process_started : Process := mkProcess no_provider log_started no_senders [].
Definition process_reached : Process → Prop := reaches process_step process_started.

(** ** The invariant *)

Lemma reaches_more {S L} (step : S → L → option S) init y l y' :
  reaches step init y → step y l = Some y' → reaches step init y'.
Proof. intros [tr Hr] Hl. eexists. by eapply (reachable_step _ _ _ l). Qed.

(** The first call may install the provider, which then stays; every other call is
    told that there is one. *)
Definition provider_ok (s : ProviderSlot) (rs : list (result NativeXelisError unit)) : Prop :=
  rs = [] ∨
  ∃ n q, installed s = Some q ∧
    (rs = replicate n (Err provider_already_installed) ∨
     q = ring ∧ rs = Ok tt :: replicate n (Err provider_already_installed)).

Record process_ok (y : Process) : Prop := mkProcessOk {
  ok_logs : log_reached (logs y);
  ok_progress : senders_reached (progress y);
  ok_providers : if native then provider_ok (providers y) (returned y)
                 else Forall (λ r, r = Ok tt) (returned y)
}.

Context `{!CryptoProviderLaws}.

Lemma install_default_cases p s :
  ∃ s', (installed s = None ∧ install_default p s = (true, s') ∧ installed s' = Some p) ∨
        (∃ q, installed s = Some q ∧ install_default p s = (false, s') ∧ installed s' = Some q).
Proof.
  destruct (installed s) as [q|] eqn:Hs.
  - destruct (install_taken p q s Hs) as (s' & ? & ?). exists s'. right. by exists q.
  - destruct (install_free p s Hs) as (s' & ? & ?). exists s'. by left.
Qed.

Lemma foreign_provider_ok p s rs : provider_ok s rs → provider_ok (install_default p s).2 rs.
Proof.
  intros [->|(n & q & Hq & Hrs)]; [by left|].
  destruct (install_taken p q s Hq) as (s' & -> & Hs'). right. by exists n, q.
Qed.

Lemma replicate_snoc {A} n (x : A) : replicate n x ++ [x] = replicate (S n) x.
Proof. induction n as [|n IH]; [done|]. cbn in *. by f_equal. Qed.

Lemma initialize_provider_ok s rs r s' :
  native = true → provider_ok s rs → initialize_crypto_provider s = (r, s') → provider_ok s' (rs ++ [r]).
Proof.
  unfold initialize_crypto_provider. intros -> Hok.
  destruct (install_default_cases ring s) as (t & [(Hn & -> & Ht)|(q & Hq & -> & Ht)]); intros [= <- <-].
  - destruct Hok as [->|(n & q & Hq & _)]; [|congruence]. right. exists 0, ring. auto.
  - right. destruct Hok as [->|(n & q' & Hq' & [->|[-> ->]])].
    + exists 1, q. auto.
    + exists (S n), q. split; [done|]. left. apply replicate_snoc.
    + exists (S n), q. split; [done|]. right. split; [congruence|]. cbn. f_equal. apply replicate_snoc.
Qed.

Lemma process_step_ok y l y' : process_ok y → process_step y l = Some y' → process_ok y'.
Proof.
  intros [Hl Hp Hr] Hs. destruct l; cbn [process_step] in Hs;
    unfold set_up_rust_logger, create_log_stream, create_progress_report_stream in Hs.
  - destruct (initialize_crypto_provider (providers y)) as [r s] eqn:Hi. simplify_eq.
    split; cbn; [done..|]. revert Hr. case_match eqn:Hn; intros Hr.
    + by eapply initialize_provider_ok.
    + apply Forall_app. split; [done|]. unfold initialize_crypto_provider in Hi. rewrite Hn in Hi.
      simplify_eq. by constructor.
  - apply bind_Some in Hs as (x & Hx & [= <-]). split; cbn; [by eapply reaches_more|done..].
  - apply bind_Some in Hs as (x & Hx & [= <-]). split; cbn; [by eapply reaches_more|done..].
  - apply bind_Some in Hs as (x & Hx & [= <-]). split; cbn; [done|by eapply reaches_more|done].
  - simplify_eq. split; cbn; [done..|]. revert Hr. case_match; [apply foreign_provider_ok|done].
  - apply bind_Some in Hs as (x & Hx & [= <-]). split; cbn; [by eapply reaches_more|done..].
  - apply bind_Some in Hs as (x & Hx & [= <-]). split; cbn; [done|by eapply reaches_more|done].
Qed.

Lemma process_invariant y : process_reached y → process_ok y.
Proof.
  intros [tr Hr]. revert Hr. apply reachable_invariant; [|by intros; eapply process_step_ok].
  intros ? ->. split; cbn.
  - exists []. by apply reachable_init.
  - exists []. by apply reachable_init.
  - case_match; [by left|constructor].
Qed.

(** However the calls that initialize the library are ordered
    and repeated, only the first request for the crypto provider can install one,
    and if it did then that provider is still the one of the process; all other
    requests report the conflict.  Meanwhile the logger and the streams are in
    states that they reach on their own. *)
Theorem initialization_sound y :
  process_reached y →
  log_reached (logs y) ∧ senders_reached (progress y) ∧
  if native
  then returned y = [] ∨
       ∃ n q, installed (providers y) = Some q ∧
         (returned y = replicate n (Err provider_already_installed) ∨
          q = ring ∧ returned y = Ok tt :: replicate n (Err provider_already_installed))
  else Forall (λ r, r = Ok tt) (returned y).
Proof. intros []%process_invariant. auto. Qed.
End Startup.

(** ** A provider slot *)

#[local] Instance slot_providers : CryptoProviders := {|
  Provider := nat; ProviderSlot := option nat; ring := 1; no_provider := None;
  installed := id;
  install_default p s := match s with None => (true, Some p) | Some q => (false, Some q) end
|}.
#[local] Instance slot_provider_laws : CryptoProviderLaws.
Proof. split; [done|intros p s; cbn; intros ->; eauto|intros p q s; cbn; intros ->; eauto]. Qed.

Definition starting : list (process_label (ProgressReport := nat)) :=
  [SetUpRustLogger LInfo Standard; CreateLogStream; InitializeCryptoProvider; CreateProgressReportStream;
   ForeignProvider 7; InitializeCryptoProvider].

Lemma initialization_sound_witness :
  let y := played (process_step true) process_started starting in
  returned y = [Ok tt; Err provider_already_installed] ∧ log_reached (logs y).
Proof.
  split; [reflexivity|]. apply (initialization_sound true).
  apply played_reachable. reflexivity.
Defined.

End Startup.
